(* ===== verification/_CoqProject ===== *)
-Q . S2P
Prelude.v
GoStd.v
GoTime.v
GoFloat.v
Values.v
LaunchAgg.v
Netutil.v
Fixtures.v
NetutilProps.v
VotingPower.v
LaunchProps.v
Json.v
Events.v
Payload.v
Proposal.v
ProposalProps.v
JoinRequest.v
Rehearsal.v
Sha256.v
TimeProps.v
Store.v
StoreProps.v
Codec.v
StoreRoundtrip.v
World.v
JsonPrint.v
JsonProps.v
AuditLog.v
AuditLogProps.v
AuditTrail.v
AuditSamples.v
FileStore.v
GenesisCheck.v
WorldProps.v
ReplayProps.v
InputSet.v
ProposalService.v
LaunchService.v
JoinRequestService.v
ReadinessService.v
RehearsalService.v
AuthService.v
Backfill.v
Signing.v
Adapters.v
SigningProps.v
Jobs.v
Wire.v
Requests.v
Http.v
Handlers.v
Server.v
Config.v
Startup.v
ServiceSamples.v
ProposalServiceProps.v
JoinRequestProps.v
ReadinessProps.v
RehearsalProps.v
AuthProps.v
PendingProps.v
ProposalRaces.v
JobsProps.v
LaunchServiceProps.v
LaunchRaces.v
BackfillProps.v
StartupProps.v
HttpProps.v
ServiceEffects.v
ApiProps.v
ApiAccess.v
ApiSamples.v
Broker.v
BrokerProps.v
