(* ===== verification/Prelude.v ===== *)
(** * chaincoord: a verification development

    chaincoord coordinates the launch of a proof-of-stake chain.  A committee of
    M-of-N members drafts a chain record, opens an application window, approves
    validators' join requests, closes the window, uploads and publishes the
    final genesis, and watches the chain start.  Every governed change is a
    proposal that committee members sign or veto; every change is written to an
    audit log and broadcast.

    ** The program and its model

    The program is layered: domain aggregates (src/internal/domain), services
    that load aggregates, call their methods and save them (src/internal/
    application/services), and infrastructure (src/internal/infrastructure).
    The files, in dependency order:

    - [Prelude], [GoStd], [GoTime], [GoFloat], [Json], [Sha256]: errors as the
      list of sentinels [errors.Is] can find, machine integers with their
      wrap-around, and the parts of Go's library the program calls: strings,
      hex, base64, [Atoi], RFC 3339 text, float64 and big.Float rounding,
      [json.Unmarshal] into structs, SHA-256.
    - [Values] (domain/launch/values.go): account identities, hashes, peers,
      rates, the members list.  Bech32, URL parsing and UUID text are type
      classes ([Bech32], [NetURL], [UUIDText]), arguments of everything that
      uses them.
    - [LaunchAgg], Module [launch] (domain/launch/launch.go, allocation.go): the
      record [Launch] and one function per method.  [VotingPower] and
      [LaunchProps] prove it correct.
    - [Events], [Payload], [Proposal] (domain/events.go, proposal/*.go):
      Modules [domain], [payload], [proposal]; [ProposalProps].
    - [JoinRequest], [Rehearsal] (domain/joinrequest, launch/rehearsal.go,
      readiness.go): Modules [joinrequest], [rehearsal].
    - [Store], Module [sqlite] (infrastructure/storage/sqlite): the tables as
      lists of rows and one function per repository method, a state-passing
      computation [St] that may fail half-way; [TimeProps], [StoreProps].
      [Codec] states the laws of the address codec, with a sample codec that has
      them, and [StoreRoundtrip] follows a whole launch through the tables.
    - [Netutil], Modules [netip], [ip], [url], [netutil] (netutil/ssrf.go): the
      checks of user-supplied URLs, with Go's parsing of addresses and blocks;
      the resolver is a class; [NetutilProps].
    - [World]: the monad [M] of the services over a [world] (database, files,
      audit log, broadcasts) and an [Oracle] for the clock, fresh identifiers
      and the failures of the environment; transactor.go, audit.go, helpers.go.
      [WorldProps] has the reasoning rules, [ReplayProps] nonce and timestamp.
    - [JsonPrint], [JsonProps]: [json.Marshal] of a document and its round trip
      through the decoder.
    - [AuditLog], Modules [bufio], [ports], [auditlog] (infrastructure/auditlog,
      sqlite/audit_state.go, [openAuditLog] of cmd/coordd/cmd/serve.go): the log
      file as lines of text, its hash chain and signatures; [AuditLogProps].
      [AuditTrail], Module [trail], connects it with the services: the JSON of
      every event and the entries a run of appends leaves; [AuditSamples].
    - [FileStore], Module [fs] (infrastructure/storage/fs).
    - [InputSet], Module [inputset] (services/input_set_hash.go).
    - [GenesisCheck], Module [genesis] (the file checks of services/launch.go).
    - [ProposalService], Module [proposals] (services/proposal.go), with
      [ProposalServiceProps], [PendingProps], and [ProposalRaces].
    - [LaunchService], Module [launches] (services/launch.go), with
      [LaunchServiceProps] and [LaunchRaces].
    - [JoinRequestService], Module [joinrequests] (services/joinrequest.go), with
      [JoinRequestProps]; [ReadinessService], Module [readiness]
      (services/readiness.go), with [ReadinessProps]; [RehearsalService], Module
      [bridge] (services/rehearsal_bridge.go, rehearsal_results.go), with
      [RehearsalProps].
    - [AuthService], Modules [challenges], [ratelimit], [sessions], [auth],
      [coordinators] (services/auth.go, coordinator.go, ratelimit/challenge.go,
      auth/jwt.go and their stores): a record [authdb] of four tables beside the
      world, and computations [AM] over both; [AuthProps].
    - [Backfill], Modules [migrations], [backfill] (sqlite/db.go, backfill.go):
      what opening the database does at every start; what a migration script
      does to the tables is the class [SQL]; [BackfillProps].
    - [Signing] (infrastructure/crypto, cmd/smoke-signer/cmd/keys.go): the
      signature verifiers, the signed text and, in Module [signer], the signer;
      curve and hash are the classes [Secp256k1] and [Ripemd160].  [Adapters]:
      Module [gentxvalidation] (infrastructure/gentxvalidation) and Module
      [signcmd] (cmd/smoke-signer/cmd/sign.go).  [SigningProps].
    - [Jobs], Module [jobs] (infrastructure/jobs/jobs.go): one monitor tick and
      one expiry run; [JobsProps].
    - [Wire], [Requests]: the JSON records of requests and responses, their
      decoders and the conversions from the aggregates.  [Http], Module [http]
      (api/respond.go, middleware.go): requests, responses, and a monad [H] of
      handlers over a process [proc] (both states and the log level) that ends
      in a value, an early response, a panic or the exit of the process.
      [Handlers], Module [api] (the other files of api/): one definition per
      handler.  [Server], Module [server] (api/server.go): the route table with
      its middleware, and [Handler].  [HttpProps] and [ServiceEffects] have the
      reasoning rules, [ApiProps] and [ApiAccess] the theorems, [ApiSamples]
      requests to a small server.
    - [Config], Module [config] (config/config.go): the configuration, its key
      files and its checks, around the class [Viper].  [Startup], Modules
      [startup], [auditcmd] (cmd/coordd/cmd): [runServe] until the server
      listens, as a function to an error, a panic or the running server with
      the files it leaves; the audit commands; [StartupProps].
    - [Broker], Module [sse] (infrastructure/sse/broker.go, api/events.go): the
      broker, and a step relation for publishers and stream handlers around its
      lock; [BrokerProps].
    - [Fixtures], [ServiceSamples]: instances of the classes and a sample
      installation, on which the witnesses evaluate.

    ** What is proved

    - Aggregates: every launch reachable by any sequence of methods and service
      writes is well formed ([reachable_wf]), moves along the lifecycle graph
      and keeps its published content ([lifecycle_order]), and passed the
      validator-count and dominance gate if it is past the window
      ([past_window_was_gated]); the floating-point dominance test decides "a
      third or more" exactly up to 2^52 and is safe for any total of non-negative
      powers ([close_window_gate]).  Proposals keep one decision per account, execute
      exactly at the threshold and are final ([proposal_invariant],
      [sign_decides], [no_panic]); join requests and rehearsal leases follow
      their protocols.
    - Storage: optimistic locking loses no update ([no_lost_update]), every
      write history keeps the keys unique ([history_invariant]) and signatures
      append-only, and a saved launch of the shape the services build is the
      loaded one, listed exactly to those who may see it ([launch_round_trip]).  Instants round-trip
      ([stored_time_faithful]), migrations run once each ([migrations_once]) and
      the address conversion keeps launches ([backfill_keeps_launches]).
    - Services: an executed proposal is atomic and written ahead to the audit
      log ([execution_atomic_and_audited]), stores one step of the aggregate
      ([execution_refines_aggregate]), is signed by authenticated committee
      members ([only_members_act]) and publishes only a genesis that is current
      ([published_genesis_is_current]); no two pending proposals decide on the
      join request of one written id, repeat each other or publish a genesis
      beside a change of the approved set ([pending_never_contradict]); replays
      of timestamps within 292 years are refused ([replay_rejected]); direct edits are authorized and follow the aggregate
      ([edits_are_authorized_steps]); an accepted final genesis carries the
      approved validators ([final_genesis_matches_approved]); join requests
      and readiness confirmations are admitted only when authentic and
      admissible, and store exactly one row ([submission_admitted],
      [confirmation_admitted]); the readiness verdict computed in double
      precision is the exact one ([dashboard_threshold_exact]); rehearsal
      results are signed under the launch's key and refer to input sets this
      server served ([recorded_result_genuine], [results_are_minted]).
    - Authentication: a session proves an answered challenge
      ([session_proves_challenge]), revocation is final ([revocation_final]), the
      challenge limiter holds its bound in the last 299 seconds
      ([rate_limit_holds]).  Jobs: a run of the
      expiry job leaves no stale proposal pending ([expiry_clears_stale]), and
      the monitor marks only what it saw ([monitor_marks_detected]).
    - Signatures: an accepted signature belongs to a key of the account and to
      one text only ([verified_signature_binds]); the server accepts what the
      signer prints ([signer_accepted], [signed_request_accepted]).  The check
      of node URLs is characterised exactly ([rpc_url_guard_exact]).
    - Start: a server that started runs with the checked keys, on an audit log
      that was verified ([started_server_sound]).
    - Audit log: what the services append is what [ReadForLaunch] and [Scan]
      read, for lines within the readers' buffer ([audit_trail_faithful]); a log
      the startup check accepts ends with the true lines, and what stands in
      front of them is linked and signed correctly where it is linked and signed
      ([tampering_is_detected]), up to collisions and forgeries of the
      primitives.
    - HTTP: without credentials nothing changes but challenges, nonces and rate
      rows, and a [GET] changes nothing stored ([only_credentials_write]); only administrators administer
      ([only_admins_administer]); a private launch does not show
      ([private_launch_hidden]); every request is answered with a well-formed
      response under the status of its error code, or the process ended because
      a committed decision could not be audited ([requests_answered]).  These run every route through its middleware, its
      handler and the services behind it.  Event stream: no panic and faithful
      streams ([stream_faithful]), and publications never wait
      ([publications_finish]).
    - Executions the code permits although its documentation or its design says
      otherwise are theorems too: signatures that meet the threshold without an
      execution and erased executions under concurrency
      ([concurrent_decisions_lost], [stale_veto_overwrites]), one join request
      under two spellings ([two_spellings_contradict]), decisions on another
      launch's requests, replaced committees
      that do not take effect, stale references, unchecked staking validators,
      wrapped amounts, timestamps far in the future, the order of stored texts,
      reads that cross launches ([sessions_read_across_launches]), a launch
      whose prefix keeps the server from starting
      ([operator_prefix_blocks_start]), addresses with a zone
      ([zoned_address_accepted]), a key with a blank before it
      ([blank_before_key_panics]) and a required gate without its bridge
      ([required_gate_without_bridge]).

    ** Bounds and fuel

    Integers are unbounded [Z] with [int64_wrap] where Go computes in int64.
    The JSON scanner has fuel twice the length of its input plus two, more than
    its recursion can use, and Go's nesting limit.  SHA-256 splits a message
    into at most as many blocks as it has words.  Nothing else needs fuel.

    ** Not modelled

    Third-party code (bech32, canonical JSON, elliptic curves, the Cosmos SDK,
    JWT, the chi router, httprate) appears as class arguments only; the CORS,
    access-log and metrics handlers around the routes, and the text framing of
    streamed events, are left out.  So are the HTTP listener with its signals
    and shutdown, the tickers of the background jobs, the commands migrate and
    version, log lines and metrics, the pragmas and failures of the database
    connection, and the SQL of the migrations, whose result the tables of
    [Store] are.  Constructors that only store their arguments and accessors
    have no definition.  Concurrency is modelled as
    interleaving of requests between their load and their save; a single SQL
    statement and a transaction are atomic, since the connection
    pool holds one connection. *)

From stdpp Require Export base tactics list option strings numbers.
From stdpp Require Export gmap.
From Stdlib Require Export ZArith Lia.

#[global] Open Scope Z_scope.
#[global] Set Default Proof Using "Type".

(** ** Identifiers *)

(** [uuid.UUID]: sixteen bytes, compared as a value; [uuid.Nil] is all zeros. *)
Definition uuid : Type := N.
Definition uuid_Nil : uuid := 0%N.

(** ** Errors

    A Go [error] is observed by the program in two ways only: whether it is
    nil, and which sentinels [errors.Is] finds in its wrap chain.  An error is
    therefore the list of the sentinels it wraps, outermost first; an
    anonymous [fmt.Errorf] without a wrapped sentinel is the empty list. *)
Inductive sentinel : Type :=
  (* internal/application/ports/errors.go *)
  | ErrNotFound | ErrConflict | ErrUnauthorized | ErrForbidden
  | ErrBadRequest | ErrTooManyRequests
  | SValidatorAlreadyApproved | SConsensusKeyAlreadyUsed
  | SSubmissionCapReached | SChallengeMismatch | SLaunchNotGenesisReady
  | SJoinRequestNotApproved | SReadinessAlreadyConfirmed
  (* the error types of ports/services.go and services/rehearsal_bridge.go that
     errors.As looks for, with what they carry *)
  | SGentxInvalid (results : list (string * bool * string))
  | SRehearsalLeased (runnerID : string) (claimedAt leaseExpiresAt : Z)
  (* internal/domain/launch/launch.go *)
  | ErrInvalidStatusTransition | ErrGenesisHashRequired
  | ErrInsufficientValidators | ErrDominantVotingPower
  | ErrCommitteeMemberNotFound | ErrCommitteeMemberExists
  | ErrInvalidCommitteeChange | ErrWindowNotOpen | ErrMembersNotEditable
  | ErrNotAMember | ErrLeadNotFirstMember | ErrGenesisStale
  | ErrGenesisHashMismatch | ErrGenesisPublishInProgress
  | ErrRehearsalGateUnsatisfied | ErrRehearsalGateNoService
  | ErrChainIDRequired | ErrBech32PrefixRequired | ErrBinaryNameRequired
  | ErrDenomRequired | ErrMinValidatorCountTooLow | ErrGentxDeadlineRequired
  | ErrCommissionChangeExceedsMax | ErrInvalidRepoURL
  | ErrInvalidBinarySHA256 | ErrInvalidMinSelfDelegation
  | ErrInvalidTotalSupply | ErrCommitteeThresholdRange
  | ErrCommitteeSizeMismatch
  (* internal/domain/launch/values.go, allocation.go, rehearsal.go *)
  | ErrAccountIDEmpty | ErrAccountIDInvalid | ErrNotAccountAddress
  | ErrUnknownAllocationType | ErrAllocationEmptyHash | ErrAllocationLocked
  | ErrAllocationNotFound | ErrAllocationStaleHash | ErrAttemptLeased
  (* internal/domain/proposal/proposal.go, joinrequest/joinrequest.go *)
  | ErrProposalPayloadRequired | ErrProposalNotPending
  | ErrProposalTTLExpired | ErrMemberAlreadySigned
  | ErrInvalidJoinRequestStatus.

#[global] Instance sentinel_eq_dec : EqDecision sentinel.
Proof. solve_decision. Defined.

Definition error : Type := list sentinel.

(** [errors.Is(err, target)] *)
Definition errors_Is (e : error) (s : sentinel) : bool := bool_decide (s ∈ e).

(** [fmt.Errorf("...: %w", err)] keeps the chain; the text is not modelled.
    [wrap2 s err] is an [Errorf] with two [%w] verbs. *)
Definition wrap2 (s : sentinel) (e : error) : error := s :: e.

Definition errorf : error := [].

(** A call that returns [(A, error)]. *)
Inductive result (A : Type) : Type :=
  | Ok (a : A)
  | Err (e : error).
Arguments Ok {_} _.
Arguments Err {_} _.

#[global] Instance result_ret : MRet result := λ A, Ok.
#[global] Instance result_bind : MBind result :=
  λ A B f r, match r with Ok a => f a | Err e => Err e end.
#[global] Instance result_fmap : FMap result :=
  λ A B f r, match r with Ok a => Ok (f a) | Err e => Err e end.

#[global] Instance result_eq_dec `{EqDecision A} : EqDecision (result A).
Proof. solve_decision. Defined.

Definition is_ok {A} (r : result A) : bool :=
  match r with Ok _ => true | Err _ => false end.

(** Replace an error: [if err := f(); err != nil { return g(err) }]. *)
Definition map_err {A} (g : error → error) (r : result A) : result A :=
  match r with Ok a => Ok a | Err e => Err (g e) end.

Lemma result_bind_Ok {A B} (r : result A) (f : A → result B) b :
  r ≫= f = Ok b ↔ ∃ a, r = Ok a ∧ f a = Ok b.
Proof. destruct r; cbn; naive_solver. Qed.

Lemma map_err_Ok {A} g (r : result A) a : map_err g r = Ok a ↔ r = Ok a.
Proof. destruct r; cbn; naive_solver. Qed.

(** ** Machine integers

    Go's [int] and [int64] are 64 bits wide on every platform the daemon is
    built for; arithmetic wraps modulo 2^64. *)
Definition int64_min : Z := - 2 ^ 63.
Definition int64_max : Z := 2 ^ 63 - 1.
Definition int64_wrap (z : Z) : Z := (z + 2 ^ 63) mod 2 ^ 64 - 2 ^ 63.
Definition in_int64 (z : Z) : Prop := int64_min ≤ z ≤ int64_max.

#[global] Instance in_int64_dec z : Decision (in_int64 z).
Proof. unfold in_int64; apply _. Defined.

Lemma int64_wrap_range z : in_int64 (int64_wrap z).
Proof.
  unfold in_int64, int64_wrap, int64_min, int64_max.
  pose proof (Z.mod_pos_bound (z + 2 ^ 63) (2 ^ 64)). lia.
Qed.

Lemma int64_wrap_id z : in_int64 z → int64_wrap z = z.
Proof.
  unfold in_int64, int64_wrap, int64_min, int64_max. intros Hz.
  rewrite Z.mod_small; lia.
Qed.

Lemma int64_wrap_add_l a b : int64_wrap (int64_wrap a + b) = int64_wrap (a + b).
Proof.
  unfold int64_wrap.
  replace ((a + 2 ^ 63) mod 2 ^ 64 - 2 ^ 63 + b + 2 ^ 63)
    with ((a + 2 ^ 63) mod 2 ^ 64 + b) by lia.
  rewrite Zplus_mod_idemp_l. do 2 f_equal. lia.
Qed.

Lemma int64_wrap_mul_l a b : int64_wrap (int64_wrap a * b) = int64_wrap (a * b).
Proof.
  unfold int64_wrap.
  set (q := (a + 2 ^ 63) / 2 ^ 64).
  assert ((a + 2 ^ 63) mod 2 ^ 64 = a + 2 ^ 63 - 2 ^ 64 * q) as ->
    by (unfold q; pose proof (Z.div_mod (a + 2 ^ 63) (2 ^ 64)); lia).
  replace ((a + 2 ^ 63 - 2 ^ 64 * q - 2 ^ 63) * b + 2 ^ 63)
    with (a * b + 2 ^ 63 + (- (q * b)) * 2 ^ 64) by lia.
  by rewrite Z_mod_plus_full.
Qed.

(** Length of a slice as a Go [int]. *)
Abbreviation len l := (Z.of_nat (length l)).

(** ** Lists used by index *)

(** First index whose element satisfies a test (a [for i, m := range] loop
    that stops at the first hit). *)
Fixpoint find_index {A} (f : A → bool) (l : list A) : option nat :=
  match l with
  | [] => None
  | x :: l => if f x then Some 0%nat else S <$> find_index f l
  end.

Lemma find_index_Some {A} (f : A → bool) l i :
  find_index f l = Some i →
  ∃ x, l !! i = Some x ∧ f x = true ∧
       ∀ j y, (j < i)%nat → l !! j = Some y → f y = false.
Proof.
  revert i; induction l as [|x l IH]; intros i Hi; simplify_eq/=.
  destruct (f x) eqn:Hx; simplify_eq/=.
  - exists x; split_and!; auto; lia.
  - apply fmap_Some in Hi as (k & Hk & ->).
    destruct (IH k Hk) as (y & Hy & Hfy & Hbefore).
    exists y; split_and!; auto.
    intros [|j] z Hj Hz; simplify_eq/=; [done|].
    eapply Hbefore; [|done]; lia.
Qed.

Lemma find_index_None {A} (f : A → bool) l :
  find_index f l = None ↔ ∀ x, x ∈ l → f x = false.
Proof.
  induction l as [|x l IH]; cbn.
  - split; [intros _ ? []%elem_of_nil|done].
  - destruct (f x) eqn:Hx.
    + split; [done|]. intros H. rewrite H in Hx; [done|left].
    + rewrite fmap_None, IH. set_solver.
Qed.

Lemma find_index_lt {A} (f : A → bool) l i :
  find_index f l = Some i → (i < length l)%nat.
Proof.
  intros (x & Hx & _)%find_index_Some. by eapply lookup_lt_Some.
Qed.

Lemma existsb_find_index {A} (f : A → bool) l :
  existsb f l = true ↔ is_Some (find_index f l).
Proof.
  induction l as [|x l IH]; cbn; [split; [done|intros []%is_Some_None]|].
  destruct (f x); cbn; [naive_solver|].
  rewrite IH, fmap_is_Some. done.
Qed.

(** ** Automation

    [crush_ok] takes a hypothesis that a guarded handler returned a given
    result and splits it along the code's conditions. *)
Ltac crush_ok :=
  repeat first
    [ progress simplify_eq/=
    | match goal with
      | H : context [match ?x with _ => _ end] |- _ =>
          match type of H with
          | _ = Ok _ => destruct x eqn:?; try discriminate H
          | _ = Err _ => destruct x eqn:?; try discriminate H
          | _ = Some _ => destruct x eqn:?; try discriminate H
          | _ = (_, _) => destruct x eqn:?; try discriminate H
          end
      end ].

(** Split the goal along the conditions of the handler it mentions. *)
Ltac crush_goal :=
  repeat first
    [ progress simplify_eq/=
    | match goal with
      | |- context [match ?x with _ => _ end] => destruct x eqn:?
      end ].

(** Turn the code's boolean guards into propositions. *)
Ltac guards :=
  repeat match goal with
  | H : negb _ = false |- _ => apply negb_false_iff in H
  | H : negb _ = true |- _ => apply negb_true_iff in H
  | H : bool_decide _ = true |- _ => apply bool_decide_eq_true in H
  | H : bool_decide _ = false |- _ => apply bool_decide_eq_false in H
  | H : (_ <? _) = true |- _ => apply Z.ltb_lt in H
  | H : (_ <? _) = false |- _ => apply Z.ltb_ge in H
  | H : (_ <=? _) = true |- _ => apply Z.leb_le in H
  | H : (_ <=? _) = false |- _ => apply Z.leb_gt in H
  end.

Create HintDb coord.
#[export] Hint Resolve int64_wrap_range : coord.
