(* ===== verification/GoStd.v ===== *)
(** * The parts of Go's standard library the program uses

    Executable models of [time], [strings], [encoding/hex],
    [encoding/base64], [strconv.Atoi], [big.Int.SetString] and
    [net.SplitHostPort], restricted to the calls made under [src/internal].
    A Go string or byte slice is a [string]: a sequence of 8-bit characters. *)

From S2P Require Import Prelude.
From Stdlib Require Export Ascii.
From Stdlib Require String.
#[global] Open Scope list_scope.

Abbreviation bytes := String.string.
Abbreviation EmptyString := String.EmptyString.
Abbreviation chars := String.list_ascii_of_string.
Abbreviation of_chars := String.string_of_list_ascii.

Lemma chars_inj s t : chars s = chars t → s = t.
Proof.
  intros H. rewrite <- (String.string_of_list_ascii_of_string s), H.
  apply String.string_of_list_ascii_of_string.
Qed.

(** [s == ""] *)
Definition is_empty (s : string) : bool :=
  match s with EmptyString => true | _ => false end.

Lemma is_empty_spec s : is_empty s = true ↔ s = ""%string.
Proof. by destruct s. Qed.

Lemma is_empty_false s : is_empty s = false ↔ s ≠ ""%string.
Proof. by destruct s. Qed.

(** ** Package time

    An instant is its nanosecond count from the Unix epoch, in UTC.  [Sub]
    saturates at the bounds of a 64-bit [Duration], as documented. *)
Module time.

Definition Time : Type := Z.
Definition Duration : Type := Z.
Definition Nanosecond : Duration := 1.
Definition Second : Duration := 10 ^ 9.
Definition Minute : Duration := 60 * Second.
Definition Hour : Duration := 60 * Minute.

(** January 1 of year 1, the zero [time.Time]. *)
Definition zeroTime : Time := - 62135596800 * Second.
Definition IsZero (t : Time) : bool := t =? zeroTime.
Definition Before (t u : Time) : bool := t <? u.
Definition After (t u : Time) : bool := u <? t.
Definition Add (t : Time) (d : Duration) : Time := t + d.
Definition Sub (t u : Time) : Duration :=
  Z.max int64_min (Z.min int64_max (t - u)).
Definition Since (now t : Time) : Duration := Sub now t.

Lemma Sub_exact t u : in_int64 (t - u) → Sub t u = t - u.
Proof. unfold Sub, in_int64. lia. Qed.

Lemma Sub_range t u : in_int64 (Sub t u).
Proof. unfold Sub, in_int64, int64_min, int64_max. lia. Qed.

End time.

(** ** Package strings *)
Module strings.

(** UTF-8 encodings of the code points [unicode.IsSpace] accepts. *)
Definition spaces : list (list ascii) :=
  map (map ascii_of_nat)
    [ [9]; [10]; [11]; [12]; [13]; [32];
      [194; 133]; [194; 160]; [225; 154; 128];
      [226; 128; 128]; [226; 128; 129]; [226; 128; 130]; [226; 128; 131];
      [226; 128; 132]; [226; 128; 133]; [226; 128; 134]; [226; 128; 135];
      [226; 128; 136]; [226; 128; 137]; [226; 128; 138];
      [226; 128; 168]; [226; 128; 169]; [226; 128; 175]; [226; 129; 159];
      [227; 128; 128] ]%nat.

Fixpoint strip_prefix (p l : list ascii) : option (list ascii) :=
  match p, l with
  | [], _ => Some l
  | a :: p, b :: l => if ascii_dec a b then strip_prefix p l else None
  | _ :: _, [] => None
  end.

Fixpoint strip_any (ps : list (list ascii)) (l : list ascii)
    : option (list ascii) :=
  match ps with
  | [] => None
  | p :: ps =>
      match strip_prefix p l with Some r => Some r | None => strip_any ps l end
  end.

(** Each round removes at least one byte, so the length is enough fuel. *)
Fixpoint trim_left (fuel : nat) (ps : list (list ascii)) (l : list ascii)
    : list ascii :=
  match fuel with
  | O => l
  | S fuel =>
      match strip_any ps l with
      | Some r => trim_left fuel ps r
      | None => l
      end
  end.

Definition TrimSpace (s : string) : string :=
  let l := trim_left (String.length s) spaces (chars s) in
  let r := trim_left (length l) (map (@rev ascii) spaces) (rev l) in
  of_chars (rev r).

Definition lower_ascii (c : ascii) : ascii :=
  let n := nat_of_ascii c in
  if (65 <=? n)%nat && (n <=? 90)%nat then ascii_of_nat (n + 32) else c.

(** ASCII letters only: a code point above 127 is left alone.  No such code
    point lower-cases to a hexadecimal digit, the only use made of this. *)
Definition ToLower (s : string) : string := of_chars (map lower_ascii (chars s)).

Definition HasPrefix (s p : string) : bool :=
  match strip_prefix (chars p) (chars s) with Some _ => true | None => false end.

Definition HasSuffix (s p : string) : bool :=
  match strip_prefix (rev (chars p)) (rev (chars s)) with
  | Some _ => true
  | None => false
  end.

(** [strings.Split(s, ",")] *)
Fixpoint split_commas (acc l : list ascii) : list string :=
  match l with
  | [] => [of_chars (rev acc)]
  | a :: l => if Ascii.eqb a (ascii_of_nat 44) then of_chars (rev acc) :: split_commas [] l
              else split_commas (a :: acc) l
  end.
Definition SplitCommas (s : string) : list string := split_commas [] (chars s).

(** Lexicographic byte order, the [<] of Go strings. *)
Fixpoint ltb_chars (a b : list ascii) : bool :=
  match a, b with
  | _, [] => false
  | [], _ :: _ => true
  | x :: a, y :: b =>
      let m := nat_of_ascii x in let n := nat_of_ascii y in
      (m <? n)%nat || ((m =? n)%nat && ltb_chars a b)
  end.
Definition ltb (s t : string) : bool := ltb_chars (chars s) (chars t).

Lemma strip_prefix_Some p l r : strip_prefix p l = Some r ↔ l = p ++ r.
Proof.
  revert l; induction p as [|a p IH]; intros [|b l]; cbn;
    try (split; congruence).
  destruct (ascii_dec a b) as [->|Hne]; [rewrite IH|]; split; congruence.
Qed.

Lemma HasSuffix_spec s p :
  HasSuffix s p = true ↔ ∃ q, chars s = q ++ chars p.
Proof.
  unfold HasSuffix.
  destruct (strip_prefix _ _) as [r|] eqn:E.
  - apply strip_prefix_Some in E. split; [intros _|done].
    exists (rev r). apply (f_equal (@rev ascii)) in E.
    by rewrite rev_involutive, rev_app_distr, rev_involutive in E.
  - split; [done|]. intros [q Hq]. apply (f_equal (@rev ascii)) in Hq.
    rewrite rev_app_distr in Hq.
    by rewrite (proj2 (strip_prefix_Some _ _ _) Hq) in E.
Qed.

Lemma ltb_chars_irrefl a : ltb_chars a a = false.
Proof.
  induction a as [|x a IH]; cbn [ltb_chars]; [done|].
  by rewrite Nat.ltb_irrefl, IH, andb_false_r.
Qed.

Lemma ltb_chars_trans a b c :
  ltb_chars a b = true → ltb_chars b c = true → ltb_chars a c = true.
Proof.
  revert b c; induction a as [|x a IH]; intros [|y b] [|z c]; cbn [ltb_chars]; try done.
  rewrite !orb_true_iff, !andb_true_iff, !Nat.ltb_lt, !Nat.eqb_eq.
  intros [Hxy|[Hxy Hab]] [Hyz|[Hyz Hbc]];
    [left; lia|left; lia|left; lia|right; split; [lia|eauto]].
Qed.

Lemma ltb_chars_total a b :
  ltb_chars a b = false → ltb_chars b a = false → a = b.
Proof.
  revert b; induction a as [|x a IH]; intros [|y b]; cbn [ltb_chars]; try done.
  rewrite !orb_false_iff, !andb_false_iff, !Nat.ltb_ge, !Nat.eqb_neq.
  intros [H1 [?|H2]] [H3 [?|H4]]; try lia. f_equal; [|by apply IH].
  rewrite <- (ascii_nat_embedding x), <- (ascii_nat_embedding y). f_equal; lia.
Qed.

End strings.

(** ** Package encoding/hex *)
Module hex.

Definition digit (n : nat) : ascii :=
  ascii_of_nat (if (n <? 10)%nat then 48 + n else 87 + n).

Definition digit_val (c : ascii) : option nat :=
  let n := nat_of_ascii c in
  if (48 <=? n)%nat && (n <=? 57)%nat then Some (n - 48)%nat
  else if (97 <=? n)%nat && (n <=? 102)%nat then Some (n - 87)%nat
  else if (65 <=? n)%nat && (n <=? 70)%nat then Some (n - 55)%nat
  else None.

Fixpoint encode_chars (l : list ascii) : list ascii :=
  match l with
  | [] => []
  | c :: l =>
      digit (nat_of_ascii c / 16) :: digit (nat_of_ascii c mod 16)
        :: encode_chars l
  end.

Definition EncodeToString (b : bytes) : string := of_chars (encode_chars (chars b)).

(** An odd-length input fails with [ErrLength], a bad digit with
    [InvalidByteError]; the callers only test for an error. *)
Fixpoint decode_chars (l : list ascii) : option (list ascii) :=
  match l with
  | [] => Some []
  | [_] => None
  | a :: b :: l =>
      x ← digit_val a; y ← digit_val b; r ← decode_chars l;
      Some (ascii_of_nat (x * 16 + y) :: r)
  end.

Definition DecodeString (s : string) : result bytes :=
  match decode_chars (chars s) with
  | Some l => Ok (of_chars l)
  | None => Err errorf
  end.

Lemma digit_val_digit n : (n < 16)%nat → digit_val (digit n) = Some n.
Proof. intros H. do 16 (destruct n as [|n]; [reflexivity|]). lia. Qed.

Lemma decode_encode_chars l : decode_chars (encode_chars l) = Some l.
Proof.
  induction l as [|c l IH]; [done|].
  cbn [encode_chars decode_chars].
  pose proof (nat_ascii_bounded c) as Hb.
  rewrite !digit_val_digit
    by (try apply Nat.mod_upper_bound; try apply Nat.Div0.div_lt_upper_bound; lia).
  cbn [mbind option_bind]. rewrite IH. cbn [mbind option_bind].
  rewrite Nat.mul_comm, <- Nat.div_mod_eq, ascii_nat_embedding. done.
Qed.

Lemma Decode_Encode b : DecodeString (EncodeToString b) = Ok b.
Proof.
  unfold DecodeString, EncodeToString.
  rewrite String.list_ascii_of_string_of_list_ascii, decode_encode_chars.
  by rewrite String.string_of_list_ascii_of_string.
Qed.

#[global] Instance EncodeToString_inj : Inj (=) (=) EncodeToString.
Proof.
  intros a b H. apply (f_equal DecodeString) in H.
  rewrite !Decode_Encode in H. by simplify_eq.
Qed.

Lemma encode_chars_length l : length (encode_chars l) = (2 * length l)%nat.
Proof. induction l; cbn [encode_chars length]; lia. Qed.

(** [c] is one of the characters [EncodeToString] produces. *)
Definition is_lower_digit (c : ascii) : bool :=
  let n := nat_of_ascii c in
  ((48 <=? n) && (n <=? 57) || (97 <=? n) && (n <=? 102))%nat.

Lemma is_lower_digit_val c : is_lower_digit c = true → is_Some (digit_val c).
Proof.
  unfold is_lower_digit, digit_val.
  intros [H|H]%orb_true_iff; rewrite H; repeat case_match; eauto.
Qed.

Lemma digit_lower n : (n < 16)%nat → is_lower_digit (digit n) = true.
Proof. intros H. do 16 (destruct n as [|n]; [reflexivity|]). lia. Qed.

Lemma encode_chars_lower l : forallb is_lower_digit (encode_chars l) = true.
Proof.
  induction l as [|c l IH]; [done|]. cbn [encode_chars forallb].
  pose proof (nat_ascii_bounded c) as Hb.
  rewrite !digit_lower, IH
    by (try apply Nat.mod_upper_bound; try apply Nat.Div0.div_lt_upper_bound; lia).
  done.
Qed.

End hex.

(** ** Package encoding/base64, the standard alphabet with padding *)
Module base64.

Definition value (c : ascii) : option Z :=
  let n := Z.of_nat (nat_of_ascii c) in
  if (65 <=? n) && (n <=? 90) then Some (n - 65)
  else if (97 <=? n) && (n <=? 122) then Some (n - 71)
  else if (48 <=? n) && (n <=? 57) then Some (n + 4)
  else if n =? 43 then Some 62
  else if n =? 47 then Some 63
  else None.

Definition char (v : Z) : ascii :=
  ascii_of_nat (Z.to_nat (
    if v <? 26 then v + 65 else if v <? 52 then v + 71
    else if v <? 62 then v - 4 else if v =? 62 then 43 else 47)).

Definition byte_of (z : Z) : ascii := ascii_of_nat (Z.to_nat (z mod 256)).
Definition pad : ascii := ascii_of_nat 61.

(** The decoder skips carriage returns and line feeds, and does not check the
    unused low bits of a padded quantum (it is not in strict mode). *)
Fixpoint decode_chars (l : list ascii) : option (list ascii) :=
  match l with
  | [] => Some []
  | [a; b; c; d] =>
      x ← value a; y ← value b;
      if ascii_dec c pad then
        if ascii_dec d pad then Some [byte_of (x * 4 + y / 16)] else None
      else
        z ← value c;
        if ascii_dec d pad then
          Some [byte_of (x * 4 + y / 16); byte_of (y * 16 + z / 4)]
        else
          w ← value d;
          Some [byte_of (x * 4 + y / 16); byte_of (y * 16 + z / 4);
                byte_of (z * 64 + w)]
  | a :: b :: c :: d :: l =>
      x ← value a; y ← value b; z ← value c; w ← value d;
      r ← decode_chars l;
      Some (byte_of (x * 4 + y / 16) :: byte_of (y * 16 + z / 4)
              :: byte_of (z * 64 + w) :: r)
  | _ => None
  end.

Definition skip_newlines (l : list ascii) : list ascii :=
  List.filter (λ c, negb ((nat_of_ascii c =? 10) || (nat_of_ascii c =? 13))%nat) l.

Definition DecodeString (s : string) : result bytes :=
  match decode_chars (skip_newlines (chars s)) with
  | Some l => Ok (of_chars l)
  | None => Err errorf
  end.

Definition zc (c : ascii) : Z := Z.of_nat (nat_of_ascii c).

Fixpoint encode_chars (l : list ascii) : list ascii :=
  match l with
  | [] => []
  | [a] => [char (zc a / 4); char (zc a mod 4 * 16); pad; pad]
  | [a; b] =>
      [char (zc a / 4); char (zc a mod 4 * 16 + zc b / 16);
       char (zc b mod 16 * 4); pad]
  | a :: b :: c :: l =>
      char (zc a / 4) :: char (zc a mod 4 * 16 + zc b / 16)
        :: char (zc b mod 16 * 4 + zc c / 64) :: char (zc c mod 64)
        :: encode_chars l
  end.

Definition EncodeToString (b : bytes) : string := of_chars (encode_chars (chars b)).

(** Sixty-four values, checked one by one. *)
Lemma char_facts v : 0 ≤ v < 64 →
  value (char v) = Some v ∧ char v ≠ pad ∧ nat_of_ascii (char v) ≠ 10%nat
  ∧ nat_of_ascii (char v) ≠ 13%nat ∧ (nat_of_ascii (char v) < 128)%nat.
Proof.
  intros Hv. replace v with (Z.of_nat (Z.to_nat v)) by lia.
  assert (Z.to_nat v < 64)%nat as Hn by lia. revert Hn. generalize (Z.to_nat v) as n. clear.
  intros n Hn. do 64 (destruct n as [|n]; [vm_compute; repeat split; (congruence || lia)|]). lia.
Qed.

Lemma value_char v : 0 ≤ v < 64 → value (char v) = Some v.
Proof. intros H. apply (char_facts v H). Qed.

Lemma char_not_pad v : 0 ≤ v < 64 → char v ≠ pad.
Proof. intros H. apply (char_facts v H). Qed.

Lemma zc_range a : 0 ≤ zc a < 256.
Proof. unfold zc. pose proof (nat_ascii_bounded a). lia. Qed.

Lemma byte_of_eq z a : z mod 256 = zc a → byte_of z = a.
Proof. unfold byte_of, zc. intros ->. by rewrite Nat2Z.id, ascii_nat_embedding. Qed.

(** The sextets of up to three bytes. *)
Lemma sextet_ranges a b c :
  0 ≤ zc a / 4 < 64 ∧ 0 ≤ zc a mod 4 * 16 + zc b / 16 < 64
  ∧ 0 ≤ zc b mod 16 * 4 + zc c / 64 < 64 ∧ 0 ≤ zc c mod 64 < 64
  ∧ 0 ≤ zc a mod 4 * 16 < 64 ∧ 0 ≤ zc b mod 16 * 4 < 64.
Proof.
  pose proof (zc_range a). pose proof (zc_range b). pose proof (zc_range c).
  repeat split; Z.div_mod_to_equations; lia.
Qed.

Lemma list_ind3 {A} (P : list A → Prop) :
  P [] → (∀ a, P [a]) → (∀ a b, P [a; b]) → (∀ a b c l, P l → P (a :: b :: c :: l)) → ∀ l, P l.
Proof.
  intros H0 H1 H2 H3. fix IH 1. intros [|a [|b [|c l]]]; [done|apply H1|apply H2|].
  apply H3, IH.
Qed.

Lemma decode_encode64 l : decode_chars (encode_chars l) = Some l.
Proof.
  induction l as [|a|a b|a b c l IH] using list_ind3; [done|..].
  - destruct (sextet_ranges a a a) as (H1 & _ & _ & _ & H5 & _).
    cbn [encode_chars decode_chars]. rewrite !value_char by done.
    cbn [mbind option_bind]. destruct (ascii_dec pad pad); [|done]. do 2 f_equal.
    apply byte_of_eq. pose proof (zc_range a).
    Z.div_mod_to_equations; lia.
  - destruct (sextet_ranges a b b) as (H1 & H2 & _ & _ & _ & H6).
    cbn [encode_chars decode_chars]. rewrite !value_char by done.
    cbn [mbind option_bind].
    destruct (ascii_dec (char _) pad) as [E|_]; [by apply char_not_pad in E|].
    destruct (ascii_dec pad pad); [|done].
    do 3 f_equal; [|f_equal]; apply byte_of_eq;
      pose proof (zc_range a); pose proof (zc_range b);
      Z.div_mod_to_equations; lia.
  - destruct (sextet_ranges a b c) as (H1 & H2 & H3 & H4 & _).
    assert (byte_of (zc a / 4 * 4 + (zc a mod 4 * 16 + zc b / 16) / 16) = a ∧
      byte_of ((zc a mod 4 * 16 + zc b / 16) * 16 + (zc b mod 16 * 4 + zc c / 64) / 4) = b ∧
      byte_of ((zc b mod 16 * 4 + zc c / 64) * 64 + zc c mod 64) = c) as (Ea & Eb & Ec).
    { pose proof (zc_range a). pose proof (zc_range b). pose proof (zc_range c).
      repeat split; apply byte_of_eq; Z.div_mod_to_equations; lia. }
    cbn [encode_chars]. destruct (encode_chars l) as [|x t] eqn:El.
    + cbn [decode_chars]. rewrite !value_char by done. cbn [mbind option_bind].
      destruct (ascii_dec (char (_ + zc c / 64)) pad) as [E|_]; [by apply char_not_pad in E|].
      destruct (ascii_dec (char (zc c mod 64)) pad) as [E|_]; [by apply char_not_pad in E|].
      rewrite Ea, Eb, Ec. cbn [decode_chars] in IH. congruence.
    + cbn [decode_chars] in IH |- *. rewrite !value_char by done. cbn [mbind option_bind].
      rewrite IH, Ea, Eb, Ec. done.
Qed.

(** What the encoder writes is ASCII without line breaks. *)
Definition is_text (a : ascii) : bool :=
  let n := nat_of_ascii a in negb (n =? 10)%nat && negb (n =? 13)%nat && (n <? 128)%nat.

Lemma char_text v : 0 ≤ v < 64 → is_text (char v) = true.
Proof.
  intros (_ & _ & H1 & H2 & H3)%char_facts. unfold is_text.
  by rewrite (proj2 (Nat.eqb_neq _ _) H1), (proj2 (Nat.eqb_neq _ _) H2),
    (proj2 (Nat.ltb_lt _ _) H3).
Qed.

Lemma encode_chars_text l : forallb is_text (encode_chars l) = true.
Proof.
  induction l as [|a|a b|a b c l IH] using list_ind3; [done|..].
  - destruct (sextet_ranges a a a) as (H1 & _ & _ & _ & H5 & _).
    cbn [encode_chars forallb]. by rewrite !char_text.
  - destruct (sextet_ranges a b b) as (H1 & H2 & _ & _ & _ & H6).
    cbn [encode_chars forallb]. by rewrite !char_text.
  - destruct (sextet_ranges a b c) as (H1 & H2 & H3 & H4 & _).
    cbn [encode_chars forallb]. by rewrite !char_text, IH.
Qed.

Lemma skip_newlines_text l : forallb is_text l = true → skip_newlines l = l.
Proof.
  unfold skip_newlines. induction l as [|a l IH]; cbn [forallb List.filter]; [done|].
  intros [Ha Hl]%andb_true_iff. unfold is_text in Ha.
  apply andb_true_iff in Ha as [[H1%negb_true_iff H2%negb_true_iff]%andb_true_iff _].
  by rewrite H1, H2, IH.
Qed.

Lemma DecodeString_Encode b : DecodeString (EncodeToString b) = Ok b.
Proof.
  unfold DecodeString, EncodeToString. rewrite String.list_ascii_of_string_of_list_ascii.
  rewrite skip_newlines_text by apply encode_chars_text.
  by rewrite decode_encode64, String.string_of_list_ascii_of_string.
Qed.

End base64.

(** ** Decimal integers: [strconv.Atoi] and [big.Int.SetString(s, 10)] *)
Module strconv.

Definition digit_val (c : ascii) : option Z :=
  let n := Z.of_nat (nat_of_ascii c) in
  if (48 <=? n) && (n <=? 57) then Some (n - 48) else None.

Fixpoint digits_acc (acc : Z) (l : list ascii) : option Z :=
  match l with
  | [] => Some acc
  | c :: l => d ← digit_val c; digits_acc (acc * 10 + d) l
  end.

Definition digits (l : list ascii) : option Z :=
  match l with [] => None | _ => digits_acc 0 l end.

(** An optional sign followed by at least one decimal digit. *)
Definition SetString (s : string) : option Z :=
  match chars s with
  | [] => None
  | c :: l =>
      let n := nat_of_ascii c in
      if (n =? 43)%nat then digits l
      else if (n =? 45)%nat then Z.opp <$> digits l
      else digits (c :: l)
  end.

Definition Atoi (s : string) : result Z :=
  match SetString s with
  | Some z => if bool_decide (in_int64 z) then Ok z else Err errorf
  | None => Err errorf
  end.

Lemma Atoi_range s z : Atoi s = Ok z → in_int64 z.
Proof. unfold Atoi. intros H. crush_ok. by apply bool_decide_eq_true in Heqb. Qed.

End strconv.

(** ** [net.SplitHostPort] *)
Module net.

Definition is_char (n : nat) (c : ascii) : bool := (nat_of_ascii c =? n)%nat.
Definition index (n : nat) (l : list ascii) : option nat :=
  find_index (is_char n) l.
Definition last_index (n : nat) (l : list ascii) : option nat :=
  i ← find_index (is_char n) (rev l); Some (length l - 1 - i)%nat.

Definition colon : nat := 58.
Definition lbrack : nat := 91.
Definition rbrack : nat := 93.

Definition SplitHostPort (s : string) : result (string * string) :=
  let l := chars s in
  match last_index colon l with
  | None => Err errorf
  | Some i =>
      let finish (host : list ascii) (j k : nat) :=
        if index lbrack (drop j l) is Some _ then Err errorf
        else if index rbrack (drop k l) is Some _ then Err errorf
        else Ok (of_chars host, of_chars (drop (S i) l)) in
      if match l with c :: _ => is_char lbrack c | [] => false end then
        match index rbrack l with
        | None => Err errorf
        | Some e =>
            if (S e =? i)%nat then finish (take (e - 1) (drop 1 l)) 1%nat (S e)
            else Err errorf
        end
      else
        let host := take i l in
        if index colon host is Some _ then Err errorf else finish host 0%nat 0%nat
  end.

End net.
