(* ===== verification/GoTime.v ===== *)
(** * RFC 3339 timestamps

    [time.Parse(time.RFC3339, s)] (also the parser behind [time.Time]'s JSON
    form) and the [RFC3339Nano] formatting of a UTC instant, with the calendar
    arithmetic they rest on. *)

From S2P Require Import Prelude GoStd.
#[global] Open Scope Z_scope.

Module rfc3339.

(** ** Calendar *)
Definition is_leap (y : Z) : bool :=
  (y mod 4 =? 0) && (negb (y mod 100 =? 0) || (y mod 400 =? 0)).

Definition days_in (m y : Z) : Z :=
  if m =? 2 then (if is_leap y then 29 else 28)
  else if (m =? 4) || (m =? 6) || (m =? 9) || (m =? 11) then 30 else 31.

(** Days from 1970-01-01 to the given (proleptic Gregorian) date. *)
Definition days_from_civil (y0 m d : Z) : Z :=
  let y := if m <=? 2 then y0 - 1 else y0 in
  let era := y / 400 in
  let yoe := y - era * 400 in
  let doy := (153 * (if 2 <? m then m - 3 else m + 9) + 2) / 5 + d - 1 in
  let doe := yoe * 365 + yoe / 4 - yoe / 100 + doy in
  era * 146097 + doe - 719468.

Definition civil_from_days (z0 : Z) : Z * Z * Z :=
  let z := z0 + 719468 in
  let era := z / 146097 in
  let doe := z - era * 146097 in
  let yoe := (doe - doe / 1460 + doe / 36524 - doe / 146096) / 365 in
  let doy := doe - (365 * yoe + yoe / 4 - yoe / 100) in
  let mp := (5 * doy + 2) / 153 in
  let d := doy - (153 * mp + 2) / 5 + 1 in
  let m := if mp <? 10 then mp + 3 else mp - 9 in
  let y := yoe + era * 400 + (if m <=? 2 then 1 else 0) in
  (y, m, d).

(** ** Parsing *)
Definition digit (a : ascii) : option Z := strconv.digit_val a.

Definition fixed2 (l : list ascii) : option (Z * list ascii) :=
  match l with
  | a :: b :: r => x ← digit a; y ← digit b; Some (x * 10 + y, r)
  | _ => None
  end.

Definition fixed4 (l : list ascii) : option (Z * list ascii) :=
  '(a, r) ← fixed2 l; '(b, r') ← fixed2 r; Some (a * 100 + b, r').

(** The hour may have one digit. *)
Definition hour (l : list ascii) : option (Z * list ascii) :=
  match l with
  | a :: r =>
      x ← digit a;
      match r with
      | b :: r' => match digit b with Some y => Some (x * 10 + y, r') | None => Some (x, r) end
      | [] => Some (x, r)
      end
  | [] => None
  end.

Definition sep (n : nat) (l : list ascii) : option (list ascii) :=
  match l with a :: r => if net.is_char n a then Some r else None | [] => None end.

Fixpoint digits_run (l : list ascii) : list ascii * list ascii :=
  match l with
  | a :: r =>
      match digit a with
      | Some _ => let (d, t) := digits_run r in (a :: d, t)
      | None => ([], l)
      end
  | [] => ([], [])
  end.

(** Up to nine digits count; the rest are read and dropped. *)
Definition nanos (ds : list ascii) : Z :=
  let ds := take 9 ds in
  default 0 (strconv.digits_acc 0 ds) * 10 ^ (9 - Z.of_nat (length ds)).

(** A [.] or [,] followed by a digit starts a fraction. *)
Definition fraction (l : list ascii) : Z * list ascii :=
  match l with
  | a :: r =>
      if net.is_char 46 a || net.is_char 44 a then
        match digits_run r with
        | ([], _) => (0, l)
        | (ds, t) => (nanos ds, t)
        end
      else (0, l)
  | [] => (0, l)
  end.

(** [Z], or a signed [hh:mm] offset; the whole input must be consumed. *)
Definition zone (l : list ascii) : option Z :=
  match l with
  | a :: r =>
      if net.is_char 90 a then match r with [] => Some 0 | _ => None end
      else if net.is_char 43 a || net.is_char 45 a then
        '(hh, r1) ← fixed2 r; r2 ← sep 58 r1; '(mm, r3) ← fixed2 r2;
        if (24 <? hh) || (60 <? mm) then None
        else match r3 with
             | [] => Some ((if net.is_char 45 a then -1 else 1) * (hh * 3600 + mm * 60))
             | _ => None
             end
      else None
  | [] => None
  end.

Definition parse (s : string) : option time.Time :=
  '(y, l) ← fixed4 (chars s); l ← sep 45 l;
  '(mo, l) ← fixed2 l; l ← sep 45 l;
  '(d, l) ← fixed2 l; l ← sep 84 l;
  '(h, l) ← hour l; l ← sep 58 l;
  '(mi, l) ← fixed2 l; l ← sep 58 l;
  '(sec, l) ← fixed2 l;
  let (ns, l) := fraction l in
  off ← zone l;
  if (mo <? 1) || (12 <? mo) || (d <? 1) || (days_in mo y <? d)
     || (23 <? h) || (59 <? mi) || (59 <? sec)
  then None
  else Some ((days_from_civil y mo d * 86400 + h * 3600 + mi * 60 + sec - off)
               * time.Second + ns).

Definition Parse (s : string) : result time.Time :=
  match parse s with Some t => Ok t | None => Err errorf end.

(** ** Formatting as RFC3339Nano in UTC *)
Definition dig (z : Z) : ascii := ascii_of_nat (48 + Z.to_nat (z mod 10)).
Definition pad2 (z : Z) : list ascii := [dig (z / 10); dig z].
Definition pad4 (z : Z) : list ascii := [dig (z / 1000); dig (z / 100); dig (z / 10); dig z].

Fixpoint pad_digits (n : nat) (z : Z) : list ascii :=
  match n with
  | O => []
  | S n => pad_digits n (z / 10) ++ [dig z]
  end.

Fixpoint drop_zeros (l : list ascii) : list ascii :=
  match l with
  | a :: r => if net.is_char 48 a then drop_zeros r else l
  | [] => []
  end.

(** Trailing zeros of the fraction are removed, and a zero fraction is not
    written at all. *)
Definition frac_chars (ns : Z) : list ascii :=
  match rev (drop_zeros (rev (pad_digits 9 ns))) with
  | [] => []
  | ds => ascii_of_nat 46 :: ds
  end.

Definition format_chars (t : time.Time) : list ascii :=
  let secs := t / time.Second in
  let ns := t mod time.Second in
  let '(y, mo, d) := civil_from_days (secs / 86400) in
  let s := secs mod 86400 in
  let ch z := [ascii_of_nat (Z.to_nat z)] in
  pad4 y ++ ch 45 ++ pad2 mo ++ ch 45 ++ pad2 d ++ ch 84
    ++ pad2 (s / 3600) ++ ch 58 ++ pad2 (s / 60 mod 60) ++ ch 58 ++ pad2 (s mod 60)
    ++ frac_chars ns ++ ch 90.

Definition FormatNano (t : time.Time) : string := of_chars (format_chars t).

(** [t.Format(time.RFC3339)]: the same text without the fraction. *)
Definition Format (t : time.Time) : string := FormatNano (t - t mod time.Second).

End rfc3339.
