(* ===== verification/GoFloat.v ===== *)
(** * Binary floating point: [float64] and [big.Float]

    Round-to-nearest-even of a rational to a given precision, the rounding of
    both IEEE-754 double precision and [math/big.Float], with the two facts
    the program's threshold comparisons rest on: a representable number is a
    barrier that rounding does not cross, from either side.  Also
    [strconv.ParseFloat] for the decimal and special forms. *)

From S2P Require Import Prelude GoStd.
From Stdlib Require Export QArith Qround Qpower Qabs.
From Stdlib Require Import Lqa.
#[global] Open Scope Z_scope.

(** ** Powers of two *)
Definition pow2 (e : Z) : Q := Qpower 2 e.

Lemma pow2_pos e : (0 < pow2 e)%Q.
Proof. apply Qpower_0_lt. reflexivity. Qed.

Lemma pow2_nz e : ~ (pow2 e == 0)%Q.
Proof. pose proof (pow2_pos e). intros E. rewrite E in H. by apply Qlt_irrefl in H. Qed.

Lemma pow2_add a b : (pow2 (a + b) == pow2 a * pow2 b)%Q.
Proof. apply Qpower_plus. discriminate. Qed.

Lemma pow2_le a b : (a ≤ b)%Z → (pow2 a <= pow2 b)%Q.
Proof. intros H. apply Qpower_le_compat_l; [done|discriminate]. Qed.

Lemma pow2_int e : (0 ≤ e)%Z → (pow2 e == inject_Z (2 ^ e))%Q.
Proof. intros H. unfold pow2. symmetry. apply (Zpower_Qpower 2 e H). Qed.

Lemma pow2_lt_inv a b : (pow2 a < pow2 b)%Q → (a < b)%Z.
Proof.
  intros H. destruct (Z.lt_ge_cases a b) as [|Hge]; [done|].
  apply pow2_le in Hge. exfalso. by apply (Qlt_not_le _ _ H).
Qed.

(** ** Rounding *)

(** Exponent of a positive rational: [2^(expo x) <= x < 2^(expo x + 1)]. *)
Definition expo (x : Q) : Z :=
  let k := Z.log2 (Qnum x) - Z.log2 (Zpos (Qden x)) in
  if Qle_bool (pow2 k) x then k else k - 1.

Definition nearest_even (s : Q) : Z :=
  let q := Qfloor s in
  match Qcompare (s - inject_Z q) (1 # 2) with
  | Lt => q
  | Gt => q + 1
  | Eq => if Z.even q then q else q + 1
  end.

(** [p] bits of mantissa, no exponent below [emin]. *)
Definition round_pos (p emin : Z) (x : Q) : Q :=
  let e := Z.max (expo x - p + 1) emin in
  (inject_Z (nearest_even (x * pow2 (- e))) * pow2 e)%Q.

Definition round (p emin : Z) (x : Q) : Q :=
  match Qnum x with
  | Z0 => 0%Q
  | Zpos _ => round_pos p emin x
  | Zneg _ => (- round_pos p emin (- x))%Q
  end.

Lemma expo_spec x : (0 < x)%Q → (pow2 (expo x) <= x)%Q ∧ (x < pow2 (expo x + 1))%Q.
Proof.
  intros Hx. destruct x as [n d]. unfold expo; cbn [Qnum Qden].
  assert (0 < n)%Z as Hn by (unfold Qlt in Hx; cbn in Hx; lia).
  set (k := (Z.log2 n - Z.log2 (Zpos d))%Z).
  destruct (Z.log2_spec n Hn) as [Hn1 Hn2].
  destruct (Z.log2_spec (Zpos d) ltac:(lia)) as [Hd1 Hd2].
  pose proof (Z.log2_nonneg n) as Hln. pose proof (Z.log2_nonneg (Zpos d)) as Hld.
  assert (inject_Z n == (n # d) * inject_Z (Zpos d))%Q as Hnd
    by (unfold Qeq, inject_Z; cbn; lia).
  assert (0 < inject_Z (Zpos d))%Q as Hdpos by reflexivity.
  assert (pow2 (Z.log2 n) == pow2 k * pow2 (Z.log2 (Zpos d)))%Q as Hk
    by (rewrite <- pow2_add; unfold k; f_equiv; lia).
  assert ((n # d) < pow2 (k + 1))%Q as Hup.
  { apply Qmult_lt_r with (inject_Z (Zpos d)); [done|]. rewrite <- Hnd.
    apply Qlt_le_trans with (pow2 (Z.log2 n + 1)).
    - rewrite pow2_int by lia. rewrite <- Zlt_Qlt. by replace (Z.log2 n + 1)%Z with (Z.succ (Z.log2 n)) by lia.
    - rewrite !pow2_add, Hk.
      assert (pow2 k * pow2 (Z.log2 (Zpos d)) * pow2 1
              == pow2 k * pow2 1 * pow2 (Z.log2 (Zpos d)))%Q as -> by ring.
      apply Qmult_le_l.
      + rewrite <- pow2_add. apply pow2_pos.
      + rewrite pow2_int by lia. rewrite <- Zle_Qle. lia. }
  assert (pow2 (k - 1) <= (n # d))%Q as Hlo.
  { apply Qmult_le_r with (inject_Z (Zpos d)); [done|]. rewrite <- Hnd.
    apply Qle_trans with (pow2 (Z.log2 n)).
    - assert (pow2 (Z.log2 n) == pow2 (k - 1) * pow2 (Z.log2 (Zpos d) + 1))%Q as ->
        by (rewrite <- pow2_add; unfold k; f_equiv; lia).
      apply Qmult_le_l; [apply pow2_pos|].
      rewrite pow2_int by lia. rewrite <- Zle_Qle.
      replace (Z.log2 (Zpos d) + 1)%Z with (Z.succ (Z.log2 (Zpos d))) by lia. lia.
    - rewrite pow2_int by lia. rewrite <- Zle_Qle. lia. }
  destruct (Qle_bool (pow2 k) (n # d)) eqn:Hb.
  - by apply Qle_bool_iff in Hb.
  - split; [done|]. replace (k - 1 + 1)%Z with k by lia.
    apply Qnot_le_lt. intros Hle. apply Qle_bool_iff in Hle. congruence.
Qed.

Lemma nearest_even_bounds s :
  (Qfloor s ≤ nearest_even s ≤ Qfloor s + 1)%Z ∧
  ((s == inject_Z (Qfloor s))%Q → nearest_even s = Qfloor s).
Proof.
  unfold nearest_even. split.
  - destruct (_ ?= _)%Q; try destruct (Z.even _); lia.
  - intros Hs. assert (s - inject_Z (Qfloor s) == 0)%Q as Hz by (rewrite <- Hs; ring).
    destruct (Qcompare_spec (s - inject_Z (Qfloor s)) (1 # 2)) as [E|L|G].
    + rewrite Hz in E. discriminate E.
    + done.
    + rewrite Hz in G. discriminate G.
Qed.

Lemma nearest_even_le s (k : Z) : (s <= inject_Z k)%Q → (nearest_even s ≤ k)%Z.
Proof.
  intros H. destruct (nearest_even_bounds s) as [[H1 H2] H3].
  pose proof (Qfloor_le s) as Hf.
  assert (Qfloor s ≤ k)%Z as Hk by (rewrite Zle_Qle; eapply Qle_trans; done).
  destruct (Z.eq_dec (Qfloor s) k) as [E|]; [|lia].
  rewrite H3; [lia|]. rewrite E. apply Qle_antisym; [done|]. by rewrite <- E.
Qed.

Lemma nearest_even_ge s (k : Z) : (inject_Z k <= s)%Q → (k ≤ nearest_even s)%Z.
Proof.
  intros H. destruct (nearest_even_bounds s) as [[H1 H2] _].
  assert (k ≤ Qfloor s)%Z; [|lia].
  rewrite <- (Qfloor_Z k). by apply Qfloor_resp_le.
Qed.

(** [y] is a [p]-bit float with exponent at least [emin]. *)
Definition representable (p emin : Z) (y : Q) : Prop :=
  ∃ m f, (0 ≤ m ≤ 2 ^ p)%Z ∧ (emin ≤ f)%Z ∧ (y == inject_Z m * pow2 f)%Q.

(** A representable number at or above the binade of [x] is a multiple of the
    spacing used to round [x]. *)
Lemma representable_multiple p emin y e :
  (0 < p)%Z → representable p emin y →
  (pow2 (e + p - 1) <= y)%Q ∨ e = emin →
  ∃ k, (y == inject_Z k * pow2 e)%Q.
Proof.
  intros Hp (m & f & Hm & Hf & Hy) He.
  destruct (Z.le_gt_cases e f) as [Hef|Hef].
  - exists (m * 2 ^ (f - e))%Z.
    rewrite Hy, inject_Z_mult, <- pow2_int by lia.
    replace f with (f - e + e)%Z at 1 by lia. rewrite pow2_add. ring.
  - destruct He as [He| ->]; [|lia].
    exists (2 ^ (p - 1))%Z. rewrite <- pow2_int, <- pow2_add by lia.
    replace (p - 1 + e)%Z with (e + p - 1)%Z by lia.
    apply Qle_antisym; [|done].
    apply Qle_trans with (pow2 (p + f)); [|apply pow2_le; lia].
    rewrite Hy, pow2_add. apply Qmult_le_r; [apply pow2_pos|].
    rewrite pow2_int by lia. rewrite <- Zle_Qle. lia.
Qed.

Lemma scale_le x e (k : Z) :
  (x <= inject_Z k * pow2 e)%Q → (x * pow2 (- e) <= inject_Z k)%Q.
Proof.
  intros H. apply Qmult_le_r with (pow2 e); [apply pow2_pos|].
  rewrite <- Qmult_assoc, <- pow2_add, Z.add_opp_diag_l.
  change (pow2 0) with 1%Q. by rewrite Qmult_1_r.
Qed.

Lemma scale_ge x e (k : Z) :
  (inject_Z k * pow2 e <= x)%Q → (inject_Z k <= x * pow2 (- e))%Q.
Proof.
  intros H. apply Qmult_le_r with (pow2 e); [apply pow2_pos|].
  rewrite <- Qmult_assoc, <- pow2_add, Z.add_opp_diag_l.
  change (pow2 0) with 1%Q. by rewrite Qmult_1_r.
Qed.

Lemma round_pos_le_multiple p emin x (k : Z) :
  let e := Z.max (expo x - p + 1) emin in
  (x <= inject_Z k * pow2 e)%Q → (round_pos p emin x <= inject_Z k * pow2 e)%Q.
Proof.
  intros e H. unfold round_pos. fold e.
  apply Qmult_le_r; [apply pow2_pos|]. rewrite <- Zle_Qle.
  by apply nearest_even_le, scale_le.
Qed.

Lemma round_pos_ge_multiple p emin x (k : Z) :
  let e := Z.max (expo x - p + 1) emin in
  (inject_Z k * pow2 e <= x)%Q → (inject_Z k * pow2 e <= round_pos p emin x)%Q.
Proof.
  intros e H. unfold round_pos. fold e.
  apply Qmult_le_r; [apply pow2_pos|]. rewrite <- Zle_Qle.
  by apply nearest_even_ge, scale_ge.
Qed.

Lemma pow2_multiple e n :
  (0 ≤ n)%Z → (pow2 (e + n) == inject_Z (2 ^ n) * pow2 e)%Q.
Proof. intros Hn. rewrite pow2_add, <- pow2_int by done. ring. Qed.

(** The spacing used for [x]: a representable number inside the binade of
    [x], or any one when [x] is subnormal, is a multiple of it. *)
Lemma spacing_multiple p emin x y :
  let e := Z.max (expo x - p + 1) emin in
  (0 < p)%Z → representable p emin y → (pow2 (expo x) <= y)%Q →
  ∃ k, (y == inject_Z k * pow2 e)%Q.
Proof.
  intros e Hp Hy Hle. apply (representable_multiple p emin); [done|done|].
  destruct (Z.max_spec (expo x - p + 1) emin) as [[? E]|[? E]]; fold e in E.
  - by right.
  - left. rewrite E. by replace (expo x - p + 1 + p - 1)%Z with (expo x) by lia.
Qed.

(** Rounding does not cross a representable number, from below or above. *)
Lemma round_pos_le p emin x y :
  (0 < p)%Z → (0 < x)%Q → representable p emin y →
  (x <= y)%Q → (round_pos p emin x <= y)%Q.
Proof.
  intros Hp Hx Hy Hle. destruct (expo_spec x Hx) as [Hlo Hhi].
  destruct (spacing_multiple p emin x y Hp Hy) as [k Hk]; [by eapply Qle_trans|].
  rewrite Hk in Hle |- *. by apply round_pos_le_multiple.
Qed.

Lemma round_pos_ge p emin x y :
  (0 < p)%Z → (0 < x)%Q → representable p emin y →
  (y <= x)%Q → (y <= round_pos p emin x)%Q.
Proof.
  intros Hp Hx Hy Hle. destruct (expo_spec x Hx) as [Hlo Hhi].
  destruct (Qlt_le_dec y (pow2 (expo x))) as [Hlt|Hge].
  - destruct (Z.le_gt_cases emin (expo x - p + 1)) as [He|He].
    + apply Qlt_le_weak in Hlt. eapply Qle_trans; [done|].
      set (e := Z.max (expo x - p + 1) emin).
      assert (pow2 (expo x) == inject_Z (2 ^ (p - 1)) * pow2 e)%Q as E.
      { rewrite <- pow2_multiple by lia. f_equiv. unfold e. lia. }
      rewrite E in Hlo |- *. by apply round_pos_ge_multiple.
    + destruct (representable_multiple p emin y emin Hp Hy) as [k Hk]; [by right|].
      assert (Z.max (expo x - p + 1) emin = emin) as E by lia.
      rewrite Hk in Hle |- *.
      pose proof (round_pos_ge_multiple p emin x k) as Hm. cbv zeta in Hm.
      rewrite E in Hm. by apply Hm.
  - destruct (spacing_multiple p emin x y Hp Hy Hge) as [k Hk].
    rewrite Hk in Hle |- *. by apply round_pos_ge_multiple.
Qed.

Lemma round_positive p emin x : (0 < x)%Q → round p emin x = round_pos p emin x.
Proof.
  intros Hx. unfold round. destruct x as [[|n|n] d]; cbn; [|done|];
    unfold Qlt in Hx; cbn in Hx; lia.
Qed.

(** ** [float64] *)
Inductive float64 : Type :=
  | F_NaN
  | F_Inf (neg : bool)
  | F_fin (q : Q).

Definition f64_prec : Z := 53.
Definition f64_emin : Z := - 1074.

(** The IEEE comparisons: every comparison with NaN is false. *)
Definition f64_leb (a b : float64) : bool :=
  match b with
  | F_NaN => false
  | F_Inf false => match a with F_NaN => false | _ => true end
  | F_Inf true => match a with F_Inf true => true | _ => false end
  | F_fin y =>
      match a with
      | F_NaN => false
      | F_Inf neg => neg
      | F_fin x => Qle_bool x y
      end
  end.

Definition f64_ltb (a b : float64) : bool :=
  match a, b with
  | F_NaN, _ | _, F_NaN => false
  | F_Inf true, F_Inf true => false
  | F_Inf true, _ => true
  | _, F_Inf true => false
  | F_Inf false, _ => false
  | _, F_Inf false => true
  | F_fin x, F_fin y => negb (Qle_bool y x)
  end.

(** Round a rational to double precision; at 2^1024 and above it overflows. *)
Definition f64_of_Q (x : Q) : float64 :=
  let r := round f64_prec f64_emin x in
  if Qle_bool (pow2 1024) r then F_Inf false
  else if Qle_bool r (- pow2 1024)%Q then F_Inf true
  else F_fin r.

Lemma f64_ltb_NaN_r a : f64_ltb a F_NaN = false.
Proof. by destruct a as [|[]|]. Qed.

#[global] Arguments f64_leb : simpl never.
#[global] Arguments f64_ltb : simpl never.
#[global] Arguments f64_of_Q : simpl never.
#[global] Arguments round : simpl never.

(** ** [strconv.ParseFloat(s, 64)] *)
Module ParseFloat.

Definition lower (c : ascii) : nat :=
  nat_of_ascii (strings.lower_ascii c).
Definition is_digit (c : ascii) : bool :=
  let n := nat_of_ascii c in ((48 <=? n) && (n <=? 57))%nat.
Definition is_hex_letter (c : ascii) : bool :=
  ((97 <=? lower c) && (lower c <=? 102))%nat.
Definition underscore (c : ascii) : bool := (nat_of_ascii c =? 95)%nat.

(** Class of the previous character in [underscoreOK]. *)
Inductive prev := PStart | PDigit | PUnder | POther.

Fixpoint underscore_scan (hex : bool) (i : prev) (l : list ascii) : bool :=
  match l with
  | [] => match i with PUnder => false | _ => true end
  | c :: l =>
      if is_digit c || (hex && is_hex_letter c) then underscore_scan hex PDigit l
      else if underscore c then
        match i with PDigit => underscore_scan hex PUnder l | _ => false end
      else match i with PUnder => false | _ => underscore_scan hex POther l end
  end.

Definition skip_sign (l : list ascii) : bool * list ascii :=
  match l with
  | c :: r =>
      if (nat_of_ascii c =? 43)%nat then (false, r)
      else if (nat_of_ascii c =? 45)%nat then (true, r) else (false, l)
  | [] => (false, [])
  end.

Definition underscoreOK (l : list ascii) : bool :=
  let (_, l) := skip_sign l in
  match l with
  | z :: b :: r =>
      if (nat_of_ascii z =? 48)%nat
         && ((lower b =? 98) || (lower b =? 111) || (lower b =? 120))%nat
      then underscore_scan (lower b =? 120)%nat PDigit r
      else underscore_scan false PStart l
  | _ => underscore_scan false PStart l
  end.

Record mant := Mant {
  m_val : Z;        (* digits read so far, as an integer *)
  m_frac : Z;       (* digits read after the point *)
  m_dot : bool;
  m_digits : bool;
  m_under : bool }.

Fixpoint read_mant (hex : bool) (m : mant) (l : list ascii) : mant * list ascii :=
  match l with
  | [] => (m, [])
  | c :: r =>
      let base := if hex then 16 else 10 in
      let add d :=
        Mant (m_val m * base + d) (if m_dot m then m_frac m + 1 else m_frac m)
             (m_dot m) true (m_under m) in
      if underscore c then
        read_mant hex (Mant (m_val m) (m_frac m) (m_dot m) (m_digits m) true) r
      else if (nat_of_ascii c =? 46)%nat then
        if m_dot m then (m, l)
        else read_mant hex (Mant (m_val m) (m_frac m) true (m_digits m) (m_under m)) r
      else if is_digit c then read_mant hex (add (Z.of_nat (nat_of_ascii c) - 48)) r
      else if hex && is_hex_letter c then
        read_mant hex (add (Z.of_nat (lower c) - 87)) r
      else (m, l)
  end.

(** The exponent accumulator stops growing once it passes 10000. *)
Fixpoint read_exp (e : Z) (under : bool) (l : list ascii) : Z * bool * list ascii :=
  match l with
  | [] => (e, under, [])
  | c :: r =>
      if underscore c then read_exp e true r
      else if is_digit c then
        read_exp (if e <? 10000 then e * 10 + (Z.of_nat (nat_of_ascii c) - 48) else e)
                 under r
      else (e, under, l)
  end.

Definition value (hex neg : bool) (m : mant) (e : Z) : Q :=
  let scale :=
    if hex then pow2 (e - 4 * m_frac m) else Qpower 10 (e - m_frac m) in
  let q := (inject_Z (m_val m) * scale)%Q in
  if neg then (- q)%Q else q.

(** [readFloat]: mantissa, optional exponent (mandatory in base 16), nothing
    left over, underscores in legal places. *)
Definition readFloat (l : list ascii) : option Q :=
  let (neg, body) := skip_sign l in
  let '(hex, body) :=
    match body with
    | z :: x :: (_ :: _) as r =>
        if (nat_of_ascii z =? 48)%nat && (lower x =? 120)%nat
        then (true, drop 2 body) else (false, body)
    | _ => (false, body)
    end in
  let (m, rest) := read_mant hex (Mant 0 0 false false false) body in
  if negb (m_digits m) then None
  else
    match rest with
    | [] =>
        if hex then None
        else if m_under m && negb (underscoreOK l) then None
        else Some (value hex neg m 0)
    | c :: rest =>
        if negb (lower c =? (if hex then 112 else 101))%nat then None
        else
          let (eneg, rest) := skip_sign rest in
          match rest with
          | [] => None
          | d :: _ =>
              if negb (is_digit d) then None
              else
                let '(e, under, tail) := read_exp 0 (m_under m) rest in
                match tail with
                | [] =>
                    if under && negb (underscoreOK l) then None
                    else Some (value hex neg m (if eneg then - e else e))
                | _ => None
                end
          end
    end.

Definition special (l : list ascii) : option float64 :=
  let (neg, body) := skip_sign l in
  let w := strings.ToLower (of_chars body) in
  if bool_decide (w = "inf") || bool_decide (w = "infinity") then Some (F_Inf neg)
  else if bool_decide (strings.ToLower (of_chars l) = "nan") then Some F_NaN
  else None.

(** A value that rounds to an infinity is a range error. *)
Definition run (s : string) : result float64 :=
  let l := chars s in
  match special l with
  | Some f => Ok f
  | None =>
      match readFloat l with
      | None => Err errorf
      | Some q =>
          match f64_of_Q q with F_Inf _ => Err errorf | f => Ok f end
      end
  end.

End ParseFloat.

(** ** Error bounds *)
Lemma nearest_even_above_half s (k : Z) :
  (inject_Z k - (1 # 2) < s)%Q → (k ≤ nearest_even s)%Z.
Proof.
  intros H. destruct (nearest_even_bounds s) as [[H1 H2] _].
  destruct (Z.le_gt_cases k (Qfloor s)) as [|Hlt]; [lia|].
  destruct (Z.eq_dec k (Qfloor s + 1)) as [->|Hne].
  - unfold nearest_even. rewrite inject_Z_plus in H.
    destruct (Qcompare_spec (s - inject_Z (Qfloor s)) (1 # 2)) as [E|L|G];
      [| |lia]; exfalso; change (inject_Z 1) with 1%Q in H;
      generalize dependent (inject_Z (Qfloor s)); intros; lra.
  - exfalso. pose proof (Qlt_floor s) as Hf.
    assert (inject_Z (Qfloor s + 1) <= inject_Z (k - 1))%Q as Hk
      by (rewrite <- Zle_Qle; lia).
    assert (inject_Z (k - 1) == inject_Z k - 1)%Q as Ek by (unfold Qeq; cbn; lia).
    rewrite Ek in Hk. remember (inject_Z (Qfloor s + 1)) as fl.
    remember (inject_Z k) as kq. clear - Hf Hk H. lra.
Qed.

(** One rounding loses less than a unit in the last place, either way. *)
Lemma round_pos_error p emin x :
  (0 < p)%Z → (0 < x)%Q → (emin ≤ expo x - p + 1)%Z →
  (x - x * pow2 (1 - p) < round_pos p emin x)%Q ∧
  (round_pos p emin x <= x + x * pow2 (1 - p))%Q.
Proof.
  intros Hp Hx He. destruct (expo_spec x Hx) as [Hlo _].
  unfold round_pos. rewrite Z.max_l by lia.
  set (e := (expo x - p + 1)%Z). set (s := (x * pow2 (- e))%Q).
  assert (x == s * pow2 e)%Q as Exs.
  { unfold s. rewrite <- Qmult_assoc, <- pow2_add, Z.add_opp_diag_l.
    change (pow2 0) with 1%Q. ring. }
  assert (pow2 e <= x * pow2 (1 - p))%Q as Hulp.
  { assert (pow2 e == pow2 (expo x) * pow2 (1 - p))%Q as ->
      by (rewrite <- pow2_add; unfold e; f_equiv; lia).
    apply Qmult_le_r; [apply pow2_pos|done]. }
  destruct (nearest_even_bounds s) as [[H1 H2] _].
  pose proof (Qfloor_le s) as Hf1. pose proof (Qlt_floor s) as Hf2.
  pose proof (pow2_pos e) as Hpe.
  rewrite inject_Z_plus in Hf2. change (inject_Z 1) with 1%Q in Hf2.
  rewrite Zle_Qle in H1, H2. rewrite inject_Z_plus in H2.
  change (inject_Z 1) with 1%Q in H2.
  remember (inject_Z (nearest_even s)) as n.
  remember (inject_Z (Qfloor s)) as fl.
  clear Heqn Heqfl. clearbody s.
  split.
  - assert ((s - 1) * pow2 e < n * pow2 e)%Q as Hm by (apply Qmult_lt_r; [done|lra]).
    lra.
  - assert (n * pow2 e <= (s + 1) * pow2 e)%Q as Hm by (apply Qmult_le_r; [done|lra]).
    lra.
Qed.
