(* ===== verification/Values.v ===== *)
(** * Validated value types (src/internal/domain/launch/values.go)

    The HRP-independent account identity, hashes, peer addresses, endpoints,
    signatures, commission rates, and the members list ([Allowlist]), each
    with the constructor that validates it.  The bech32 codec is a
    third-party package and [net/url] is used only through one call: both are
    parameters, the classes [Bech32] and [NetURL]. *)

From S2P Require Import Prelude GoStd GoFloat.
From stdpp Require Export sorting.
#[global] Open Scope Z_scope.

(** github.com/cosmos/btcutil/bech32 *)
Class Bech32 : Type := {
  bech32_Decode : string → Z → result (string * bytes);
  bech32_ConvertBits : bytes → Z → Z → bool → result bytes;
  bech32_Encode : string → bytes → result string }.

(** [url.Parse] and [url.ParseRequestURI], of which the program reads the
    scheme and the host. *)
Record URL : Type := mkURL { u_Scheme : string; u_Host : string }.
Class NetURL : Type := {
  url_Parse : string → result URL;
  url_ParseRequestURI : string → result URL }.

Definition sha256HexLen : nat := 64.
Definition secp256k1SigLen : nat := 64.

(** ** AccountID *)
Record AccountID : Type := mkAccountID {
  acct : string;   (* lowercase hex of the decoded account bytes *)
  orig : string    (* the bech32 as provided, for display *) }.

#[global] Instance AccountID_eq_dec : EqDecision AccountID.
Proof. solve_decision. Defined.

Definition zeroAccountID : AccountID := mkAccountID "" "".

Definition NewAccountID `{Bech32} (s0 : string) : result AccountID :=
  let s := strings.TrimSpace s0 in
  if is_empty s then Err [ErrAccountIDEmpty]
  else
    match bech32_Decode s 1023 with
    | Err e => Err (wrap2 ErrAccountIDInvalid e)
    | Ok (hrp, data5) =>
        if is_empty hrp then Err [ErrAccountIDInvalid]
        else if strings.HasSuffix hrp "valoper" || strings.HasSuffix hrp "valcons"
        then Err [ErrNotAccountAddress]
        else
          match bech32_ConvertBits data5 5 8 false with
          | Err e => Err (wrap2 ErrAccountIDInvalid e)
          | Ok acctBytes => Ok (mkAccountID (hex.EncodeToString acctBytes) s)
          end
    end.

(** [AccountID.String] *)
Definition account_String (a : AccountID) : string :=
  if is_empty (orig a) then acct a else orig a.

(** [AccountID.Hex] *)
Definition account_Hex (a : AccountID) : string := acct a.

(** [AccountID.Equal] *)
Definition account_Equal (a b : AccountID) : bool := bool_decide (acct a = acct b).

(** [AccountID.IsZero] *)
Definition account_IsZero (a : AccountID) : bool := is_empty (acct a).

(** [AccountID.Bech32] *)
Definition account_Bech32 `{Bech32} (a : AccountID) (hrp : string) : result string :=
  b ← hex.DecodeString (acct a);
  data5 ← bech32_ConvertBits b 8 5 true;
  bech32_Encode hrp data5.

Lemma account_Equal_spec a b : account_Equal a b = true ↔ acct a = acct b.
Proof. unfold account_Equal. by rewrite bool_decide_eq_true. Qed.

Lemma account_Equal_false a b : account_Equal a b = false ↔ acct a ≠ acct b.
Proof. unfold account_Equal. by rewrite bool_decide_eq_false. Qed.

Lemma account_Equal_refl a : account_Equal a a = true.
Proof. by apply account_Equal_spec. Qed.

Lemma account_Equal_sym a b : account_Equal a b = account_Equal b a.
Proof. unfold account_Equal. by apply bool_decide_ext. Qed.

(** The equivalence [Equal] induces: same account, whatever the prefix. *)
#[global] Instance account_equiv : Equiv AccountID := λ a b, acct a = acct b.
#[global] Instance account_equivalence : Equivalence (≡@{AccountID}).
Proof. split; unfold equiv, account_equiv; congruence || (intros ?; congruence). Qed.
#[global] Instance account_Equal_proper :
  Proper ((≡) ==> (≡) ==> (=)) account_Equal.
Proof.
  intros a a' Ha b b' Hb. unfold account_Equal. apply bool_decide_ext.
  unfold equiv, account_equiv in *. by rewrite Ha, Hb.
Qed.
#[global] Instance account_Hex_proper : Proper ((≡) ==> (=)) account_Hex.
Proof. by intros a b. Qed.

(** ** GenesisHash *)
Definition NewGenesisHash (s0 : string) : result string :=
  let s := strings.ToLower (strings.TrimSpace s0) in
  if negb (String.length s =? sha256HexLen)%nat then Err errorf
  else match hex.DecodeString s with Err _ => Err errorf | Ok _ => Ok s end.

(** [isSHA256HexLower] (launch.go): the loop ranges over runes, and no rune
    above 127 is a digit, so it agrees with a loop over bytes. *)
Definition isSHA256HexLower (s : string) : bool :=
  if negb (String.length s =? sha256HexLen)%nat then false
  else forallb hex.is_lower_digit (chars s).

(** ** PeerAddress *)

(** [strings.SplitN(s, "@", 2)], then the regular expression
    [^[a-f0-9]{40}$]. *)
Definition nodeIDPattern (s : list ascii) : bool :=
  (length s =? 40)%nat && forallb hex.is_lower_digit s.

Definition NewPeerAddress (s : string) : result string :=
  let l := chars s in
  match net.index 64 l with
  | None => Err errorf
  | Some i =>
      if negb (nodeIDPattern (take i l)) then Err errorf
      else
        match net.SplitHostPort (of_chars (drop (S i) l)) with
        | Err e => Err e
        | Ok (host, portStr) =>
            if is_empty host then Err errorf
            else
              match strconv.Atoi portStr with
              | Err _ => Err errorf
              | Ok port =>
                  if (port <? 1) || (65535 <? port) then Err errorf else Ok s
              end
        end
  end.

(** ** RPCEndpoint *)
Definition http_scheme (s : string) : bool :=
  bool_decide (s = "http") || bool_decide (s = "https").

Definition NewRPCEndpoint `{NetURL} (s : string) : result string :=
  if is_empty s then Err errorf
  else
    match url_ParseRequestURI s with
    | Err e => Err e
    | Ok u =>
        if negb (http_scheme (u_Scheme u)) then Err errorf
        else if is_empty (u_Host u) then Err errorf
        else Ok s
    end.

(** [IsValidHTTPURL] (launch.go) *)
Definition IsValidHTTPURL `{NetURL} (s : string) : bool :=
  match url_Parse s with
  | Err _ => false
  | Ok u => http_scheme (u_Scheme u) && negb (is_empty (u_Host u))
  end.

(** ** Signature *)
Definition NewSignature (s : string) : result string :=
  if is_empty s then Err errorf
  else
    match base64.DecodeString s with
    | Err e => Err e
    | Ok b => if negb (String.length b =? secp256k1SigLen)%nat then Err errorf else Ok s
    end.

(** ** CommissionRate *)
Record CommissionRate : Type := mkCommissionRate {
  cr_value : string;
  cr_f : float64 }.

Definition NewCommissionRate (s : string) : result CommissionRate :=
  match ParseFloat.run s with
  | Err e => Err e
  | Ok f =>
      if f64_ltb f (F_fin 0) || f64_ltb (F_fin 1) f then Err errorf
      else Ok (mkCommissionRate s f)
  end.

Definition rate_LessThanOrEqual (c other : CommissionRate) : bool :=
  f64_leb (cr_f c) (cr_f other).

(** ** Members list *)
Record Member : Type := mkMember {
  m_Address : AccountID;
  m_Label : string;
  m_AddedBy : string;
  m_AddedAt : time.Time }.

Record memberMeta : Type := mkMeta {
  mm_display : string;
  mm_label : string;
  mm_addedBy : string;
  mm_addedAt : time.Time }.

#[global] Instance memberMeta_eq_dec : EqDecision memberMeta.
Proof. solve_decision. Defined.

Definition Allowlist : Type := gmap string memberMeta.
#[global] Typeclasses Transparent Allowlist.

Definition meta_of (mem : Member) : memberMeta :=
  mkMeta (account_String (m_Address mem)) (m_Label mem) (m_AddedBy mem) (m_AddedAt mem).

Definition NewAllowlist (addresses : list AccountID) : Allowlist :=
  foldl (λ m a, <[account_Hex a := mkMeta (account_String a) "" "" time.zeroTime]> m)
        ∅ addresses.

Definition NewAllowlistFromMembers (members : list Member) : Allowlist :=
  foldl (λ m mem, <[account_Hex (m_Address mem) := meta_of mem]> m) ∅ members.

(** [Allowlist.Contains] *)
Definition al_Contains (al : Allowlist) (addr : AccountID) : bool :=
  bool_decide (is_Some (al !! account_Hex addr)).

(** [Allowlist.Label] *)
Definition al_Label (al : Allowlist) (addr : AccountID) : string :=
  match al !! account_Hex addr with Some v => mm_label v | None => "" end.

(** [Allowlist.AddMember], [Allowlist.Add] *)
Definition al_AddMember (al : Allowlist) (mem : Member) : Allowlist :=
  <[account_Hex (m_Address mem) := meta_of mem]> al.
Definition al_Add (al : Allowlist) (addr : AccountID) : Allowlist :=
  al_AddMember al (mkMember addr "" "" time.zeroTime).

(** [Allowlist.Remove] *)
Definition al_Remove (al : Allowlist) (addr : AccountID) : Allowlist :=
  delete (account_Hex addr) al.

(** [out[i].acct < out[j].acct], as the non-strict order the sort realises. *)
Definition key_le {A} (x y : string * A) : Prop :=
  strings.ltb (fst y) (fst x) = false.
#[global] Instance key_le_dec {A} : RelDecision (@key_le A).
Proof. intros x y. unfold key_le. apply _. Defined.

(** [Allowlist.Members], [Allowlist.Addresses], [Allowlist.Len]: map iteration
    order does not matter because the result is sorted by the (unique) key. *)
Definition sorted_entries (al : Allowlist) : list (string * memberMeta) :=
  merge_sort key_le (map_to_list al).
Definition al_Members (al : Allowlist) : list Member :=
  (λ kv : string * memberMeta,
     mkMember (mkAccountID kv.1 (mm_display kv.2)) (mm_label kv.2)
              (mm_addedBy kv.2) (mm_addedAt kv.2)) <$> sorted_entries al.
Definition al_Addresses (al : Allowlist) : list AccountID :=
  (λ kv : string * memberMeta, mkAccountID kv.1 (mm_display kv.2))
    <$> sorted_entries al.
Definition al_Len (al : Allowlist) : Z := Z.of_nat (size al).
