(* ===== verification/LaunchAgg.v ===== *)
(** * The Launch aggregate (src/internal/domain/launch)

    The chain-launch lifecycle, its committee, members list, curated
    allocation files and committed voting power, with one definition per
    method of [launch.go].  A method with a pointer receiver that returns an
    error becomes a function to [result Launch]: every guard of the source
    precedes its first assignment, so an error leaves the launch unchanged.
    [time.Now().UTC()] is the argument [now]. *)

From S2P Require Import Prelude GoStd GoFloat Values.
#[global] Open Scope Z_scope.

Module launch.

(** ** Data *)
Inductive Status : Type :=
  | StatusDraft | StatusPublished | StatusWindowOpen | StatusWindowClosed
  | StatusGenesisReady | StatusLaunched | StatusCancelled.

#[global] Instance Status_eq_dec : EqDecision Status.
Proof. solve_decision. Defined.

(** [LaunchType] is an open string type: it is stored as given. *)
Inductive LaunchType : Type :=
  | LaunchTypeTestnet | LaunchTypeIncentivizedTestnet | LaunchTypeMainnet
  | LaunchTypePermissioned | LaunchTypeOther (s : string).

#[global] Instance LaunchType_eq_dec : EqDecision LaunchType.
Proof. solve_decision. Defined.

Record CommitteeMember : Type := mkCM {
  cm_Address : AccountID;
  cm_Moniker : string }.

#[global] Instance CommitteeMember_eq_dec : EqDecision CommitteeMember.
Proof. solve_decision. Defined.

Record Committee : Type := mkCommittee {
  c_ID : uuid;
  c_Members : list CommitteeMember;
  c_ThresholdM : Z;
  c_TotalN : Z;
  c_LeadAddress : AccountID;
  c_CreatedAt : time.Time }.

#[global] Instance Committee_eq_dec : EqDecision Committee.
Proof. solve_decision. Defined.

Record ChainRecord : Type := mkRecord {
  r_ChainID : string;
  r_ChainName : string;
  r_Bech32Prefix : string;
  r_BinaryName : string;
  r_BinaryVersion : string;
  r_BinarySHA256 : string;
  r_RepoURL : string;
  r_RepoCommit : string;
  r_GenesisTime : option time.Time;
  r_Denom : string;
  r_MinSelfDelegation : string;
  r_TotalSupply : string;
  r_MaxCommissionRate : CommissionRate;
  r_MaxCommissionChangeRate : CommissionRate;
  r_GentxDeadline : time.Time;
  r_MinValidatorCount : Z }.

(** allocation.go.  The type arrives as a string from the API and from
    proposal payloads, so unknown values exist. *)
Inductive AllocationType : Type :=
  | AllocationAccounts | AllocationClaims | AllocationGrants
  | AllocationAuthz | AllocationFeegrant | AllocationOther (s : string).

#[global] Instance AllocationType_eq_dec : EqDecision AllocationType.
Proof. solve_decision. Defined.

(** Conversion [launch.AllocationType(s)]. *)
Definition AllocationType_of_string (s : string) : AllocationType :=
  if bool_decide (s = "accounts") then AllocationAccounts
  else if bool_decide (s = "claims") then AllocationClaims
  else if bool_decide (s = "grants") then AllocationGrants
  else if bool_decide (s = "authz") then AllocationAuthz
  else if bool_decide (s = "feegrant") then AllocationFeegrant
  else AllocationOther s.

Definition AllocationType_String (t : AllocationType) : string :=
  match t with
  | AllocationAccounts => "accounts" | AllocationClaims => "claims"
  | AllocationGrants => "grants" | AllocationAuthz => "authz"
  | AllocationFeegrant => "feegrant" | AllocationOther s => s
  end.

Definition ValidAllocationType (t : AllocationType) : bool :=
  match t with
  | AllocationAccounts | AllocationClaims | AllocationGrants
  | AllocationAuthz | AllocationFeegrant => true
  | AllocationOther _ => false
  end.

Inductive AllocationFileStatus : Type :=
  | AllocationPending | AllocationApproved | AllocationRejected.

#[global] Instance AllocationFileStatus_eq_dec : EqDecision AllocationFileStatus.
Proof. solve_decision. Defined.

Record AllocationFile : Type := mkAllocationFile {
  af_Type : AllocationType;
  af_SHA256 : string;
  af_Status : AllocationFileStatus;
  af_ApprovedByProposal : option uuid;
  af_UploadedAt : time.Time }.

#[global] Instance AllocationFile_eq_dec : EqDecision AllocationFile.
Proof. solve_decision. Defined.

Record Launch : Type := mkLaunch {
  l_ID : uuid;
  l_Record : ChainRecord;
  l_LaunchType : LaunchType;
  l_Allowlist : Allowlist;
  l_Status : Status;
  l_Committee : Committee;
  l_InitialGenesisSHA256 : string;
  l_FinalGenesisSHA256 : string;
  l_FinalGenesisInputSetHash : string;
  l_AllocationFiles : list AllocationFile;
  l_MonitorRPCURL : string;
  l_RehearsalServicePubKey : string;
  l_RehearsalEndpoint : string;
  l_CreatedAt : time.Time;
  l_UpdatedAt : time.Time;
  l_Version : Z;
  l_approvedVotingPower : gmap string Z }.

(** ** Field updates *)
Definition set_GenesisTime (t : option time.Time) (r : ChainRecord) : ChainRecord :=
  mkRecord (r_ChainID r) (r_ChainName r) (r_Bech32Prefix r) (r_BinaryName r)
    (r_BinaryVersion r) (r_BinarySHA256 r) (r_RepoURL r) (r_RepoCommit r) t
    (r_Denom r) (r_MinSelfDelegation r) (r_TotalSupply r) (r_MaxCommissionRate r)
    (r_MaxCommissionChangeRate r) (r_GentxDeadline r) (r_MinValidatorCount r).
Definition set_Record (r : ChainRecord) (l : Launch) : Launch :=
  let 'mkLaunch a _ c d e f g h i j k m n o p q v := l in
  mkLaunch a r c d e f g h i j k m n o p q v.
Definition set_LaunchType (t : LaunchType) (l : Launch) : Launch :=
  let 'mkLaunch a b _ d e f g h i j k m n o p q v := l in
  mkLaunch a b t d e f g h i j k m n o p q v.
Definition set_Allowlist (al : Allowlist) (l : Launch) : Launch :=
  let 'mkLaunch a b c _ e f g h i j k m n o p q v := l in
  mkLaunch a b c al e f g h i j k m n o p q v.
Definition set_Status (s : Status) (l : Launch) : Launch :=
  let 'mkLaunch a b c d _ f g h i j k m n o p q v := l in
  mkLaunch a b c d s f g h i j k m n o p q v.
Definition set_Committee (cm : Committee) (l : Launch) : Launch :=
  let 'mkLaunch a b c d e _ g h i j k m n o p q v := l in
  mkLaunch a b c d e cm g h i j k m n o p q v.
Definition set_InitialGenesisSHA256 (s : string) (l : Launch) : Launch :=
  let 'mkLaunch a b c d e f _ h i j k m n o p q v := l in
  mkLaunch a b c d e f s h i j k m n o p q v.
Definition set_FinalGenesisSHA256 (s : string) (l : Launch) : Launch :=
  let 'mkLaunch a b c d e f g _ i j k m n o p q v := l in
  mkLaunch a b c d e f g s i j k m n o p q v.
Definition set_FinalGenesisInputSetHash (s : string) (l : Launch) : Launch :=
  let 'mkLaunch a b c d e f g h _ j k m n o p q v := l in
  mkLaunch a b c d e f g h s j k m n o p q v.
Definition set_AllocationFiles (fs : list AllocationFile) (l : Launch) : Launch :=
  let 'mkLaunch a b c d e f g h i _ k m n o p q v := l in
  mkLaunch a b c d e f g h i fs k m n o p q v.
Definition set_Monitoring (mon key ep : string) (l : Launch) : Launch :=
  let 'mkLaunch a b c d e f g h i j _ _ _ o p q v := l in
  mkLaunch a b c d e f g h i j mon key ep o p q v.
Definition set_UpdatedAt (t : time.Time) (l : Launch) : Launch :=
  let 'mkLaunch a b c d e f g h i j k m n o _ q v := l in
  mkLaunch a b c d e f g h i j k m n o t q v.
Definition set_Version (z : Z) (l : Launch) : Launch :=
  let 'mkLaunch a b c d e f g h i j k m n o p _ v := l in
  mkLaunch a b c d e f g h i j k m n o p z v.
Definition set_VotingPower (vp : gmap string Z) (l : Launch) : Launch :=
  let 'mkLaunch a b c d e f g h i j k m n o p q _ := l in
  mkLaunch a b c d e f g h i j k m n o p q vp.

(** [touch] *)
Definition touch (now : time.Time) (l : Launch) : Launch := set_UpdatedAt now l.

(** ** Committee membership *)
Definition HasMember (c : Committee) (addr : AccountID) : bool :=
  existsb (λ m, account_Equal (cm_Address m) addr) (c_Members c).

Definition IsVisibleToAddr (l : Launch) (addr : AccountID) : bool :=
  HasMember (l_Committee l) addr || al_Contains (l_Allowlist l) addr.

Definition IsVisibleTo `{Bech32} (l : Launch) (addr : string) : bool :=
  if is_empty addr then false
  else match NewAccountID addr with
       | Err _ => false
       | Ok validated => IsVisibleToAddr l validated
       end.

(** ** Committed voting power *)

(** [big.Int.BitLen] and the precision [big.Float.SetInt] picks. *)
Definition bit_len (z : Z) : Z := if z =? 0 then 0 else Z.log2 (Z.abs z) + 1.
Definition setint_prec (z : Z) : Z := Z.max 64 (bit_len z).
(** [big.Float] exponents are 32-bit; no value here comes near the limit. *)
Definition bigfloat_emin : Z := - 2 ^ 31.

Definition bftSafetyThreshold : float64 := f64_of_Q (100 # 3).

(** [total.Add(total, p)] over the map. *)
Definition total_power (ps : list (string * Z)) : Z :=
  foldl (λ t kv, t + kv.2) 0 ps.

(** The loop that keeps the strictly largest power, starting from zero. *)
Definition dominant_scan (ps : list (string * Z)) : string * Z :=
  foldl (λ d kv, if d.2 <? kv.2 then kv else d) ("", 0) ps.

(** [dominantPower * 100 / total] in [big.Float], then [Float64()].
    [big.NewFloat(100)] has precision 53, below that of [SetInt]. *)
Definition pct_of (dominantPower total : Z) : float64 :=
  let p1 := setint_prec dominantPower in
  let scaled := round p1 bigfloat_emin (inject_Z (dominantPower * 100)) in
  let p2 := Z.max p1 (setint_prec total) in
  f64_of_Q (round p2 bigfloat_emin (scaled / inject_Z total)%Q).

(** [ps] is the order in which the map happens to be iterated. *)
Definition dominant_in (ps : list (string * Z)) : string * float64 :=
  let total := total_power ps in
  if total =? 0 then ("", F_fin 0)
  else let d := dominant_scan ps in (d.1, pct_of d.2 total).

Definition dominantVotingPowerPct (l : Launch) : string * float64 :=
  dominant_in (map_to_list (l_approvedVotingPower l)).

Definition displayAccount `{Bech32} (l : Launch) (accountHex : string) : string :=
  match account_Bech32 (mkAccountID accountHex "") (r_Bech32Prefix (l_Record l)) with
  | Err _ => accountHex
  | Ok s => s
  end.

(** The warning names the operator and the percentage; [None] is [""]. *)
Definition RecordValidatorApproval `{Bech32} (l : Launch) (op : AccountID) (sd : Z)
    : Launch * option (string * float64) :=
  let l' := set_VotingPower (<[account_Hex op := sd]> (l_approvedVotingPower l)) l in
  let (dominant, pct) := dominantVotingPowerPct l' in
  (l', if f64_leb bftSafetyThreshold pct
       then Some (displayAccount l' dominant, pct) else None).

Definition RemoveValidatorApproval (l : Launch) (op : AccountID) : Launch :=
  set_VotingPower (delete (account_Hex op) (l_approvedVotingPower l)) l.

Definition ApprovedVotingPowerOf (l : Launch) (op : AccountID) : Z :=
  default 0 (l_approvedVotingPower l !! account_Hex op).

Definition InitVotingPower (l : Launch) (powers : gmap string Z) : Launch :=
  set_VotingPower powers l.

(** ** Construction *)

(** The [big.Int] checks on [MinSelfDelegation] and [TotalSupply]. *)
Definition nonneg_decimal (s : string) : bool :=
  match strconv.SetString s with Some n => 0 <=? n | None => false end.

Definition validateChainRecord `{NetURL} (r : ChainRecord) : option sentinel :=
  if is_empty (r_ChainID r) then Some ErrChainIDRequired
  else if is_empty (r_Bech32Prefix r) then Some ErrBech32PrefixRequired
  else if is_empty (r_BinaryName r) then Some ErrBinaryNameRequired
  else if is_empty (r_Denom r) then Some ErrDenomRequired
  else if r_MinValidatorCount r <? 1 then Some ErrMinValidatorCountTooLow
  else if time.IsZero (r_GentxDeadline r) then Some ErrGentxDeadlineRequired
  else if negb (rate_LessThanOrEqual (r_MaxCommissionChangeRate r)
                                     (r_MaxCommissionRate r))
  then Some ErrCommissionChangeExceedsMax
  else if negb (is_empty (r_RepoURL r)) && negb (IsValidHTTPURL (r_RepoURL r))
  then Some ErrInvalidRepoURL
  else if negb (is_empty (r_BinarySHA256 r))
          && negb (isSHA256HexLower (r_BinarySHA256 r))
  then Some ErrInvalidBinarySHA256
  else if negb (is_empty (r_MinSelfDelegation r))
          && negb (nonneg_decimal (r_MinSelfDelegation r))
  then Some ErrInvalidMinSelfDelegation
  else if negb (is_empty (r_TotalSupply r))
          && negb (nonneg_decimal (r_TotalSupply r))
  then Some ErrInvalidTotalSupply
  else None.

(** [len(Members) == TotalN >= 1] is established before [Members[0]] is read. *)
Definition New `{NetURL} (id : uuid) (record : ChainRecord) (lt : LaunchType)
    (committee : Committee) (now : time.Time) : result Launch :=
  match validateChainRecord record with
  | Some e => Err [e]
  | None =>
      if (c_ThresholdM committee <? 1) || (c_TotalN committee <? c_ThresholdM committee)
      then Err [ErrCommitteeThresholdRange]
      else if negb (len (c_Members committee) =? c_TotalN committee)
      then Err [ErrCommitteeSizeMismatch]
      else
        match c_Members committee with
        | [] => Err errorf (* unreachable: TotalN >= 1 *)
        | m0 :: _ =>
            if negb (account_Equal (cm_Address m0) (c_LeadAddress committee))
            then Err [ErrLeadNotFirstMember]
            else Ok (mkLaunch id record lt ∅ StatusDraft committee "" "" "" []
                       "" "" "" now now 0 ∅)
        end
  end.

(** ** Lifecycle transitions *)
Definition Publish (l : Launch) (initialGenesisSHA256 : string) (now : time.Time)
    : result Launch :=
  if negb (bool_decide (l_Status l = StatusDraft))
  then Err [ErrInvalidStatusTransition]
  else if negb (isSHA256HexLower initialGenesisSHA256)
  then Err [ErrGenesisHashRequired]
  else Ok (touch now (set_Status StatusPublished
             (set_InitialGenesisSHA256 initialGenesisSHA256 l))).

Definition OpenWindow (l : Launch) (now : time.Time) : result Launch :=
  if negb (bool_decide (l_Status l = StatusPublished))
  then Err [ErrInvalidStatusTransition]
  else Ok (touch now (set_Status StatusWindowOpen l)).

Definition CloseWindow (l : Launch) (approvedCount : Z) (now : time.Time)
    : result Launch :=
  if negb (bool_decide (l_Status l = StatusWindowOpen))
  then Err [ErrInvalidStatusTransition]
  else if approvedCount <? r_MinValidatorCount (l_Record l)
  then Err [ErrInsufficientValidators]
  else
    let (_, pct) := dominantVotingPowerPct l in
    if f64_leb bftSafetyThreshold pct then Err [ErrDominantVotingPower]
    else Ok (touch now (set_Status StatusWindowClosed l)).

Definition PublishGenesis (l : Launch) (finalGenesisSHA256 : string) (now : time.Time)
    : result Launch :=
  if negb (bool_decide (l_Status l = StatusWindowClosed))
  then Err [ErrInvalidStatusTransition]
  else if negb (isSHA256HexLower finalGenesisSHA256)
  then Err [ErrGenesisHashRequired]
  else Ok (touch now (set_Status StatusGenesisReady
             (set_FinalGenesisSHA256 finalGenesisSHA256 l))).

Definition Cancel (l : Launch) (now : time.Time) : result Launch :=
  if bool_decide (l_Status l = StatusCancelled) then Err [ErrInvalidStatusTransition]
  else if bool_decide (l_Status l = StatusLaunched)
  then Err [ErrInvalidStatusTransition]
  else Ok (touch now (set_Status StatusCancelled l)).

Definition ReopenForRevision (l : Launch) (now : time.Time) : result Launch :=
  if negb (bool_decide (l_Status l = StatusGenesisReady))
  then Err [ErrInvalidStatusTransition]
  else Ok (touch now (set_Status StatusWindowClosed (set_FinalGenesisSHA256 "" l))).

Definition MarkLaunched (l : Launch) (now : time.Time) : result Launch :=
  if negb (bool_decide (l_Status l = StatusGenesisReady))
  then Err [ErrInvalidStatusTransition]
  else Ok (touch now (set_Status StatusLaunched l)).

Definition EnsureOpenForApplications (l : Launch) : result unit :=
  if negb (bool_decide (l_Status l = StatusWindowOpen))
  then Err [ErrWindowNotOpen] else Ok tt.

(** ** Members list *)
Definition membersEditable (l : Launch) : bool :=
  match l_Status l with
  | StatusDraft | StatusPublished | StatusWindowOpen => true
  | StatusWindowClosed | StatusGenesisReady | StatusLaunched | StatusCancelled => false
  end.

Definition AddMember (l : Launch) (m : Member) : result Launch :=
  if negb (membersEditable l) then Err [ErrMembersNotEditable]
  else Ok (set_Allowlist (al_AddMember (l_Allowlist l) m) l).

Definition RemoveMember (l : Launch) (addr : AccountID) : result Launch :=
  if negb (membersEditable l) then Err [ErrMembersNotEditable]
  else if negb (al_Contains (l_Allowlist l) addr) then Err [ErrNotAMember]
  else Ok (set_Allowlist (al_Remove (l_Allowlist l) addr) l).

(** ** Committee changes *)
Definition set_Members (ms : list CommitteeMember) (lead : AccountID) (c : Committee)
    : Committee :=
  mkCommittee (c_ID c) ms (c_ThresholdM c) (c_TotalN c) lead (c_CreatedAt c).

Definition member_is (addr : AccountID) (m : CommitteeMember) : bool :=
  account_Equal (cm_Address m) addr.

Definition ReplaceCommitteeMember (l : Launch) (oldAddr : AccountID)
    (newMember : CommitteeMember) (now : time.Time) : result Launch :=
  let c := l_Committee l in
  match find_index (member_is oldAddr) (c_Members c) with
  | None => Err [ErrCommitteeMemberNotFound]
  | Some i =>
      let lead := if account_Equal (c_LeadAddress c) oldAddr
                  then cm_Address newMember else c_LeadAddress c in
      Ok (touch now (set_Committee
            (set_Members (<[i := newMember]> (c_Members c)) lead c) l))
  end.

Definition ExpandCommittee (l : Launch) (newMember : CommitteeMember)
    (newThresholdM : Z) (now : time.Time) : result Launch :=
  let c := l_Committee l in
  if existsb (member_is (cm_Address newMember)) (c_Members c)
  then Err [ErrCommitteeMemberExists]
  else
    let newN := len (c_Members c) + 1 in
    if newThresholdM <? 1 then Err [ErrInvalidCommitteeChange]
    else if newN <=? newThresholdM then Err [ErrInvalidCommitteeChange]
    else Ok (touch now (set_Committee
               (mkCommittee (c_ID c) (c_Members c ++ [newMember]) newThresholdM newN
                            (c_LeadAddress c) (c_CreatedAt c)) l)).

Definition ShrinkCommittee (l : Launch) (removeAddr : AccountID)
    (newThresholdM : Z) (now : time.Time) : result Launch :=
  let c := l_Committee l in
  match find_index (member_is removeAddr) (c_Members c) with
  | None => Err [ErrCommitteeMemberNotFound]
  | Some idx =>
      let newN := len (c_Members c) - 1 in
      if newN <? 1 then Err [ErrInvalidCommitteeChange]
      else if newThresholdM <? 1 then Err [ErrInvalidCommitteeChange]
      else if newN <=? newThresholdM then Err [ErrInvalidCommitteeChange]
      else
        let ms := delete idx (c_Members c) in
        let lead := if account_Equal (c_LeadAddress c) removeAddr
                    then match ms with m :: _ => cm_Address m | [] => c_LeadAddress c end
                    else c_LeadAddress c in
        Ok (touch now (set_Committee
              (mkCommittee (c_ID c) ms newThresholdM newN lead (c_CreatedAt c)) l))
  end.

(** ** Allocation files *)
Definition allocationLocked (l : Launch) : bool :=
  match l_Status l with
  | StatusGenesisReady | StatusLaunched | StatusCancelled => true
  | _ => false
  end.

Definition type_is (t : AllocationType) (f : AllocationFile) : bool :=
  bool_decide (af_Type f = t).

Definition AllocationFileOf (l : Launch) (t : AllocationType) : option AllocationFile :=
  List.find (type_is t) (l_AllocationFiles l).

Definition UploadAllocationFile (l : Launch) (t : AllocationType) (sha256 : string)
    (now : time.Time) : result Launch :=
  if allocationLocked l then Err [ErrAllocationLocked]
  else if negb (ValidAllocationType t) then Err [ErrUnknownAllocationType]
  else if negb (isSHA256HexLower sha256) then Err [ErrAllocationEmptyHash]
  else
    let f := mkAllocationFile t sha256 AllocationPending None now in
    match find_index (type_is t) (l_AllocationFiles l) with
    | Some i => Ok (touch now (set_AllocationFiles (<[i := f]> (l_AllocationFiles l)) l))
    | None => Ok (touch now (set_AllocationFiles (l_AllocationFiles l ++ [f]) l))
    end.

Definition mark_file (st : AllocationFileStatus) (by_ : option uuid) (f : AllocationFile)
    : AllocationFile :=
  mkAllocationFile (af_Type f) (af_SHA256 f) st by_ (af_UploadedAt f).

Definition ApproveAllocationFile (l : Launch) (t : AllocationType) (hash : string)
    (proposalID : uuid) (now : time.Time) : result Launch :=
  if allocationLocked l then Err [ErrAllocationLocked]
  else
    match find_index (type_is t) (l_AllocationFiles l) with
    | None => Err [ErrAllocationNotFound]
    | Some i =>
        match l_AllocationFiles l !! i with
        | None => Err [ErrAllocationNotFound]
        | Some f =>
            if negb (bool_decide (af_SHA256 f = hash)) then Err [ErrAllocationStaleHash]
            else Ok (touch now (set_AllocationFiles
                   (<[i := mark_file AllocationApproved (Some proposalID) f]>
                      (l_AllocationFiles l)) l))
        end
    end.

(** Returns whether a file was moved to REJECTED. *)
Definition RejectAllocationFile (l : Launch) (t : AllocationType) (hash : string)
    (now : time.Time) : Launch * bool :=
  match find_index (type_is t) (l_AllocationFiles l) with
  | None => (l, false)
  | Some i =>
      match l_AllocationFiles l !! i with
      | None => (l, false)
      | Some f =>
          if negb (bool_decide (af_SHA256 f = hash)) then (l, false)
          else (touch now (set_AllocationFiles
                  (<[i := mark_file AllocationRejected None f]>
                     (l_AllocationFiles l)) l), true)
      end
  end.

(** Guards are reasoned about through their specifications, not unfolded. *)
#[global] Arguments bftSafetyThreshold : simpl never.
#[global] Arguments dominantVotingPowerPct : simpl never.
#[global] Arguments pct_of : simpl never.
#[global] Arguments validateChainRecord : simpl never.
#[global] Arguments isSHA256HexLower : simpl never.
#[global] Arguments nonneg_decimal : simpl never.
#[global] Arguments account_Equal : simpl never.

End launch.
