(* ===== verification/Netutil.v ===== *)
(** * Host checks (src/internal/netutil/ssrf.go)

    The guard on URLs a user supplies, with the part of [net], [net/netip] and
    [net/url] it uses: parsing addresses and CIDR blocks, membership of an
    address in a block, and the host name of a URL.  Name resolution is the
    parameter [Resolver]; parsing a URL stays the parameter [NetURL]. *)

From S2P Require Import Prelude GoStd Values.
#[global] Open Scope Z_scope.

(** [net.DefaultResolver.LookupHost] *)
Class Resolver : Type := { LookupHost : string → result (list string) }.

(** ** net/netip: [ParseAddr]

    An address is the list of its bytes, four of them or sixteen. *)
Module netip.

(** [parseIPv4Fields]: dotted decimal, no empty field, no leading zero.  The
    state of the loop is the fields read, the value and the length of the
    current one. *)
Definition dec_digit (c : ascii) : option Z := strconv.digit_val c.

Fixpoint ipv4_fields (fields : list Z) (val digLen : Z) (l : list ascii) : result (list Z) :=
  match l with
  | [] =>
      if (digLen =? 0) || (len fields <? 3) then Err errorf else Ok (fields ++ [val])
  | c :: l =>
      match dec_digit c with
      | Some d =>
          if (digLen =? 1) && (val =? 0) then Err errorf
          else if 255 <? val * 10 + d then Err errorf
          else ipv4_fields fields (val * 10 + d) (digLen + 1) l
      | None =>
          if negb (net.is_char 46 c) then Err errorf
          else if (digLen =? 0) || (len fields =? 3) then Err errorf
          else ipv4_fields (fields ++ [val]) 0 0 l
      end
  end.
Definition parseIPv4 (l : list ascii) : result (list Z) := ipv4_fields [] 0 0 l.

(** A run of hexadecimal digits: its value, its length and what follows. *)
Fixpoint hex_run (acc off : Z) (l : list ascii) : Z * Z * list ascii :=
  match l with
  | [] => (acc, off, [])
  | c :: l1 =>
      match hex.digit_val c with
      | Some d => hex_run (acc * 16 + Z.of_nat d) (off + 1) l1
      | None => (acc, off, l)
      end
  end.

(** The loop of [parseIPv6] over the sixteen-bit groups.  [ip] are the bytes
    read, [ellipsis] the position of the [::]; every round consumes at least a
    digit, so the length of the text is enough fuel. *)
Fixpoint ipv6_groups (fuel : nat) (ip : list Z) (ellipsis : option nat) (l : list ascii)
    : result (list Z * option nat) :=
  match fuel with
  | O => Err errorf
  | S fuel =>
      let '(acc, off, rest) := hex_run 0 0 l in
      if 4 <? off then Err errorf
      else if off =? 0 then Err errorf
      else if match rest with c :: _ => net.is_char 46 c | [] => false end then
        if match ellipsis with None => negb (length ip =? 12)%nat | Some _ => false end
        then Err errorf
        else if (16 <? length ip + 4)%nat then Err errorf
        else v4 ← parseIPv4 l; Ok (ip ++ v4, ellipsis)
      else
        let ip := ip ++ [acc / 256; acc mod 256] in
        match rest with
        | [] => Ok (ip, ellipsis)
        | c :: rest1 =>
            if negb (net.is_char 58 c) then Err errorf
            else match rest1 with
                 | [] => Err errorf
                 | c1 :: rest2 =>
                     if net.is_char 58 c1 then
                       match ellipsis with
                       | Some _ => Err errorf
                       | None =>
                           match rest2 with
                           | [] => Ok (ip, Some (length ip))
                           | _ => if (16 <=? length ip)%nat then Err errorf
                                  else ipv6_groups fuel ip (Some (length ip)) rest2
                           end
                       end
                     else if (16 <=? length ip)%nat then Err errorf
                     else ipv6_groups fuel ip ellipsis rest1
                 end
        end
  end.

(** The [::] stands for at least one group of zeros. *)
Definition expand (ip : list Z) (ellipsis : option nat) : result (list Z) :=
  if (length ip <? 16)%nat then
    match ellipsis with
    | None => Err errorf
    | Some i => Ok (take i ip ++ replicate (16 - length ip) 0 ++ drop i ip)
    end
  else match ellipsis with Some _ => Err errorf | None => Ok ip end.

Definition ipv6_body (l : list ascii) : result (list Z) :=
  match l with
  | c :: c1 :: rest =>
      if net.is_char 58 c && net.is_char 58 c1 then
        match rest with
        | [] => Ok (replicate 16 0)
        | _ => '(ip, e) ← ipv6_groups (S (length rest)) [] (Some 0%nat) rest; expand ip e
        end
      else '(ip, e) ← ipv6_groups (S (length l)) [] None l; expand ip e
  | _ => '(ip, e) ← ipv6_groups (S (length l)) [] None l; expand ip e
  end.

(** The zone is split off first; it may not be empty. *)
Definition parseIPv6 (l : list ascii) : result (list Z * string) :=
  match net.index 37 l with
  | None => ip ← ipv6_body l; Ok (ip, ""%string)
  | Some i =>
      if is_empty (of_chars (drop (S i) l)) then Err errorf
      else ip ← ipv6_body (take i l); Ok (ip, of_chars (drop (S i) l))
  end.

(** The first of [.], [:] and [%] decides. *)
Fixpoint ParseAddr_at (all l : list ascii) : result (list Z * string) :=
  match l with
  | [] => Err errorf
  | c :: l =>
      if net.is_char 46 c then ip ← parseIPv4 all; Ok (ip, ""%string)
      else if net.is_char 58 c then parseIPv6 all
      else if net.is_char 37 c then Err errorf
      else ParseAddr_at all l
  end.
Definition ParseAddr (s : string) : result (list Z * string) := ParseAddr_at (chars s) (chars s).

End netip.

Module ip.

(** [net.ParseIP]: no zone; the result has sixteen bytes, an IPv4 address as
    its mapped form. *)
Definition v4_prefix : list Z := replicate 10 0 ++ [255; 255].
Definition As16 (ip : list Z) : list Z := if (length ip =? 4)%nat then v4_prefix ++ ip else ip.
Definition ParseIP (s : string) : option (list Z) :=
  match netip.ParseAddr s with
  | Ok (ip, zone) => if is_empty zone then Some (As16 ip) else None
  | Err _ => None
  end.

(** [IP.To4] *)
Definition To4 (ip : list Z) : option (list Z) :=
  if (length ip =? 4)%nat then Some ip
  else if (length ip =? 16)%nat && bool_decide (take 12 ip = v4_prefix) then Some (drop 12 ip)
  else None.

Record IPNet : Type := mkIPNet { n_IP : list Z; n_Mask : list Z }.

(** [net.CIDRMask(n, bits)]: [n] ones, as bytes. *)
Definition CIDRMask (n : Z) (bytes : nat) : list Z :=
  (λ i : nat, let k := Z.max 0 (Z.min 8 (n - 8 * Z.of_nat i)) in 256 - 2 ^ (8 - k)) <$> seq 0 bytes.

Definition mask_ip (ip mask : list Z) : list Z := zip_with Z.land ip mask.

(** [net.ParseCIDR] *)
Definition ParseCIDR (s : string) : result IPNet :=
  match net.index 47 (chars s) with
  | None => Err errorf
  | Some i =>
      match netip.ParseAddr (of_chars (take i (chars s))) with
      | Err _ => Err errorf
      | Ok (ip, zone) =>
          if negb (is_empty zone) then Err errorf
          else match strconv.digits (drop (S i) (chars s)) with
               | None => Err errorf
               | Some n =>
                   if 8 * len ip <? n then Err errorf
                   else let m := CIDRMask n (length ip) in Ok (mkIPNet (mask_ip ip m) m)
               end
      end
  end.

(** [IPNet.Contains], with [networkNumberAndMask]: an IPv4 address is compared
    by its four bytes, and only with a network of that size. *)
Fixpoint same_network (nn m ip : list Z) : bool :=
  match nn, m, ip with
  | n0 :: nn, m0 :: m, i0 :: ip =>
      (Z.land n0 m0 =? Z.land i0 m0) && same_network nn m ip
  | _, _, _ => true
  end.
Definition Contains (n : IPNet) (ip0 : list Z) : bool :=
  let nn := default (n_IP n) (To4 (n_IP n)) in
  let ip := default ip0 (To4 ip0) in
  (length ip =? length nn)%nat && same_network nn (n_Mask n) ip.

End ip.

(** ** [URL.Hostname] *)
Module url.

Definition validOptionalPort (l : list ascii) : bool :=
  match l with
  | [] => true
  | c :: l => net.is_char 58 c && forallb (λ d, if strconv.digit_val d is Some _ then true else false) l
  end.

Definition bracketed (l : list ascii) : bool :=
  match l with c :: _ => net.is_char net.lbrack c | [] => false end
  && match rev l with c :: _ => net.is_char net.rbrack c | [] => false end.

Definition Hostname (u : URL) : string :=
  let h := chars (u_Host u) in
  let h := match net.last_index 58 h with
           | Some i => if validOptionalPort (drop i h) then take i h else h
           | None => h
           end in
  of_chars (if bracketed h then take (length h - 2) (drop 1 h) else h).

End url.

(** ** ssrf.go *)
Module netutil.

Definition cidrs : list string :=
  ["10.0.0.0/8"; "172.16.0.0/12"; "192.168.0.0/16"; "127.0.0.0/8"; "169.254.0.0/16";
   "100.64.0.0/10"; "0.0.0.0/8"; "224.0.0.0/4"; "::1/128"; "::/128"; "fc00::/7"; "fe80::/10";
   "ff00::/8"].

(** [None] is the panic on a malformed block. *)
Fixpoint parse_ranges (cs : list string) : option (list ip.IPNet) :=
  match cs with
  | [] => Some []
  | c :: cs =>
      match ip.ParseCIDR c with
      | Ok n => ns ← parse_ranges cs; Some (n :: ns)
      | Err _ => None
      end
  end.
Definition mustParsePrivateRanges : option (list ip.IPNet) := parse_ranges cidrs.
Definition privateRanges : list ip.IPNet := default [] mustParsePrivateRanges.

Section checks.
Context `{NU : NetURL} `{RES : Resolver}.

Definition checked_host (rawURL : string) : result string :=
  u ← url_Parse rawURL;
  if negb (http_scheme (u_Scheme u)) then Err errorf
  else if is_empty (url.Hostname u) then Err errorf
  else Ok (url.Hostname u).

Definition ValidateRPCURLFormat (rawURL : string) : result unit :=
  if is_empty rawURL then Ok tt
  else _ ← checked_host rawURL; Ok tt.

(** The loop over the resolved addresses; one that does not parse is skipped. *)
Definition reserved (addr : string) : bool :=
  match ip.ParseIP addr with
  | None => false
  | Some a => existsb (λ n, ip.Contains n a) privateRanges
  end.

Definition ValidateRPCURL (rawURL : string) : result unit :=
  if is_empty rawURL then Ok tt
  else
    host ← checked_host rawURL;
    addrs ← LookupHost host;
    match addrs with
    | [] => Err errorf
    | _ => if existsb reserved addrs then Err errorf else Ok tt
    end.

End checks.
End netutil.
