(* ===== verification/Fixtures.v ===== *)
(** * Concrete instances and sample data

    A small address codec and URL parser that make the parametrised
    development executable, and sample values used by the witnesses of the
    theorems. The codec is [<hrp>1<data>], with data taken as account bytes. *)

From S2P Require Import Prelude GoStd GoFloat Values LaunchAgg.
#[global] Open Scope Z_scope.

Module fixtures.

Definition toy_decode (s : string) (limit : Z) : result (string * bytes) :=
  match net.index 49 (chars s) with
  | None => Err errorf
  | Some i =>
      if limit <? Z.of_nat (String.length s) then Err errorf
      else Ok (of_chars (take i (chars s)), of_chars (drop (S i) (chars s)))
  end.

Definition toy_bech32 : Bech32 := {|
  bech32_Decode := toy_decode;
  bech32_ConvertBits := λ d _ _ _, Ok d;
  bech32_Encode := λ hrp d, Ok (of_chars (chars hrp ++ ascii_of_nat 49 :: chars d)) |}.

Definition toy_parse (s : string) : result URL :=
  if strings.HasPrefix s "https://"
  then Ok (mkURL "https" (of_chars (drop 8 (chars s)))) else Err errorf.

Definition toy_url : NetURL := {|
  url_Parse := toy_parse; url_ParseRequestURI := toy_parse |}.

Definition alice : AccountID := mkAccountID (hex.EncodeToString "alice") "cosmos1alice".
Definition bob : AccountID := mkAccountID (hex.EncodeToString "bob") "cosmos1bob".
Definition carol : AccountID := mkAccountID (hex.EncodeToString "carol") "osmo1carol".
Definition dave : AccountID := mkAccountID (hex.EncodeToString "dave") "osmo1dave".

Definition rate (q : Q) : CommissionRate := mkCommissionRate "" (F_fin q).

Definition day : Z := 24 * time.Hour.
Definition t0 : time.Time := 20000 * day.

Definition record : launch.ChainRecord :=
  launch.mkRecord "chain-1" "Chain" "cosmos" "chaind" "v1" "" "" "" None "utok" "1" ""
    (rate (1 # 5)) (rate (1 # 100)) (t0 + 10 * day) 1.

Definition member (a : AccountID) : launch.CommitteeMember := launch.mkCM a "m".

Definition committee : launch.Committee :=
  launch.mkCommittee 7%N [member alice; member bob; member carol] 2 3 alice t0.

Definition hash64 : string :=
  "0123456789abcdef0123456789abcdef0123456789abcdef0123456789abcdef".
Definition hash64' : string :=
  "ffff456789abcdef0123456789abcdef0123456789abcdef0123456789abcdef".

(** A launch in the given status, with the given committed power. *)
Definition launch_in (s : launch.Status) (vp : gmap string Z) : launch.Launch :=
  launch.mkLaunch 1%N record launch.LaunchTypeTestnet ∅ s committee
    hash64 "" "" [] "" "" "" t0 t0 1 vp.

Definition four_equal : gmap string Z :=
  <[acct alice := 25]> (<[acct bob := 25]> (<[acct carol := 25]> (<[acct dave := 25]> ∅))).

Definition draft : launch.Launch :=
  launch.mkLaunch 1%N record launch.LaunchTypeTestnet ∅ launch.StatusDraft committee
    "" "" "" [] "" "" "" t0 t0 0 ∅.

End fixtures.
