(* ===== verification/NetutilProps.v ===== *)
(** * What the host guard blocks

    Membership in a CIDR block is membership in an interval of address values,
    so the thirteen blocks are thirteen intervals; a URL the guard accepts has
    an HTTP host none of whose resolved addresses lies in one of them.  An
    address with a zone is not looked at. *)

From S2P Require Import Prelude GoStd Values Netutil Fixtures.
#[global] Open Scope Z_scope.

Definition byte (z : Z) : Prop := 0 ≤ z < 256.

(** The value of a big-endian address. *)
Fixpoint value (ip : list Z) : Z :=
  match ip with [] => 0 | b :: ip => b * 256 ^ len ip + value ip end.

Lemma value_bound ip : Forall byte ip → 0 ≤ value ip < 256 ^ len ip.
Proof.
  induction 1 as [|b ip Hb _ IH]; [done|]. cbn [value]. unfold byte in Hb.
  replace (len (b :: ip)) with (1 + len ip) by (cbn [length]; lia).
  rewrite Z.pow_add_r by lia. change (256 ^ 1) with 256. nia.
Qed.

(** ** Blocks are intervals *)

(** The bits of a mask byte keep the high bits of a byte. *)
Definition mask_byte (k : Z) : Z := 256 - 2 ^ (8 - k).
Definition mask_byte_ok (k x : Z) : bool := Z.land x (mask_byte k) =? x / 2 ^ (8 - k) * 2 ^ (8 - k).

Lemma mask_byte_all :
  forallb (λ k, forallb (λ x, mask_byte_ok (Z.of_nat k) (Z.of_nat x)) (seq 0 256)) (seq 0 9) = true.
Proof. vm_compute. reflexivity. Qed.

Lemma land_mask_byte k x :
  0 ≤ k ≤ 8 → byte x → Z.land x (mask_byte k) = x / 2 ^ (8 - k) * 2 ^ (8 - k).
Proof.
  intros Hk Hx. unfold byte in Hx. pose proof mask_byte_all as H. rewrite forallb_forall in H.
  specialize (H (Z.to_nat k)). rewrite in_seq, forallb_forall in H.
  specialize (H ltac:(lia) (Z.to_nat x)). rewrite in_seq in H. specialize (H ltac:(lia)).
  rewrite !Z2Nat.id in H by lia. by apply Z.eqb_eq in H.
Qed.

(** Two numbers agree above bit [j] of their last [m] digits. *)
Definition agree (j x y : Z) : Prop := x / 2 ^ j = y / 2 ^ j.

Lemma agree_byte k x y :
  0 ≤ k ≤ 8 → byte x → byte y →
  (Z.land x (mask_byte k) =? Z.land y (mask_byte k)) = true ↔ agree (8 - k) x y.
Proof.
  intros Hk Hx Hy. rewrite Z.eqb_eq, !land_mask_byte by done. unfold agree.
  assert (0 < 2 ^ (8 - k)) by (apply Z.pow_pos_nonneg; lia). nia.
Qed.

Definition mask_at (n : Z) (i : nat) : Z := mask_byte (Z.max 0 (Z.min 8 (n - 8 * Z.of_nat i))).

Lemma CIDRMask_cons n k : ip.CIDRMask n (S k) = mask_at n 0 :: ip.CIDRMask (n - 8) k.
Proof.
  unfold ip.CIDRMask. cbn [seq fmap list_fmap]. f_equal.
  rewrite <- (fmap_S_seq 0 k), <- list_fmap_compose. apply list_fmap_ext. intros i x _. cbn.
  do 3 f_equal. lia.
Qed.

Lemma mask_idem x n : byte x → Z.land (Z.land x (mask_at n 0)) (mask_at n 0) = Z.land x (mask_at n 0).
Proof. intros _. by rewrite <- Z.land_assoc, Z.land_diag. Qed.

(** A byte on top of [L] lower ones, shifted by more or less than those. *)
Lemma agree_high L k x y v w :
  0 ≤ L → 0 ≤ k → 0 ≤ v < 256 ^ L → 0 ≤ w < 256 ^ L →
  agree (8 * L + k) (x * 256 ^ L + v) (y * 256 ^ L + w) ↔ agree k x y.
Proof.
  intros HL Hk Hv Hw. unfold agree.
  replace (2 ^ (8 * L + k)) with (256 ^ L * 2 ^ k)
    by (rewrite Z.pow_add_r, Z.pow_mul_r by lia; done).
  assert (0 < 2 ^ k) by (apply Z.pow_pos_nonneg; lia).
  rewrite <- !Z.div_div by lia. rewrite !Z.div_add_l by lia.
  rewrite !(Z.div_small _ (256 ^ L)) by lia. by rewrite !Z.add_0_r.
Qed.

Lemma agree_low L j x y v w :
  0 ≤ j ≤ 8 * L → 0 ≤ v < 256 ^ L → 0 ≤ w < 256 ^ L →
  agree j (x * 256 ^ L + v) (y * 256 ^ L + w) ↔ x = y ∧ agree j v w.
Proof.
  intros Hj Hv Hw. unfold agree.
  assert (256 ^ L = 2 ^ (8 * L - j) * 2 ^ j) as E.
  { rewrite <- Z.pow_add_r by lia. replace (8 * L - j + j) with (8 * L) by lia.
    by rewrite Z.pow_mul_r by lia. }
  assert (0 < 2 ^ j) by (apply Z.pow_pos_nonneg; lia).
  assert (0 < 2 ^ (8 * L - j)) by (apply Z.pow_pos_nonneg; lia).
  rewrite E, !Z.mul_assoc, !Z.div_add_l by lia.
  assert (0 ≤ v / 2 ^ j < 2 ^ (8 * L - j)) as Hv'.
  { split; [apply Z.div_pos; lia|apply Z.div_lt_upper_bound; [lia|]]. rewrite Z.mul_comm. lia. }
  assert (0 ≤ w / 2 ^ j < 2 ^ (8 * L - j)) as Hw'.
  { split; [apply Z.div_pos; lia|apply Z.div_lt_upper_bound; [lia|]]. rewrite Z.mul_comm. lia. }
  split; [|intros [-> ->]; done]. intros Heq.
  assert (x = y) as ->.
  { transitivity ((x * 2 ^ (8 * L - j) + v / 2 ^ j) / 2 ^ (8 * L - j)).
    - apply (Z.div_unique_pos _ _ _ (v / 2 ^ j)); lia.
    - rewrite Heq. symmetry. apply (Z.div_unique_pos _ _ _ (w / 2 ^ j)); lia. }
  split; [done|lia].
Qed.

(** Comparing masked addresses compares their leading [n] bits. *)
Lemma same_network_value nn : ∀ n ip,
  Forall byte nn → Forall byte ip → length ip = length nn → n ≤ 8 * len nn →
  ip.same_network (ip.mask_ip nn (ip.CIDRMask n (length nn))) (ip.CIDRMask n (length nn)) ip = true
  ↔ agree (8 * len nn - Z.max 0 n) (value nn) (value ip).
Proof.
  induction nn as [|x nn IH]; intros n [|y l] Hx Hy Hlen Hn; try done.
  apply Forall_cons in Hx as [Hx Hnn]. apply Forall_cons in Hy as [Hy Hl].
  injection Hlen as Hlen. cbn [length] in Hn |- *. rewrite CIDRMask_cons.
  unfold ip.mask_ip. cbn [zip_with ip.same_network]. fold (ip.mask_ip nn (ip.CIDRMask (n - 8) (length nn))).
  rewrite mask_idem by done.
  cbn [value]. rewrite Hlen. pose proof (value_bound nn Hnn) as Hvn.
  pose proof (value_bound l Hl) as Hvl. rewrite Hlen in Hvl.
  replace (len nn) with (Z.of_nat (length nn)) in * by done.
  rewrite Nat2Z.inj_succ in *. set (L := Z.of_nat (length nn)) in *.
  rewrite andb_true_iff, IH by (done || lia). unfold mask_at. rewrite agree_byte by (lia || done).
  destruct (Z.le_gt_cases n 8) as [Hn8|Hn8].
  - replace (Z.max 0 (n - 8)) with 0 by lia.
    replace (8 * Z.succ L - Z.max 0 n) with (8 * L + (8 - Z.max 0 (Z.min 8 (n - 8 * Z.of_nat 0)))) by lia.
    rewrite agree_high by lia. split; [by intros []|]. intros H. split; [done|].
    unfold agree. rewrite Z.sub_0_r, Z.pow_mul_r by lia. by rewrite !Z.div_small by done.
  - replace (8 - Z.max 0 (Z.min 8 (n - 8 * Z.of_nat 0))) with 0 by lia.
    replace (8 * Z.succ L - Z.max 0 n) with (8 * L - Z.max 0 (n - 8)) by lia.
    rewrite agree_low by lia. unfold agree at 1.
    replace (8 - Z.max 0 (Z.min 8 (n - 8 * Z.of_nat 0))) with 0 by lia.
    by rewrite Z.pow_0_r, !Z.div_1_r.
Qed.

(** ** Parsed addresses *)

Definition ipv4 (ip : list Z) : Prop := length ip = 4%nat ∧ Forall byte ip.
Definition ipv6 (ip : list Z) : Prop := length ip = 16%nat ∧ Forall byte ip.

Lemma dec_digit_range c d : netip.dec_digit c = Some d → 0 ≤ d < 10.
Proof.
  unfold netip.dec_digit, strconv.digit_val. destruct (_ && _) eqn:E; [|done].
  intros [= <-]. apply andb_prop in E as [?%Z.leb_le ?%Z.leb_le]. lia.
Qed.

Lemma ipv4_fields_ok l : ∀ fields val digLen ip,
  Forall byte fields → (length fields ≤ 3)%nat → byte val →
  netip.ipv4_fields fields val digLen l = Ok ip → ipv4 ip.
Proof.
  induction l as [|c l IH]; intros fields val digLen ip Hf Hlen Hv; cbn.
  - destruct (_ || _) eqn:E; [done|]. intros [= <-]. apply orb_false_iff in E as [_ E%Z.ltb_ge].
    split; [rewrite length_app; cbn; lia|]. apply Forall_app. by split; [|constructor].
  - destruct (netip.dec_digit c) as [d|] eqn:Hd.
    + apply dec_digit_range in Hd. destruct (_ && _); [done|].
      destruct (255 <? _) eqn:E; [done|]. apply Z.ltb_ge in E. apply IH; [done..|].
      unfold byte in *. lia.
    + destruct (negb _); [done|]. destruct (_ || _) eqn:E; [done|].
      apply orb_false_iff in E as [_ E%Z.eqb_neq]. apply IH.
      * apply Forall_app. by split; [|constructor].
      * rewrite length_app. cbn. lia.
      * unfold byte. lia.
Qed.

Lemma parseIPv4_ok l ip : netip.parseIPv4 l = Ok ip → ipv4 ip.
Proof. apply ipv4_fields_ok; [constructor|cbn; lia|unfold byte; lia]. Qed.

Lemma hex_digit_range c d : hex.digit_val c = Some d → (d < 16)%nat.
Proof.
  unfold hex.digit_val. repeat case_match; intros [= <-];
    repeat match goal with H : (_ && _)%nat = true |- _ => apply andb_prop in H as [?%Nat.leb_le ?%Nat.leb_le] end; lia.
Qed.

Lemma hex_run_ok l : ∀ acc off a o r,
  0 ≤ off → 0 ≤ acc < 16 ^ off → netip.hex_run acc off l = (a, o, r) →
  off ≤ o ∧ 0 ≤ a < 16 ^ o.
Proof.
  induction l as [|c l IH]; intros acc off a o r Ho Ha; cbn; [by intros [= <- <- _]|].
  destruct (hex.digit_val c) as [d|] eqn:Hd; [|by intros [= <- <- _]].
  apply hex_digit_range in Hd. intros H. apply IH in H; [|lia|].
  - split; [lia|apply H].
  - rewrite Z.pow_add_r by lia. lia.
Qed.

Definition groups_ok (ip : list Z) (e : option nat) : Prop :=
  (length ip ≤ 16)%nat ∧ Forall byte ip.

Lemma ipv6_groups_ok fuel : ∀ ip e l ip' e',
  (length ip ≤ 14)%nat → Nat.even (length ip) = true → Forall byte ip →
  netip.ipv6_groups fuel ip e l = Ok (ip', e') → groups_ok ip' e'.
Proof.
  induction fuel as [|fuel IH]; intros ip e l ip' e' Hlen Hev Hb; [done|].
  cbn [netip.ipv6_groups].
  destruct (netip.hex_run 0 0 l) as [[acc off] rest] eqn:Hrun.
  apply hex_run_ok in Hrun as [Ho Hacc]; [|lia|cbn; lia].
  destruct (4 <? off) eqn:Hoff; [done|]. apply Z.ltb_ge in Hoff.
  assert (acc < 65536) as Hacc'.
  { apply (Z.lt_le_trans _ (16 ^ off)); [lia|]. apply (Z.pow_le_mono_r 16 off 4); lia. }
  destruct (off =? 0); [done|].
  match goal with |- (if ?b then _ else _) = _ → _ => destruct b end.
  { match goal with |- (if ?b then _ else _) = _ → _ => destruct b; [done|] end.
    destruct (16 <? _)%nat eqn:H16; [done|].
    apply Nat.ltb_ge in H16. destruct (netip.parseIPv4 l) as [v4|] eqn:H4; [|done].
    apply parseIPv4_ok in H4 as [Hl4 Hb4]. intros [= <- _].
    split; [rewrite length_app; lia|by apply Forall_app]. }
  set (ip1 := ip ++ _). assert (length ip1 = S (S (length ip))) as Hlen1
    by (unfold ip1; rewrite length_app; cbn; lia).
  assert (Forall byte ip1) as Hb1.
  { apply Forall_app. split; [done|]. repeat constructor; unfold byte;
      try (apply Z.mod_pos_bound; lia).
    - apply Z.div_pos; lia.
    - apply Z.div_lt_upper_bound; lia. }
  assert (groups_ok ip1 e') as Hok1 by (split; [lia|done]).
  assert (Nat.even (length ip1) = true) as Hev1 by (rewrite Hlen1; exact Hev).
  assert (∀ e2 l2, (16 <=? length ip1)%nat = false →
            netip.ipv6_groups fuel ip1 e2 l2 = Ok (ip', e') → groups_ok ip' e') as Hrec.
  { intros e2 l2 H16 H. apply Nat.leb_gt in H16. apply IH in H; [done| |done|done].
    assert (length ip1 ≠ 15)%nat; [|lia]. intros E. by rewrite E in Hev1. }
  destruct rest as [|c rest1]; [by intros [= <- <-]|].
  destruct (negb _); [done|]. destruct rest1 as [|c1 rest2]; [done|].
  destruct (net.is_char 58 c1).
  - destruct e; [done|]. destruct rest2; [by intros [= <- _]|].
    destruct (16 <=? _)%nat eqn:H16; [done|]. by apply Hrec.
  - destruct (16 <=? _)%nat eqn:H16; [done|]. by apply Hrec.
Qed.

Lemma expand_ok ip e out : groups_ok ip e → netip.expand ip e = Ok out → ipv6 out.
Proof.
  intros [Hlen Hb]. unfold netip.expand. destruct (length ip <? 16)%nat eqn:E.
  - apply Nat.ltb_lt in E. destruct e as [i|]; [|done]. intros [= <-]. split.
    + rewrite !length_app, length_replicate, length_take, length_drop. lia.
    + rewrite !Forall_app. split_and!; [by apply Forall_take| |by apply Forall_drop].
      apply Forall_replicate. unfold byte. lia.
  - apply Nat.ltb_ge in E. destruct e; [done|]. intros [= <-]. split; [lia|done].
Qed.

Lemma ipv6_body_ok l ip : netip.ipv6_body l = Ok ip → ipv6 ip.
Proof.
  assert (∀ fuel e l ip, ('(ip, e) ← netip.ipv6_groups fuel [] e l; netip.expand ip e) = Ok ip →
            ipv6 ip) as Hrun.
  { clear. intros fuel e l ip ([ip1 e1] & H1 & H2)%result_bind_Ok.
    apply ipv6_groups_ok in H1; [by eapply expand_ok|cbn; lia|done|constructor]. }
  unfold netip.ipv6_body. destruct l as [|c [|c1 rest]]; [by apply Hrun..|].
  destruct (_ && _); [|by apply Hrun]. destruct rest; [|by apply Hrun].
  intros [= <-]. split; [done|]. repeat constructor; unfold byte; lia.
Qed.

Lemma ParseAddr_ok s ip z : netip.ParseAddr s = Ok (ip, z) → ipv4 ip ∨ ipv6 ip.
Proof.
  unfold netip.ParseAddr. generalize (chars s) at 2. intros l. generalize (chars s). intros all.
  induction l as [|c l IH]; cbn [netip.ParseAddr_at]; [done|].
  destruct (net.is_char 46 c).
  { destruct (netip.parseIPv4 all) as [ip'|] eqn:H; [|done]. intros [= <- _]. left.
    by eapply parseIPv4_ok. }
  destruct (net.is_char 58 c); [|by destruct (net.is_char 37 c)].
  unfold netip.parseIPv6. destruct (net.index 37 all) as [i|].
  - destruct (is_empty _); [done|]. destruct (netip.ipv6_body _) as [ip'|] eqn:H; [|done].
    intros [= <- _]. right. by eapply ipv6_body_ok.
  - destruct (netip.ipv6_body all) as [ip'|] eqn:H; [|done].
    intros [= <- _]. right. by eapply ipv6_body_ok.
Qed.

Lemma ParseIP_ok s a : ip.ParseIP s = Some a → ipv6 a.
Proof.
  unfold ip.ParseIP. destruct (netip.ParseAddr s) as [[ip z]|] eqn:H; [|done].
  destruct (is_empty z); [|done]. intros [= <-]. apply ParseAddr_ok in H as [[Hl Hb]|[Hl Hb]];
    unfold ip.As16; rewrite Hl; cbn [Nat.eqb]; [|done].
  split; [rewrite length_app, Hl; done|]. apply Forall_app. split; [|done].
  repeat constructor; unfold byte; lia.
Qed.

(** ** The blocked intervals *)

(** An address family and the first and last address of an interval, as
    values: the blocks of [privateRanges]. *)
Definition blocked : list (nat * Z * Z) :=
  [ (4%nat, 10 * 2 ^ 24, 11 * 2 ^ 24 - 1);                              (* 10.0.0.0 - 10.255.255.255 *)
    (4%nat, 172 * 2 ^ 24 + 16 * 2 ^ 16, 172 * 2 ^ 24 + 32 * 2 ^ 16 - 1); (* 172.16.0.0 - 172.31.255.255 *)
    (4%nat, 192 * 2 ^ 24 + 168 * 2 ^ 16, 192 * 2 ^ 24 + 169 * 2 ^ 16 - 1);
    (4%nat, 127 * 2 ^ 24, 128 * 2 ^ 24 - 1);
    (4%nat, 169 * 2 ^ 24 + 254 * 2 ^ 16, 169 * 2 ^ 24 + 255 * 2 ^ 16 - 1);
    (4%nat, 100 * 2 ^ 24 + 64 * 2 ^ 16, 100 * 2 ^ 24 + 128 * 2 ^ 16 - 1);
    (4%nat, 0, 2 ^ 24 - 1);
    (4%nat, 224 * 2 ^ 24, 240 * 2 ^ 24 - 1);                            (* 224.0.0.0 - 239.255.255.255 *)
    (16%nat, 1, 1); (16%nat, 0, 0);
    (16%nat, 252 * 2 ^ 120, 254 * 2 ^ 120 - 1);                          (* fc00:: - fdff:... *)
    (16%nat, 254 * 2 ^ 120 + 128 * 2 ^ 112, 254 * 2 ^ 120 + 192 * 2 ^ 112 - 1);
    (16%nat, 255 * 2 ^ 120, 256 * 2 ^ 120 - 1) ].

(** An IPv4 address counts as one also in its IPv6-mapped form. *)
Definition canonical (a : list Z) : list Z := default a (ip.To4 a).

Definition in_interval (a : list Z) (b : nat * Z * Z) : Prop :=
  let '(size, lo, hi) := b in length a = size ∧ lo ≤ value a ≤ hi.

Definition bytesb (l : list Z) : bool := forallb (λ z, (0 <=? z) && (z <? 256)) l.
Lemma bytesb_spec l : bytesb l = true → Forall byte l.
Proof.
  unfold bytesb. rewrite forallb_forall, Forall_forall. intros H x Hx%list_elem_of_In.
  apply H in Hx. unfold byte. lia.
Qed.

(** A block with [n] leading bits is the interval of that many addresses. *)
Lemma block_interval nn n a :
  bytesb nn = true → 0 ≤ n ≤ 8 * len nn → Forall byte a → length a = length nn →
  ip.same_network (ip.mask_ip nn (ip.CIDRMask n (length nn))) (ip.CIDRMask n (length nn)) a = true ↔
  value nn / 2 ^ (8 * len nn - n) * 2 ^ (8 * len nn - n) ≤ value a
  ≤ value nn / 2 ^ (8 * len nn - n) * 2 ^ (8 * len nn - n) + 2 ^ (8 * len nn - n) - 1.
Proof.
  intros Hnn%bytesb_spec Hn Ha Hlen. rewrite same_network_value by (done || lia).
  replace (Z.max 0 n) with n by lia. set (j := 8 * len nn - n). unfold agree.
  assert (0 < 2 ^ j) by (apply Z.pow_pos_nonneg; lia). split.
  - intros ->. clearbody j. pose proof (Z.mul_div_le (value a) (2 ^ j) ltac:(lia)) as H1.
    pose proof (Z.mul_succ_div_gt (value a) (2 ^ j) ltac:(lia)) as H2.
    rewrite Z.mul_succ_r in H2. rewrite (Z.mul_comm (value a / 2 ^ j)). lia.
  - intros Hr. apply (Z.div_unique_pos _ _ _ (value a - value nn / 2 ^ j * 2 ^ j)); lia.
Qed.

(** The blocks as the lists of bytes and prefix lengths they parse to. *)
Definition blocks : list (list Z * Z) :=
  [([10;0;0;0], 8); ([172;16;0;0], 12); ([192;168;0;0], 16); ([127;0;0;0], 8);
   ([169;254;0;0], 16); ([100;64;0;0], 10); ([0;0;0;0], 8); ([224;0;0;0], 4);
   (replicate 15 0 ++ [1], 128); (replicate 16 0, 128);
   (252 :: replicate 15 0, 7); (254 :: 128 :: replicate 14 0, 10); (255 :: replicate 15 0, 8)].
Definition net_of (b : list Z * Z) : ip.IPNet :=
  let m := ip.CIDRMask b.2 (length b.1) in ip.mkIPNet (ip.mask_ip b.1 m) m.
Definition interval_of (b : list Z * Z) : nat * Z * Z :=
  let w := 2 ^ (8 * len b.1 - b.2) in
  (length b.1, value b.1 / w * w, value b.1 / w * w + w - 1).

Lemma privateRanges_blocks : netutil.mustParsePrivateRanges = Some (net_of <$> blocks).
Proof. vm_compute. reflexivity. Qed.
Lemma blocked_blocks : blocked = interval_of <$> blocks.
Proof. vm_compute. reflexivity. Qed.
Definition block_ok (b : list Z * Z) : bool :=
  bytesb b.1 && ((0 <=? b.2) && (b.2 <=? 8 * len b.1))
  && bool_decide (default (ip.n_IP (net_of b)) (ip.To4 (ip.n_IP (net_of b))) = ip.n_IP (net_of b))
  && (length (ip.n_IP (net_of b)) =? length b.1)%nat.
Lemma blocks_ok : forallb block_ok blocks = true.
Proof. vm_compute. reflexivity. Qed.

Lemma canonical_bytes a : ipv6 a → Forall byte (canonical a).
Proof.
  intros [_ Hb]. unfold canonical, ip.To4. destruct (_ =? 4)%nat; [done|].
  destruct (_ && _); cbn; [by apply Forall_drop|done].
Qed.

Lemma Contains_interval b a :
  block_ok b = true → ipv6 a →
  ip.Contains (net_of b) a = true ↔ in_interval (canonical a) (interval_of b).
Proof.
  intros [[[Hb Hn]%andb_prop Hnn%bool_decide_eq_true]%andb_prop Hlen%Nat.eqb_eq]%andb_prop Ha.
  apply andb_prop in Hn as [Hn1%Z.leb_le Hn2%Z.leb_le].
  unfold ip.Contains. rewrite Hnn. fold (canonical a). rewrite Hlen, andb_true_iff, Nat.eqb_eq.
  unfold in_interval, interval_of. cbn [net_of ip.n_IP ip.n_Mask].
  split; intros [Hl H]; (split; [done|]); apply (block_interval b.1 b.2) in H || apply (block_interval b.1 b.2);
    try done; by apply canonical_bytes.
Qed.

(** An address is refused exactly when it parses and lies in one of the
    intervals. *)
Lemma reserved_spec addr :
  netutil.reserved addr = true ↔
  ∃ a, ip.ParseIP addr = Some a ∧ Exists (in_interval (canonical a)) blocked.
Proof.
  unfold netutil.reserved. destruct (ip.ParseIP addr) as [a|] eqn:Ha.
  2: { split; [done|]. by intros (a & ? & _). }
  apply ParseIP_ok in Ha. unfold netutil.privateRanges. rewrite privateRanges_blocks, blocked_blocks.
  cbn [default]. rewrite existsb_exists. split.
  - intros (n & Hn & Hc). apply list_elem_of_In, list_elem_of_fmap in Hn as (b & -> & Hb).
    exists a. split; [done|]. apply Exists_exists. exists (interval_of b).
    split; [by apply list_elem_of_fmap_2|]. apply Contains_interval; [|done..].
    pose proof blocks_ok as H. rewrite forallb_forall in H. by apply H, list_elem_of_In.
  - intros (a' & [= <-] & Hex). apply Exists_exists in Hex as (i & Hi & Hin).
    apply list_elem_of_fmap in Hi as (b & -> & Hb). exists (net_of b).
    split; [by apply list_elem_of_In, list_elem_of_fmap_2|]. apply Contains_interval; [|done..].
    pose proof blocks_ok as H. rewrite forallb_forall in H. by apply H, list_elem_of_In.
Qed.

(** ** The guard *)
Section guard.
Context `{NU : NetURL} `{RES : Resolver}.

(** The address a text parses to lies outside every blocked interval. *)
Definition public (addr : string) : Prop :=
  ∀ a, ip.ParseIP addr = Some a → ¬ Exists (in_interval (canonical a)) blocked.

Lemma reserved_public addr : netutil.reserved addr = false ↔ public addr.
Proof.
  rewrite <- not_true_iff_false, reserved_spec. unfold public. naive_solver.
Qed.

(** C36. A URL is accepted exactly when it is empty or an http or https URL with
    a host that resolves to at least one address and to no address of the
    thirteen blocked intervals: the private, shared, loopback, link-local,
    unspecified and multicast ranges of IPv4, also written as IPv6-mapped
    addresses, and their IPv6 counterparts. *)
Theorem rpc_url_guard_exact rawURL :
  netutil.ValidateRPCURL rawURL = Ok tt ↔
  rawURL = ""%string ∨
  ∃ u addrs, url_Parse rawURL = Ok u ∧ http_scheme (u_Scheme u) = true ∧
    url.Hostname u ≠ ""%string ∧ LookupHost (url.Hostname u) = Ok addrs ∧ addrs ≠ [] ∧
    Forall public addrs.
Proof.
  unfold netutil.ValidateRPCURL. destruct (is_empty rawURL) eqn:E.
  { split; [|done]. intros _. left. by destruct rawURL. }
  assert (rawURL ≠ ""%string) as Hne by by intros ->.
  unfold netutil.checked_host. split.
  - intros H. right. apply result_bind_Ok in H as (host & H1 & H).
    apply result_bind_Ok in H1 as (u & Hu & H1).
    destruct (http_scheme (u_Scheme u)) eqn:Hs; [|done].
    destruct (is_empty (url.Hostname u)) eqn:Hh; [done|]. injection H1 as <-.
    apply result_bind_Ok in H as (addrs & Ha & H). exists u, addrs.
    destruct addrs as [|a0 addrs]; [done|]. destruct (existsb _ _) eqn:Hex; [done|].
    split_and!; [done|done|by intros Heq; rewrite Heq in Hh|done|done|].
    apply Forall_forall. intros a Hin. apply reserved_public. 
    destruct (netutil.reserved a) eqn:Hr; [|done]. exfalso.
    apply not_true_iff_false in Hex. apply Hex, existsb_exists. exists a.
    by rewrite <- list_elem_of_In.
  - intros [?|(u & addrs & Hu & Hs & Hh & Ha & Hnil & Hall)]; [done|]. rewrite Hu.
    cbn [mbind result_bind]. rewrite Hs. destruct (is_empty (url.Hostname u)) eqn:Hh'.
    { by destruct (url.Hostname u). }
    cbn [negb mbind result_bind]. rewrite Ha. cbn [mbind result_bind].
    destruct addrs as [|a0 addrs]; [done|].
    replace (existsb _ _) with false; [done|]. symmetry. apply not_true_iff_false.
    intros (a & Hin & Hr)%existsb_exists. rewrite Forall_forall in Hall.
    apply list_elem_of_In in Hin. apply Hall, reserved_public in Hin. congruence.
Qed.

(** The resolver returns the text of an address as it is (documented for
    [net.Resolver.LookupHost]). *)
Definition literals_resolve : Prop :=
  ∀ host a zone, netip.ParseAddr host = Ok (a, zone) → LookupHost host = Ok [host].

(** An address with a zone is never looked at: a URL whose host is one is
    accepted whatever the address, the loopback address included. *)
Theorem zoned_address_accepted rawURL u a zone :
  literals_resolve → url_Parse rawURL = Ok u → http_scheme (u_Scheme u) = true →
  netip.ParseAddr (url.Hostname u) = Ok (a, zone) → zone ≠ ""%string →
  netutil.ValidateRPCURL rawURL = Ok tt.
Proof.
  intros Hres Hu Hs Ha Hz. unfold netutil.ValidateRPCURL. destruct (is_empty rawURL); [done|].
  unfold netutil.checked_host. rewrite Hu. cbn [mbind result_bind]. rewrite Hs. cbn [negb].
  destruct (is_empty (url.Hostname u)) eqn:Hh; [by destruct (url.Hostname u)|].
  cbn [mbind result_bind]. rewrite (Hres _ a zone) by done. cbn [mbind result_bind existsb].
  unfold netutil.reserved, ip.ParseIP. rewrite Ha.
  destruct (is_empty zone) eqn:E; [by destruct zone|]. done.
Qed.

End guard.

(** ** Samples *)
Module netutil_samples.

(** A URL of the form [<scheme>://<host>], the host with [%25] decoded; names
    do not resolve, addresses resolve to themselves. *)
Definition sample_parse (s : string) : result URL :=
  if bool_decide (s = "http://[::1%25lo]:26657")%string then Ok (mkURL "http" "[::1%lo]:26657")
  else if bool_decide (s = "http://203.0.113.1:26657")%string then Ok (mkURL "http" "203.0.113.1:26657")
  else Err errorf.
Definition sample_url : NetURL := {| url_Parse := sample_parse; url_ParseRequestURI := sample_parse |}.
Definition sample_resolver : Resolver := {|
  LookupHost := λ h, match netip.ParseAddr h with Ok _ => Ok [h] | Err e => Err e end |}.

Lemma zoned_address_accepted_witness :
  netutil.ValidateRPCURL (NU := sample_url) (RES := sample_resolver) "http://[::1%25lo]:26657" = Ok tt ∧
  netutil.reserved "::1" = true.
Proof.
  split; [|vm_compute; reflexivity].
  apply (zoned_address_accepted (NU := sample_url) (RES := sample_resolver) _
           (mkURL "http" "[::1%lo]:26657") (replicate 15 0 ++ [1]) "lo").
  - intros h a z H. cbn. by rewrite H.
  - reflexivity.
  - reflexivity.
  - vm_compute. reflexivity.
  - discriminate.
Defined.

(** A public address is accepted, and every blocked interval blocks. *)
Example public_accepted :
  netutil.ValidateRPCURL (NU := sample_url) (RES := sample_resolver) "http://203.0.113.1:26657" = Ok tt.
Proof. vm_compute. reflexivity. Qed.
Example private_blocked :
  forallb netutil.reserved
    ["10.0.0.1"; "172.31.255.255"; "192.168.1.100"; "127.1.2.3"; "169.254.169.254"; "100.64.0.1";
     "0.0.0.0"; "224.0.0.1"; "::1"; "::"; "fd00::1"; "fe80::1"; "ff02::1"; "::ffff:10.0.0.1"] = true.
Proof. vm_compute. reflexivity. Qed.

End netutil_samples.
