(* ===== verification/VotingPower.v ===== *)
(** * The BFT dominance gate

    [dominantVotingPowerPct] computes a percentage in [big.Float] arithmetic,
    converts it to [float64] and compares it with the [float64] nearest to
    100/3.  This file shows what that comparison decides: a single operator
    at or above one third of the committed power is always caught, and for
    totals up to 2^52 nobody else is. *)

From S2P Require Import Prelude GoStd GoFloat Values LaunchAgg Fixtures.
From Stdlib Require Import Lqa.
#[global] Open Scope Z_scope.
Import launch.

(** ** The threshold *)
Definition thr_m : Z := 4691249611844267.
Definition thr : Q := (4691249611844267 # 140737488355328).

Lemma bft_threshold_value : bftSafetyThreshold = F_fin thr.
Proof. vm_compute. reflexivity. Qed.

(** The double below the threshold, and a 64-bit float between the rounding
    boundary and 100/3. *)
Definition thr_pred : Q := (inject_Z (thr_m - 1) * pow2 (- 47))%Q.
Definition barrier : Q := (inject_Z (100 * 2 ^ 55 / 3) * pow2 (- 55))%Q.

Lemma representable_mono p p' emin emin' y :
  p ≤ p' → emin' ≤ emin → representable p emin y → representable p' emin' y.
Proof.
  intros Hp He (m & f & Hm & Hf & Hy). exists m, f. split_and!; [lia| |lia|done].
  destruct (Z.lt_ge_cases p 0); [by rewrite Z.pow_neg_r in Hm by lia; lia|].
  pose proof (Z.pow_le_mono_r 2 p p'). lia.
Qed.

Lemma thr_representable : representable f64_prec f64_emin thr.
Proof.
  exists thr_m, (- 47). unfold f64_prec, f64_emin, thr_m.
  split_and!; [lia..|]. vm_compute. reflexivity.
Qed.

Lemma thr_pred_representable : representable f64_prec f64_emin thr_pred.
Proof.
  exists (thr_m - 1), (- 47). unfold f64_prec, f64_emin, thr_m.
  split_and!; [lia..|reflexivity].
Qed.

Lemma barrier_representable : representable 64 bigfloat_emin barrier.
Proof.
  exists (100 * 2 ^ 55 / 3), (- 55). unfold bigfloat_emin.
  split_and!; [vm_compute; intuition discriminate..|reflexivity].
Qed.

(** Closed comparisons of rationals. *)
Ltac qcompute := vm_compute; first [reflexivity|discriminate].

(** ** Rounding to [float64] around the threshold *)
Lemma round53_reaches x : (barrier <= x)%Q → (thr <= round_pos f64_prec f64_emin x)%Q.
Proof.
  intros Hx. assert (0 < x)%Q as Hpos by (apply (Qlt_le_trans _ barrier); [qcompute|exact Hx]).
  destruct (Qlt_le_dec x thr) as [Hlt|Hge];
    [|apply round_pos_ge; [reflexivity|exact Hpos|apply thr_representable|exact Hge]].
  destruct (expo_spec x Hpos) as [Hlo Hhi].
  assert (expo x = 5) as He.
  { assert (pow2 (expo x) < pow2 6)%Q as H1.
    { apply (Qle_lt_trans _ x); [exact Hlo|]. apply (Qlt_le_trans _ thr); [exact Hlt|].
      qcompute. }
    assert (pow2 5 < pow2 (expo x + 1))%Q as H2.
    { apply (Qle_lt_trans _ x); [|exact Hhi]. apply (Qle_trans _ barrier); [|exact Hx].
      qcompute. }
    apply pow2_lt_inv in H1, H2. lia. }
  unfold round_pos. rewrite He. change (Z.max (5 - f64_prec + 1) f64_emin) with (- 47).
  assert (thr == inject_Z thr_m * pow2 (- 47))%Q as -> by (vm_compute; reflexivity).
  apply Qmult_le_r; [apply pow2_pos|]. rewrite <- Zle_Qle.
  apply nearest_even_above_half. change (- - 47) with 47.
  assert (barrier * pow2 47 <= x * pow2 47)%Q as Hb
    by (apply Qmult_le_r; [apply pow2_pos|exact Hx]).
  eapply Qlt_le_trans; [|exact Hb]. qcompute.
Qed.

Lemma round53_bounded x :
  (0 < x)%Q → (thr <= round_pos f64_prec f64_emin x)%Q → (thr_pred < x)%Q.
Proof.
  intros Hx H. apply Qnot_le_lt. intros Hle.
  apply (round_pos_le f64_prec f64_emin) in Hle;
    [|reflexivity|exact Hx|apply thr_pred_representable].
  apply (Qlt_not_le thr_pred thr); [qcompute|]. by apply (Qle_trans _ _ _ H).
Qed.

Lemma inject_pos z : 0 < z → (0 < inject_Z z)%Q.
Proof. intros H. rewrite Zlt_Qlt in H. exact H. Qed.

Lemma round_zero p emin x : (x == 0)%Q → round p emin x = 0%Q.
Proof.
  unfold Qeq, round. cbn. intros H. replace (Qnum x) with 0 by lia. done.
Qed.

(** ** The percentage *)
Lemma setint_prec_int64 d : 0 ≤ d < 2 ^ 63 → setint_prec d = 64.
Proof.
  intros Hd. unfold setint_prec, bit_len. destruct (Z.eqb_spec d 0); [done|].
  rewrite Z.abs_eq by lia. pose proof (Z.log2_lt_pow2 d 63). lia.
Qed.

Lemma setint_prec_ge z : 64 ≤ setint_prec z.
Proof. unfold setint_prec. lia. Qed.

Lemma expo_nonneg x : (1 <= x)%Q → 0 ≤ expo x.
Proof.
  intros Hx. assert (0 < x)%Q as Hpos by (apply (Qlt_le_trans _ 1); [qcompute|done]).
  destruct (expo_spec x Hpos) as [_ Hhi].
  assert (pow2 0 < pow2 (expo x + 1))%Q as H
    by (apply (Qle_lt_trans _ x); [exact Hx|exact Hhi]).
  apply pow2_lt_inv in H. lia.
Qed.

(** [dominantPower * 100], rounded to the 64 bits of a [big.Float]. *)
Definition scaled (d : Z) : Q := round_pos 64 bigfloat_emin (inject_Z (d * 100)).

Lemma scaled_bounds d :
  0 < d → (inject_Z d * (100 * (1 - pow2 (- 63))) < scaled d)%Q ∧
          (scaled d <= inject_Z d * (100 * (1 + pow2 (- 63))))%Q.
Proof.
  intros Hd. unfold scaled.
  assert (inject_Z (d * 100) == inject_Z d * 100)%Q as E by (by rewrite inject_Z_mult).
  assert (1 <= inject_Z d)%Q as H1 by (change 1%Q with (inject_Z 1); rewrite <- Zle_Qle; lia).
  assert (1 <= inject_Z (d * 100))%Q as H100.
  { rewrite E. remember (inject_Z d) as dq. clear - H1. lra. }
  destruct (round_pos_error 64 bigfloat_emin (inject_Z (d * 100))) as [Hlo Hhi].
  - lia.
  - apply (Qlt_le_trans _ 1); [qcompute|done].
  - pose proof (expo_nonneg _ H100). unfold bigfloat_emin. lia.
  - change (1 - 64) with (- 63) in Hlo, Hhi.
    remember (round_pos _ _ _) as r. clear Heqr. rewrite E in Hlo, Hhi.
    remember (inject_Z d) as dq. remember (pow2 (- 63)) as u. clear - Hlo Hhi.
    split; [eapply Qle_lt_trans; [|exact Hlo]|eapply Qle_trans; [exact Hhi|]];
      apply Qle_lteq; right; ring.
Qed.

Lemma pct_of_shape d total :
  0 < d < 2 ^ 63 → 0 < total →
  ∃ p, 64 ≤ p ∧ (0 < scaled d / inject_Z total)%Q ∧
    pct_of d total =
      f64_of_Q (round_pos p bigfloat_emin (scaled d / inject_Z total)%Q).
Proof.
  intros Hd Ht. exists (Z.max 64 (setint_prec total)). split; [lia|].
  assert (0 < scaled d / inject_Z total)%Q as Hpos.
  { apply Qlt_shift_div_l; [apply inject_pos; lia|]. rewrite Qmult_0_l.
    destruct (scaled_bounds d) as [Hlo _]; [lia|].
    apply (Qle_lt_trans _ (inject_Z d * (100 * (1 - pow2 (- 63))))); [|exact Hlo].
    apply Qmult_le_0_compat; [|qcompute]. change 0%Q with (inject_Z 0).
    rewrite <- Zle_Qle. lia. }
  split; [done|].
  unfold pct_of. rewrite setint_prec_int64 by lia.
  rewrite (round_positive 64), round_positive; [done|exact Hpos|].
  change 0%Q with (inject_Z 0). rewrite <- Zlt_Qlt. lia.
Qed.

(** A finite positive double stays finite up to its own bound. *)
Lemma f64_of_Q_pos x :
  (0 < x)%Q →
  f64_of_Q x = F_Inf false ∨ f64_of_Q x = F_fin (round_pos f64_prec f64_emin x).
Proof.
  intros Hx. unfold f64_of_Q. rewrite round_positive by done.
  destruct (Qle_bool (pow2 1024) _); [by left|right].
  destruct (Qle_bool _ (- pow2 1024)) eqn:E; [|done].
  apply Qle_bool_iff in E.
  assert (0 <= round_pos f64_prec f64_emin x)%Q as H0.
  { apply round_pos_ge; [reflexivity|done| |by apply Qlt_le_weak].
    exists 0, 0. unfold f64_prec, f64_emin. split_and!; [lia..|reflexivity]. }
  exfalso. apply (Qlt_not_le (- pow2 1024) 0); [qcompute|]. eapply Qle_trans; done.
Qed.

(** At or above a third: always caught, for every [int64] power. *)
Lemma pct_catches d total :
  0 < d < 2 ^ 63 → 0 < total ≤ 3 * d →
  f64_leb bftSafetyThreshold (pct_of d total) = true.
Proof.
  intros Hd Ht. destruct (pct_of_shape d total Hd ltac:(lia)) as (p & Hp & Hpos & ->).
  destruct (scaled_bounds d ltac:(lia)) as [Hlo _].
  assert (barrier <= scaled d / inject_Z total)%Q as Hb.
  { apply Qle_shift_div_l; [apply inject_pos; lia|].
    apply (Qle_trans _ (barrier * inject_Z (3 * d))).
    - apply Qmult_le_l; [qcompute|]. rewrite <- Zle_Qle. lia.
    - apply Qlt_le_weak. eapply Qle_lt_trans; [|exact Hlo]. rewrite inject_Z_mult.
      assert (0 < inject_Z d)%Q as Hdq by (apply inject_pos; lia).
      assert (barrier * (inject_Z 3 * inject_Z d) == inject_Z d * (barrier * inject_Z 3))%Q
        as -> by ring.
      apply Qmult_le_l; [done|qcompute]. }
  assert (barrier <= round_pos p bigfloat_emin (scaled d / inject_Z total))%Q as Hr.
  { apply round_pos_ge; [lia|done| |done].
    eapply representable_mono, barrier_representable; lia. }
  assert (0 < round_pos p bigfloat_emin (scaled d / inject_Z total))%Q as Hrp
    by (eapply Qlt_le_trans; [|exact Hr]; qcompute).
  rewrite bft_threshold_value.
  destruct (f64_of_Q_pos _ Hrp) as [-> | ->]; [done|].
  apply Qle_bool_iff. by apply round53_reaches.
Qed.

Lemma f64_of_Q_zero x : (x == 0)%Q → f64_of_Q x = F_fin 0.
Proof. intros H. unfold f64_of_Q. rewrite round_zero by done. vm_compute. reflexivity. Qed.

Lemma f64_reaches x :
  (0 <= x <= 128)%Q → f64_leb bftSafetyThreshold (f64_of_Q x) = true →
  (thr_pred < x)%Q.
Proof.
  intros [H0 H1] H. rewrite bft_threshold_value in H.
  destruct (Qlt_le_dec 0 x) as [Hx|Hx].
  - apply round53_bounded; [exact Hx|].
    destruct (f64_of_Q_pos x Hx) as [E|E].
    + exfalso. unfold f64_of_Q in E. rewrite round_positive in E by exact Hx.
      destruct (Qle_bool (pow2 1024) _) eqn:Hinf;
        [|destruct (Qle_bool (round_pos _ _ _) _); discriminate E].
      apply Qle_bool_iff in Hinf.
      apply (Qlt_not_le 128 (pow2 1024)); [qcompute|].
      eapply Qle_trans; [exact Hinf|]. apply round_pos_le; [reflexivity|exact Hx| |exact H1].
      exists 128, 0. unfold f64_prec, f64_emin. split_and!; [lia..|reflexivity].
    + rewrite E in H. unfold f64_leb in H. apply Qle_bool_iff in H. exact H.
  - rewrite f64_of_Q_zero in H by (by apply Qle_antisym). vm_compute in H. discriminate H.
Qed.

Lemma small_representable q z : 64 ≤ q → 0 ≤ z ≤ 128 → representable q bigfloat_emin (inject_Z z).
Proof.
  intros Hq Hz. exists z, 0. unfold bigfloat_emin. split_and!; [lia| |lia|].
  - pose proof (Z.pow_le_mono_r 2 7 q). lia.
  - change (pow2 0) with 1%Q. by rewrite Qmult_1_r.
Qed.

(** Caught: within a hair of a third, and exactly at or above it for totals
    up to 2^52 base units. *)
Lemma pct_caught d total :
  0 < d < 2 ^ 63 → d ≤ total →
  f64_leb bftSafetyThreshold (pct_of d total) = true →
  (thr_pred * inject_Z total < inject_Z d * (100 * (1 + pow2 (- 63))))%Q.
Proof.
  intros Hd Ht H. destruct (pct_of_shape d total Hd ltac:(lia)) as (p & Hp & Hpos & E).
  rewrite E in H. destruct (scaled_bounds d ltac:(lia)) as [_ Hhi].
  assert (0 < inject_Z total)%Q as Htq by (apply inject_pos; lia).
  remember (scaled d / inject_Z total)%Q as y eqn:Ey.
  assert (y <= inject_Z 128)%Q as Hle.
  { rewrite Ey. apply Qle_shift_div_r; [done|]. eapply Qle_trans; [exact Hhi|].
    rewrite (Qmult_comm (inject_Z 128)).
    apply (Qle_trans _ (inject_Z d * inject_Z 128)).
    - apply Qmult_le_l; [apply inject_pos; lia|qcompute].
    - apply Qmult_le_r; [qcompute|]. rewrite <- Zle_Qle. lia. }
  apply f64_reaches in H.
  2: { split; [apply round_pos_ge|apply round_pos_le]; try lia; try done;
       [apply (small_representable p 0)|by apply Qlt_le_weak
       |apply (small_representable p 128)]; lia. }
  assert (thr_pred < y)%Q as Hy.
  { apply Qnot_le_lt. intros Hc. apply (Qlt_not_le _ _ H).
    apply round_pos_le; [lia|done| |done].
    eapply representable_mono, thr_pred_representable;
      unfold f64_prec, f64_emin, bigfloat_emin; lia. }
  eapply Qlt_le_trans; [|exact Hhi].
  apply (Qmult_lt_r _ _ (/ inject_Z total)); [by apply Qinv_lt_0_compat|].
  rewrite <- Qmult_assoc, Qmult_inv_r, Qmult_1_r; [by rewrite Ey in Hy|].
  intros Hz. rewrite Hz in Htq. discriminate Htq.
Qed.

Lemma pct_exact d total :
  0 < d → d ≤ total → total ≤ 2 ^ 52 →
  f64_leb bftSafetyThreshold (pct_of d total) = true ↔ total ≤ 3 * d.
Proof.
  intros Hd Hdt Ht. split; [|intros; apply pct_catches; lia].
  intros H. apply pct_caught in H; [|lia|done].
  destruct (Z.le_gt_cases total (3 * d)) as [|Hlt]; [done|exfalso].
  (* clear the denominators and finish over the integers *)
  assert (thr_pred == (4691249611844266 # 140737488355328))%Q as E1 by qcompute.
  assert (100 * (1 + pow2 (- 63)) == (922337203685477580900 # 9223372036854775808))%Q
    as E2 by qcompute.
  rewrite E1, E2 in H. unfold Qlt, Qmult, inject_Z in H.
  cbn [Qnum Qden] in H. rewrite !Pos.mul_1_l, !Pos.mul_1_r in H.
  change (2 ^ 52) with 4503599627370496 in Ht.
  lia.
Qed.

(** ** The scan over the map *)
Lemma total_power_cons kv ps : total_power (kv :: ps) = kv.2 + total_power ps.
Proof.
  assert (∀ z, foldl (λ t kv, t + kv.2) z ps = z + total_power ps) as Hgen.
  { unfold total_power. induction ps as [|kv' ps IH]; intros z; cbn; [lia|].
    rewrite (IH (z + _)), (IH (0 + _)). lia. }
  unfold total_power at 1. cbn. rewrite Hgen. lia.
Qed.

Lemma total_power_perm ps ps' : ps ≡ₚ ps' → total_power ps = total_power ps'.
Proof.
  induction 1; rewrite ?total_power_cons; lia.
Qed.

Definition max_power (ps : list (string * Z)) : Z := foldr (λ kv m, Z.max kv.2 m) 0 ps.

Lemma max_power_cons kv ps : max_power (kv :: ps) = Z.max kv.2 (max_power ps).
Proof. done. Qed.

Lemma max_power_nonneg ps : 0 ≤ max_power ps.
Proof. induction ps as [|kv ps IH]; [done|]. rewrite max_power_cons. lia. Qed.

Lemma dominant_scan_max ps : (dominant_scan ps).2 = max_power ps.
Proof.
  assert (∀ d, 0 ≤ d.2 →
    (foldl (λ d kv : string * Z, if d.2 <? kv.2 then kv else d) d ps).2
      = Z.max d.2 (max_power ps)) as Hgen.
  { induction ps as [|kv ps IH]; intros d Hd; [cbn; lia|].
    rewrite max_power_cons. cbn [foldl].
    destruct (Z.ltb_spec d.2 kv.2); rewrite IH by lia; lia. }
  unfold dominant_scan. rewrite Hgen by done. cbn [snd].
  pose proof (max_power_nonneg ps). lia.
Qed.

Lemma max_power_perm ps ps' : ps ≡ₚ ps' → max_power ps = max_power ps'.
Proof. induction 1; rewrite ?max_power_cons; lia. Qed.

Lemma max_power_spec ps :
  (∀ kv, kv ∈ ps → kv.2 ≤ max_power ps) ∧
  (max_power ps = 0 ∨ ∃ kv, kv ∈ ps ∧ kv.2 = max_power ps).
Proof.
  induction ps as [|kv ps [IH1 IH2]].
  - split; [intros ? []%elem_of_nil|by left].
  - rewrite max_power_cons. split.
    + intros kv' [-> | Hin]%elem_of_cons; [lia|]. specialize (IH1 _ Hin). lia.
    + destruct (Z.max_spec kv.2 (max_power ps)) as [[? ->]|[? ->]].
      * destruct IH2 as [|(kv' & ? & ?)]; [by left|right]. exists kv'. split; [by right|done].
      * right. exists kv. split; [by left|done].
Qed.

Lemma total_power_bounds ps :
  (∀ kv, kv ∈ ps → 0 ≤ kv.2) → 0 ≤ max_power ps ≤ total_power ps.
Proof.
  induction ps as [|kv ps IH]; intros Hp; [done|].
  rewrite total_power_cons, max_power_cons.
  assert (0 ≤ kv.2) by (apply Hp; left).
  destruct IH as [? ?]; [|lia]. intros; apply Hp; by right.
Qed.

(** The percentage does not depend on the order in which Go happens to
    iterate the voting-power map (only the name reported on a tie does). *)
Lemma dominance_order_independent ps ps' :
  ps ≡ₚ ps' → (dominant_in ps).2 = (dominant_in ps').2.
Proof.
  intros H. unfold dominant_in. rewrite (total_power_perm _ _ H).
  destruct (_ =? _); [done|]. cbn.
  by rewrite !dominant_scan_max, (max_power_perm _ _ H).
Qed.

(** Committed power and largest holding of a launch. *)
Definition committed (l : Launch) : Z := total_power (map_to_list (l_approvedVotingPower l)).

Definition powers_in_range (l : Launch) : Prop :=
  ∀ op p, l_approvedVotingPower l !! op = Some p → 0 ≤ p < 2 ^ 63.

Lemma dominance_unsafe l :
  powers_in_range l →
  (∃ op p, l_approvedVotingPower l !! op = Some p ∧ 0 < p ∧ committed l ≤ 3 * p) →
  f64_leb bftSafetyThreshold (dominantVotingPowerPct l).2 = true.
Proof.
  intros Hr (op & p & Hop & Hp & Hc). unfold dominantVotingPowerPct, dominant_in.
  fold (committed l). set (ps := map_to_list (l_approvedVotingPower l)) in *.
  assert (∀ kv, kv ∈ ps → 0 ≤ kv.2 < 2 ^ 63) as Hps.
  { intros [k v] Hin%elem_of_map_to_list. by eapply Hr. }
  destruct (max_power_spec ps) as [Hmax Hex].
  pose proof (total_power_bounds ps (λ kv H, proj1 (Hps kv H))) as Hb.
  assert ((op, p) ∈ ps) as Hin by (by apply elem_of_map_to_list).
  specialize (Hmax _ Hin). cbn [snd] in Hmax. fold (committed l) in Hb.
  change (total_power ps) with (committed l) in *.
  destruct (Z.eqb_spec (committed l) 0); [lia|]. cbn [snd].
  rewrite dominant_scan_max. apply pct_catches; [|lia].
  destruct Hex as [?|(kv & Hkv & Ekv)]; [lia|].
  specialize (Hps _ Hkv). lia.
Qed.

Lemma max_zero_total ps :
  (∀ kv, kv ∈ ps → 0 ≤ kv.2) → max_power ps = 0 → total_power ps = 0.
Proof.
  induction ps as [|kv ps IH]; intros Hps; [done|].
  rewrite total_power_cons, max_power_cons. intros Hm.
  pose proof (max_power_nonneg ps). pose proof (Hps kv ltac:(left)).
  rewrite IH; [lia|intros; apply Hps; by right|lia].
Qed.

Lemma dominance_safe l :
  powers_in_range l → committed l ≤ 2 ^ 52 →
  (∀ op p, l_approvedVotingPower l !! op = Some p → 0 < p → 3 * p < committed l) →
  f64_leb bftSafetyThreshold (dominantVotingPowerPct l).2 = false.
Proof.
  intros Hr H52 Hall. unfold dominantVotingPowerPct, dominant_in.
  set (ps := map_to_list (l_approvedVotingPower l)).
  change (committed l) with (total_power ps) in *.
  assert (∀ kv, kv ∈ ps → 0 ≤ kv.2) as Hps.
  { intros [k v] Hin%elem_of_map_to_list. by eapply Hr. }
  pose proof (total_power_bounds ps Hps) as Hb.
  destruct (max_power_spec ps) as [_ Hex].
  destruct (Z.eqb_spec (total_power ps) 0) as [?|Hne].
  { cbn. by rewrite bft_threshold_value. }
  cbn [snd]. rewrite dominant_scan_max.
  pose proof (max_zero_total ps Hps).
  apply not_true_iff_false. rewrite pct_exact by lia.
  destruct Hex as [?|([op p] & Hkv & E)]; [lia|]. cbn [snd] in E.
  apply elem_of_map_to_list in Hkv. specialize (Hall op p Hkv). lia.
Qed.

(** ** What closing the window guarantees *)
Lemma close_window_inv l n now l' :
  CloseWindow l n now = Ok l' ↔
  l_Status l = StatusWindowOpen ∧ r_MinValidatorCount (l_Record l) ≤ n ∧
  f64_leb bftSafetyThreshold (dominantVotingPowerPct l).2 = false ∧
  l' = touch now (set_Status StatusWindowClosed l).
Proof.
  unfold CloseWindow. destruct (dominantVotingPowerPct l) as [dom pct]. cbn [snd].
  split.
  - intros H. crush_ok. guards. by split_and!.
  - intros (Hs & Hn & Hp & ->). rewrite bool_decide_eq_true_2 by done. cbn [negb].
    rewrite (proj2 (Z.ltb_ge _ _)) by done. by rewrite Hp.
Qed.

Lemma close_window_no_dominant l n now l' op p :
  powers_in_range l → CloseWindow l n now = Ok l' →
  l_approvedVotingPower l !! op = Some p → 0 < p → 3 * p < committed l.
Proof.
  intros Hr (_ & _ & Hd & _)%close_window_inv Hop Hp.
  apply Z.lt_nge. intros Hc. rewrite dominance_unsafe in Hd; [done..|].
  exists op, p. split_and!; [done|done|lia].
Qed.

(** C26. Closing the application window, for non-negative recorded powers below
    2^63 (an amount too large for [int64] is recorded wrapped, possibly negative:
    [self_delegation_can_wrap]).  If the window closes, then, whatever the total,
    every operator holds strictly less than a third of the committed power; and
    for totals up to 2^52 base units the floating-point gate is exact: closing
    succeeds exactly when the window is open, enough validators are approved,
    and no single operator holds a third or more. *)
Theorem close_window_gate l n now :
  powers_in_range l →
  (∀ l' op p, CloseWindow l n now = Ok l' → l_approvedVotingPower l !! op = Some p → 0 < p →
     3 * p < committed l') ∧
  (committed l ≤ 2 ^ 52 →
   is_ok (CloseWindow l n now) = true ↔
   l_Status l = StatusWindowOpen ∧ r_MinValidatorCount (l_Record l) ≤ n ∧
   ∀ op p, l_approvedVotingPower l !! op = Some p → 0 < p → 3 * p < committed l).
Proof.
  intros Hr. split.
  { intros l' op p H Hop Hp. pose proof (close_window_no_dominant _ _ _ _ _ _ Hr H Hop Hp).
    apply close_window_inv in H as (_ & _ & _ & ->). by destruct l. }
  intros H52. split.
  - destruct (CloseWindow l n now) as [l'|] eqn:E; [intros _|done].
    pose proof E as (Hs & Hn & _)%close_window_inv. split_and!; [done..|].
    intros op p. by eapply close_window_no_dominant.
  - intros (Hs & Hn & Hall).
    by rewrite (proj2 (close_window_inv l n now _)
         (conj Hs (conj Hn (conj (dominance_safe l Hr H52 Hall) eq_refl)))).
Qed.

Lemma close_window_gate_witness :
  is_ok (CloseWindow (fixtures.launch_in StatusWindowOpen fixtures.four_equal) 4 0) = true.
Proof.
  apply (close_window_gate (fixtures.launch_in StatusWindowOpen fixtures.four_equal) 4 0).
  - apply (bool_decide_eq_true_1 (map_Forall (λ _ p, 0 ≤ p < 2 ^ 63) fixtures.four_equal)).
    vm_compute. reflexivity.
  - vm_compute. discriminate.
  - split; [reflexivity|]. split; [vm_compute; discriminate|].
    apply (bool_decide_eq_true_1
      (map_Forall (λ _ p, 0 < p → 3 * p < 100) (fixtures.four_equal))).
    vm_compute. reflexivity.
Defined.
