(* ===== verification/LaunchProps.v ===== *)
(** * Correctness of the Launch aggregate

    The transition system whose steps are the methods of [Launch] together
    with the field writes the application services make, the well-formedness
    invariant every reachable launch satisfies, the lifecycle order, and the
    behaviour of the committee and allocation-file operations. *)

From S2P Require Import Prelude GoStd GoFloat Values LaunchAgg Fixtures VotingPower.
From stdpp Require Import relations.
#[global] Open Scope Z_scope.
Import launch.

(** ** The transition system *)

(** What [New] and [SetCommittee] check of a committee. *)
Definition committee_ok (c : Committee) : bool :=
  negb ((c_ThresholdM c <? 1) || (c_TotalN c <? c_ThresholdM c))
  && (len (c_Members c) =? c_TotalN c)
  && match c_Members c with
     | m0 :: _ => account_Equal (cm_Address m0) (c_LeadAddress c)
     | [] => false
     end.

Section transitions.
Context {B32 : Bech32} {NU : NetURL}.

Inductive launch_step (l : Launch) : Launch → Prop :=
  | step_publish h now l' : Publish l h now = Ok l' → launch_step l l'
  | step_open now l' : OpenWindow l now = Ok l' → launch_step l l'
  | step_close n now l' : CloseWindow l n now = Ok l' → launch_step l l'
  | step_genesis h now l' : PublishGenesis l h now = Ok l' → launch_step l l'
  | step_cancel now l' : Cancel l now = Ok l' → launch_step l l'
  | step_reopen now l' : ReopenForRevision l now = Ok l' → launch_step l l'
  | step_launched now l' : MarkLaunched l now = Ok l' → launch_step l l'
  | step_add_member m l' : AddMember l m = Ok l' → launch_step l l'
  | step_remove_member a l' : RemoveMember l a = Ok l' → launch_step l l'
  | step_replace old m now l' : ReplaceCommitteeMember l old m now = Ok l' → launch_step l l'
  | step_expand m t now l' : ExpandCommittee l m t now = Ok l' → launch_step l l'
  | step_shrink a t now l' : ShrinkCommittee l a t now = Ok l' → launch_step l l'
  | step_upload_alloc t h now l' : UploadAllocationFile l t h now = Ok l' → launch_step l l'
  | step_approve_alloc t h p now l' : ApproveAllocationFile l t h p now = Ok l' → launch_step l l'
  | step_reject_alloc t h now : launch_step l (RejectAllocationFile l t h now).1
  | step_record_power a sd : launch_step l (RecordValidatorApproval l a sd).1
  | step_remove_power a : launch_step l (RemoveValidatorApproval l a)
  (* writes made by the application services (services/launch.go, proposal.go) *)
  | step_set_initial h :
      l_Status l = StatusDraft → isSHA256HexLower h = true →
      launch_step l (set_InitialGenesisSHA256 h l)
  | step_set_final h ish t :
      l_Status l = StatusWindowClosed → isSHA256HexLower h = true →
      launch_step l (set_FinalGenesisInputSetHash ish (set_FinalGenesisSHA256 h
        (set_Record (set_GenesisTime (Some t) (l_Record l)) l)))
  | step_patch_record r al :
      l_Status l = StatusDraft → validateChainRecord r = None →
      launch_step l (set_Allowlist al (set_Record r l))
  | step_patch_ops mon key ep : launch_step l (set_Monitoring mon key ep l)
  | step_genesis_time t :
      l_Status l ≠ StatusLaunched → l_Status l ≠ StatusCancelled →
      launch_step l (set_Record (set_GenesisTime (Some t) (l_Record l)) l)
  | step_set_committee c :
      l_Status l = StatusDraft → committee_ok c = true →
      launch_step l (set_Committee c l)
  (* writes made by the repository *)
  | step_version z : launch_step l (set_Version z l)
  | step_init_power vp : launch_step l (InitVotingPower l vp)
  | step_allowlist_init al :
      l_Status l = StatusDraft → launch_step l (set_Allowlist al l).

(** A launch some sequence of operations can produce from a fresh one. *)
Definition reachable (l : Launch) : Prop :=
  ∃ id r lt c now l0, New id r lt c now = Ok l0 ∧ rtc launch_step l0 l.

(** ** The invariant *)
Record wf_committee (c : Committee) : Prop := {
  wfc_threshold : 1 ≤ c_ThresholdM c ≤ c_TotalN c;
  wfc_size : len (c_Members c) = c_TotalN c;
  wfc_lead : ∃ m0 ms, c_Members c = m0 :: ms ∧ cm_Address m0 ≡ c_LeadAddress c }.

Definition hash_or_empty (s : string) : Prop := s = ""%string ∨ isSHA256HexLower s = true.

Definition wf_file (f : AllocationFile) : Prop :=
  ValidAllocationType (af_Type f) = true ∧ isSHA256HexLower (af_SHA256 f) = true ∧
  (af_Status f = AllocationApproved ↔ is_Some (af_ApprovedByProposal f)).

Record wf_files (fs : list AllocationFile) : Prop := {
  wff_nodup : NoDup (af_Type <$> fs);
  wff_each : Forall wf_file fs }.

Record wf_launch (l : Launch) : Prop := {
  wf_c : wf_committee (l_Committee l);
  wf_r : validateChainRecord (l_Record l) = None;
  wf_f : wf_files (l_AllocationFiles l);
  wf_initial : hash_or_empty (l_InitialGenesisSHA256 l);
  wf_final : hash_or_empty (l_FinalGenesisSHA256 l);
  wf_published :
    l_Status l ≠ StatusDraft → l_Status l ≠ StatusCancelled →
    isSHA256HexLower (l_InitialGenesisSHA256 l) = true;
  wf_ready :
    l_Status l = StatusGenesisReady ∨ l_Status l = StatusLaunched →
    isSHA256HexLower (l_FinalGenesisSHA256 l) = true }.

Lemma committee_ok_wf c : committee_ok c = true ↔ wf_committee c.
Proof.
  unfold committee_ok. rewrite !andb_true_iff, negb_true_iff, orb_false_iff.
  rewrite Z.ltb_ge, Z.ltb_ge, Z.eqb_eq. split.
  - intros [[[H1 H2] H3] H4]. split; [lia|done|].
    destruct (c_Members c) as [|m0 ms]; [done|]. exists m0, ms. split; [done|].
    by apply account_Equal_spec.
  - intros [Ht Hs (m0 & ms & E & Hl)]. rewrite E in *. split_and!; try lia.
    by apply account_Equal_spec.
Qed.

(** *** Committee operations *)

(** The lead is the first member, so a search for the lead's account stops at
    position 0 and a search for another account does not. *)
Lemma find_lead c addr i :
  wf_committee c → find_index (member_is addr) (c_Members c) = Some i →
  (account_Equal (c_LeadAddress c) addr = true ↔ i = 0%nat).
Proof.
  intros [_ _ (m0 & ms & E & Hl)] Hi. rewrite E in Hi.
  unfold member_is in Hi; cbn in Hi. rewrite Hl in Hi.
  destruct (account_Equal (c_LeadAddress c) addr) eqn:He; simplify_eq/=; [done|].
  apply fmap_Some in Hi as (k & _ & ->). done.
Qed.

Lemma replace_member_wf c old m i :
  wf_committee c → find_index (member_is old) (c_Members c) = Some i →
  wf_committee (set_Members (<[i := m]> (c_Members c))
    (if account_Equal (c_LeadAddress c) old then cm_Address m else c_LeadAddress c) c).
Proof.
  intros Hwf Hi. pose proof (find_lead _ _ _ Hwf Hi) as Hlead.
  destruct Hwf as [Ht Hs (m0 & ms & E & Hl)].
  split; cbn; [done|by rewrite length_insert|].
  rewrite E. destruct (account_Equal _ _) eqn:He.
  - rewrite (proj1 Hlead eq_refl). by exists m, ms.
  - destruct i as [|i]; [by destruct Hlead as [_ Hlead]; discriminate Hlead|].
    by exists m0, (<[i := m]> ms).
Qed.

Lemma expand_wf c m t :
  wf_committee c → 1 ≤ t < len (c_Members c) + 1 →
  wf_committee (mkCommittee (c_ID c) (c_Members c ++ [m]) t (len (c_Members c) + 1)
                  (c_LeadAddress c) (c_CreatedAt c)).
Proof.
  intros [Ht Hs (m0 & ms & E & Hl)] Hr. split; cbn; [lia| |].
  - rewrite length_app; cbn. lia.
  - exists m0, (ms ++ [m]). by rewrite E.
Qed.

Lemma shrink_wf c old t i :
  wf_committee c → find_index (member_is old) (c_Members c) = Some i →
  1 ≤ t < len (c_Members c) - 1 →
  let ms := delete i (c_Members c) in
  wf_committee (mkCommittee (c_ID c) ms t (len (c_Members c) - 1)
    (if account_Equal (c_LeadAddress c) old
     then match ms with m :: _ => cm_Address m | [] => c_LeadAddress c end
     else c_LeadAddress c) (c_CreatedAt c)).
Proof.
  intros Hwf Hi Hr ms. pose proof (find_lead _ _ _ Hwf Hi) as Hlead.
  pose proof (find_index_lt _ _ _ Hi) as Hlt.
  destruct Hwf as [Ht Hs (m0 & rest & E & Hl)].
  assert (len ms = len (c_Members c) - 1) as Hms.
  { unfold ms. rewrite length_delete by (by apply lookup_lt_is_Some). lia. }
  split; cbn; [lia|done|].
  destruct (account_Equal _ _) eqn:He.
  - destruct ms as [|m1 ms']; [cbn in Hms; lia|]. by exists m1, ms'.
  - destruct i as [|i]; [by destruct Hlead as [_ Hlead]; discriminate Hlead|].
    unfold ms. rewrite E. by exists m0, (delete i rest).
Qed.

(** *** Allocation files *)
Lemma find_type_nodup fs t i f :
  NoDup (af_Type <$> fs) → find_index (type_is t) fs = Some i → fs !! i = Some f →
  af_Type f = t ∧ ∀ j g, fs !! j = Some g → af_Type g = t → j = i.
Proof.
  intros Hnd Hi Hf. destruct (find_index_Some _ _ _ Hi) as (g & Hg & Ht & _).
  simplify_eq. apply bool_decide_eq_true in Ht. split; [done|].
  intros j g' Hj Hgt. apply (NoDup_lookup (af_Type <$> fs) j i t Hnd);
    rewrite list_lookup_fmap; [rewrite Hj|rewrite Hf]; cbn; congruence.
Qed.

Lemma replace_file_wf fs i f g :
  wf_files fs → fs !! i = Some f → af_Type g = af_Type f → wf_file g →
  wf_files (<[i := g]> fs).
Proof.
  intros [Hnd Hall] Hf Ht Hg. split.
  - rewrite list_fmap_insert, Ht. rewrite list_insert_id; [done|].
    by rewrite list_lookup_fmap, Hf.
  - by apply Forall_insert.
Qed.

Lemma append_file_wf fs f :
  wf_files fs → find_index (type_is (af_Type f)) fs = None → wf_file f →
  wf_files (fs ++ [f]).
Proof.
  intros [Hnd Hall] Hno Hf. split.
  - rewrite fmap_app. apply NoDup_app. split_and!; [done| |apply NoDup_singleton].
    intros t (g & Et & Hg)%list_elem_of_fmap Ef%list_elem_of_singleton.
    rewrite find_index_None in Hno. specialize (Hno g Hg).
    apply bool_decide_eq_false in Hno. congruence.
  - apply Forall_app; split; [done|]. by apply Forall_singleton.
Qed.

Lemma upload_files_wf l t h now l' :
  wf_files (l_AllocationFiles l) → UploadAllocationFile l t h now = Ok l' →
  wf_files (l_AllocationFiles l').
Proof.
  intros Hwf H. unfold UploadAllocationFile in H.
  assert (∀ n, wf_file (mkAllocationFile t h AllocationPending None n) →
    ∀ i f, find_index (type_is t) (l_AllocationFiles l) = Some i →
      l_AllocationFiles l !! i = Some f →
      wf_files (<[i := mkAllocationFile t h AllocationPending None n]>
                  (l_AllocationFiles l))) as Hrep.
  { intros n Hn i f Hi Hf. eapply replace_file_wf; [done..| |done].
    symmetry. eapply find_type_nodup; [apply Hwf|done..]. }
  crush_ok; repeat match goal with H : negb _ = false |- _ => apply negb_false_iff in H end;
    assert (wf_file (mkAllocationFile t h AllocationPending None now)) as Hw
      by (split_and!; cbn; [done|done|split; [done|intros []%is_Some_None]]).
  - match goal with H : find_index _ _ = Some ?i |- _ =>
      destruct (find_index_Some _ _ _ H) as (f & Hf & _) end.
    destruct l; cbn in *. eauto.
  - destruct l; cbn in *. by apply append_file_wf.
Qed.

Lemma mark_file_wf fs i f st by_ :
  wf_files fs → fs !! i = Some f → (st = AllocationApproved ↔ is_Some by_) →
  wf_files (<[i := mark_file st by_ f]> fs).
Proof.
  intros Hwf Hf Hst. eapply replace_file_wf; [done..|].
  destruct Hwf as [_ Hall]. rewrite Forall_lookup in Hall.
  destruct (Hall _ _ Hf) as (? & ? & _). by split_and!.
Qed.

(** *** Preservation *)

(** A step that only moves the status or rewrites fields the invariant does
    not constrain: reduce the projections and let the guards do the rest. *)
Ltac frame_step :=
  guards;
  match goal with W : wf_launch ?l |- _ => destruct l; destruct W end;
  cbn in *; subst; constructor; cbn in *;
  try done; try (by right); try (by left);
  try (intros; congruence); try (intros [?|?]; congruence); try (by intros; auto).

(** Case analysis on a step, down to the assignments of each method. *)
Ltac step_intro H :=
  destruct H as
    [h now l' E|now l' E|n now l' E|h now l' E|now l' E|now l' E|now l' E
    |m l' E|a l' E|old m now l' E|m t now l' E|a t now l' E
    |t h now l' E|t h p now l' E|t h now|a sd|a|h Hs Hh|h ish t Hs Hh|r al Hs Hr
    |mon key ep|t H1 H2|c Hs Hc|z|vp|al Hs].
Ltac step_unfold :=
  try match goal with E : _ = Ok _ |- _ => unfold Publish, OpenWindow, CloseWindow, PublishGenesis, Cancel,
         ReopenForRevision, MarkLaunched, AddMember, RemoveMember,
         ReplaceCommitteeMember, ExpandCommittee, ShrinkCommittee,
         UploadAllocationFile, ApproveAllocationFile in E; crush_ok end;
  try (unfold RejectAllocationFile;
       destruct (find_index _ _) as [?i|] eqn:?; [|cbn];
       [destruct (l_AllocationFiles _ !! _) eqn:?; [|cbn];
        [destruct (negb _) eqn:?; cbn|]|]);
  try (unfold RecordValidatorApproval; destruct (dominantVotingPowerPct _); cbn).
Ltac step_cases H := step_intro H; step_unfold.

Lemma wf_launch_step l l' : wf_launch l → launch_step l l' → wf_launch l'.
Proof.
  intros W H. step_intro H.
  - unfold Publish in E; crush_ok; frame_step.
  - unfold OpenWindow in E; crush_ok; frame_step.
  - unfold CloseWindow in E; crush_ok; frame_step.
  - unfold PublishGenesis in E; crush_ok; frame_step.
  - unfold Cancel in E; crush_ok; frame_step.
  - unfold ReopenForRevision in E; crush_ok; frame_step.
  - unfold MarkLaunched in E; crush_ok; frame_step.
  - unfold AddMember in E; crush_ok; frame_step.
  - unfold RemoveMember in E; crush_ok; frame_step.
  - unfold ReplaceCommitteeMember in E; crush_ok; frame_step.
    by apply replace_member_wf.
  - unfold ExpandCommittee in E; crush_ok; frame_step. by apply expand_wf.
  - unfold ShrinkCommittee in E; crush_ok; frame_step. by apply shrink_wf.
  - pose proof (upload_files_wf _ _ _ _ _ (wf_f _ W) E) as Hf.
    unfold UploadAllocationFile in E; crush_ok; frame_step.
  - unfold ApproveAllocationFile in E; crush_ok; frame_step.
    by apply mark_file_wf.
  - unfold RejectAllocationFile; crush_goal; frame_step.
    by apply mark_file_wf.
  - unfold RecordValidatorApproval. destruct (dominantVotingPowerPct _); frame_step.
  - frame_step.
  - frame_step.
  - frame_step.
  - frame_step.
  - frame_step.
  - frame_step.
  - frame_step. by apply committee_ok_wf.
  - frame_step.
  - frame_step.
  - frame_step.
Qed.

Lemma New_wf id r lt c now l0 : New id r lt c now = Ok l0 → wf_launch l0.
Proof.
  unfold New. intros H.
  destruct (validateChainRecord r) eqn:Hr; [done|].
  assert (committee_ok c = true) as Hc.
  { unfold committee_ok. destruct (_ || _); [done|]. destruct (len _ =? _); [|done].
    cbn in *. destruct (c_Members c); [done|]. by destruct (account_Equal _ _). }
  crush_ok. constructor; cbn; try done.
  - by apply committee_ok_wf.
  - split; [apply NoDup_nil_2|apply Forall_nil_2].
  - by left.
  - by left.
  - by intros [?|?].
Qed.

(** ** C1: every reachable launch is well formed *)

(** C25. Whatever sequence of aggregate methods, service writes and repository
    writes is applied to a launch built by [New], its committee keeps a
    threshold in [1..N], exactly N members and its lead at position 0; its
    chain record stays valid; it has at most one allocation file per type,
    each with a valid type and hash and an approving proposal exactly when
    APPROVED; a published launch has a well-formed initial genesis hash and a
    GENESIS_READY or LAUNCHED one a well-formed final genesis hash. *)
Theorem reachable_wf l : reachable l → wf_launch l.
Proof.
  intros (id & r & lt & c & now & l0 & Hnew & Hsteps).
  apply New_wf in Hnew. induction Hsteps; eauto using wf_launch_step.
Qed.

(** ** The lifecycle *)

(** The documented edges: DRAFT -> PUBLISHED -> WINDOW_OPEN -> WINDOW_CLOSED
    -> GENESIS_READY -> LAUNCHED, the revision edge back to WINDOW_CLOSED, and
    cancellation from every non-terminal status. *)
Definition lifecycle_edge (s s' : Status) : bool :=
  match s, s' with
  | StatusDraft, StatusPublished | StatusPublished, StatusWindowOpen
  | StatusWindowOpen, StatusWindowClosed | StatusWindowClosed, StatusGenesisReady
  | StatusGenesisReady, StatusLaunched | StatusGenesisReady, StatusWindowClosed => true
  | (StatusDraft | StatusPublished | StatusWindowOpen | StatusWindowClosed
    | StatusGenesisReady), StatusCancelled => true
  | _, _ => false
  end.

Ltac status_step :=
  guards; match goal with l : Launch |- _ => destruct l end; cbn in *; subst; auto.

(** A step leaves the status alone or follows one edge of the documented
    lifecycle graph; in particular LAUNCHED and CANCELED are never left. *)
Lemma step_follows_edge l l' :
  launch_step l l' →
  l_Status l' = l_Status l ∨ lifecycle_edge (l_Status l) (l_Status l') = true.
Proof.
  intros H. step_cases H; status_step.
  match goal with s : Status |- _ => destruct s end; auto; congruence.
Qed.

(** Statuses only a closed window can lead to. *)
Definition past_window (s : Status) : bool :=
  match s with
  | StatusWindowClosed | StatusGenesisReady | StatusLaunched => true
  | _ => false
  end.

Lemma enters_past_window l l' :
  launch_step l l' → past_window (l_Status l) = false →
  past_window (l_Status l') = true → ∃ n now, CloseWindow l n now = Ok l'.
Proof.
  intros H Hl Hl'. step_intro H; [..|]; try (by eauto); exfalso; revert Hl';
    step_unfold; intros Hl'; destruct l; guards; cbn in *; subst; try congruence; done.
Qed.

(** A launch whose status is WINDOW_CLOSED, GENESIS_READY or LAUNCHED got
    there through a successful [CloseWindow] somewhere in its history: at that
    moment the minimum validator count was met and, the powers being
    non-negative, no operator held a third of the committed voting power. *)
Theorem past_window_was_gated l :
  reachable l → past_window (l_Status l) = true →
  ∃ lc n now lc',
    reachable lc ∧ CloseWindow lc n now = Ok lc' ∧ rtc launch_step lc' l ∧
    r_MinValidatorCount (l_Record lc) ≤ n ∧
    (powers_in_range lc →
     ∀ op p, l_approvedVotingPower lc !! op = Some p → 0 < p → 3 * p < committed lc).
Proof.
  intros (id & r & lt & c & now0 & l0 & Hnew & Hsteps).
  revert l Hsteps. refine (rtc_ind_r _ l0 _ _); [|intros l1 l2 Hsteps Hstep IH].
  { intros Hp. unfold New in Hnew. crush_ok. }
  intros Hp. destruct (past_window (l_Status l1)) eqn:Hp1.
  - destruct (IH eq_refl) as (lc & n & now & lc' & ? & ? & ? & ? & ?).
    exists lc, n, now, lc'. split_and!; [done|done|by eapply rtc_r|done|done].
  - destruct (enters_past_window _ _ Hstep Hp1 Hp) as (n & now & E).
    exists l1, n, now, l2. split_and!; [|done|done| |].
    + by exists id, r, lt, c, now0, l0.
    + by apply close_window_inv in E as (_ & ? & _).
    + intros Hr op p. by eapply close_window_no_dominant.
Qed.

(** What the published genesis was built from: the genesis hashes, the chain
    record apart from its start time, the members list, and the type and hash
    of every allocation file. *)
Definition published_content (l : Launch) :=
  (l_InitialGenesisSHA256 l, l_FinalGenesisSHA256 l,
   set_GenesisTime None (l_Record l), l_Allowlist l,
   (λ f, (af_Type f, af_SHA256 f)) <$> l_AllocationFiles l).

Lemma mark_keeps_content st by_ (fs : list AllocationFile) (i : nat) f :
  fs !! i = Some f →
  (λ f, (af_Type f, af_SHA256 f)) <$> <[i := mark_file st by_ f]> fs
    = (λ f, (af_Type f, af_SHA256 f)) <$> fs.
Proof.
  intros Hf. rewrite list_fmap_insert. apply list_insert_id.
  by rewrite list_lookup_fmap, Hf.
Qed.

(** Once the genesis is published (GENESIS_READY or LAUNCHED) its content
    is frozen: every step keeps the hashes, the chain record (apart from the
    start time), the members list and the allocation hashes, except the
    revision step, which goes back to WINDOW_CLOSED and clears exactly the
    final hash. *)
Lemma published_frozen l l' :
  launch_step l l' → l_Status l = StatusGenesisReady ∨ l_Status l = StatusLaunched →
  published_content l' = published_content l ∨
  (l_Status l = StatusGenesisReady ∧ l_Status l' = StatusWindowClosed ∧
   l_FinalGenesisSHA256 l' = ""%string).
Proof.
  intros H Hpub. assert (membersEditable l = false ∧ allocationLocked l = true) as [Hm Ha].
  { unfold membersEditable, allocationLocked. by destruct Hpub as [-> | ->]. }
  step_intro H; step_unfold; guards; try congruence; destruct l; cbn in *; auto;
    try (destruct Hpub; congruence);
    try (left; unfold published_content; cbn; by rewrite mark_keeps_content).
Qed.

(** C29. A step leaves the status alone or follows one edge of the documented
    lifecycle graph; in particular LAUNCHED and CANCELED are never left. Once
    the genesis is published (GENESIS_READY or LAUNCHED) its content is frozen:
    every step keeps the hashes, the chain record (apart from the start time),
    the members list and the allocation hashes, except the revision step,
    which goes back to WINDOW_CLOSED and clears exactly the final hash. *)
Theorem lifecycle_order l l' :
  launch_step l l' →
  (l_Status l' = l_Status l ∨ lifecycle_edge (l_Status l) (l_Status l') = true) ∧
  (l_Status l = StatusGenesisReady ∨ l_Status l = StatusLaunched →
   published_content l' = published_content l ∨
   (l_Status l = StatusGenesisReady ∧ l_Status l' = StatusWindowClosed ∧
    l_FinalGenesisSHA256 l' = ""%string)).
Proof. intros H. split; [by apply step_follows_edge|by apply published_frozen]. Qed.

End transitions.

(** ** Membership after a committee change *)
Definition accounts (c : Committee) : list string := acct ∘ cm_Address <$> c_Members c.

Lemma HasMember_accounts c a : HasMember c a = true ↔ acct a ∈ accounts c.
Proof.
  unfold HasMember, accounts. rewrite existsb_exists, list_elem_of_fmap. split.
  - intros (m & Hin & He). exists m. rewrite list_elem_of_In.
    by apply account_Equal_spec in He.
  - intros (m & He & Hin). exists m. rewrite <- list_elem_of_In.
    split; [done|]. by apply account_Equal_spec.
Qed.

Lemma member_found c addr i :
  find_index (member_is addr) (c_Members c) = Some i → accounts c !! i = Some (acct addr).
Proof.
  intros (m & Hm & He & _)%find_index_Some. unfold accounts.
  rewrite list_lookup_fmap, Hm. cbn. by apply account_Equal_spec in He as ->.
Qed.

Lemma accounts_expand l m t now l' :
  ExpandCommittee l m t now = Ok l' →
  accounts (l_Committee l') = accounts (l_Committee l) ++ [acct (cm_Address m)] ∧
  HasMember (l_Committee l) (cm_Address m) = false ∧
  c_ThresholdM (l_Committee l') = t ∧ 1 ≤ t < c_TotalN (l_Committee l').
Proof.
  unfold ExpandCommittee. intros H. crush_ok. guards. destruct l; cbn in *.
  split_and!; [|done|done|lia|lia]. unfold accounts. cbn. by rewrite fmap_app.
Qed.

Lemma accounts_shrink l a t now l' :
  ShrinkCommittee l a t now = Ok l' →
  ∃ i, accounts (l_Committee l) !! i = Some (acct a) ∧
    accounts (l_Committee l') = delete i (accounts (l_Committee l)) ∧
    c_ThresholdM (l_Committee l') = t ∧ 1 ≤ t < c_TotalN (l_Committee l').
Proof.
  unfold ShrinkCommittee. intros H.
  destruct (find_index _ _) as [i|] eqn:Hi; [|done].
  exists i. split; [by apply member_found|]. crush_ok; guards; destruct l; cbn in *;
    (split_and!; [|done|lia|lia]); unfold accounts; cbn; by rewrite list_fmap_delete.
Qed.

Lemma accounts_replace l a m now l' :
  ReplaceCommitteeMember l a m now = Ok l' →
  ∃ i, accounts (l_Committee l) !! i = Some (acct a) ∧
    accounts (l_Committee l') = <[i := acct (cm_Address m)]> (accounts (l_Committee l)) ∧
    c_ThresholdM (l_Committee l') = c_ThresholdM (l_Committee l).
Proof.
  unfold ReplaceCommitteeMember. intros H.
  destruct (find_index _ _) as [i|] eqn:Hi; [|done].
  exists i. split; [by apply member_found|]. crush_ok; destruct l; cbn in *.
  split; [|done]. unfold accounts; cbn. by rewrite list_fmap_insert.
Qed.

Lemma elem_of_delete_nodup (l : list string) i x y :
  NoDup l → l !! i = Some x → y ∈ delete i l ↔ y ∈ l ∧ y ≠ x.
Proof.
  intros Hnd Hx. rewrite <- (take_drop_middle l i x Hx) at 2.
  rewrite <- (take_drop_middle l i x Hx) in Hnd. rewrite delete_take_drop.
  apply NoDup_app in Hnd as (Hnd1 & Hd & [Hx2 Hnd2]%NoDup_cons).
  rewrite !elem_of_app, elem_of_cons. split; [|naive_solver].
  intros [Hy|Hy]; (split; [by auto|]); intros ->; [|done].
  by eapply Hd; [|left].
Qed.

(** On a committee of distinct accounts, EXPAND adds exactly the new
    account and SHRINK removes exactly the named one, both leave the accounts
    distinct and a threshold strictly below the new size, so the committee can
    still act with one member absent. *)
Theorem committee_resize_membership l l' :
  NoDup (accounts (l_Committee l)) →
  (∀ m t now, ExpandCommittee l m t now = Ok l' →
     NoDup (accounts (l_Committee l')) ∧
     c_ThresholdM (l_Committee l') < c_TotalN (l_Committee l') ∧
     ∀ a, HasMember (l_Committee l') a = true ↔
          HasMember (l_Committee l) a = true ∨ a ≡ cm_Address m) ∧
  (∀ r t now, ShrinkCommittee l r t now = Ok l' →
     NoDup (accounts (l_Committee l')) ∧
     c_ThresholdM (l_Committee l') < c_TotalN (l_Committee l') ∧
     ∀ a, HasMember (l_Committee l') a = true ↔
          HasMember (l_Committee l) a = true ∧ a ≢ r).
Proof.
  intros Hnd. split.
  - intros m t now (E & Hno & Ht & Hlt)%accounts_expand. split_and!; [|lia|].
    + rewrite E. apply NoDup_app. split_and!; [done| |apply NoDup_singleton].
      intros x Hx ->%list_elem_of_singleton. apply HasMember_accounts in Hx. congruence.
    + intros a. by rewrite !HasMember_accounts, E, elem_of_app, list_elem_of_singleton.
  - intros r t now (i & Hi & E & Ht & Hlt)%accounts_shrink. split_and!; [|lia|].
    + rewrite E. eapply sublist_NoDup; [done|]. apply sublist_delete.
    + intros a. by rewrite !HasMember_accounts, E, (elem_of_delete_nodup _ _ _ _ Hnd Hi).
Qed.

(** Accounts that can sign: the distinct ones. *)
Definition signers (c : Committee) : gset string := list_to_set (accounts c).

(** REPLACE does not look at whether the incoming account already sits on
    the committee: from a well-formed committee of distinct accounts it can
    produce one whose threshold exceeds the number of distinct accounts, so
    that no further proposal can reach quorum. *)
Lemma replace_can_lose_quorum :
  ∃ l old m now l',
    wf_committee (l_Committee l) ∧ NoDup (accounts (l_Committee l)) ∧
    ReplaceCommitteeMember l old m now = Ok l' ∧ wf_committee (l_Committee l') ∧
    Z.of_nat (size (signers (l_Committee l'))) < c_ThresholdM (l_Committee l').
Proof.
  set (c := mkCommittee 7%N [fixtures.member fixtures.alice; fixtures.member fixtures.bob]
              2 2 fixtures.alice 0).
  set (l := set_Committee c fixtures.draft).
  set (m := fixtures.member fixtures.alice).
  set (c' := mkCommittee 7%N [m; m] 2 2 fixtures.alice 0).
  exists l, fixtures.bob, m, 0, (touch 0 (set_Committee c' l)).
  split; [by apply committee_ok_wf|]. split.
  { apply (bool_decide_eq_true_1 (NoDup _)). vm_compute. reflexivity. }
  split; [vm_compute; reflexivity|]. split; [by apply committee_ok_wf|].
  vm_compute. reflexivity.
Qed.

(** ** Witnesses *)
Section witnesses.
Local Instance w_bech32 : Bech32 := fixtures.toy_bech32.
Local Instance w_url : NetURL := fixtures.toy_url.
Import fixtures.

Definition w_published : Launch := touch 0 (set_Status StatusPublished
  (set_InitialGenesisSHA256 hash64 draft)).
Definition w_open : Launch := touch 0 (set_Status StatusWindowOpen w_published).
Definition w_powered : Launch := InitVotingPower w_open four_equal.
Definition w_closed : Launch := touch 0 (set_Status StatusWindowClosed w_powered).

Lemma w_new : New 1%N record LaunchTypeTestnet committee t0 = Ok draft.
Proof. vm_compute. reflexivity. Defined.

Lemma w_steps : rtc launch_step draft w_closed.
Proof.
  eapply rtc_l; [apply (step_publish _ hash64 0 w_published); vm_compute; reflexivity|].
  eapply rtc_l; [apply (step_open _ 0 w_open); vm_compute; reflexivity|].
  eapply rtc_l; [apply (step_init_power _ four_equal)|].
  eapply rtc_l; [apply (step_close _ 4 0 w_closed); vm_compute; reflexivity|].
  apply rtc_refl.
Defined.

Lemma w_reachable : reachable w_closed.
Proof. exists 1%N, record, LaunchTypeTestnet, committee, t0, draft. split; [apply w_new|apply w_steps]. Defined.

Lemma reachable_wf_witness : wf_launch w_closed.
Proof. apply reachable_wf. apply w_reachable. Defined.

Lemma past_window_was_gated_witness :
  ∃ lc n now lc',
    reachable lc ∧ CloseWindow lc n now = Ok lc' ∧ rtc launch_step lc' w_closed ∧
    r_MinValidatorCount (l_Record lc) ≤ n ∧
    (powers_in_range lc →
     ∀ op p, l_approvedVotingPower lc !! op = Some p → 0 < p → 3 * p < committed lc).
Proof. apply past_window_was_gated; [apply w_reachable|reflexivity]. Defined.

Definition w_ready : Launch := touch 0 (set_Status StatusGenesisReady
  (set_FinalGenesisSHA256 hash64' w_closed)).
Definition w_reopened : Launch := touch 1 (set_Status StatusWindowClosed
  (set_FinalGenesisSHA256 "" w_ready)).

Lemma lifecycle_order_witness :
  (l_Status w_reopened = l_Status w_ready ∨
   lifecycle_edge (l_Status w_ready) (l_Status w_reopened) = true) ∧
  (published_content w_reopened = published_content w_ready ∨
   (l_Status w_ready = StatusGenesisReady ∧ l_Status w_reopened = StatusWindowClosed ∧
    l_FinalGenesisSHA256 w_reopened = ""%string)).
Proof.
  destruct (lifecycle_order w_ready w_reopened) as [He Hf].
  - apply (step_reopen _ 1). vm_compute. reflexivity.
  - split; [exact He|]. apply Hf. by left.
Defined.

Definition w_expanded : Launch := touch 0 (set_Committee
  (mkCommittee 7%N (c_Members committee ++ [member dave]) 3 4 alice t0) draft).

Lemma committee_resize_membership_witness :
  NoDup (accounts (l_Committee w_expanded)) ∧
  HasMember (l_Committee w_expanded) dave = true.
Proof.
  destruct (committee_resize_membership draft w_expanded) as [He _].
  { apply (bool_decide_eq_true_1 (NoDup _)). vm_compute. reflexivity. }
  destruct (He (member dave) 3 0) as (Hnd & _ & Hm); [vm_compute; reflexivity|].
  split; [exact Hnd|]. apply Hm. right. reflexivity.
Defined.

End witnesses.
