(* ===== verification/Json.v ===== *)
(** * encoding/json

    [json.Unmarshal] as the program uses it: a scanner that accepts exactly
    the JSON grammar (up to Go's nesting limit), and the rules by which a
    decoded document is stored into struct fields: exact then case-folded
    field names, later duplicates overwrite, [null] leaves a field alone, a
    value of the wrong type is an error reported after the rest is decoded. *)

From S2P Require Import Prelude GoStd.
#[global] Open Scope Z_scope.

Module json.

Inductive value : Type :=
  | JNull
  | JBool (b : bool)
  | JNum (lit : string)          (* the literal, as written *)
  | JStr (s : string)            (* unescaped *)
  | JArr (l : list (string * value))   (* each element with its raw bytes *)
  | JObj (l : list (string * (string * value))).

(** ** Lexing *)
Definition c (n : nat) (a : ascii) : bool := (nat_of_ascii a =? n)%nat.
Definition is_space (a : ascii) : bool := c 32 a || c 9 a || c 10 a || c 13 a.
Definition is_digit (a : ascii) : bool :=
  let n := nat_of_ascii a in ((48 <=? n) && (n <=? 57))%nat.

Fixpoint skip_space (l : list ascii) : list ascii :=
  match l with
  | a :: r => if is_space a then skip_space r else l
  | [] => []
  end.

Fixpoint take_digits (l : list ascii) : list ascii * list ascii :=
  match l with
  | a :: r => if is_digit a then let (d, t) := take_digits r in (a :: d, t) else ([], l)
  | [] => ([], [])
  end.

(** [-? (0 | [1-9][0-9]* ) (. [0-9]+)? ([eE] [+-]? [0-9]+)?] *)
Definition lex_number (l : list ascii) : option (list ascii * list ascii) :=
  let (sign, l1) := match l with a :: r => if c 45 a then ([a], r) else ([], l) | [] => ([], l) end in
  let (ip, l2) :=
    match l1 with a :: r => if c 48 a then ([a], r) else take_digits l1 | [] => ([], []) end in
  if (length ip =? 0)%nat then None
  else
    match
      match l2 with
      | a :: r =>
          if c 46 a then
            let (f, t) := take_digits r in
            if (length f =? 0)%nat then None else Some (a :: f, t)
          else Some ([], l2)
      | [] => Some ([], [])
      end
    with
    | None => None
    | Some (fp, l3) =>
        match
          match l3 with
          | a :: r =>
              if c 101 a || c 69 a then
                let (s, r') :=
                  match r with
                  | b :: r' => if c 43 b || c 45 b then ([b], r') else ([], r)
                  | [] => ([], [])
                  end in
                let (e, t) := take_digits r' in
                if (length e =? 0)%nat then None else Some (a :: s ++ e, t)
              else Some ([], l3)
          | [] => Some ([], [])
          end
        with
        | None => None
        | Some (ep, rest) => Some (sign ++ ip ++ fp ++ ep, rest)
        end
    end.

(** UTF-8 encoding of a code point below 0x110000. *)
Definition byte (z : Z) : ascii := ascii_of_nat (Z.to_nat z).
Definition utf8 (r : Z) : list ascii :=
  if r <? 128 then [byte r]
  else if r <? 2048 then [byte (192 + r / 64); byte (128 + r mod 64)]
  else if r <? 65536 then
    [byte (224 + r / 4096); byte (128 + r / 64 mod 64); byte (128 + r mod 64)]
  else
    [byte (240 + r / 262144); byte (128 + r / 4096 mod 64);
     byte (128 + r / 64 mod 64); byte (128 + r mod 64)].
Definition rune_error : Z := 65533.

Definition hex4 (l : list ascii) : option (Z * list ascii) :=
  match l with
  | a :: b :: d :: e :: r =>
      x ← hex.digit_val a; y ← hex.digit_val b; z ← hex.digit_val d; w ← hex.digit_val e;
      Some (Z.of_nat (((x * 16 + y) * 16 + z) * 16 + w), r)
  | _ => None
  end.

(** Length of the well-formed UTF-8 sequence starting with a byte above 127,
    or 0: such a byte is replaced by U+FFFD. *)
Definition cont (lo hi : Z) (a : ascii) : bool :=
  let n := Z.of_nat (nat_of_ascii a) in (lo <=? n) && (n <=? hi).
Definition utf8_seq (l : list ascii) : nat :=
  match l with
  | [] => 0%nat
  | a :: r =>
      let n := Z.of_nat (nat_of_ascii a) in
      let k b := cont 128 191 b in
      if (194 <=? n) && (n <=? 223) then
        match r with b :: _ => if k b then 2%nat else 0%nat | _ => 0%nat end
      else if (224 <=? n) && (n <=? 239) then
        let lo := if n =? 224 then 160 else 128 in
        let hi := if n =? 237 then 159 else 191 in
        match r with
        | b :: d :: _ => if cont lo hi b && k d then 3%nat else 0%nat
        | _ => 0%nat
        end
      else if (240 <=? n) && (n <=? 244) then
        let lo := if n =? 240 then 144 else 128 in
        let hi := if n =? 244 then 143 else 191 in
        match r with
        | b :: d :: e :: _ => if cont lo hi b && k d && k e then 4%nat else 0%nat
        | _ => 0%nat
        end
      else 0%nat
  end.

(** The characters up to the closing quote, unescaped. *)
Fixpoint lex_string (fuel : nat) (l acc : list ascii) : option (list ascii * list ascii) :=
  match fuel with
  | O => None
  | S fuel =>
      match l with
      | [] => None
      | a :: r =>
          let n := nat_of_ascii a in
          if c 34 a then Some (rev acc, r)
          else if (n <? 32)%nat then None
          else if c 92 a then
            match r with
            | [] => None
            | b :: r' =>
                let simple z := lex_string fuel r' (byte z :: acc) in
                if c 34 b then simple 34 else if c 92 b then simple 92
                else if c 47 b then simple 47 else if c 98 b then simple 8
                else if c 102 b then simple 12 else if c 110 b then simple 10
                else if c 114 b then simple 13 else if c 116 b then simple 9
                else if c 117 b then
                  match hex4 r' with
                  | None => None
                  | Some (u, r2) =>
                      if (55296 <=? u) && (u <=? 57343) then
                        (* a surrogate: valid only as a high-low pair *)
                        match r2 with
                        | x :: y :: r3 =>
                            if c 92 x && c 117 y && (u <=? 56319) then
                              match hex4 r3 with
                              | Some (v, r4) =>
                                  if (56320 <=? v) && (v <=? 57343) then
                                    lex_string fuel r4
                                      (rev (utf8 (65536 + (u - 55296) * 1024 + (v - 56320)))
                                         ++ acc)
                                  else lex_string fuel r2 (rev (utf8 rune_error) ++ acc)
                              | None => None
                              end
                            else lex_string fuel r2 (rev (utf8 rune_error) ++ acc)
                        | _ => lex_string fuel r2 (rev (utf8 rune_error) ++ acc)
                        end
                      else lex_string fuel r2 (rev (utf8 u) ++ acc)
                  end
                else None
            end
          else if (n <? 128)%nat then lex_string fuel r (a :: acc)
          else
            match utf8_seq l with
            | O => lex_string fuel r (rev (utf8 rune_error) ++ acc)
            | k => lex_string fuel (drop k l) (rev (take k l) ++ acc)
            end
      end
  end.

Definition quoted (l : list ascii) : option (list ascii * list ascii) :=
  match l with
  | a :: r => if c 34 a then lex_string (S (length r)) r [] else None
  | [] => None
  end.

(** The bytes of [l] that precede its suffix [rest]. *)
Definition consumed (l rest : list ascii) : string :=
  of_chars (take (length l - length rest) l).

(** ** Values *)
Definition maxNestingDepth : nat := 10000.

Fixpoint parse_value (fuel depth : nat) (l0 : list ascii) {struct fuel}
    : option (value * list ascii) :=
  match fuel with
  | O => None
  | S fuel =>
      let l := skip_space l0 in
      match l with
      | [] => None
      | a :: r =>
          if c 34 a then
            '(s, t) ← quoted l; Some (JStr (of_chars s), t)
          else if c 123 a then
            match depth with
            | O => None
            | S depth =>
                match skip_space r with
                | b :: t => if c 125 b then Some (JObj [], t)
                            else '(ms, t) ← parse_members fuel depth r; Some (JObj ms, t)
                | [] => None
                end
            end
          else if c 91 a then
            match depth with
            | O => None
            | S depth =>
                match skip_space r with
                | b :: t => if c 93 b then Some (JArr [], t)
                            else '(vs, t) ← parse_elems fuel depth r; Some (JArr vs, t)
                | [] => None
                end
            end
          else if c 45 a || is_digit a then
            '(n, t) ← lex_number l; Some (JNum (of_chars n), t)
          else
            match strings.strip_prefix (chars "true") l with
            | Some t => Some (JBool true, t)
            | None =>
                match strings.strip_prefix (chars "false") l with
                | Some t => Some (JBool false, t)
                | None => t ← strings.strip_prefix (chars "null") l; Some (JNull, t)
                end
            end
      end
  end
with parse_elems (fuel depth : nat) (l0 : list ascii) {struct fuel}
    : option (list (string * value) * list ascii) :=
  match fuel with
  | O => None
  | S fuel =>
      let l := skip_space l0 in
      '(v, r) ← parse_value fuel depth l;
      match skip_space r with
      | a :: t =>
          if c 93 a then Some ([(consumed l r, v)], t)
          else if c 44 a then
            '(vs, t') ← parse_elems fuel depth t; Some ((consumed l r, v) :: vs, t')
          else None
      | [] => None
      end
  end
with parse_members (fuel depth : nat) (l0 : list ascii) {struct fuel}
    : option (list (string * (string * value)) * list ascii) :=
  match fuel with
  | O => None
  | S fuel =>
      '(k, r0) ← quoted (skip_space l0);
      match skip_space r0 with
      | a :: r1 =>
          if c 58 a then
            let l := skip_space r1 in
            '(v, r) ← parse_value fuel depth l;
            match skip_space r with
            | b :: t =>
                if c 125 b then Some ([(of_chars k, (consumed l r, v))], t)
                else if c 44 b then
                  '(ms, t') ← parse_members fuel depth t;
                  Some ((of_chars k, (consumed l r, v)) :: ms, t')
                else None
            | [] => None
            end
          else None
      | [] => None
      end
  end.

(** Every two nested calls consume a byte, so twice the length is enough. *)
Definition parse (s : string) : option value :=
  let l := chars s in
  '(v, t) ← parse_value (2 * length l + 2) maxNestingDepth l;
  match skip_space t with [] => Some v | _ => None end.

(** ** Storing into Go values *)

(** Case folding of a key: ASCII letters, and the two other code points that
    fold to an ASCII letter, U+212A (k) and U+017F (s). *)
Fixpoint fold_chars (l : list ascii) : list ascii :=
  match l with
  | [] => []
  | a :: r =>
      match r with
      | b :: ((d :: r'') as r') =>
          if c 226 a && c 132 b && c 170 d then byte 107 :: fold_chars r''
          else if c 197 a && c 191 b then byte 115 :: fold_chars r'
          else strings.lower_ascii a :: fold_chars r
      | [b] =>
          if c 197 a && c 191 b then [byte 115]
          else strings.lower_ascii a :: fold_chars r
      | [] => [strings.lower_ascii a]
      end
  end.
Definition fold_name (s : string) : string := of_chars (fold_chars (chars s)).

(** Field lookup: an exact name first, then the folded name; each matching
    member is stored in document order. *)
Definition field_matches (names : list string) (name key : string) : bool :=
  bool_decide (key = name)
  || (negb (bool_decide (key ∈ names))
      && bool_decide (fold_name key = fold_name name)).

(** The members of an object stored into the field [name] of a struct with
    the given field names. *)
Definition stores (names : list string) (name : string) (v : value) : list (string * value) :=
  match v with
  | JObj ms => snd <$> filter (λ kv, field_matches names name kv.1 = true) ms
  | _ => []
  end.

(** [json.Unmarshal(raw, &struct)]: an object, or [null] (a no-op). *)
Definition is_struct_doc (v : value) : bool :=
  match v with JObj _ | JNull => true | _ => false end.

(** A field decoder maps the current content and one stored value to the new
    content; [None] is a type error. *)
Definition decoder (A : Type) : Type := A → string * value → option A.

Definition d_string : decoder string := λ cur rv,
  match rv.2 with JNull => Some cur | JStr s => Some s | _ => None end.

Definition d_int_opt : decoder (option Z) := λ cur rv,
  match rv.2 with
  | JNull => Some None
  | JNum lit => match strconv.Atoi lit with Ok z => Some (Some z) | Err _ => None end
  | _ => None
  end.

Definition field {A} (names : list string) (name : string) (d : decoder A) (zero : A)
    (v : value) : option A :=
  foldl (λ cur rv, x ← cur; d x rv) (Some zero) (stores names name v).

(** [json.RawMessage] keeps the bytes of the value as written. *)
Definition d_raw : decoder (option string) := λ _ rv, Some (Some rv.1).

(** [[]json.RawMessage] *)
Definition d_raw_list : decoder (list string) := λ _ rv,
  match rv.2 with
  | JNull => Some []
  | JArr vs => Some (fst <$> vs)
  | _ => None
  end.

(** A nested struct: duplicates of the field merge into the same value. *)
Definition d_struct {A} (dec : A → value → option A) : decoder A := λ cur rv,
  match rv.2 with JNull => Some cur | JObj _ => dec cur rv.2 | _ => None end.

(** [map[string]json.RawMessage]: the last value of each key, exact names. *)
Definition raw_map (v : value) : option (gmap string string) :=
  match v with
  | JObj ms => Some (foldl (λ m kv, <[kv.1 := kv.2.1]> m) ∅ ms)
  | JNull => Some ∅
  | _ => None
  end.

(** A whole document into a struct: syntax error, or a type error in any
    field, fails. *)
Definition unmarshal {A} (dec : value → option A) (s : string) : result A :=
  match parse s with
  | None => Err errorf
  | Some v =>
      if negb (is_struct_doc v) then Err errorf
      else match dec v with Some a => Ok a | None => Err errorf end
  end.

Definition is_null (v : value) : bool := match v with JNull => true | _ => false end.

(** [json.NewDecoder(r).Decode(&struct)] on a stream of the given bytes that ends
    regularly, or ([eof = false]) with a read error: the first value of the
    stream; what follows it is not looked at.  Only an object is known to be
    complete before the byte after it was read. *)
Definition Decode {A} (dec : value → option A) (body : string) (eof : bool) : result A :=
  let l := chars body in
  match parse_value (2 * length l + 2) maxNestingDepth l with
  | None => Err errorf
  | Some (v, rest) =>
      if negb (is_struct_doc v) then Err errorf
      else if negb eof && (length rest =? 0)%nat && is_null v then Err errorf
      else match dec v with Some a => Ok a | None => Err errorf end
  end.

End json.
