(* ===== verification/Events.v ===== *)
(** * Domain events (src/internal/domain/events.go)

    The facts aggregates and services announce: broadcast to subscribers and
    written to the audit log.  Grouped as the source lists them. *)

From S2P Require Import Prelude GoStd.
#[global] Open Scope Z_scope.

Module domain.

(** Completion events of executed proposals (and the advisory gate record). *)
Inductive governance_event : Type :=
  | ValidatorApproved (LaunchID JoinRequestID : uuid) (OperatorAddress : string)
  | ValidatorRejected (LaunchID JoinRequestID : uuid) (Reason : string)
  | ValidatorRemoved (LaunchID JoinRequestID : uuid) (Reason : string)
  | GenesisPublished (LaunchID : uuid) (GenesisHash : string)
  | RehearsalGateNotSatisfied (LaunchID : uuid) (Reason : string)
  | GenesisTimeUpdated (LaunchID : uuid) (NewGenesisTime PrevGenesisTime : time.Time)
  | WindowClosed (LaunchID : uuid)
  | ChainRecordPublished (LaunchID : uuid) (InitialGenesisHash : string)
  | LaunchCancelled (LaunchID : uuid)
  | GenesisRevisionApproved (LaunchID : uuid).

(** Launch and rehearsal activity. *)
Inductive launch_event : Type :=
  | LaunchCreated (LaunchID : uuid) (ChainID LaunchType LeadAddress : string)
  | WindowOpened (LaunchID : uuid)
  | InitialGenesisUploaded (LaunchID : uuid) (GenesisHash : string)
  | FinalGenesisUploaded (LaunchID : uuid) (GenesisHash : string)
  | AllocationFileUploaded (LaunchID : uuid) (AllocationType SHA256 : string)
  | AllocationFileApproved (LaunchID : uuid) (AllocationType SHA256 : string)
  | AllocationFileRejected (LaunchID : uuid) (AllocationType SHA256 : string)
  | LaunchDetected (LaunchID : uuid) (BlockHeight : Z) (SourceRPC : string)
  | RehearsalResultRecorded (LaunchID AttemptID : uuid) (InputSetHash Outcome : string)
      (Stale : bool)
  | RehearsalAttemptReset (LaunchID AttemptID : uuid) (ResetBy : string)
  | RehearsalRunClaimed (LaunchID AttemptID : uuid) (RunnerID : string).

Record FieldChange : Type := mkFieldChange { Field : string; Old : string; New : string }.

#[global] Instance FieldChange_eq_dec : EqDecision FieldChange.
Proof. solve_decision. Defined.

(** Proposal expiry, members, and committee changes. *)
Inductive committee_event : Type :=
  | ProposalExpired (LaunchID ProposalID : uuid) (ActionType : string)
  | LaunchMemberAdded (LaunchID : uuid) (Address Label AddedBy : string)
  | LaunchMemberRemoved (LaunchID : uuid) (Address RemovedBy : string)
  | CommitteeSet (LaunchID : uuid) (Members : list string) (ThresholdM TotalN : Z)
      (LeadAddress SetBy : string)
  | LaunchPatched (LaunchID : uuid) (ChangedBy : string) (Changes : list FieldChange)
  | CommitteeMemberReplaced (LaunchID : uuid) (OldAddress NewAddress : string)
      (OldMembers NewMembers : list string) (OldThresholdM NewThresholdM : Z)
  | CommitteeExpanded (LaunchID : uuid) (AddedAddress : string)
      (OldMembers NewMembers : list string) (OldThresholdM NewThresholdM : Z)
  | CommitteeShrunk (LaunchID : uuid) (RemovedAddress : string)
      (OldMembers NewMembers : list string) (OldThresholdM NewThresholdM : Z).

(** Global events, the two-phase execution record, and validator activity. *)
Inductive system_event : Type :=
  | CoordinatorAdded (Address AddedBy : string)
  | CoordinatorRemoved (Address RemovedBy : string)
  | SessionsRevoked (Account RevokedBy : string)
  | ProposalExecuting (LaunchID ProposalID : uuid) (ActionType : string)
  | ProposalExecutionAborted (LaunchID ProposalID : uuid) (ActionType : string)
      (Reason : error) (* the chain of the error whose text is recorded *)
  | JoinRequestSubmitted (LaunchID JoinRequestID : uuid)
      (OperatorAddress SubmitterAddress : string)
  | ReadinessConfirmed (LaunchID : uuid) (OperatorAddress : string).

Inductive event_body : Type :=
  | Gov (e : governance_event)
  | Lch (e : launch_event)
  | Com (e : committee_event)
  | Sys (e : system_event).

#[global] Instance governance_event_eq_dec : EqDecision governance_event.
Proof. solve_decision. Defined.
#[global] Instance launch_event_eq_dec : EqDecision launch_event.
Proof. solve_decision. Defined.
#[global] Instance committee_event_eq_dec : EqDecision committee_event.
Proof. solve_decision. Defined.
#[global] Instance system_event_eq_dec : EqDecision system_event.
Proof. solve_decision. Defined.
#[global] Instance event_body_eq_dec : EqDecision event_body.
Proof. solve_decision. Defined.

(** The embedded [base] carries the occurrence time; the zero time means the
    writer of the audit entry stamps it. *)
Record DomainEvent : Type := mkEvent {
  occurredAt : time.Time;
  body : event_body }.

#[global] Instance DomainEvent_eq_dec : EqDecision DomainEvent.
Proof. solve_decision. Defined.

(** A composite literal without [WithTime]. *)
Definition event (b : event_body) : DomainEvent := mkEvent time.zeroTime b.

(** [WithTime] *)
Definition WithTime (t : time.Time) (e : DomainEvent) : DomainEvent := mkEvent t (body e).

Definition EventName (e : DomainEvent) : string :=
  match body e with
  | Gov g =>
      match g with
      | ValidatorApproved _ _ _ => "ValidatorApproved"
      | ValidatorRejected _ _ _ => "ValidatorRejected"
      | ValidatorRemoved _ _ _ => "ValidatorRemoved"
      | GenesisPublished _ _ => "GenesisPublished"
      | RehearsalGateNotSatisfied _ _ => "RehearsalGateNotSatisfied"
      | GenesisTimeUpdated _ _ _ => "GenesisTimeUpdated"
      | WindowClosed _ => "WindowClosed"
      | ChainRecordPublished _ _ => "ChainRecordPublished"
      | LaunchCancelled _ => "LaunchCancelled"
      | GenesisRevisionApproved _ => "GenesisRevisionApproved"
      end
  | Lch g =>
      match g with
      | LaunchCreated _ _ _ _ => "LaunchCreated"
      | WindowOpened _ => "WindowOpened"
      | InitialGenesisUploaded _ _ => "InitialGenesisUploaded"
      | FinalGenesisUploaded _ _ => "FinalGenesisUploaded"
      | AllocationFileUploaded _ _ _ => "AllocationFileUploaded"
      | AllocationFileApproved _ _ _ => "AllocationFileApproved"
      | AllocationFileRejected _ _ _ => "AllocationFileRejected"
      | LaunchDetected _ _ _ => "LaunchDetected"
      | RehearsalResultRecorded _ _ _ _ _ => "RehearsalResultRecorded"
      | RehearsalAttemptReset _ _ _ => "RehearsalAttemptReset"
      | RehearsalRunClaimed _ _ _ => "RehearsalRunClaimed"
      end
  | Com g =>
      match g with
      | ProposalExpired _ _ _ => "ProposalExpired"
      | LaunchMemberAdded _ _ _ _ => "LaunchMemberAdded"
      | LaunchMemberRemoved _ _ _ => "LaunchMemberRemoved"
      | CommitteeSet _ _ _ _ _ _ => "CommitteeSet"
      | LaunchPatched _ _ _ => "LaunchPatched"
      | CommitteeMemberReplaced _ _ _ _ _ _ _ => "CommitteeMemberReplaced"
      | CommitteeExpanded _ _ _ _ _ _ => "CommitteeExpanded"
      | CommitteeShrunk _ _ _ _ _ _ => "CommitteeShrunk"
      end
  | Sys g =>
      match g with
      | CoordinatorAdded _ _ => "CoordinatorAdded"
      | CoordinatorRemoved _ _ => "CoordinatorRemoved"
      | SessionsRevoked _ _ => "SessionsRevoked"
      | ProposalExecuting _ _ _ => "ProposalExecuting"
      | ProposalExecutionAborted _ _ _ _ => "ProposalExecutionAborted"
      | JoinRequestSubmitted _ _ _ _ => "JoinRequestSubmitted"
      | ReadinessConfirmed _ _ => "ReadinessConfirmed"
      end
  end.

Definition GetLaunchID (e : DomainEvent) : uuid :=
  match body e with
  | Gov (ValidatorApproved i _ _ | ValidatorRejected i _ _ | ValidatorRemoved i _ _
        | GenesisPublished i _ | RehearsalGateNotSatisfied i _ | GenesisTimeUpdated i _ _
        | WindowClosed i | ChainRecordPublished i _ | LaunchCancelled i
        | GenesisRevisionApproved i)
  | Lch (LaunchCreated i _ _ _ | WindowOpened i | InitialGenesisUploaded i _
        | FinalGenesisUploaded i _ | AllocationFileUploaded i _ _
        | AllocationFileApproved i _ _ | AllocationFileRejected i _ _
        | LaunchDetected i _ _ | RehearsalResultRecorded i _ _ _ _
        | RehearsalAttemptReset i _ _ | RehearsalRunClaimed i _ _)
  | Com (ProposalExpired i _ _ | LaunchMemberAdded i _ _ _ | LaunchMemberRemoved i _ _
        | CommitteeSet i _ _ _ _ _ | LaunchPatched i _ _
        | CommitteeMemberReplaced i _ _ _ _ _ _ | CommitteeExpanded i _ _ _ _ _
        | CommitteeShrunk i _ _ _ _ _)
  | Sys (ProposalExecuting i _ _ | ProposalExecutionAborted i _ _ _
        | JoinRequestSubmitted i _ _ _ | ReadinessConfirmed i _) => i
  | Sys (CoordinatorAdded _ _ | CoordinatorRemoved _ _ | SessionsRevoked _ _) => uuid_Nil
  end.

End domain.
