(* ===== verification/Payload.v ===== *)
(** * Proposal payloads (src/internal/domain/proposal/payload.go)

    One record per action, its JSON decoder, the validation done when a
    proposal is created, and the extraction helpers used when it executes.  A
    helper that panics in the source returns [None]. *)

From S2P Require Import Prelude GoStd GoTime Values LaunchAgg Json.
#[global] Open Scope Z_scope.

(** github.com/google/uuid: text form of an identifier. *)
Class UUIDText : Type := {
  uuid_Parse : string → result uuid;
  uuid_String : uuid → string }.

Module payload.

(** proposal.go *)
Inductive ActionType : Type :=
  | ActionApproveValidator | ActionRejectValidator | ActionRemoveApprovedValidator
  | ActionApproveAllocationFile | ActionPublishChainRecord
  | ActionCloseApplicationWindow | ActionPublishGenesis | ActionUpdateGenesisTime
  | ActionReplaceCommitteeMember | ActionReviseGenesis | ActionExpandCommittee
  | ActionShrinkCommittee | ActionCancelLaunch
  | ActionOther (s : string) (* any other string a request may carry *).

#[global] Instance ActionType_eq_dec : EqDecision ActionType.
Proof. solve_decision. Defined.

Definition ActionType_String (a : ActionType) : string :=
  match a with
  | ActionApproveValidator => "APPROVE_VALIDATOR"
  | ActionRejectValidator => "REJECT_VALIDATOR"
  | ActionRemoveApprovedValidator => "REMOVE_APPROVED_VALIDATOR"
  | ActionApproveAllocationFile => "APPROVE_ALLOCATION_FILE"
  | ActionPublishChainRecord => "PUBLISH_CHAIN_RECORD"
  | ActionCloseApplicationWindow => "CLOSE_APPLICATION_WINDOW"
  | ActionPublishGenesis => "PUBLISH_GENESIS"
  | ActionUpdateGenesisTime => "UPDATE_GENESIS_TIME"
  | ActionReplaceCommitteeMember => "REPLACE_COMMITTEE_MEMBER"
  | ActionReviseGenesis => "REVISE_GENESIS"
  | ActionExpandCommittee => "EXPAND_COMMITTEE"
  | ActionShrinkCommittee => "SHRINK_COMMITTEE"
  | ActionCancelLaunch => "CANCEL_LAUNCH"
  | ActionOther s => s
  end.

Record ApproveValidatorPayload : Type := mkApprove {
  av_JoinRequestID : uuid; av_OperatorAddress : string }.
(** [RejectValidatorPayload] and [RemoveApprovedValidatorPayload] *)
Record RejectValidatorPayload : Type := mkReject {
  rv_JoinRequestID : uuid; rv_OperatorAddress : string; rv_Reason : string }.
Record ApproveAllocationFilePayload : Type := mkAllocation {
  aa_Type : string; aa_Hash : string }.
Record PublishChainRecordPayload : Type := mkPublishRecord { pc_InitialGenesisHash : string }.
Record PublishGenesisPayload : Type := mkPublishGenesis { pg_GenesisHash : string }.
Record UpdateGenesisTimePayload : Type := mkUpdateTime {
  ut_NewGenesisTime : time.Time; ut_PrevGenesisTime : time.Time }.
Record ReplaceCommitteeMemberPayload : Type := mkReplace {
  rc_OldAddress : string; rc_NewAddress : string; rc_NewMoniker : string }.
Record CommitteeMemberSpec : Type := mkSpec { ms_Address : string; ms_Moniker : string }.
Record ExpandCommitteePayload : Type := mkExpand {
  ec_NewMember : CommitteeMemberSpec; ec_NewThresholdM : option Z }.
Record ShrinkCommitteePayload : Type := mkShrink {
  sc_RemoveAddress : string; sc_NewThresholdM : option Z }.

Section decoding.
Context `{UT : UUIDText}.
Import json.

(** [uuid.UUID] decodes through [UnmarshalText]: a JSON string. *)
Definition d_uuid : decoder uuid := λ cur rv,
  match rv.2 with
  | JNull => Some cur
  | JStr s => match uuid_Parse s with Ok u => Some u | Err _ => None end
  | _ => None
  end.

(** [time.Time] parses the raw bytes between the quotes. *)
Definition d_time : decoder time.Time := λ cur rv,
  match rv.2 with
  | JNull => Some cur
  | JStr _ => rfc3339.parse (of_chars (removelast (drop 1 (chars rv.1))))
  | _ => None
  end.

Definition approve_names : list string := ["join_request_id"; "operator_address"].
Definition dec_approve (v : value) : option ApproveValidatorPayload :=
  j ← field approve_names "join_request_id" d_uuid uuid_Nil v;
  o ← field approve_names "operator_address" d_string "" v;
  Some (mkApprove j o).

Definition reject_names : list string := ["join_request_id"; "operator_address"; "reason"].
Definition dec_reject (v : value) : option RejectValidatorPayload :=
  j ← field reject_names "join_request_id" d_uuid uuid_Nil v;
  o ← field reject_names "operator_address" d_string "" v;
  r ← field reject_names "reason" d_string "" v;
  Some (mkReject j o r).

Definition alloc_names : list string := ["type"; "hash"].
Definition dec_alloc (v : value) : option ApproveAllocationFilePayload :=
  t ← field alloc_names "type" d_string "" v;
  h ← field alloc_names "hash" d_string "" v;
  Some (mkAllocation t h).

Definition dec_publish_record (v : value) : option PublishChainRecordPayload :=
  h ← field ["initial_genesis_sha256"] "initial_genesis_sha256" d_string "" v;
  Some (mkPublishRecord h).

Definition dec_publish_genesis (v : value) : option PublishGenesisPayload :=
  h ← field ["genesis_hash"] "genesis_hash" d_string "" v; Some (mkPublishGenesis h).

Definition time_names : list string := ["new_genesis_time"; "prev_genesis_time"].
Definition dec_time (v : value) : option UpdateGenesisTimePayload :=
  n ← field time_names "new_genesis_time" d_time time.zeroTime v;
  p ← field time_names "prev_genesis_time" d_time time.zeroTime v;
  Some (mkUpdateTime n p).

Definition replace_names : list string := ["old_address"; "new_address"; "new_moniker"].
Definition dec_replace (v : value) : option ReplaceCommitteeMemberPayload :=
  o ← field replace_names "old_address" d_string "" v;
  n ← field replace_names "new_address" d_string "" v;
  k ← field replace_names "new_moniker" d_string "" v;
  Some (mkReplace o n k).

Definition spec_names : list string := ["address"; "moniker"].
Definition dec_spec (cur : CommitteeMemberSpec) (v : value) : option CommitteeMemberSpec :=
  a ← field spec_names "address" d_string (ms_Address cur) v;
  k ← field spec_names "moniker" d_string (ms_Moniker cur) v;
  Some (mkSpec a k).

Definition expand_names : list string := ["new_member"; "new_threshold_m"].
Definition dec_expand (v : value) : option ExpandCommitteePayload :=
  s ← field expand_names "new_member" (d_struct dec_spec) (mkSpec "" "") v;
  t ← field expand_names "new_threshold_m" d_int_opt None v;
  Some (mkExpand s t).

Definition shrink_names : list string := ["remove_address"; "new_threshold_m"].
Definition dec_shrink (v : value) : option ShrinkCommitteePayload :=
  a ← field shrink_names "remove_address" d_string "" v;
  t ← field shrink_names "new_threshold_m" d_int_opt None v;
  Some (mkShrink a t).

(** ** Validation at creation *)
Definition validateApproveValidatorPayload (pl : bytes) : result unit :=
  p ← unmarshal dec_approve pl;
  if bool_decide (av_JoinRequestID p = uuid_Nil) then Err errorf
  else if is_empty (av_OperatorAddress p) then Err errorf else Ok tt.

Definition validateRejectValidatorPayload (pl : bytes) : result unit :=
  p ← unmarshal dec_reject pl;
  if bool_decide (rv_JoinRequestID p = uuid_Nil) then Err errorf else Ok tt.

Definition validatePublishGenesisPayload (pl : bytes) : result unit :=
  p ← unmarshal dec_publish_genesis pl;
  if is_empty (pg_GenesisHash p) then Err errorf else Ok tt.

Definition validateUpdateGenesisTimePayload (pl : bytes) : result unit :=
  p ← unmarshal dec_time pl;
  if time.IsZero (ut_NewGenesisTime p) then Err errorf else Ok tt.

Definition validateApproveAllocationFilePayload (pl : bytes) : result unit :=
  p ← unmarshal dec_alloc pl;
  if negb (launch.ValidAllocationType (launch.AllocationType_of_string (aa_Type p)))
  then Err errorf
  else if is_empty (aa_Hash p) then Err errorf else Ok tt.

Definition validateReplaceCommitteeMemberPayload (pl : bytes) : result unit :=
  p ← unmarshal dec_replace pl;
  if is_empty (rc_OldAddress p) || is_empty (rc_NewAddress p) then Err errorf else Ok tt.

Definition validatePublishChainRecordPayload (pl : bytes) : result unit :=
  p ← unmarshal dec_publish_record pl;
  if is_empty (pc_InitialGenesisHash p) then Err errorf else Ok tt.

Definition validateExpandCommitteePayload (pl : bytes) : result unit :=
  p ← unmarshal dec_expand pl;
  if is_empty (ms_Address (ec_NewMember p)) then Err errorf
  else if is_empty (ms_Moniker (ec_NewMember p)) then Err errorf else Ok tt.

Definition validateShrinkCommitteePayload (pl : bytes) : result unit :=
  p ← unmarshal dec_shrink pl;
  if is_empty (sc_RemoveAddress p) then Err errorf else Ok tt.

Definition ValidatePayload (a : ActionType) (pl : bytes) : result unit :=
  match a with
  | ActionApproveValidator => validateApproveValidatorPayload pl
  | ActionRejectValidator | ActionRemoveApprovedValidator =>
      validateRejectValidatorPayload pl
  | ActionPublishGenesis => validatePublishGenesisPayload pl
  | ActionUpdateGenesisTime => validateUpdateGenesisTimePayload pl
  | ActionApproveAllocationFile => validateApproveAllocationFilePayload pl
  | ActionReplaceCommitteeMember => validateReplaceCommitteeMemberPayload pl
  | ActionPublishChainRecord => validatePublishChainRecordPayload pl
  | ActionExpandCommittee => validateExpandCommitteePayload pl
  | ActionShrinkCommittee => validateShrinkCommitteePayload pl
  | ActionCloseApplicationWindow | ActionReviseGenesis | ActionCancelLaunch => Ok tt
  | ActionOther _ => Err errorf
  end.

(** ** Extraction at execution ([None] is the source's panic) *)
Definition to_opt {A} (r : result A) : option A :=
  match r with Ok a => Some a | Err _ => None end.

Definition extractValidatorFields (pl : bytes) : option (uuid * string) :=
  p ← to_opt (unmarshal dec_approve pl); Some (av_JoinRequestID p, av_OperatorAddress p).
Definition extractValidatorRejectFields (pl : bytes) : option (uuid * string) :=
  p ← to_opt (unmarshal dec_reject pl); Some (rv_JoinRequestID p, rv_Reason p).
Definition extractInitialGenesisHash (pl : bytes) : option string :=
  p ← to_opt (unmarshal dec_publish_record pl); Some (pc_InitialGenesisHash p).
Definition extractGenesisHash (pl : bytes) : option string :=
  p ← to_opt (unmarshal dec_publish_genesis pl); Some (pg_GenesisHash p).
Definition extractGenesisTimes (pl : bytes) : option (time.Time * time.Time) :=
  p ← to_opt (unmarshal dec_time pl); Some (ut_NewGenesisTime p, ut_PrevGenesisTime p).
Definition extractAllocationFields (pl : bytes) : option (string * string) :=
  p ← to_opt (unmarshal dec_alloc pl); Some (aa_Type p, aa_Hash p).

End decoding.

#[global] Arguments json.unmarshal : simpl never.

End payload.
