(* ===== verification/Proposal.v ===== *)
(** * The Proposal aggregate (src/internal/domain/proposal/proposal.go)

    Collects committee decisions on one action until a veto, quorum or expiry
    ends it.  [New], [Sign], [CheckQuorum] and [ExpireIfStale] are the only
    operations that change its status.  Emitting the completion event
    re-parses the payload and panics if that fails: [Sign] and [CheckQuorum]
    return [None] for a panic, and [no_panic] shows that it does not happen. *)

From S2P Require Import Prelude GoStd GoTime Values LaunchAgg Fixtures Json Events Payload.
From stdpp Require Import relations.
#[global] Open Scope Z_scope.

Module proposal.
Export payload.

Inductive Status : Type :=
  | StatusPendingSignatures | StatusExecuted | StatusVetoed | StatusExpired.

#[global] Instance Status_eq_dec : EqDecision Status.
Proof. solve_decision. Defined.

(** [Decision] is a string taken from the request as it is. *)
Inductive Decision : Type :=
  | DecisionSign | DecisionVeto | DecisionOther (s : string).

#[global] Instance Decision_eq_dec : EqDecision Decision.
Proof. solve_decision. Defined.

Record SignatureEntry : Type := mkSig {
  s_MemberAddress : AccountID;
  s_Decision : Decision;
  s_Timestamp : time.Time;
  s_Signature : string }.

#[global] Instance SignatureEntry_eq_dec : EqDecision SignatureEntry.
Proof. solve_decision. Defined.

Record Proposal : Type := mkProposal {
  p_ID : uuid;
  p_LaunchID : uuid;
  p_ActionType : ActionType;
  p_Payload : bytes;
  p_ProposedBy : AccountID;
  p_ProposedAt : time.Time;
  p_TTLExpires : time.Time;
  p_Status : Status;
  p_ExecutedAt : option time.Time;
  p_Signatures : list SignatureEntry;
  p_events : list domain.DomainEvent }.

#[global] Instance Proposal_eq_dec : EqDecision Proposal.
Proof. solve_decision. Defined.

Definition set_status (s : Status) (p : Proposal) : Proposal :=
  mkProposal (p_ID p) (p_LaunchID p) (p_ActionType p) (p_Payload p) (p_ProposedBy p)
    (p_ProposedAt p) (p_TTLExpires p) s (p_ExecutedAt p) (p_Signatures p) (p_events p).
Definition set_executed (t : time.Time) (p : Proposal) : Proposal :=
  mkProposal (p_ID p) (p_LaunchID p) (p_ActionType p) (p_Payload p) (p_ProposedBy p)
    (p_ProposedAt p) (p_TTLExpires p) StatusExecuted (Some t) (p_Signatures p) (p_events p).
Definition add_signature (s : SignatureEntry) (p : Proposal) : Proposal :=
  mkProposal (p_ID p) (p_LaunchID p) (p_ActionType p) (p_Payload p) (p_ProposedBy p)
    (p_ProposedAt p) (p_TTLExpires p) (p_Status p) (p_ExecutedAt p)
    (p_Signatures p ++ [s]) (p_events p).
Definition set_events (es : list domain.DomainEvent) (p : Proposal) : Proposal :=
  mkProposal (p_ID p) (p_LaunchID p) (p_ActionType p) (p_Payload p) (p_ProposedBy p)
    (p_ProposedAt p) (p_TTLExpires p) (p_Status p) (p_ExecutedAt p) (p_Signatures p) es.

(** [RecordEvent] *)
Definition RecordEvent (p : Proposal) (ev : domain.DomainEvent) : Proposal :=
  set_events (p_events p ++ [ev]) p.

(** [PopEvents] *)
Definition PopEvents (p : Proposal) : list domain.DomainEvent * Proposal :=
  (p_events p, set_events [] p).

Section operations.
Context `{UT : UUIDText}.

Definition New (id launchID : uuid) (a : ActionType) (pl : option bytes)
    (proposedBy : AccountID) (proposerSig : string) (ttl : time.Duration)
    (now : time.Time) : result Proposal :=
  match pl with
  | None => Err [ErrProposalPayloadRequired]
  | Some pl =>
      match ValidatePayload a pl with
      | Err e => Err e
      | Ok _ =>
          Ok (mkProposal id launchID a pl proposedBy now (time.Add now ttl)
                StatusPendingSignatures None
                [mkSig proposedBy DecisionSign now proposerSig] [])
      end
  end.

(** [emitExecutionEvents], given the execution time. *)
Definition emitExecutionEvents (p : Proposal) (now : time.Time) : option Proposal :=
  let emit g := Some (RecordEvent p (domain.WithTime now (domain.event g))) in
  let id := p_LaunchID p in
  match p_ActionType p with
  | ActionApproveValidator =>
      '(jr, op) ← extractValidatorFields (p_Payload p);
      emit (domain.Gov (domain.ValidatorApproved id jr op))
  | ActionRejectValidator =>
      '(jr, reason) ← extractValidatorRejectFields (p_Payload p);
      emit (domain.Gov (domain.ValidatorRejected id jr reason))
  | ActionRemoveApprovedValidator =>
      '(jr, reason) ← extractValidatorRejectFields (p_Payload p);
      emit (domain.Gov (domain.ValidatorRemoved id jr reason))
  | ActionPublishChainRecord =>
      h ← extractInitialGenesisHash (p_Payload p);
      emit (domain.Gov (domain.ChainRecordPublished id h))
  | ActionCloseApplicationWindow => emit (domain.Gov (domain.WindowClosed id))
  | ActionPublishGenesis =>
      h ← extractGenesisHash (p_Payload p);
      emit (domain.Gov (domain.GenesisPublished id h))
  | ActionUpdateGenesisTime =>
      '(n, pr) ← extractGenesisTimes (p_Payload p);
      emit (domain.Gov (domain.GenesisTimeUpdated id n pr))
  | ActionReviseGenesis => emit (domain.Gov (domain.GenesisRevisionApproved id))
  | ActionApproveAllocationFile =>
      '(t, h) ← extractAllocationFields (p_Payload p);
      emit (domain.Lch (domain.AllocationFileApproved id t h))
  | ActionCancelLaunch => emit (domain.Gov (domain.LaunchCancelled id))
  | ActionReplaceCommitteeMember | ActionExpandCommittee | ActionShrinkCommittee
  | ActionOther _ => Some p
  end.

Definition is_sign (s : SignatureEntry) : bool := bool_decide (s_Decision s = DecisionSign).

(** [SignCount], also the counting loop of [Sign] and [CheckQuorum]. *)
Definition SignCount (p : Proposal) : Z := len (List.filter is_sign (p_Signatures p)).

Definition execute_if_quorum (p : Proposal) (thresholdM : Z) (now : time.Time)
    : option Proposal :=
  if thresholdM <=? SignCount p then emitExecutionEvents (set_executed now p) now
  else Some p.

Definition Sign (p : Proposal) (memberAddr : AccountID) (decision : Decision)
    (sig : string) (thresholdM : Z) (now : time.Time) : option (result Proposal) :=
  if negb (bool_decide (p_Status p = StatusPendingSignatures))
  then Some (Err [ErrProposalNotPending])
  else if time.Before (p_TTLExpires p) now then Some (Err [ErrProposalTTLExpired])
  else if existsb (λ s, account_Equal (s_MemberAddress s) memberAddr) (p_Signatures p)
  then Some (Err [ErrMemberAlreadySigned])
  else
    let p1 := add_signature (mkSig memberAddr decision now sig) p in
    if bool_decide (decision = DecisionVeto) then Some (Ok (set_status StatusVetoed p1))
    else p2 ← execute_if_quorum p1 thresholdM now; Some (Ok p2).

Definition CheckQuorum (p : Proposal) (thresholdM : Z) (now : time.Time)
    : option Proposal :=
  if negb (bool_decide (p_Status p = StatusPendingSignatures)) then Some p
  else execute_if_quorum p thresholdM now.

Definition ExpireIfStale (p : Proposal) (now : time.Time) : Proposal * bool :=
  if bool_decide (p_Status p = StatusPendingSignatures) && time.Before (p_TTLExpires p) now
  then (set_status StatusExpired p, true) else (p, false).

End operations.
End proposal.
