(* ===== verification/ProposalProps.v ===== *)
(** * Correctness of the Proposal aggregate

    The voting protocol of a single proposal as a transition system: quorum,
    veto, expiry, finality, one decision per account, no panic. *)

From S2P Require Import Prelude GoStd GoTime Values LaunchAgg Fixtures Json Events Payload.
From S2P Require Import Proposal.
From stdpp Require Import relations pretty.
#[global] Open Scope Z_scope.
Import proposal.

Section voting.
Context `{UT : UUIDText}.

(** The threshold of a step is the committee's at that moment. *)
Inductive proposal_step (p : Proposal) : Proposal → Prop :=
  | step_sign a d sig M now p' :
      Sign p a d sig M now = Some (Ok p') → proposal_step p p'
  | step_check M now p' : CheckQuorum p M now = Some p' → proposal_step p p'
  | step_expire now : proposal_step p (ExpireIfStale p now).1.

Definition raised (p0 : Proposal) : Prop :=
  ∃ id lid a pl by_ sig ttl now, New id lid a pl by_ sig ttl now = Ok p0.

Definition proposal_reachable (p : Proposal) : Prop :=
  ∃ p0, raised p0 ∧ rtc proposal_step p0 p.

(** Accounts that have decided, and those that decided SIGN. *)
Definition voters (p : Proposal) : list string :=
  acct ∘ s_MemberAddress <$> p_Signatures p.
Definition sign_voters (p : Proposal) : list string :=
  acct ∘ s_MemberAddress <$> List.filter is_sign (p_Signatures p).
Definition vetoed_by_someone (p : Proposal) : Prop :=
  ∃ s, s ∈ p_Signatures p ∧ s_Decision s = DecisionVeto.

Record wf_proposal (p : Proposal) : Prop := {
  wfp_payload : ValidatePayload (p_ActionType p) (p_Payload p) = Ok tt;
  wfp_voters : NoDup (voters p);
  wfp_proposer : head (p_Signatures p) = Some (mkSig (p_ProposedBy p) DecisionSign
      (p_ProposedAt p) (default ""%string (s_Signature <$> head (p_Signatures p))));
  wfp_veto : p_Status p = StatusVetoed ↔ vetoed_by_someone p;
  wfp_executed : p_Status p = StatusExecuted ↔ is_Some (p_ExecutedAt p);
  wfp_quiet : p_Status p ≠ StatusExecuted → p_events p = [];
  wfp_once : (length (p_events p) ≤ 1)%nat }.

Lemma SignCount_voters p : SignCount p = len (sign_voters p).
Proof. unfold SignCount, sign_voters. by rewrite length_fmap. Qed.

Lemma sign_voters_sub p : sign_voters p `sublist_of` voters p.
Proof.
  unfold sign_voters, voters.
  induction (p_Signatures p) as [|s l IH]; cbn; [constructor|].
  destruct (is_sign s); cbn; by constructor.
Qed.

(** ** Execution never panics *)
Lemma valid_unmarshals a pl :
  ValidatePayload a pl = Ok tt →
  match a with
  | ActionApproveValidator => is_Some (extractValidatorFields pl)
  | ActionRejectValidator | ActionRemoveApprovedValidator =>
      is_Some (extractValidatorRejectFields pl)
  | ActionPublishChainRecord => is_Some (extractInitialGenesisHash pl)
  | ActionPublishGenesis => is_Some (extractGenesisHash pl)
  | ActionUpdateGenesisTime => is_Some (extractGenesisTimes pl)
  | ActionApproveAllocationFile => is_Some (extractAllocationFields pl)
  | _ => True
  end.
Proof.
  destruct a; cbn; try done; intros (p & Hp & _)%result_bind_Ok;
    unfold extractValidatorFields, extractValidatorRejectFields,
      extractInitialGenesisHash, extractGenesisHash, extractGenesisTimes,
      extractAllocationFields; rewrite Hp; cbn; eauto.
Qed.

(** What [emitExecutionEvents] leaves alone, and that it adds at most one event. *)
Lemma emit_spec p now :
  ValidatePayload (p_ActionType p) (p_Payload p) = Ok tt →
  ∃ es, emitExecutionEvents p now = Some (set_events (p_events p ++ es) p) ∧
        (length es ≤ 1)%nat.
Proof.
  intros Hv%valid_unmarshals. unfold emitExecutionEvents, RecordEvent.
  destruct (p_ActionType p);
    try match type of Hv with
      | is_Some ?o => destruct Hv as [x Hx]; rewrite Hx; cbn; try destruct x
      end;
    try (eexists [_]; split; [reflexivity|cbn; lia]);
    (exists []; split; [|cbn; lia]; rewrite app_nil_r; by destruct p).
Qed.

(** ** Quorum *)
Lemma execute_spec p M now :
  ValidatePayload (p_ActionType p) (p_Payload p) = Ok tt →
  ∃ es, (length es ≤ 1)%nat ∧
    execute_if_quorum p M now =
      Some (if M <=? SignCount p
            then set_events (p_events p ++ es) (set_executed now p) else p).
Proof.
  intros Hv. unfold execute_if_quorum. destruct (M <=? SignCount p).
  - destruct (emit_spec (set_executed now p) now Hv) as (es & -> & Hes). by exists es.
  - exists []. split; [cbn; lia|done].
Qed.

Lemma execute_wf p M now p' :
  wf_proposal p → p_Status p = StatusPendingSignatures →
  execute_if_quorum p M now = Some p' → wf_proposal p'.
Proof.
  intros [Hpl Hv Hpr Hveto Hex Hq Ho] Hs He.
  destruct (execute_spec p M now Hpl) as (es & Hes & E). rewrite E in He. simplify_eq.
  assert (p_events p = []) as Hev by (apply Hq; congruence).
  destruct (M <=? SignCount p).
  - constructor; cbn; try done.
    + split; [done|]. intros Hvb. apply Hveto in Hvb. congruence.
    + rewrite Hev. done.
  - by constructor.
Qed.

Lemma add_signature_wf p s :
  wf_proposal p → p_Status p = StatusPendingSignatures →
  acct (s_MemberAddress s) ∉ voters p → s_Decision s ≠ DecisionVeto →
  wf_proposal (add_signature s p).
Proof.
  intros [Hpl Hv Hpr Hveto Hex Hq Ho] Hs Hnew Hd. constructor; cbn; try done.
  - unfold voters in *; cbn. rewrite fmap_app. apply NoDup_app.
    split_and!; [done| |apply NoDup_singleton].
    intros x Hx ->%list_elem_of_singleton. done.
  - by destruct (p_Signatures p).
  - split; [congruence|]. intros (s' & [Hin|Hin]%elem_of_app & Hd').
    + apply Hveto. by exists s'.
    + apply list_elem_of_singleton in Hin as ->. done.
Qed.

Lemma veto_wf p s :
  wf_proposal p → p_Status p = StatusPendingSignatures →
  acct (s_MemberAddress s) ∉ voters p → s_Decision s = DecisionVeto →
  wf_proposal (set_status StatusVetoed (add_signature s p)).
Proof.
  intros [Hpl Hv Hpr Hveto Hex Hq Ho] Hs Hnew Hd. constructor; cbn; try done.
  - unfold voters in *; cbn. rewrite fmap_app. apply NoDup_app.
    split_and!; [done| |apply NoDup_singleton].
    intros x Hx ->%list_elem_of_singleton. done.
  - by destruct (p_Signatures p).
  - split; [|done]. intros _. exists s. split; [|done]. apply elem_of_app. right. by left.
  - split; [done|]. intros Hx. apply Hex in Hx. congruence.
  - intros _. apply Hq. congruence.
Qed.

Lemma not_voted p a :
  existsb (λ s, account_Equal (s_MemberAddress s) a) (p_Signatures p) = false ↔
  acct a ∉ voters p.
Proof.
  rewrite <- not_true_iff_false, existsb_exists. unfold voters.
  rewrite list_elem_of_fmap. split; intros H.
  - intros (s & E & Hin). apply H. exists s.
    rewrite <- list_elem_of_In. split; [done|]. by apply account_Equal_spec.
  - intros (s & Hin & He). apply H. exists s. rewrite list_elem_of_In.
    by apply account_Equal_spec in He.
Qed.

(** The successful [Sign], in terms of the guards it passed. *)
Lemma Sign_inv p a d sig M now p' :
  Sign p a d sig M now = Some (Ok p') →
  p_Status p = StatusPendingSignatures ∧ now ≤ p_TTLExpires p ∧ (acct a ∉ voters p) ∧
  (let p1 := add_signature (mkSig a d now sig) p in
   d = DecisionVeto ∧ p' = set_status StatusVetoed p1 ∨
   d ≠ DecisionVeto ∧ execute_if_quorum p1 M now = Some p').
Proof.
  unfold Sign. intros H.
  destruct (negb _) eqn:Hs; [done|]. guards.
  destruct (time.Before _ _) eqn:Ht; [done|]. unfold time.Before in Ht. guards.
  destruct (existsb _ _) eqn:He; [done|]. apply not_voted in He.
  split_and!; [done|done|done|].
  destruct (bool_decide (d = DecisionVeto)) eqn:Hd; guards; simplify_eq.
  - by left.
  - right. split; [done|].
    destruct (execute_if_quorum _ _ _); cbn in H; by simplify_eq.
Qed.

Lemma wf_proposal_step p p' : wf_proposal p → proposal_step p p' → wf_proposal p'.
Proof.
  intros W H. destruct H as [a d sig M now p' H|M now p' H|now].
  - apply Sign_inv in H as (Hs & _ & Hnew & [[-> ->]|[Hd He]]).
    + by apply veto_wf.
    + eapply execute_wf; [..|exact He]; [|exact Hs]. by apply add_signature_wf.
  - unfold CheckQuorum in H. destruct (negb _) eqn:Hs; guards; [by simplify_eq|].
    by eapply execute_wf.
  - unfold ExpireIfStale. destruct (_ && _) eqn:E; [|done].
    apply andb_true_iff in E as [Hs _]. guards. cbn.
    destruct W as [Hpl Hv Hpr Hveto Hex Hq Ho]. constructor; cbn; try done.
    + split; [done|]. intros Hvb. apply Hveto in Hvb. congruence.
    + split; [done|]. intros Hx. apply Hex in Hx. congruence.
    + intros _. apply Hq. congruence.
Qed.

Lemma raised_wf p : raised p → wf_proposal p.
Proof.
  intros (id & lid & a & pl & by_ & sig & ttl & now & H). unfold New in H.
  destruct pl as [pl|]; [|done]. destruct (ValidatePayload a pl) as [[]|] eqn:Hv; [|done].
  simplify_eq. constructor; cbn; try done.
  - apply NoDup_singleton.
  - split; [done|]. intros (s & ->%list_elem_of_singleton & Hd). done.
  - lia.
Qed.

Lemma reachable_proposal_wf p : proposal_reachable p → wf_proposal p.
Proof.
  intros (p0 & H0%raised_wf & Hs). induction Hs; eauto using wf_proposal_step.
Qed.

(** ** Properties *)

(** C27. A decision accepted by [Sign] ends the proposal exactly as documented:
    a VETO moves it to VETOED; anything else executes it if and only if the
    SIGN decisions, the new one included, reach the threshold, and otherwise
    leaves it pending with the decision added and nothing else changed. When it
    executes, at least M distinct accounts signed. *)
Theorem sign_decides p a d sig M now p' :
  wf_proposal p → Sign p a d sig M now = Some (Ok p') →
  (p_Status p' = StatusVetoed ↔ d = DecisionVeto) ∧
  (p_Status p' = StatusExecuted ↔ d ≠ DecisionVeto ∧ M ≤ SignCount p') ∧
  (p_Status p' = StatusExecuted → M ≤ len (sign_voters p') ∧ NoDup (sign_voters p')) ∧
  SignCount p' = SignCount p + (if bool_decide (d = DecisionSign) then 1 else 0) ∧
  (d ≠ DecisionVeto → SignCount p' < M →
   p_Status p' = StatusPendingSignatures ∧ p' = add_signature (mkSig a d now sig) p).
Proof.
  intros W H. pose proof (wf_proposal_step p p' W (step_sign _ _ _ _ _ _ _ H)) as W'.
  apply Sign_inv in H as (Hs & _ & Hnew & Hcase).
  set (p1 := add_signature (mkSig a d now sig) p) in *.
  assert (SignCount p1 = SignCount p + (if bool_decide (d = DecisionSign) then 1 else 0))
    as Hcnt.
  { unfold SignCount, p1; cbn. rewrite List.filter_app, length_app. cbn.
    unfold is_sign at 2; cbn. destruct (bool_decide _); cbn; lia. }
  assert (NoDup (sign_voters p')) as Hnd
    by (eapply sublist_NoDup; [apply (wfp_voters _ W')|apply sign_voters_sub]).
  destruct Hcase as [[-> ->]|[Hd He]].
  - change (SignCount (set_status StatusVetoed p1)) with (SignCount p1). cbn. naive_solver.
  - destruct (execute_spec p1 M now) as (es & _ & E); [apply W|].
    rewrite E in He. simplify_eq. rewrite <- SignCount_voters.
    destruct (Z.leb_spec M (SignCount p1)) as [Hle|Hlt].
    + change (SignCount (set_events _ (set_executed now p1))) with (SignCount p1). cbn.
      split_and!; [naive_solver..|]. intros _ Hlt. rewrite Hcnt in *. lia.
    + cbn. rewrite Hs. split_and!; [naive_solver| |naive_solver|done|done].
      split; [done|]. intros [_ ?]. lia.
Qed.

(** Decisions are final: on a proposal that is VETOED, EXECUTED or EXPIRED
    every further decision is refused as not pending, and quorum checks and
    expiry sweeps change nothing. *)
Lemma proposal_final p :
  p_Status p ≠ StatusPendingSignatures →
  (∀ a d sig M now, Sign p a d sig M now = Some (Err [ErrProposalNotPending])) ∧
  (∀ M now, CheckQuorum p M now = Some p) ∧
  (∀ now, ExpireIfStale p now = (p, false)) ∧
  ∀ p', rtc proposal_step p p' → p' = p.
Proof.
  intros Hs.
  assert (∀ a d sig M now, Sign p a d sig M now = Some (Err [ErrProposalNotPending])) as H1
    by (intros; unfold Sign; by rewrite bool_decide_eq_false_2).
  assert (∀ M now, CheckQuorum p M now = Some p) as H2
    by (intros; unfold CheckQuorum; by rewrite bool_decide_eq_false_2).
  assert (∀ now, ExpireIfStale p now = (p, false)) as H3
    by (intros; unfold ExpireIfStale; by rewrite bool_decide_eq_false_2).
  split_and!; [done..|]. intros p' Hsteps. induction Hsteps as [|p p1 p' Hstep _ IH]; [done|].
  assert (p1 = p) as ->; [|by apply IH].
  destruct Hstep as [a d sig M now p1 H|M now p1 H|now].
  - by rewrite H1 in H.
  - rewrite H2 in H. by simplify_eq.
  - by rewrite H3.
Qed.

(** C28. Whatever the interleaving of signatures, quorum checks and expiry
    sweeps, and whatever thresholds apply along the way, a raised proposal
    keeps a valid payload, one decision per account, the proposer's SIGN
    first, VETOED exactly when somebody vetoed, an execution time exactly when
    EXECUTED, and at most one completion event, only when EXECUTED. Once it is
    VETOED, EXECUTED or EXPIRED every further decision is refused as not
    pending and no step changes it. *)
Theorem proposal_invariant p :
  proposal_reachable p →
  wf_proposal p ∧
  (p_Status p ≠ StatusPendingSignatures →
   (∀ a d sig M now, Sign p a d sig M now = Some (Err [ErrProposalNotPending])) ∧
   (∀ M now, CheckQuorum p M now = Some p) ∧
   (∀ now, ExpireIfStale p now = (p, false)) ∧
   ∀ p', rtc proposal_step p p' → p' = p).
Proof.
  intros H. split; [by apply reachable_proposal_wf|]. apply proposal_final.
Qed.

(** C32. Executing never panics: for a proposal built by [New] the payload
    re-parsed by [emitExecutionEvents] always decodes, so [Sign] and
    [CheckQuorum] return on every input. *)
Theorem no_panic p :
  proposal_reachable p →
  (∀ a d sig M now, is_Some (Sign p a d sig M now)) ∧
  (∀ M now, is_Some (CheckQuorum p M now)).
Proof.
  intros W%reachable_proposal_wf. split; intros.
  - unfold Sign. repeat case_match; eauto.
    destruct (execute_spec (add_signature (mkSig a d now sig) p) M now) as (es & _ & ->);
      [apply W|]. cbn. eauto.
  - unfold CheckQuorum. case_match; [eauto|].
    destruct (execute_spec p M now) as (es & _ & ->); [apply W|]. eauto.
Qed.

(** A decision string other than SIGN and VETO is accepted: below quorum
    it leaves the proposal pending, is not counted, and uses up the member's
    only decision, so the same account can then neither sign nor veto. *)
Lemma unknown_decision_burns_vote p a s sig M now :
  wf_proposal p → p_Status p = StatusPendingSignatures → now ≤ p_TTLExpires p →
  acct a ∉ voters p → SignCount p < M →
  ∃ p', Sign p a (DecisionOther s) sig M now = Some (Ok p') ∧
    p_Status p' = StatusPendingSignatures ∧ SignCount p' = SignCount p ∧
    ∀ d sig' M', Sign p' a d sig' M' now = Some (Err [ErrMemberAlreadySigned]).
Proof.
  intros W Hs Ht Hnew HM. set (p1 := add_signature (mkSig a (DecisionOther s) now sig) p).
  assert (SignCount p1 = SignCount p) as Hcnt.
  { unfold SignCount, p1; cbn. rewrite List.filter_app, length_app.
    cbn [List.filter]. unfold is_sign at 2. cbn [s_Decision].
    rewrite bool_decide_eq_false_2 by done. cbn [length]. lia. }
  assert (time.Before (p_TTLExpires p) now = false) as Hb by (by apply Z.ltb_ge).
  exists p1. split_and!; [|done|done|].
  - unfold Sign. rewrite bool_decide_eq_true_2 by done. cbn [negb].
    rewrite Hb, (proj2 (not_voted p a) Hnew).
    rewrite bool_decide_eq_false_2 by done. unfold execute_if_quorum.
    fold p1. rewrite Hcnt, (proj2 (Z.leb_gt M (SignCount p))) by done. done.
  - intros d sig' M'. unfold Sign. rewrite bool_decide_eq_true_2 by done. cbn [negb].
    change (p_TTLExpires p1) with (p_TTLExpires p). rewrite Hb.
    destruct (existsb _ _) eqn:He; [done|]. apply not_voted in He. exfalso. apply He.
    unfold voters, p1; cbn. rewrite fmap_app. apply elem_of_app. right. by left.
Qed.

End voting.

(** ** Witnesses *)
Module proposal_samples.

(** Identifiers written in decimal. *)
Definition toy_uuid : UUIDText := {|
  uuid_Parse := λ s, match strconv.SetString s with
                     | Some z => Ok (Z.to_N z) | None => Err errorf end;
  uuid_String := λ u, pretty u |}.

Definition dq (s : string) : string :=
  of_chars (ascii_of_nat 34 :: chars s ++ [ascii_of_nat 34]).
Definition obj (k v : string) : string :=
  of_chars (chars "{" ++ chars (dq k) ++ chars ":" ++ chars (dq v) ++ chars "}").

Definition genesis_payload : bytes := obj "genesis_hash" fixtures.hash64.

(** Alice's pending PUBLISH_GENESIS proposal. *)
Definition pending : Proposal :=
  mkProposal 9%N 1%N ActionPublishGenesis genesis_payload fixtures.alice 0
    (48 * time.Hour) StatusPendingSignatures None
    [mkSig fixtures.alice DecisionSign 0 "sig"] [].

Definition executed : Proposal :=
  mkProposal 9%N 1%N ActionPublishGenesis genesis_payload fixtures.alice 0
    (48 * time.Hour) StatusExecuted (Some 5)
    [mkSig fixtures.alice DecisionSign 0 "sig"; mkSig fixtures.bob DecisionSign 5 "sig2"]
    [domain.mkEvent 5 (domain.Gov (domain.GenesisPublished 1%N fixtures.hash64))].

Lemma pending_raised : raised (UT := toy_uuid) pending.
Proof.
  exists 9%N, 1%N, ActionPublishGenesis, (Some genesis_payload), fixtures.alice, "sig"%string,
    (48 * time.Hour), 0. vm_compute. reflexivity.
Defined.

Lemma pending_signs :
  Sign (UT := toy_uuid) pending fixtures.bob DecisionSign "sig2" 2 5 = Some (Ok executed).
Proof. vm_compute. reflexivity. Defined.

Lemma executed_reachable : proposal_reachable (UT := toy_uuid) executed.
Proof.
  exists pending. split; [apply pending_raised|]. apply rtc_once.
  apply (step_sign _ fixtures.bob DecisionSign "sig2" 2 5). apply pending_signs.
Defined.

Lemma proposal_invariant_witness :
  wf_proposal (UT := toy_uuid) executed ∧
  Sign (UT := toy_uuid) executed fixtures.carol DecisionVeto "s" 2 6
    = Some (Err [ErrProposalNotPending]).
Proof.
  destruct (proposal_invariant (UT := toy_uuid) executed) as [W H].
  - apply executed_reachable.
  - split; [exact W|]. apply H. discriminate.
Defined.

Lemma pending_wf : wf_proposal (UT := toy_uuid) pending.
Proof. apply raised_wf. apply pending_raised. Defined.

Lemma sign_decides_witness :
  p_Status executed = StatusExecuted ↔ DecisionSign ≠ DecisionVeto ∧ 2 ≤ SignCount executed.
Proof.
  destruct (sign_decides (UT := toy_uuid) pending fixtures.bob DecisionSign "sig2" 2 5 executed)
    as (_ & H & _); [apply pending_wf|apply pending_signs|exact H].
Defined.

Lemma no_panic_witness :
  is_Some (Sign (UT := toy_uuid) executed fixtures.carol DecisionVeto "s" 2 6).
Proof. destruct (no_panic (UT := toy_uuid) executed) as [H _]; [apply executed_reachable|apply H]. Defined.

Lemma unknown_decision_sample :
  ∃ p', Sign (UT := toy_uuid) pending fixtures.bob (DecisionOther "ABSTAIN") "s" 2 5
          = Some (Ok p') ∧
    p_Status p' = StatusPendingSignatures ∧ SignCount p' = SignCount pending ∧
    ∀ d sig' M', Sign (UT := toy_uuid) p' fixtures.bob d sig' M' 5
      = Some (Err [ErrMemberAlreadySigned]).
Proof.
  apply unknown_decision_burns_vote.
  - apply pending_wf.
  - reflexivity.
  - vm_compute. discriminate.
  - apply (bool_decide_eq_true_1 (_ ∉ _)). vm_compute. reflexivity.
  - vm_compute. reflexivity.
Defined.

End proposal_samples.
