(* ===== verification/JoinRequest.v ===== *)
(** * The JoinRequest aggregate (src/internal/domain/joinrequest/joinrequest.go)

    A validator's application: its four-state lifecycle, and the accessors
    that read the self-delegation and moniker out of the stored gentx. *)

From S2P Require Import Prelude GoStd GoTime Values LaunchAgg Fixtures Json Payload.
From stdpp Require Import relations.
#[global] Open Scope Z_scope.

Module joinrequest.

Inductive Status : Type := StatusPending | StatusApproved | StatusRejected | StatusExpired.

#[global] Instance Status_eq_dec : EqDecision Status.
Proof. solve_decision. Defined.

Record JoinRequest : Type := mkJR {
  j_ID : uuid;
  j_LaunchID : uuid;
  j_OperatorAddress : AccountID;
  j_SubmitterAddress : AccountID;
  j_ConsensusPubKey : string;
  j_GentxJSON : bytes;
  j_PeerAddress : string;
  j_RPCEndpoint : string;
  j_Memo : string;
  j_SubmittedAt : time.Time;
  j_OperatorSignature : string;
  j_Status : Status;
  j_RejectionReason : string;
  j_ApprovedByProposal : option uuid }.

#[global] Instance JoinRequest_eq_dec : EqDecision JoinRequest.
Proof. solve_decision. Defined.

Definition New (id launchID : uuid) (operatorAddr submitterAddr : AccountID)
    (gentxJSON : bytes) (peerAddr rpcEndpoint memo sig consensusPubKeyB64 : string)
    (now : time.Time) : JoinRequest :=
  mkJR id launchID operatorAddr submitterAddr consensusPubKeyB64 gentxJSON peerAddr
    rpcEndpoint memo now sig StatusPending "" None.

Definition set_state (s : Status) (reason : string) (by_ : option uuid) (jr : JoinRequest)
    : JoinRequest :=
  mkJR (j_ID jr) (j_LaunchID jr) (j_OperatorAddress jr) (j_SubmitterAddress jr)
    (j_ConsensusPubKey jr) (j_GentxJSON jr) (j_PeerAddress jr) (j_RPCEndpoint jr)
    (j_Memo jr) (j_SubmittedAt jr) (j_OperatorSignature jr) s reason by_.

Definition Approve (jr : JoinRequest) (proposalID : uuid) : result JoinRequest :=
  if negb (bool_decide (j_Status jr = StatusPending)) then Err [ErrInvalidJoinRequestStatus]
  else Ok (set_state StatusApproved (j_RejectionReason jr) (Some proposalID) jr).

Definition Reject (jr : JoinRequest) (reason : string) : result JoinRequest :=
  if negb (bool_decide (j_Status jr = StatusPending)) then Err [ErrInvalidJoinRequestStatus]
  else Ok (set_state StatusRejected reason (j_ApprovedByProposal jr) jr).

Definition Expire (jr : JoinRequest) : result JoinRequest :=
  if negb (bool_decide (j_Status jr = StatusPending)) then Err [ErrInvalidJoinRequestStatus]
  else Ok (set_state StatusExpired (j_RejectionReason jr) (j_ApprovedByProposal jr) jr).

Definition Revoke (jr : JoinRequest) (reason : string) : result JoinRequest :=
  if negb (bool_decide (j_Status jr = StatusApproved)) then Err [ErrInvalidJoinRequestStatus]
  else Ok (set_state StatusRejected reason None jr).

(** ** Reading the gentx *)

(** The loop of [parseAmountString], on [int64]: stops at the first
    character that is not a digit, and wraps. *)
Fixpoint amount_loop (n : Z) (l : list ascii) : Z :=
  match l with
  | [] => n
  | c :: l =>
      match strconv.digit_val c with
      | Some d => amount_loop (int64_wrap (int64_wrap (n * 10) + d)) l
      | None => n
      end
  end.
Definition parseAmountString (s : string) : Z := amount_loop 0 (chars s).

Import json.

(** [body.messages] of the document, when [body] is present and decodes. *)
Definition gentx_messages (gentx : bytes) : result (list string) :=
  match parse gentx with
  | None => Err errorf
  | Some v =>
      match raw_map v with
      | None => Err errorf
      | Some raw =>
          match raw !! "body"%string with
          | None => Ok []
          | Some bodyRaw =>
              match unmarshal (field ["messages"%string] "messages" d_raw_list []) bodyRaw with
              | Ok ms => Ok ms
              | Err _ => Ok []
              end
          end
      end
  end.

Record coin : Type := mkCoin { coin_amount : string; coin_denom : string }.
Definition coin_names : list string := ["amount"; "denom"].
Definition dec_coin (cur : coin) (v : value) : option coin :=
  a ← field coin_names "amount" d_string (coin_amount cur) v;
  d ← field coin_names "denom" d_string (coin_denom cur) v;
  Some (mkCoin a d).

Definition extractGentxFields (gentx : bytes) : result (Z * string) :=
  ms ← gentx_messages gentx;
  match ms with
  | [] => Ok (0, ""%string)
  | m :: _ =>
      match unmarshal (field ["value"%string] "value" (d_struct dec_coin) (mkCoin "" "")) m with
      | Ok c => Ok (parseAmountString (coin_amount c), coin_denom c)
      | Err _ => Ok (0, ""%string)
      end
  end.

Definition dec_moniker (cur : string) (v : value) : option string :=
  field ["moniker"%string] "moniker" d_string cur v.

Definition extractGentxMoniker (gentx : bytes) : string :=
  match gentx_messages gentx with
  | Ok (m :: _) =>
      match unmarshal (field ["description"%string] "description" (d_struct dec_moniker) ""%string) m with
      | Ok s => s
      | Err _ => ""
      end
  | _ => ""
  end.

Definition SelfDelegationAmount (jr : JoinRequest) : Z :=
  match extractGentxFields (j_GentxJSON jr) with Ok (a, _) => a | Err _ => 0 end.

Definition Moniker (jr : JoinRequest) : string := extractGentxMoniker (j_GentxJSON jr).

End joinrequest.

Import joinrequest.

(** ** Lifecycle *)
Inductive jr_step (jr : JoinRequest) : JoinRequest → Prop :=
  | jr_approve p jr' : Approve jr p = Ok jr' → jr_step jr jr'
  | jr_reject r jr' : Reject jr r = Ok jr' → jr_step jr jr'
  | jr_expire jr' : Expire jr = Ok jr' → jr_step jr jr'
  | jr_revoke r jr' : Revoke jr r = Ok jr' → jr_step jr jr'.

Definition jr_identity (jr : JoinRequest) :=
  (j_ID jr, j_LaunchID jr, j_OperatorAddress jr, j_ConsensusPubKey jr, j_GentxJSON jr).

Lemma jr_step_cases jr jr' :
  jr_step jr jr' →
  jr_identity jr' = jr_identity jr ∧
  (j_Status jr = StatusPending ∧ j_Status jr' = StatusApproved ∧ is_Some (j_ApprovedByProposal jr') ∨
   j_Status jr = StatusPending ∧ j_Status jr' ≠ StatusPending ∧ j_Status jr' ≠ StatusApproved ∧
     j_ApprovedByProposal jr' = j_ApprovedByProposal jr ∨
   j_Status jr = StatusApproved ∧ j_Status jr' = StatusRejected ∧ j_ApprovedByProposal jr' = None).
Proof.
  intros [p j H|r j H|j H|r j H];
    [unfold Approve in H|unfold Reject in H|unfold Expire in H|unfold Revoke in H];
    crush_ok; guards; (split; [done|]); cbn; naive_solver.
Qed.

(** A join request keeps its identity and gentx for ever, carries an
    approving proposal exactly while APPROVED, and moves only PENDING to
    APPROVED, REJECTED or EXPIRED and APPROVED to REJECTED: a REJECTED or
    EXPIRED request never changes again. *)
Theorem join_request_lifecycle id lid op sub gx peer rpc memo sig key now jr :
  rtc jr_step (New id lid op sub gx peer rpc memo sig key now) jr →
  jr_identity jr = (id, lid, op, key, gx) ∧
  (j_Status jr = StatusApproved ↔ is_Some (j_ApprovedByProposal jr)) ∧
  (j_Status jr = StatusRejected ∨ j_Status jr = StatusExpired → ∀ jr', ¬ jr_step jr jr').
Proof.
  intros Hs.
  assert (jr_identity jr = (id, lid, op, key, gx) ∧
          (j_Status jr = StatusApproved ↔ is_Some (j_ApprovedByProposal jr))) as [Hi Ha].
  { revert jr Hs. refine (rtc_ind_r _ _ _ _).
    - split; [done|]. cbn. split; [done|]. by intros []%is_Some_None.
    - intros j j' _ Hstep [Hid Hap]. apply jr_step_cases in Hstep as [Hid' Hc].
      split; [congruence|]. destruct Hc as [(?&?&?)|[(?&?&?&E)|(?&?&E)]].
      + naive_solver.
      + rewrite E. split; [done|]. intros Hx. apply Hap in Hx. congruence.
      + rewrite E. split; [congruence|]. by intros []%is_Some_None. }
  split_and!; [done|done|]. intros Hfin jr' Hstep.
  apply jr_step_cases in Hstep as [_ Hc]. naive_solver congruence.
Qed.

(** ** Amounts *)

(** The leading decimal digits of a string, as an unbounded integer. *)
Fixpoint leading_digits (n : Z) (l : list ascii) : Z :=
  match l with
  | [] => n
  | c :: l =>
      match strconv.digit_val c with
      | Some d => leading_digits (n * 10 + d) l
      | None => n
      end
  end.
Definition amount_value (s : string) : Z := leading_digits 0 (chars s).

Lemma amount_loop_wraps l : ∀ n m,
  int64_wrap n = int64_wrap m → int64_wrap (amount_loop n l) = int64_wrap (leading_digits m l).
Proof.
  induction l as [|c l IH]; intros n m H; cbn [amount_loop leading_digits]; [done|].
  destruct (strconv.digit_val c) as [d|]; [|done]. apply IH.
  assert (∀ z, int64_wrap (int64_wrap z) = int64_wrap z) as Hid
    by (intros z; rewrite int64_wrap_id; [done|apply int64_wrap_range]).
  rewrite Hid, int64_wrap_add_l. rewrite <- int64_wrap_add_l, <- int64_wrap_mul_l, H.
  by rewrite int64_wrap_mul_l, int64_wrap_add_l.
Qed.

Lemma amount_loop_range l n : in_int64 n → in_int64 (amount_loop n l).
Proof.
  revert n; induction l as [|c l IH]; intros n H; cbn [amount_loop]; [done|].
  destruct (strconv.digit_val c); [apply IH, int64_wrap_range|done].
Qed.

(** [parseAmountString] returns the leading decimal digits of the amount
    reduced to a signed 64-bit integer: exact below 2^63 base units, wrapped
    (possibly negative) above. *)
Lemma parse_amount_wraps s : parseAmountString s = int64_wrap (amount_value s).
Proof.
  unfold parseAmountString, amount_value.
  rewrite <- (amount_loop_wraps (chars s) 0 0) by done.
  rewrite int64_wrap_id; [done|]. by apply amount_loop_range.
Qed.

(** The self-delegation a gentx declares: the coin of its first message. *)
Definition declared_coin (gentx : bytes) : option coin :=
  match gentx_messages gentx with
  | Ok (m :: _) =>
      match json.unmarshal (json.field ["value"%string] "value" (json.d_struct dec_coin)
                              (mkCoin "" "")) m with
      | Ok c => Some c | Err _ => None end
  | _ => None
  end.

(** A gentx that delegates 2^64 + 1 base units. *)
Definition huge_gentx : bytes :=
  let q := ascii_of_nat 34 in
  let str (s : string) := q :: chars s ++ [q] in
  let key (s : string) := str s ++ chars ":" in
  of_chars (chars "{" ++ key "body" ++ chars "{" ++ key "messages" ++ chars "[{"
    ++ key "value" ++ chars "{" ++ key "denom" ++ str "utok" ++ chars ","
    ++ key "amount" ++ str "18446744073709551617" ++ chars "}}]}}").

(** The recorded self-delegation is the declared amount reduced to a signed
    64-bit integer, and zero when the gentx declares none; so a gentx that
    delegates 2^64 + 1 base units counts for 1 in the dominance gate. *)
Theorem self_delegation_can_wrap :
  (∀ jr, SelfDelegationAmount jr =
     match declared_coin (j_GentxJSON jr) with
     | Some c => int64_wrap (amount_value (coin_amount c))
     | None => 0
     end) ∧
  ∃ jr c, declared_coin (j_GentxJSON jr) = Some c ∧
    amount_value (coin_amount c) = 2 ^ 64 + 1 ∧ SelfDelegationAmount jr = 1.
Proof.
  split.
  - intros jr. unfold SelfDelegationAmount, extractGentxFields, declared_coin.
    destruct (gentx_messages (j_GentxJSON jr)) as [[|m ms]|e]; cbn; [done| |done].
    destruct (json.unmarshal _ m); [apply parse_amount_wraps|done].
  - exists (New 1%N 1%N fixtures.alice fixtures.alice huge_gentx "" "" "" "" "" 0).
    eexists. split; [vm_compute; reflexivity|]. split; vm_compute; reflexivity.
Qed.

Lemma join_request_lifecycle_witness :
  let j := set_state StatusApproved "" (Some 5%N)
             (New 1%N 2%N fixtures.alice fixtures.bob "" "" "" "" "" "key" 0) in
  jr_identity j = (1%N, 2%N, fixtures.alice, "key"%string, ""%string) ∧
  (j_Status j = StatusApproved ↔ is_Some (j_ApprovedByProposal j)).
Proof.
  intros j.
  destruct (join_request_lifecycle 1%N 2%N fixtures.alice fixtures.bob "" "" "" "" "" "key" 0 j)
    as (H1 & H2 & _).
  - apply rtc_once. apply (jr_approve _ 5%N). vm_compute. reflexivity.
  - split; [exact H1|exact H2].
Defined.
