(* ===== verification/Rehearsal.v ===== *)
(** * Rehearsal attempts, results and readiness confirmations

    src/internal/domain/launch/rehearsal.go and readiness.go: the run lease of
    an attempt, the outcome and gate vocabularies, and the freshness test the
    publication gate uses. *)

From S2P Require Import Prelude GoStd Values.
#[global] Open Scope Z_scope.

Module rehearsal.

Inductive RehearsalAttemptStatus : Type := AttemptOpen | AttemptRunning | AttemptDone.

#[global] Instance AttemptStatus_eq_dec : EqDecision RehearsalAttemptStatus.
Proof. solve_decision. Defined.

Record RehearsalAttempt : Type := mkAttempt {
  at_ID : uuid;
  at_LaunchID : uuid;
  at_InputSetHash : string;
  at_IssuedAt : time.Time;
  at_Status : RehearsalAttemptStatus;
  at_ClaimedAt : option time.Time;
  at_LeaseExpiresAt : option time.Time;
  at_RunnerID : string }.

#[global] Instance RehearsalAttempt_eq_dec : EqDecision RehearsalAttempt.
Proof. solve_decision. Defined.

Definition set_lease (s : RehearsalAttemptStatus) (claimed expires : option time.Time)
    (runner : string) (a : RehearsalAttempt) : RehearsalAttempt :=
  mkAttempt (at_ID a) (at_LaunchID a) (at_InputSetHash a) (at_IssuedAt a) s claimed expires runner.

Definition IsLeased (a : RehearsalAttempt) (now : time.Time) : bool :=
  bool_decide (at_Status a = AttemptRunning)
  && match at_LeaseExpiresAt a with Some e => time.Before now e | None => false end.

Definition Claim (a : RehearsalAttempt) (runnerID : string) (now leaseExpiry : time.Time)
    : result RehearsalAttempt :=
  if IsLeased a now then
    if negb (bool_decide (at_RunnerID a = runnerID)) then Err [ErrAttemptLeased] else Ok a
  else Ok (set_lease AttemptRunning (Some now) (Some leaseExpiry) runnerID a).

Definition Release (a : RehearsalAttempt) : RehearsalAttempt :=
  set_lease AttemptDone (at_ClaimedAt a) None (at_RunnerID a) a.

Definition Reset (a : RehearsalAttempt) : RehearsalAttempt :=
  set_lease AttemptOpen None None "" a.

Inductive RehearsalOutcome : Type :=
  | OutcomePass | OutcomeFail | OutcomeError | OutcomeSkipped | OutcomeOther (s : string).

#[global] Instance RehearsalOutcome_eq_dec : EqDecision RehearsalOutcome.
Proof. solve_decision. Defined.

Definition IsValidRehearsalOutcome (o : RehearsalOutcome) : bool :=
  match o with
  | OutcomePass | OutcomeFail | OutcomeError | OutcomeSkipped => true
  | OutcomeOther _ => false
  end.

Definition Outcome_String (o : RehearsalOutcome) : string :=
  match o with
  | OutcomePass => "PASS" | OutcomeFail => "FAIL" | OutcomeError => "ERROR"
  | OutcomeSkipped => "SKIPPED" | OutcomeOther s => s
  end.

Record RehearsalResultStep : Type := mkResultStep {
  st_Name : string; st_Status : string; st_Detail : string }.

#[global] Instance RehearsalResultStep_eq_dec : EqDecision RehearsalResultStep.
Proof. solve_decision. Defined.

Record RehearsalResult : Type := mkResult {
  re_ID : uuid;
  re_AttemptID : uuid;
  re_LaunchID : uuid;
  re_InputSetHash : string;
  re_Outcome : RehearsalOutcome;
  re_FailedStep : string;
  re_Summary : string;
  re_Steps : list RehearsalResultStep;
  re_EngineVersion : string;
  re_BinaryName : string;
  re_BinaryVersion : string;
  re_BinarySHA256 : string;
  re_Validators : Z;
  re_BlocksAdvanced : Z;
  re_StartedAt : time.Time;
  re_FinishedAt : time.Time;
  re_ServicePubKey : string;
  re_Signature : string;
  re_Stale : bool;
  re_RecordedAt : time.Time }.

#[global] Instance RehearsalResult_eq_dec : EqDecision RehearsalResult.
Proof. solve_decision. Defined.

Inductive RehearsalGateMode : Type := RehearsalGateOff | RehearsalGateAdvisory | RehearsalGateRequired.

#[global] Instance RehearsalGateMode_eq_dec : EqDecision RehearsalGateMode.
Proof. solve_decision. Defined.

(** An unrecognized value is an error; the mode returned with it is off. *)
Definition ParseRehearsalGateMode (s : string) : RehearsalGateMode * bool :=
  if bool_decide (s = "off") || is_empty s then (RehearsalGateOff, true)
  else if bool_decide (s = "advisory") then (RehearsalGateAdvisory, true)
  else if bool_decide (s = "required") then (RehearsalGateRequired, true)
  else (RehearsalGateOff, false).

(** The reason is a fixed phrase, except for a wrong outcome, which it names. *)
Inductive NotReady : Type :=
  | NoResult | WrongOutcome (o : RehearsalOutcome) | StaleRehearsal.

Definition EvaluateRehearsalReady (latest : option RehearsalResult) (currentHash : string)
    : option NotReady :=
  match latest with
  | None => Some NoResult
  | Some r =>
      if negb (bool_decide (re_Outcome r = OutcomePass)) then Some (WrongOutcome (re_Outcome r))
      else if negb (bool_decide (re_InputSetHash r = currentHash)) then Some StaleRehearsal
      else None
  end.

(** ** Readiness confirmations (readiness.go) *)
Record ReadinessConfirmation : Type := mkReadiness {
  rd_ID : uuid;
  rd_LaunchID : uuid;
  rd_JoinRequestID : uuid;
  rd_OperatorAddress : AccountID;
  rd_GenesisHashConfirmed : string;
  rd_BinaryHashConfirmed : string;
  rd_ConfirmedAt : time.Time;
  rd_OperatorSignature : string;
  rd_InvalidatedAt : option time.Time }.

#[global] Instance ReadinessConfirmation_eq_dec : EqDecision ReadinessConfirmation.
Proof. solve_decision. Defined.

Definition IsValid (r : ReadinessConfirmation) : bool :=
  match rd_InvalidatedAt r with None => true | Some _ => false end.

Definition Invalidate (r : ReadinessConfirmation) (at_ : time.Time) : ReadinessConfirmation :=
  mkReadiness (rd_ID r) (rd_LaunchID r) (rd_JoinRequestID r) (rd_OperatorAddress r)
    (rd_GenesisHashConfirmed r) (rd_BinaryHashConfirmed r) (rd_ConfirmedAt r)
    (rd_OperatorSignature r) (Some at_).

End rehearsal.

Import rehearsal.

(** ** The lease *)

(** A sequence of claims (runner, time, requested expiry), each applied to
    what the previous ones left; refused claims leave the attempt alone. *)
Fixpoint run_claims (a : RehearsalAttempt) (cs : list (string * time.Time * time.Time))
    : RehearsalAttempt :=
  match cs with
  | [] => a
  | (r, now, e) :: cs =>
      run_claims (match Claim a r now e with Ok a' => a' | Err _ => a end) cs
  end.

Lemma leased_claim a r now e :
  IsLeased a now = true →
  Claim a r now e = if bool_decide (at_RunnerID a = r) then Ok a else Err [ErrAttemptLeased].
Proof. intros H. unfold Claim. rewrite H. by destruct (bool_decide _). Qed.

Lemma leased_before a e now :
  at_Status a = AttemptRunning → at_LeaseExpiresAt a = Some e → now < e →
  IsLeased a now = true.
Proof.
  intros Hs He Hn. unfold IsLeased. rewrite He, bool_decide_eq_true_2 by done.
  by apply Z.ltb_lt.
Qed.

(** The run lease has a single writer and a fixed end: once granted until
    [e], no sequence of claims made before [e], by its holder or by anybody
    else and whatever expiry they ask for, changes the attempt; another
    runner's claim is refused; and at or after [e] any runner obtains it. *)
Theorem lease_exclusive a r now e a' cs :
  IsLeased a now = false → Claim a r now e = Ok a' →
  Forall (λ c : string * time.Time * time.Time, c.1.2 < e) cs →
  run_claims a' cs = a' ∧
  (∀ r' t e', t < e → r' ≠ r → Claim a' r' t e' = Err [ErrAttemptLeased]) ∧
  (∀ r' t e', e ≤ t → ∃ a'', Claim a' r' t e' = Ok a'' ∧ at_RunnerID a'' = r' ∧
                             at_LeaseExpiresAt a'' = Some e').
Proof.
  intros Hfree Hc Hcs. unfold Claim in Hc. rewrite Hfree in Hc. simplify_eq.
  set (a' := set_lease AttemptRunning (Some now) (Some e) r a).
  assert (∀ t, t < e → IsLeased a' t = true) as Hl by (intros t Ht; by eapply leased_before).
  split_and!.
  - induction Hcs as [|[[r' t] e'] cs Ht _ IH]; [done|]. cbn [run_claims] in *.
    rewrite leased_claim by (by apply Hl). by destruct (bool_decide _).
  - intros r' t e' Ht Hr. rewrite leased_claim by (by apply Hl).
    by rewrite bool_decide_eq_false_2.
  - intros r' t e' Ht. unfold Claim.
    assert (IsLeased a' t = false) as ->.
    { unfold IsLeased; cbn. by apply Z.ltb_ge. }
    eexists. by split_and!.
Qed.

(** The gate accepts exactly a PASS whose input set is the current one. *)
Lemma ready_iff latest h :
  EvaluateRehearsalReady latest h = None ↔
  ∃ r, latest = Some r ∧ re_Outcome r = OutcomePass ∧ re_InputSetHash r = h.
Proof.
  unfold EvaluateRehearsalReady. destruct latest as [r|]; [|naive_solver].
  destruct (bool_decide (re_Outcome r = _)) eqn:Ho; guards; cbn; [|naive_solver].
  destruct (bool_decide (re_InputSetHash r = h)) eqn:Hh; guards; cbn; naive_solver.
Qed.

Lemma lease_exclusive_witness :
  let a := mkAttempt 1%N 1%N "h" 0 AttemptOpen None None "" in
  let a' := set_lease AttemptRunning (Some 10) (Some 100) "r1" a in
  run_claims a' [("r1"%string, 50, 500); ("r2"%string, 99, 900)] = a' ∧
  Claim a' "r2" 99 900 = Err [ErrAttemptLeased].
Proof.
  intros a a'.
  destruct (lease_exclusive a "r1" 10 100 a' [("r1"%string, 50, 500); ("r2"%string, 99, 900)])
    as (H1 & H2 & _).
  - reflexivity.
  - reflexivity.
  - repeat constructor; cbn; lia.
  - split; [exact H1|]. apply H2; [lia|discriminate].
Defined.
