(* ===== verification/Sha256.v ===== *)
(** * crypto/sha256

    [Sum256] on a byte string, as FIPS 180-4 defines it: 32-bit words as [Z]
    with additions modulo 2^32. *)

From S2P Require Import Prelude GoStd.
#[global] Open Scope Z_scope.

Module sha256.

Definition w32 (z : Z) : Z := Z.land z (2 ^ 32 - 1).
Definition rotr (n x : Z) : Z := Z.lor (Z.shiftr x n) (w32 (Z.shiftl x (32 - n))).
Definition ch (x y z : Z) : Z := Z.lxor (Z.land x y) (Z.land (Z.lxor x (2 ^ 32 - 1)) z).
Definition maj (x y z : Z) : Z :=
  Z.lxor (Z.land x y) (Z.lxor (Z.land x z) (Z.land y z)).
Definition bsig0 (x : Z) : Z := Z.lxor (rotr 2 x) (Z.lxor (rotr 13 x) (rotr 22 x)).
Definition bsig1 (x : Z) : Z := Z.lxor (rotr 6 x) (Z.lxor (rotr 11 x) (rotr 25 x)).
Definition ssig0 (x : Z) : Z := Z.lxor (rotr 7 x) (Z.lxor (rotr 18 x) (Z.shiftr x 3)).
Definition ssig1 (x : Z) : Z := Z.lxor (rotr 17 x) (Z.lxor (rotr 19 x) (Z.shiftr x 10)).

(** The constants as the standard specifies them: the first 32 bits of the
    fractional parts of the cube roots of the first 64 primes, and of the
    square roots of the first eight. *)
Definition is_prime (n : Z) : bool :=
  forallb (λ d, negb (n mod d =? 0)) (seqZ 2 (Z.sqrt n - 1)).
Definition primes : list Z := List.filter is_prime (seqZ 2 310).

(** The largest [r] with [r * r * r <= n], bit by bit from [2 ^ (bits - 1)]. *)
Fixpoint cbrt (bits : nat) (n r : Z) : Z :=
  match bits with
  | O => r
  | S b => let r' := r + 2 ^ Z.of_nat b in
           cbrt b n (if r' * r' * r' <=? n then r' else r)
  end.

Definition K : list Z :=
  Eval vm_compute in (λ p, w32 (cbrt 36 (p * 2 ^ 96) 0)) <$> primes.
Definition H0 : list Z :=
  Eval vm_compute in (λ p, w32 (Z.sqrt (p * 2 ^ 64))) <$> take 8 primes.

(** The message schedule, most recent word first. *)
Fixpoint extend (n : nat) (w : list Z) : list Z :=
  match n with
  | O => w
  | S n =>
      extend n (w32 (ssig1 (nth 1 w 0) + nth 6 w 0 + ssig0 (nth 14 w 0) + nth 15 w 0) :: w)
  end.
Definition schedule (block : list Z) : list Z := rev (extend 48 (rev block)).

Definition round_step (s : list Z) (kw : Z * Z) : list Z :=
  match s with
  | [a; b; c; d; e; f; g; h] =>
      let t1 := h + bsig1 e + ch e f g + kw.1 + kw.2 in
      let t2 := bsig0 a + maj a b c in
      [w32 (t1 + t2); a; b; c; w32 (d + t1); e; f; g]
  | _ => s
  end.

Definition compress (h block : list Z) : list Z :=
  let s := foldl round_step h (combine K (schedule block)) in
  zip_with (λ x y, w32 (x + y)) h s.

Fixpoint be_bytes (n : nat) (z : Z) : list Z :=
  match n with O => [] | S n => be_bytes n (Z.shiftr z 8) ++ [Z.land z 255] end.

Fixpoint be_words (l : list Z) : list Z :=
  match l with
  | a :: b :: c :: d :: l =>
      Z.lor (Z.shiftl a 24) (Z.lor (Z.shiftl b 16) (Z.lor (Z.shiftl c 8) d)) :: be_words l
  | _ => []
  end.

Definition byte_vals (s : bytes) : list Z := (λ a, Z.of_nat (nat_of_ascii a)) <$> chars s.

Definition pad (m : list Z) : list Z :=
  let n := len m in
  m ++ [128] ++ repeat 0 (Z.to_nat ((55 - n) mod 64)) ++ be_bytes 8 (n * 8).

Fixpoint blocks (fuel : nat) (l : list Z) : list (list Z) :=
  match fuel, l with
  | O, _ | _, [] => []
  | S fuel, _ => take 16 l :: blocks fuel (drop 16 l)
  end.

Definition digest (m : list Z) : list Z :=
  let ws := be_words (pad m) in
  foldl compress H0 (blocks (length ws) ws).

Definition Sum256 (s : bytes) : bytes :=
  of_chars ((λ z, ascii_of_nat (Z.to_nat z)) <$> concat (be_bytes 4 <$> digest (byte_vals s))).

(** [hex.EncodeToString(sum[:])] *)
Definition hex_sum (s : bytes) : string := hex.EncodeToString (Sum256 s).

(** The test vectors of FIPS 180-4. *)
Example sum_abc : hex_sum "abc" =
  "ba7816bf8f01cfea414140de5dae2223b00361a396177a9cb410ff61f20015ad"%string.
Proof. vm_compute. reflexivity. Qed.
Example sum_empty : hex_sum "" =
  "e3b0c44298fc1c149afbf4c8996fb92427ae41e4649b934ca495991b7852b855"%string.
Proof. vm_compute. reflexivity. Qed.
Example sum_two_blocks : hex_sum "abcdbcdecdefdefgefghfghighijhijkijkljklmklmnlmnomnopnopq" =
  "248d6a61d20638b8e5c026930c3e6039a33ce45964ff2167f6ecedd419db06c1"%string.
Proof. vm_compute. reflexivity. Qed.

(** A digest is 32 bytes, its text 64 lower-case hexadecimal digits. *)
Lemma round_step_length s kw : length (round_step s kw) = length s.
Proof. unfold round_step. by repeat case_match. Qed.

Lemma compress_length h block : length (compress h block) = length h.
Proof.
  unfold compress. rewrite length_zip_with. apply Nat.min_l. generalize (combine K (schedule block)).
  intros l. revert h. induction l as [|kw l IH]; intros h; cbn; [done|].
  rewrite <- (round_step_length h kw). apply IH.
Qed.

Lemma digest_length m : length (digest m) = 8%nat.
Proof.
  unfold digest. generalize (blocks (length (be_words (pad m))) (be_words (pad m))). intros bs.
  assert (length H0 = 8%nat) as H by reflexivity. revert H. generalize H0.
  induction bs as [|b bs IH]; intros h H; cbn; [done|]. apply IH. by rewrite compress_length.
Qed.

Lemma be_bytes_length n z : length (be_bytes n z) = n.
Proof. revert z. induction n; intros z; cbn; [done|]. rewrite length_app, IHn. cbn. lia. Qed.

Lemma hex_sum_chars s :
  length (chars (hex_sum s)) = 64%nat ∧ forallb hex.is_lower_digit (chars (hex_sum s)) = true.
Proof.
  unfold hex_sum, hex.EncodeToString. rewrite !String.list_ascii_of_string_of_list_ascii.
  split; [|apply hex.encode_chars_lower]. rewrite hex.encode_chars_length. unfold Sum256.
  rewrite String.list_ascii_of_string_of_list_ascii, length_fmap.
  enough (length (concat (be_bytes 4 <$> digest (byte_vals s))) = 32%nat) by lia.
  pose proof (digest_length (byte_vals s)) as H. revert H.
  generalize (digest (byte_vals s)). intros l H.
  assert (∀ l, length (concat (be_bytes 4 <$> l)) = (4 * length l)%nat) as Hc.
  { clear. induction l as [|z l IH]; [done|]. cbn [fmap list_fmap concat length].
    rewrite length_app, be_bytes_length, IH. lia. }
  rewrite Hc. lia.
Qed.

(** Only the value of a digest is used, never its unfolding. *)
#[global] Arguments hex_sum : simpl never.
#[global] Opaque hex_sum.

End sha256.
