(* ===== verification/TimeProps.v ===== *)
(** * Stored timestamps: round trip and order

    [timeToStr] writes RFC3339Nano text, [strToTime] reads it back, and the
    database compares the texts byte by byte.  For instants of the years 0 to
    9999 the round trip is exact; the text order agrees with time up to whole
    seconds, and not below (the fraction is written without trailing zeros,
    and ['.'] sorts before ['Z']). *)

From S2P Require Import Prelude GoStd GoTime.
#[global] Open Scope Z_scope.

Module timetext.
Import rfc3339.

(** ** The calendar

    Both conversions work inside a 400-year era of 146097 days whose years
    start in March: a day is its era, its year [k] of the era and its day [n]
    of that year.  Facts about years and about days of a year are decided by
    enumeration. *)
Definition year_start (k : Z) : Z := 365 * k + k / 4 - k / 100 + k / 400.
Definition year_est (doe : Z) : Z := doe - doe / 1460 + doe / 36524 - doe / 146096.
Definition month_day (n : Z) : Z * Z :=
  let mp := (5 * n + 2) / 153 in
  (if mp <? 10 then mp + 3 else mp - 9, n - (153 * mp + 2) / 5 + 1).
(** January and February belong to the next calendar year. *)
Definition carry (m : Z) : Z := if m <=? 2 then 1 else 0.

Definition year_ok (k : Z) : bool :=
  (365 * k <=? year_est (year_start k))
  && ((k =? 0) || (year_est (year_start k - 1) <? 365 * k))
  && (year_start (k + 1) - year_start k =? (if is_leap (k + 1) then 366 else 365)).
Definition yday_key (n : Z) : Z :=
  let (m, d) := month_day n in carry m * 10000 + m * 100 + d.
Definition yday_ok (n : Z) : bool :=
  let (m, d) := month_day n in
  (1 <=? m) && (m <=? 12) && (1 <=? d)
  && (if n =? 365 then (m =? 2) && (d =? 29) else d <=? days_in m 1)
  && ((153 * (if 2 <? m then m - 3 else m + 9) + 2) / 5 + d - 1 =? n)
  && (301 <=? yday_key n) && (yday_key n <=? 10229) && (yday_key n <? yday_key (n + 1)).

Lemma upto_spec (f : Z → bool) (n : nat) x :
  forallb (λ i, f (Z.of_nat i)) (seq 0 n) = true → 0 ≤ x < Z.of_nat n → f x = true.
Proof.
  rewrite forallb_forall. intros H Hx. rewrite <- (Z2Nat.id x) by lia.
  apply H, in_seq. lia.
Qed.

Lemma year_facts k : 0 ≤ k < 400 → year_ok k = true.
Proof. apply (upto_spec year_ok 400). vm_compute. reflexivity. Qed.

Lemma yday_facts n : 0 ≤ n < 366 → yday_ok n = true.
Proof. apply (upto_spec yday_ok 366). vm_compute. reflexivity. Qed.

Lemma year_est_mono x y : 0 ≤ x ≤ y → y < 146097 → year_est x ≤ year_est y.
Proof. unfold year_est. intros. Z.to_euclidean_division_equations. lia. Qed.

Ltac decide_guards H :=
  repeat (apply andb_prop in H as [H ?]); guards;
  repeat match goal with
  | H : (_ =? _) = true |- _ => apply Z.eqb_eq in H
  | H : (_ =? _) = false |- _ => apply Z.eqb_neq in H
  end.

Lemma year_bounds k : 0 ≤ k < 400 →
  365 * k ≤ year_est (year_start k) ∧ (0 < k → year_est (year_start k - 1) < 365 * k) ∧
  year_start (k + 1) - year_start k = (if is_leap (k + 1) then 366 else 365).
Proof.
  intros Hk. pose proof (year_facts k Hk) as H. unfold year_ok in H. decide_guards H.
  split_and!; [done| |done]. intros Hpos.
  match goal with H : _ || _ = true |- _ => apply orb_prop in H as [H%Z.eqb_eq|H] end;
    guards; lia.
Qed.

(** The estimate finds the year of the era. *)
Lemma year_of_era doe : 0 ≤ doe < 146097 →
  let k := year_est doe / 365 in
  0 ≤ k < 400 ∧ year_start k ≤ doe < year_start (k + 1).
Proof.
  intros Hd k.
  assert (0 ≤ year_est doe ≤ 145999) as He.
  { unfold year_est. Z.to_euclidean_division_equations. lia. }
  assert (0 ≤ k < 400) as Hk.
  { unfold k. split; [apply Z.div_pos; lia|apply Z.div_lt_upper_bound; lia]. }
  assert (365 * k ≤ year_est doe < 365 * k + 365) as Hest.
  { unfold k. pose proof (Z.div_mod (year_est doe) 365 ltac:(lia)).
    pose proof (Z.mod_pos_bound (year_est doe) 365 ltac:(lia)). lia. }
  assert (∀ j, 0 ≤ j ≤ 400 → 0 ≤ year_start j ≤ 146097) as Hst.
  { unfold year_start. intros j Hj. Z.to_euclidean_division_equations. lia. }
  split; [done|]. split.
  - destruct (decide (year_start k ≤ doe)) as [|Hlt]; [done|]. exfalso.
    destruct (decide (k = 0)) as [E|]; [rewrite E in Hlt; change (year_start 0) with 0 in Hlt; lia|].
    destruct (year_bounds k Hk) as (_ & Hb & _).
    pose proof (Hst k). pose proof (year_est_mono doe (year_start k - 1)). lia.
  - destruct (decide (doe < year_start (k + 1))) as [|Hge]; [done|]. exfalso.
    pose proof (Hst (k + 1)).
    pose proof (year_est_mono (year_start (k + 1)) doe) as Hm.
    destruct (decide (k = 399)) as [E|].
    + rewrite E in Hge. change (year_start (399 + 1)) with 146097 in Hge. lia.
    + destruct (year_bounds (k + 1)) as (Hb & _ & _); lia.
Qed.

Definition year_len (k : Z) : Z := if is_leap (k + 1) then 366 else 365.

Lemma day_split z : ∃ e k n,
  0 ≤ k < 400 ∧ 0 ≤ n < year_len k ∧ z + 719468 = e * 146097 + year_start k + n ∧
  civil_from_days z =
    (e * 400 + k + carry (month_day n).1, (month_day n).1, (month_day n).2).
Proof.
  set (e := (z + 719468) / 146097). set (doe := (z + 719468) mod 146097).
  assert (z + 719468 = 146097 * e + doe) as Hz by (apply Z.div_mod; lia).
  assert (0 ≤ doe < 146097) as Hd by (apply Z.mod_pos_bound; lia).
  destruct (year_of_era doe Hd) as [Hk Hs]. set (k := year_est doe / 365) in *.
  exists e, k, (doe - year_start k).
  destruct (year_bounds k Hk) as (_ & _ & Hlen).
  split_and!; [lia..|unfold year_len; lia|lia|].
  unfold civil_from_days. fold e. cbv zeta.
  replace (z + 719468 - e * 146097) with doe by lia.
  change ((doe - doe / 1460 + doe / 36524 - doe / 146096) / 365) with k.
  replace (doe - (365 * k + k / 4 - k / 100)) with (doe - year_start k)
    by (unfold year_start; rewrite (Z.div_small k 400) by lia; lia).
  unfold month_day, carry. cbn [fst snd]. do 2 f_equal. lia.
Qed.

Lemma year_len_bound k : 365 ≤ year_len k ≤ 366.
Proof. unfold year_len. case_match; lia. Qed.

Lemma is_leap_era y e : is_leap (e * 400 + y) = is_leap y.
Proof.
  unfold is_leap.
  replace (e * 400 + y) with (y + (e * 100) * 4) at 1 by lia.
  replace (e * 400 + y) with (y + (e * 4) * 100) at 1 by lia.
  replace (e * 400 + y) with (y + e * 400) by lia.
  by rewrite !Z_mod_plus_full.
Qed.

Lemma days_in_other m y : m ≠ 2 → days_in m y = days_in m 1.
Proof. unfold days_in. intros. by rewrite (proj2 (Z.eqb_neq m 2)). Qed.

Lemma days_in_feb m y : days_in m 1 ≤ days_in m y.
Proof.
  unfold days_in. change (is_leap 1) with false.
  destruct (m =? 2); [destruct (is_leap y)|]; lia.
Qed.

(** The date of a day is a valid one, and leads back to the day. *)
Lemma civil_valid z y m d :
  civil_from_days z = (y, m, d) →
  1 ≤ m ≤ 12 ∧ 1 ≤ d ≤ days_in m y ∧ days_from_civil y m d = z.
Proof.
  destruct (day_split z) as (e & k & n & Hk & Hn & Hz & ->).
  pose proof (year_len_bound k). pose proof (yday_facts n ltac:(lia)) as Hf.
  unfold yday_ok in Hf. destruct (month_day n) as [m0 d0]. cbn [fst snd]. intros [= <- <- <-].
  decide_guards Hf. split_and!; [lia..| |].
  - destruct (n =? 365) eqn:E365.
    + apply Z.eqb_eq in E365. subst n.
      apply andb_prop in H4 as [->%Z.eqb_eq ->%Z.eqb_eq].
      assert (is_leap (e * 400 + k + carry 2) = true) as HL.
      { replace (e * 400 + k + carry 2) with (e * 400 + (k + 1)) by (cbn; lia).
        rewrite is_leap_era. unfold year_len in Hn. destruct (is_leap (k + 1)); [done|lia]. }
      unfold days_in. rewrite HL. cbn. lia.
    + guards. pose proof (days_in_feb m0 (e * 400 + k + carry m0)). lia.
  - unfold days_from_civil.
    replace (if m0 <=? 2 then e * 400 + k + carry m0 - 1 else e * 400 + k + carry m0)
      with (k + e * 400) by (unfold carry; destruct (m0 <=? 2); lia).
    rewrite Z.div_add, (Z.div_small k 400) by lia.
    replace (k + e * 400 - (0 + e) * 400) with k by lia.
    unfold year_start in Hz. rewrite (Z.div_small k 400) in Hz by lia. lia.
Qed.

Definition date_key (c : Z * Z * Z) : Z := c.1.1 * 10000 + c.1.2 * 100 + c.2.

Lemma yday_key_mono n n' : 0 ≤ n < n' → n' < 366 → yday_key n < yday_key n'.
Proof.
  intros Hn Hle.
  assert (∀ i : nat, n + Z.of_nat i + 1 < 366 → 0 ≤ n →
            yday_key n < yday_key (n + Z.of_nat i + 1)) as Hs.
  { induction i as [|i IH]; intros Hi H0.
    - replace (n + Z.of_nat 0 + 1) with (n + 1) by lia.
      pose proof (yday_facts n ltac:(lia)) as Hf. unfold yday_ok in Hf.
      destruct (month_day n). decide_guards Hf. done.
    - pose proof (IH ltac:(lia) H0). pose proof (yday_facts (n + Z.of_nat i + 1) ltac:(lia)) as Hf.
      unfold yday_ok in Hf. destruct (month_day (n + Z.of_nat i + 1)). decide_guards Hf.
      replace (n + Z.of_nat (S i) + 1) with (n + Z.of_nat i + 1 + 1) by lia. lia. }
  replace n' with (n + Z.of_nat (Z.to_nat (n' - n - 1)) + 1) by lia. apply Hs; lia.
Qed.

Lemma yday_key_range n : 0 ≤ n < 366 → 301 ≤ yday_key n ≤ 10229.
Proof.
  intros Hn. pose proof (yday_facts n Hn) as Hf. unfold yday_ok in Hf.
  destruct (month_day n). decide_guards Hf. done.
Qed.

Lemma year_start_mono k k' : 0 ≤ k ≤ k' → year_start k ≤ year_start k'.
Proof. unfold year_start. intros. Z.to_euclidean_division_equations. lia. Qed.

Lemma date_key_split z : ∃ e k n,
  0 ≤ k < 400 ∧ 0 ≤ n < 366 ∧ year_start k + n < year_start (k + 1) ≤ 146097 ∧
  z + 719468 = e * 146097 + year_start k + n ∧
  date_key (civil_from_days z) = (e * 400 + k) * 10000 + yday_key n.
Proof.
  destruct (day_split z) as (e & k & n & Hk & Hn & Hz & ->). exists e, k, n.
  destruct (year_bounds k Hk) as (_ & _ & Hlen). pose proof (year_len_bound k).
  pose proof (year_start_mono (k + 1) 400 ltac:(lia)) as Hmax.
  change (year_start 400) with 146097 in Hmax. fold (year_len k) in Hlen.
  split_and!; [lia..|].
  unfold date_key, yday_key. destruct (month_day n) as [m d]. cbn [fst snd]. lia.
Qed.

(** Dates compare, digit by digit, as the days they name. *)
Lemma date_key_mono z z' :
  z < z' → date_key (civil_from_days z) < date_key (civil_from_days z').
Proof.
  destruct (date_key_split z) as (e & k & n & Hk & Hn & Hb & Hz & ->).
  destruct (date_key_split z') as (e' & k' & n' & Hk' & Hn' & Hb' & Hz' & ->).
  intros Hlt.
  pose proof (yday_key_range n Hn). pose proof (yday_key_range n' Hn').
  assert (0 ≤ year_start k ∧ 0 ≤ year_start k') as [].
  { split; unfold year_start; Z.to_euclidean_division_equations; lia. }
  assert (e ≤ e') as He by nia.
  destruct (decide (e = e')) as [<-|]; [|lia].
  destruct (Z.lt_trichotomy k k') as [|[<-|]]; [lia| |].
  - pose proof (yday_key_mono n n'). lia.
  - pose proof (year_start_mono (k' + 1) k). lia.
Qed.

(** ** Fixed-width digits *)
Lemma dig_nat z : nat_of_ascii (dig z) = (48 + Z.to_nat (z mod 10))%nat.
Proof.
  unfold dig. apply nat_ascii_embedding. pose proof (Z.mod_pos_bound z 10). lia.
Qed.

Lemma digit_dig z : digit (dig z) = Some (z mod 10).
Proof.
  unfold digit, strconv.digit_val. rewrite dig_nat.
  pose proof (Z.mod_pos_bound z 10 ltac:(lia)).
  rewrite (proj2 (Z.leb_le _ _)), (proj2 (Z.leb_le _ _)) by lia. cbn. f_equal. lia.
Qed.

(** Comparing two texts that start with an [n]-digit field. *)
Lemma ltb_pad_digits n a b s t :
  0 ≤ a < 10 ^ Z.of_nat n → 0 ≤ b < 10 ^ Z.of_nat n →
  strings.ltb_chars (pad_digits n a ++ s) (pad_digits n b ++ t)
  = (a <? b) || ((a =? b) && strings.ltb_chars s t).
Proof.
  revert a b s t. induction n as [|n IH]; intros a b s t Ha Hb.
  - cbn in Ha, Hb |- *. assert (a = 0) as -> by lia. assert (b = 0) as -> by lia. done.
  - rewrite Nat2Z.inj_succ, Z.pow_succ_r in Ha, Hb by lia. cbn [pad_digits].
    rewrite <- !app_assoc, IH by
      (split; [apply Z.div_pos|apply Z.div_lt_upper_bound]; lia).
    cbn [app strings.ltb_chars]. rewrite !dig_nat.
    pose proof (Z.div_mod a 10 ltac:(lia)). pose proof (Z.div_mod b 10 ltac:(lia)).
    pose proof (Z.mod_pos_bound a 10 ltac:(lia)). pose proof (Z.mod_pos_bound b 10 ltac:(lia)).
    apply eq_true_iff_eq.
    rewrite !orb_true_iff, !andb_true_iff, !orb_true_iff, !andb_true_iff, !Z.ltb_lt,
      !Z.eqb_eq, Nat.ltb_lt, Nat.eqb_eq.
    destruct (strings.ltb_chars s t); intuition lia.
Qed.

Lemma pad2_digits z : pad2 z = pad_digits 2 z.
Proof. done. Qed.
Lemma pad4_digits z : pad4 z = pad_digits 4 z.
Proof.
  unfold pad4. cbn [pad_digits app].
  by rewrite !Z.div_div by lia.
Qed.

Lemma ltb_same c s t : strings.ltb_chars (c :: s) (c :: t) = strings.ltb_chars s t.
Proof. cbn [strings.ltb_chars]. by rewrite Nat.ltb_irrefl, Nat.eqb_refl. Qed.

(** ** Order of stored texts *)

(** The instants of the years 0 to 9999, which RFC 3339 can write. *)
Definition storable (t : time.Time) : Prop :=
  -62167219200 * time.Second ≤ t < 253402300800 * time.Second.

#[global] Instance storable_dec t : Decision (storable t).
Proof. unfold storable. apply _. Defined.

Lemma storable_year t y m d :
  storable t → civil_from_days (t / time.Second / 86400) = (y, m, d) →
  0 ≤ y < 10000 ∧ 1 ≤ m ≤ 12 ∧ 1 ≤ d ≤ days_in m y ∧ 1 ≤ d ≤ 31.
Proof.
  intros Ht Hc. destruct (civil_valid _ _ _ _ Hc) as (Hm & Hd & _).
  assert (days_in m y ≤ 31) by (unfold days_in; repeat case_match; lia).
  assert (-719528 ≤ t / time.Second / 86400 < 2932897) as Hz.
  { unfold storable, time.Second in *. split.
    - do 2 (apply Z.div_le_lower_bound; [lia|]). lia.
    - do 2 (apply Z.div_lt_upper_bound; [lia|]). lia. }
  set (z := t / time.Second / 86400) in *.
  assert (date_key (0, 1, 1) ≤ date_key (civil_from_days z)) as Hlo.
  { change (0, 1, 1) with (civil_from_days (-719528)).
    destruct (decide (z = -719528)) as [->|]; [done|].
    apply Z.lt_le_incl, date_key_mono. lia. }
  assert (date_key (civil_from_days z) < date_key (10000, 1, 1)) as Hhi.
  { change (10000, 1, 1) with (civil_from_days 2932897). apply date_key_mono. lia. }
  rewrite Hc in Hlo, Hhi. unfold date_key in *. cbn [fst snd] in *. lia.
Qed.

(** The part of the text up to the seconds. *)
Definition stamp (secs : Z) : list ascii :=
  let '(y, mo, d) := civil_from_days (secs / 86400) in
  let s := secs mod 86400 in
  pad_digits 4 y ++ [ascii_of_nat 45] ++ pad_digits 2 mo ++ [ascii_of_nat 45]
    ++ pad_digits 2 d ++ [ascii_of_nat 84] ++ pad_digits 2 (s / 3600) ++ [ascii_of_nat 58]
    ++ pad_digits 2 (s / 60 mod 60) ++ [ascii_of_nat 58] ++ pad_digits 2 (s mod 60).

Lemma format_stamp t :
  format_chars t = stamp (t / time.Second) ++ frac_chars (t mod time.Second) ++ [ascii_of_nat 90].
Proof.
  unfold format_chars, stamp. destruct (civil_from_days _) as [[y mo] d].
  rewrite pad4_digits, <- !app_assoc. done.
Qed.

Lemma ltb_stamp t u s r :
  storable t → storable u →
  strings.ltb_chars (stamp (t / time.Second) ++ s) (stamp (u / time.Second) ++ r)
  = (t / time.Second <? u / time.Second)
    || ((t / time.Second =? u / time.Second) && strings.ltb_chars s r).
Proof.
  intros Ht Hu. set (a := t / time.Second). set (b := u / time.Second).
  unfold stamp.
  destruct (civil_from_days (a / 86400)) as [[y mo] d] eqn:Ha.
  destruct (civil_from_days (b / 86400)) as [[y' mo'] d'] eqn:Hb.
  destruct (storable_year t y mo d Ht Ha) as (Hy & Hmo & _ & Hd).
  destruct (storable_year u y' mo' d' Hu Hb) as (Hy' & Hmo' & _ & Hd').
  assert (∀ x, 0 ≤ x mod 86400 / 3600 < 24 ∧ 0 ≤ x mod 86400 / 60 mod 60 < 60
               ∧ 0 ≤ x mod 86400 mod 60 < 60 ∧
               x = x / 86400 * 86400 + x mod 86400 / 3600 * 3600
                   + x mod 86400 / 60 mod 60 * 60 + x mod 86400 mod 60) as Hhms.
  { intros x. Z.to_euclidean_division_equations. lia. }
  destruct (Hhms a) as (Hh & Hmi & Hs & Ea). destruct (Hhms b) as (Hh' & Hmi' & Hs' & Eb).
  rewrite <- !app_assoc. cbn [app].
  rewrite !ltb_pad_digits, !ltb_same by (cbn; lia).
  repeat (rewrite ltb_pad_digits by (cbn; lia); rewrite ?ltb_same).
  assert (∀ x x', x < x' → date_key (civil_from_days x) < date_key (civil_from_days x'))
    as Hmono by (intros; by apply date_key_mono).
  pose proof (Hmono (a / 86400) (b / 86400)) as M1.
  pose proof (Hmono (b / 86400) (a / 86400)) as M2.
  assert (a / 86400 = b / 86400 → (y, mo, d) = (y', mo', d')) as M3
    by (intros E; rewrite E in Ha; congruence).
  rewrite Ha, Hb in M1, M2. unfold date_key in M1, M2. cbn [fst snd] in M1, M2.
  apply eq_true_iff_eq.
  repeat first [rewrite orb_true_iff | rewrite andb_true_iff | rewrite Z.ltb_lt
               | rewrite Z.eqb_eq].
  destruct (Z.lt_trichotomy (a / 86400) (b / 86400)) as [L|[E|L]].
  - specialize (M1 L). intuition lia.
  - specialize (M3 E). simplify_eq. clear M1 M2 Hmono Hhms. intuition lia.
  - specialize (M2 L). intuition lia.
Qed.

Lemma FormatNano_chars t : chars (FormatNano t) = format_chars t.
Proof. apply String.list_ascii_of_string_of_list_ascii. Qed.

(** ** Reading a stored text back *)
Lemma fixed2_pad z r : 0 ≤ z < 100 → fixed2 (pad_digits 2 z ++ r) = Some (z, r).
Proof.
  intros Hz. cbn [pad_digits app fixed2]. rewrite !digit_dig. cbn [mbind option_bind].
  do 2 f_equal. Z.to_euclidean_division_equations. lia.
Qed.

Lemma fixed4_pad z r : 0 ≤ z < 10000 → fixed4 (pad_digits 4 z ++ r) = Some (z, r).
Proof.
  intros Hz. unfold fixed4. cbn [pad_digits app fixed2].
  rewrite !digit_dig. cbn [mbind option_bind fixed2]. rewrite !digit_dig.
  cbn [mbind option_bind]. do 2 f_equal. Z.to_euclidean_division_equations. lia.
Qed.

Lemma hour_pad z r : 0 ≤ z < 100 → hour (pad_digits 2 z ++ r) = Some (z, r).
Proof.
  intros Hz. cbn [pad_digits app hour]. rewrite !digit_dig. cbn [mbind option_bind].
  do 2 f_equal. Z.to_euclidean_division_equations. lia.
Qed.

Lemma sep_char n r : (n < 256)%nat → sep n (ascii_of_nat n :: r) = Some r.
Proof.
  intros Hn. unfold sep, net.is_char. by rewrite nat_ascii_embedding, Nat.eqb_refl.
Qed.

Lemma digits_acc_app acc l r :
  strconv.digits_acc acc (l ++ r) = (a ← strconv.digits_acc acc l; strconv.digits_acc a r).
Proof.
  revert acc. induction l as [|c l IH]; intros acc; [done|]. cbn [app strconv.digits_acc].
  destruct (strconv.digit_val c); cbn; [apply IH|done].
Qed.

Lemma digits_acc_pad n z : 0 ≤ z < 10 ^ Z.of_nat n →
  strconv.digits_acc 0 (pad_digits n z) = Some z.
Proof.
  revert z. induction n as [|n IH]; intros z Hz.
  - cbn in *. f_equal. lia.
  - rewrite Nat2Z.inj_succ, Z.pow_succ_r in Hz by lia. cbn [pad_digits].
    rewrite digits_acc_app, IH by
      (split; [apply Z.div_pos|apply Z.div_lt_upper_bound]; lia).
    cbn. change strconv.digit_val with digit. rewrite digit_dig. cbn. f_equal.
    pose proof (Z.div_mod z 10). lia.
Qed.

Definition zero_char : ascii := ascii_of_nat 48.

Lemma drop_zeros_spec l : ∃ k, l = repeat zero_char k ++ drop_zeros l.
Proof.
  induction l as [|a l [k IH]]; [by exists O|]. cbn [drop_zeros].
  destruct (net.is_char 48 a) eqn:E; [|by exists O].
  exists (S k). cbn. f_equal; [|done]. unfold net.is_char in E. apply Nat.eqb_eq in E.
  by rewrite <- (ascii_nat_embedding a), E.
Qed.

Lemma repeat_rev {A} (x : A) k : rev (repeat x k) = repeat x k.
Proof.
  induction k as [|k IH]; [done|]. cbn. rewrite IH, <- repeat_cons. done.
Qed.

Lemma digits_acc_zeros acc k :
  strconv.digits_acc acc (repeat zero_char k) = Some (acc * 10 ^ Z.of_nat k).
Proof.
  revert acc. induction k as [|k IH]; intros acc; [cbn; f_equal; lia|].
  cbn [repeat strconv.digits_acc].
  change (strconv.digit_val zero_char) with (Some 0). cbn [mbind option_bind].
  rewrite IH, Nat2Z.inj_succ, Z.pow_succ_r by lia. f_equal. lia.
Qed.

Lemma pad_digits_length n z : length (pad_digits n z) = n.
Proof.
  revert z. induction n as [|n IH]; intros z; [done|]. cbn. rewrite length_app, IH. cbn. lia.
Qed.

Lemma pad_digits_digit n z : Forall (λ a, is_Some (digit a)) (pad_digits n z).
Proof.
  revert z. induction n as [|n IH]; intros z; [constructor|]. cbn. apply Forall_app.
  split; [apply IH|]. constructor; [|constructor]. rewrite digit_dig. eauto.
Qed.

Lemma digits_run_app ds r :
  Forall (λ a, is_Some (digit a)) ds →
  match r with a :: _ => digit a = None | [] => True end →
  digits_run (ds ++ r) = (ds, r).
Proof.
  induction 1 as [|a ds [v Hv] _ IH]; intros Hr.
  - destruct r as [|b r]; [done|]. cbn. by rewrite Hr.
  - cbn. rewrite Hv, IH by done. done.
Qed.

(** The written fraction reads back as the nanoseconds. *)
Lemma fraction_frac ns : 0 ≤ ns < time.Second →
  fraction (frac_chars ns ++ [ascii_of_nat 90]) = (ns, [ascii_of_nat 90]).
Proof.
  intros Hns. unfold frac_chars.
  destruct (drop_zeros_spec (rev (pad_digits 9 ns))) as [k Hk].
  set (ds := rev (drop_zeros (rev (pad_digits 9 ns)))) in *.
  assert (pad_digits 9 ns = ds ++ repeat zero_char k) as Hsplit.
  { rewrite <- (rev_involutive (pad_digits 9 ns)), Hk, rev_app_distr, repeat_rev. done. }
  pose proof (digits_acc_pad 9 ns ltac:(exact Hns)) as Hval.
  rewrite Hsplit, digits_acc_app in Hval.
  assert (length ds + k = 9)%nat as Hlen
    by (rewrite <- (pad_digits_length 9 ns), Hsplit, length_app, repeat_length; done).
  assert (Forall (λ a, is_Some (digit a)) ds) as Hds.
  { pose proof (pad_digits_digit 9 ns) as H. rewrite Hsplit in H. by apply Forall_app in H as []. }
  assert (∀ v, strconv.digits_acc 0 ds = Some v → v * 10 ^ Z.of_nat k = ns) as Hv.
  { intros v Hv. rewrite Hv in Hval. cbn in Hval. rewrite digits_acc_zeros in Hval. congruence. }
  destruct (strconv.digits_acc 0 ds) as [v|] eqn:E; [|done].
  specialize (Hv v eq_refl). clear Hk Hsplit Hval. clearbody ds.
  destruct ds as [|d ds].
  - cbn in E. simplify_eq. done.
  - cbn [app fraction]. change (net.is_char 46 (ascii_of_nat 46)) with true. cbn [orb].
    change (d :: ds ++ [ascii_of_nat 90]) with ((d :: ds) ++ [ascii_of_nat 90]).
    rewrite digits_run_app by done. unfold nanos. rewrite take_ge by lia.
    rewrite E. cbn [default]. rewrite <- Hv. do 3 f_equal. lia.
Qed.

(** An instant of the years 0 to 9999 reads back as it was written. *)
Lemma parse_format t : storable t → parse (FormatNano t) = Some t.
Proof.
  intros Ht. unfold parse. rewrite FormatNano_chars, format_stamp. unfold stamp.
  destruct (civil_from_days (t / time.Second / 86400)) as [[y mo] d] eqn:Hc.
  destruct (storable_year t y mo d Ht Hc) as (Hy & Hmo & Hdim & Hd).
  destruct (civil_valid _ _ _ _ Hc) as (_ & _ & Hback).
  set (s := (t / time.Second) mod 86400).
  assert (0 ≤ s / 3600 < 24 ∧ 0 ≤ s / 60 mod 60 < 60 ∧ 0 ≤ s mod 60 < 60 ∧
          s = s / 3600 * 3600 + s / 60 mod 60 * 60 + s mod 60) as (Hh & Hmi & Hs & Es).
  { pose proof (Z.mod_pos_bound (t / time.Second) 86400 ltac:(lia)) as Hb. fold s in Hb.
    Z.to_euclidean_division_equations. lia. }
  rewrite <- !app_assoc.
  rewrite fixed4_pad by lia. cbn [mbind option_bind].
  repeat (cbn [app]; first [rewrite sep_char by lia | rewrite hour_pad by lia
                           | rewrite fixed2_pad by lia]; cbn [mbind option_bind]).
  rewrite fraction_frac by (apply Z.mod_pos_bound; done).
  cbn [zone]. change (net.is_char 90 (ascii_of_nat 90)) with true. cbn [mbind option_bind].
  rewrite !(proj2 (Z.ltb_ge _ _)) by lia. cbn [orb]. f_equal. rewrite Hback.
  pose proof (Z.div_mod (t / time.Second) 86400 ltac:(lia)).
  pose proof (Z.div_mod t time.Second ltac:(done)).
  fold s in H. lia.
Qed.

Lemma ltb_FormatNano t u :
  storable t → storable u →
  strings.ltb (FormatNano t) (FormatNano u)
  = (t / time.Second <? u / time.Second)
    || ((t / time.Second =? u / time.Second)
        && strings.ltb_chars (frac_chars (t mod time.Second) ++ [ascii_of_nat 90])
                             (frac_chars (u mod time.Second) ++ [ascii_of_nat 90])).
Proof.
  intros Ht Hu. unfold strings.ltb. rewrite !FormatNano_chars, !format_stamp.
  by apply ltb_stamp.
Qed.

Lemma text_lt_second t u :
  storable t → storable u → strings.ltb (FormatNano t) (FormatNano u) = true →
  t / time.Second ≤ u / time.Second.
Proof.
  intros Ht Hu. rewrite ltb_FormatNano by done.
  rewrite orb_true_iff, andb_true_iff, Z.ltb_lt, Z.eqb_eq. lia.
Qed.

Lemma second_lt_text t u :
  storable t → storable u → t / time.Second < u / time.Second →
  strings.ltb (FormatNano t) (FormatNano u) = true.
Proof.
  intros Ht Hu Hlt. rewrite ltb_FormatNano by done. by rewrite (proj2 (Z.ltb_lt _ _)).
Qed.

End timetext.
