(* ===== verification/Store.v ===== *)
(** * The SQLite repositories (src/internal/infrastructure/storage/sqlite)

    Every table is the list of its rows in rowid order, with the columns the
    migrations leave; instants and addresses are kept as the text the code
    writes ([timeToStr], [underPrefix], [AccountID.String]) and parsed back on
    reading, identifiers and enumerations as values (their text is canonical).
    Each repository method is one definition, a function on the database
    ([St]): a statement either fails without effect, or takes effect; a method
    of several statements that fails half-way keeps the effect of the earlier
    ones, and only [Transactor.InTransaction] undoes them.

    Of SQLite the model has primary keys, unique indexes and foreign keys
    (as the schema declares them), [INSERT OR REPLACE] (the new row takes a
    fresh rowid), [INSERT OR IGNORE], upserts, and [ORDER BY] on a text column
    by bytes, ties in rowid order.  I/O failures of a statement are not
    modelled. *)

From S2P Require Import Prelude GoStd GoTime GoFloat Values LaunchAgg Json Events Payload.
From S2P Require Import Proposal JoinRequest Rehearsal.
#[global] Open Scope Z_scope.

Module sqlite.

(** ** helpers.go *)
Definition timeToStr (t : time.Time) : string := rfc3339.FormatNano t.

(** The fallback layout accepts no text the first one rejects. *)
Definition strToTime (s : string) : result time.Time :=
  match rfc3339.Parse s with Ok t => Ok t | Err _ => Err errorf end.

Definition nullTimeToStr (t : option time.Time) : option string := timeToStr <$> t.

Definition nullStrToTime (s : option string) : result (option time.Time) :=
  match s with None => Ok None | Some s => Some <$> strToTime s end.

(** ** Rows *)
Record launch_row : Type := mkLaunchRow {
  lr_id : uuid;
  lr_chain_id : string;
  lr_chain_name : string;
  lr_binary_name : string;
  lr_binary_version : string;
  lr_binary_sha256 : string;
  lr_repo_url : string;
  lr_repo_commit : string;
  lr_genesis_time : option string;
  lr_denom : string;
  lr_min_self_delegation : string;
  lr_max_commission_rate : string;
  lr_max_commission_change_rate : string;
  lr_gentx_deadline : string;
  lr_min_validator_count : Z;
  lr_launch_type : launch.LaunchType;
  lr_status : launch.Status;
  lr_initial_genesis_sha256 : string;
  lr_final_genesis_sha256 : string;
  lr_monitor_rpc_url : string;
  lr_created_at : string;
  lr_updated_at : string;
  lr_version : Z;
  lr_bech32_prefix : string;
  lr_total_supply : string;
  lr_rehearsal_service_pubkey : string;
  lr_rehearsal_endpoint : string;
  lr_final_genesis_input_set_hash : string }.

Record committee_row : Type := mkCommitteeRow {
  co_id : uuid; co_launch_id : uuid; co_threshold_m : Z; co_total_n : Z;
  co_lead_address : string; co_created_at : string }.

Record member_row : Type := mkMemberRow {
  me_committee_id : uuid; me_position : Z; me_address : string; me_account : string;
  me_moniker : string }.

Record allowlist_row : Type := mkAllowRow {
  aw_launch_id : uuid; aw_address : string; aw_account : string; aw_label : string;
  aw_added_by : string; aw_added_at : string }.

Record alloc_row : Type := mkAllocRow {
  fr_launch_id : uuid; fr_alloc_type : launch.AllocationType; fr_sha256 : string;
  fr_status : launch.AllocationFileStatus; fr_approved_by_proposal : option uuid;
  fr_uploaded_at : string }.

Record jr_row : Type := mkJrRow {
  jw_id : uuid; jw_launch_id : uuid; jw_operator_address : string;
  jw_consensus_pubkey : string; jw_gentx_json : bytes; jw_peer_address : string;
  jw_rpc_endpoint : string; jw_memo : string; jw_submitted_at : string;
  jw_operator_signature : string; jw_status : joinrequest.Status;
  jw_rejection_reason : string; jw_approved_by_proposal : option uuid;
  jw_self_delegation_amount : Z; jw_submitter_address : string }.

Record proposal_row : Type := mkProposalRow {
  pw_id : uuid; pw_launch_id : uuid; pw_action_type : payload.ActionType;
  pw_payload : bytes; pw_proposed_by : string; pw_proposed_at : string;
  pw_ttl_expires : string; pw_status : proposal.Status; pw_executed_at : option string }.

Record signature_row : Type := mkSignatureRow {
  sw_proposal_id : uuid; sw_member_address : string; sw_decision : proposal.Decision;
  sw_signed_at : string; sw_signature : string }.

Record readiness_row : Type := mkReadinessRow {
  dw_id : uuid; dw_launch_id : uuid; dw_join_request_id : uuid;
  dw_operator_address : string; dw_genesis_hash : string; dw_binary_hash : string;
  dw_confirmed_at : string; dw_operator_signature : string;
  dw_invalidated_at : option string }.

Record nonce_row : Type := mkNonceRow {
  nw_operator_address : string; nw_nonce : string; nw_expires_at : string }.

Record attempt_row : Type := mkAttemptRow {
  atw_id : uuid; atw_launch_id : uuid; atw_input_set_hash : string; atw_issued_at : string;
  atw_status : rehearsal.RehearsalAttemptStatus; atw_claimed_at : option string;
  atw_lease_expires_at : option string; atw_runner_id : string }.

(** [tw_steps] stays decoded: its JSON text is written by [json.Marshal] and
    read by [json.Unmarshal] of the same struct, never inspected in between. *)
Record result_row : Type := mkResultRow {
  tw_id : uuid; tw_attempt_id : uuid; tw_launch_id : uuid; tw_input_set_hash : string;
  tw_outcome : rehearsal.RehearsalOutcome; tw_failed_step : string; tw_summary : string;
  tw_steps : list rehearsal.RehearsalResultStep; tw_engine_version : string;
  tw_binary_name : string; tw_binary_version : string; tw_binary_sha256 : string;
  tw_validators : Z; tw_blocks_advanced : Z; tw_started_at : string; tw_finished_at : string;
  tw_service_pubkey : string; tw_signature : string; tw_stale : bool; tw_recorded_at : string }.

Record db : Type := mkDB {
  db_launches : list launch_row;
  db_committees : list committee_row;
  db_members : list member_row;
  db_allowlist : list allowlist_row;
  db_allocs : list alloc_row;
  db_jrs : list jr_row;
  db_proposals : list proposal_row;
  db_signatures : list signature_row;
  db_readiness : list readiness_row;
  db_nonces : list nonce_row;
  db_results : list result_row;
  db_attempts : list attempt_row }.

Definition empty_db : db := mkDB [] [] [] [] [] [] [] [] [] [] [] [].

Definition with_launches (x : list launch_row) (d : db) : db :=
  let 'mkDB _ b c e f g h i j k l m := d in mkDB x b c e f g h i j k l m.
Definition with_committees (x : list committee_row) (d : db) : db :=
  let 'mkDB a _ c e f g h i j k l m := d in mkDB a x c e f g h i j k l m.
Definition with_members (x : list member_row) (d : db) : db :=
  let 'mkDB a b _ e f g h i j k l m := d in mkDB a b x e f g h i j k l m.
Definition with_allowlist (x : list allowlist_row) (d : db) : db :=
  let 'mkDB a b c _ f g h i j k l m := d in mkDB a b c x f g h i j k l m.
Definition with_allocs (x : list alloc_row) (d : db) : db :=
  let 'mkDB a b c e _ g h i j k l m := d in mkDB a b c e x g h i j k l m.
Definition with_jrs (x : list jr_row) (d : db) : db :=
  let 'mkDB a b c e f _ h i j k l m := d in mkDB a b c e f x h i j k l m.
Definition with_proposals (x : list proposal_row) (d : db) : db :=
  let 'mkDB a b c e f g _ i j k l m := d in mkDB a b c e f g x i j k l m.
Definition with_signatures (x : list signature_row) (d : db) : db :=
  let 'mkDB a b c e f g h _ j k l m := d in mkDB a b c e f g h x j k l m.
Definition with_readiness (x : list readiness_row) (d : db) : db :=
  let 'mkDB a b c e f g h i _ k l m := d in mkDB a b c e f g h i x k l m.
Definition with_nonces (x : list nonce_row) (d : db) : db :=
  let 'mkDB a b c e f g h i j _ l m := d in mkDB a b c e f g h i j x l m.
Definition with_results (x : list result_row) (d : db) : db :=
  let 'mkDB a b c e f g h i j k _ m := d in mkDB a b c e f g h i j k x m.
Definition with_attempts (x : list attempt_row) (d : db) : db :=
  let 'mkDB a b c e f g h i j k l _ := d in mkDB a b c e f g h i j k l x.

(** ** Statements *)
Definition St (A : Type) : Type := db → result A * db.

#[global] Instance St_ret : MRet St := λ A a d, (Ok a, d).
#[global] Instance St_bind : MBind St := λ A B f m d,
  match m d with
  | (Ok a, d1) => f a d1
  | (Err e, d1) => (Err e, d1)
  end.

Definition fail {A} (e : error) : St A := λ d, (Err e, d).
Definition query {A} (f : db → result A) : St A := λ d, (f d, d).
Definition exec (f : db → db) : St unit := λ d, (Ok tt, f d).

Fixpoint for_each {A} (l : list A) (f : A → St unit) : St unit :=
  match l with
  | [] => mret tt
  | x :: l => f x ≫= λ _, for_each l f
  end.

(** [ORDER BY key] on a text column, and [DESC]. *)
Definition asc {A} (key : A → string) (x y : A) : Prop := strings.ltb (key y) (key x) = false.
Definition desc {A} (key : A → string) (x y : A) : Prop := strings.ltb (key x) (key y) = false.
#[global] Instance asc_dec {A} (key : A → string) : RelDecision (asc key).
Proof. intros x y. unfold asc. apply _. Defined.
#[global] Instance desc_dec {A} (key : A → string) : RelDecision (desc key).
Proof. intros x y. unfold desc. apply _. Defined.
Definition order_by {A} (key : A → string) (l : list A) : list A := merge_sort (asc key) l.
Definition order_by_desc {A} (key : A → string) (l : list A) : list A :=
  merge_sort (desc key) l.

(** [LIMIT n OFFSET k]: a negative limit is no limit, a negative offset is 0. *)
Definition limit_offset {A} (n k : Z) (l : list A) : list A :=
  let l1 := drop (Z.to_nat k) l in
  if n <? 0 then l1 else take (Z.to_nat n) l1.

(** [offset := (page - 1) * perPage], in Go's 64-bit [int]. *)
Definition page_offset (page perPage : Z) : Z := int64_wrap ((page - 1) * perPage).

(** Scanning the rows of a cursor: the first bad row is the error. *)
Fixpoint scan_rows {R A} (scan : R → result A) (rows : list R) : result (list A) :=
  match rows with
  | [] => Ok []
  | r :: rows => a ← scan r; l ← scan_rows scan rows; Ok (a :: l)
  end.

Definition is_id {A} (f : A → uuid) (i : uuid) (x : A) : bool := bool_decide (f x = i).
Definition is_str {A} (f : A → string) (s : string) (x : A) : bool := bool_decide (f x = s).

(** [QueryRow]: the first row in rowid order. *)
Definition first {A} (p : A → bool) (l : list A) : option A := List.find p l.

(** [UPDATE ... WHERE p] *)
Definition update {A} (p : A → bool) (f : A → A) (l : list A) : list A :=
  (λ x, if p x then f x else x) <$> l.

(** [DELETE ... WHERE p] *)
Definition remove {A} (p : A → bool) (l : list A) : list A := List.filter (λ x, negb (p x)) l.

Section repositories.
Context `{B32 : Bech32} `{NU : NetURL} `{UT : UUIDText}.

(** ** launch.go *)

(** The column values [Save] and [insert] bind for a launch. *)
Definition launch_cols (l : launch.Launch) (created : string) (version : Z) : launch_row :=
  let r := launch.l_Record l in
  mkLaunchRow (launch.l_ID l) (launch.r_ChainID r) (launch.r_ChainName r)
    (launch.r_BinaryName r) (launch.r_BinaryVersion r) (launch.r_BinarySHA256 r)
    (launch.r_RepoURL r) (launch.r_RepoCommit r) (nullTimeToStr (launch.r_GenesisTime r))
    (launch.r_Denom r) (launch.r_MinSelfDelegation r)
    (cr_value (launch.r_MaxCommissionRate r)) (cr_value (launch.r_MaxCommissionChangeRate r))
    (timeToStr (launch.r_GentxDeadline r)) (launch.r_MinValidatorCount r)
    (launch.l_LaunchType l) (launch.l_Status l) (launch.l_InitialGenesisSHA256 l)
    (launch.l_FinalGenesisSHA256 l) (launch.l_MonitorRPCURL l) created
    (timeToStr (launch.l_UpdatedAt l)) version (launch.r_Bech32Prefix r)
    (launch.r_TotalSupply r) (launch.l_RehearsalServicePubKey l)
    (launch.l_RehearsalEndpoint l) (launch.l_FinalGenesisInputSetHash l).

Definition lock_matches (l : launch.Launch) (r : launch_row) : bool :=
  is_id lr_id (launch.l_ID l) r && (lr_version r =? launch.l_Version l).

(** [UNIQUE(chain_id)] is violated by another row. *)
Definition chain_id_taken (l : launch.Launch) (rows : list launch_row) : bool :=
  existsb (λ r, is_str lr_chain_id (launch.r_ChainID (launch.l_Record l)) r
                && negb (is_id lr_id (launch.l_ID l) r)) rows.

(** The [UPDATE ... WHERE id=? AND version=?]; returns whether a row matched. *)
Definition update_launch (l : launch.Launch) : St bool := λ d,
  if existsb (lock_matches l) (db_launches d) then
    if chain_id_taken l (db_launches d) then (Err errorf, d)
    else (Ok true,
          with_launches (update (lock_matches l)
            (λ r, launch_cols l (lr_created_at r) (lr_version r + 1)) (db_launches d)) d)
  else (Ok false, d).

Definition insert (l : launch.Launch) : St unit := λ d,
  if existsb (is_id lr_id (launch.l_ID l)) (db_launches d)
     || existsb (is_str lr_chain_id (launch.r_ChainID (launch.l_Record l))) (db_launches d)
  then (Err errorf, d)
  else (Ok tt, with_launches
          (db_launches d ++ [launch_cols l (timeToStr (launch.l_CreatedAt l)) 0]) d).

Definition underPrefix (a : AccountID) (prefix : string) : string :=
  if negb (is_empty prefix) then
    match account_Bech32 a prefix with Ok s => s | Err _ => account_String a end
  else account_String a.

Definition member_rows (c : launch.Committee) (prefix : string) : list member_row :=
  imap (λ i m, mkMemberRow (launch.c_ID c) (Z.of_nat i)
                 (underPrefix (launch.cm_Address m) prefix)
                 (account_Hex (launch.cm_Address m)) (launch.cm_Moniker m))
       (launch.c_Members c).

(** [INSERT OR REPLACE] of the committee, then its members replaced: the
    positions are fresh, so no insert of a member can fail. *)
Definition saveCommittee (l : launch.Launch) : St unit :=
  let c := launch.l_Committee l in
  let prefix := launch.r_Bech32Prefix (launch.l_Record l) in
  exec (λ d, with_committees
    (remove (is_id co_id (launch.c_ID c)) (db_committees d) ++
     [mkCommitteeRow (launch.c_ID c) (launch.l_ID l) (launch.c_ThresholdM c)
        (launch.c_TotalN c) (underPrefix (launch.c_LeadAddress c) prefix)
        (timeToStr (launch.c_CreatedAt c))]) d) ≫= λ _,
  exec (λ d, with_members
    (remove (is_id me_committee_id (launch.c_ID c)) (db_members d)) d) ≫= λ _,
  exec (λ d, with_members (db_members d ++ member_rows c prefix) d).

Definition allow_row (l : launch.Launch) (m : Member) : allowlist_row :=
  mkAllowRow (launch.l_ID l)
    (underPrefix (m_Address m) (launch.r_Bech32Prefix (launch.l_Record l)))
    (account_Hex (m_Address m)) (m_Label m) (m_AddedBy m)
    (if time.IsZero (m_AddedAt m) then "" else timeToStr (m_AddedAt m)).

Definition saveAllowlist (l : launch.Launch) : St unit :=
  exec (λ d, with_allowlist
    (remove (is_id aw_launch_id (launch.l_ID l)) (db_allowlist d)) d) ≫= λ _,
  for_each (al_Members (launch.l_Allowlist l)) (λ m d,
    let r := allow_row l m in
    if existsb (λ r', is_id aw_launch_id (launch.l_ID l) r'
                      && is_str aw_address (aw_address r) r') (db_allowlist d)
    then (Err errorf, d)
    else (Ok tt, with_allowlist (db_allowlist d ++ [r]) d)).

Definition alloc_row_of (l : launch.Launch) (f : launch.AllocationFile) : alloc_row :=
  mkAllocRow (launch.l_ID l) (launch.af_Type f) (launch.af_SHA256 f) (launch.af_Status f)
    (launch.af_ApprovedByProposal f) (timeToStr (launch.af_UploadedAt f)).

Definition saveAllocationFiles (l : launch.Launch) : St unit :=
  exec (λ d, with_allocs
    (remove (is_id fr_launch_id (launch.l_ID l)) (db_allocs d)) d) ≫= λ _,
  for_each (launch.l_AllocationFiles l) (λ f d,
    let r := alloc_row_of l f in
    if existsb (λ r', is_id fr_launch_id (launch.l_ID l) r'
                      && bool_decide (fr_alloc_type r' = fr_alloc_type r)) (db_allocs d)
    then (Err errorf, d)
    else (Ok tt, with_allocs (db_allocs d ++ [r]) d)).

(** [if err := r.insert(ctx, l); err != nil { return ports.ErrConflict }] *)
Definition insert_or_conflict (l : launch.Launch) : St unit := λ d,
  let (r, d1) := insert l d in (map_err (λ _, [ErrConflict]) r, d1).

(** [LaunchRepository.Save] *)
Definition saveLaunch (l : launch.Launch) : St unit :=
  update_launch l ≫= λ matched,
  (if matched : bool then mret tt else insert_or_conflict l) ≫= λ _,
  saveCommittee l ≫= λ _,
  saveAllowlist l ≫= λ _,
  saveAllocationFiles l.

(** [scanLaunchCols] *)
Definition scanLaunchCols (r : launch_row) : result launch.Launch :=
  gt ← nullStrToTime (lr_genesis_time r);
  gentxDL ← strToTime (lr_gentx_deadline r);
  ca ← strToTime (lr_created_at r);
  ua ← strToTime (lr_updated_at r);
  maxComm ← NewCommissionRate (lr_max_commission_rate r);
  maxCommChange ← NewCommissionRate (lr_max_commission_change_rate r);
  Ok (launch.mkLaunch (lr_id r)
        (launch.mkRecord (lr_chain_id r) (lr_chain_name r) (lr_bech32_prefix r)
           (lr_binary_name r) (lr_binary_version r) (lr_binary_sha256 r) (lr_repo_url r)
           (lr_repo_commit r) gt (lr_denom r) (lr_min_self_delegation r)
           (lr_total_supply r) maxComm maxCommChange gentxDL (lr_min_validator_count r))
        (lr_launch_type r) ∅ (lr_status r)
        (launch.mkCommittee uuid_Nil [] 0 0 zeroAccountID time.zeroTime)
        (lr_initial_genesis_sha256 r) (lr_final_genesis_sha256 r)
        (lr_final_genesis_input_set_hash r) [] (lr_monitor_rpc_url r)
        (lr_rehearsal_service_pubkey r) (lr_rehearsal_endpoint r) ca ua (lr_version r) ∅).

Definition scanMember (r : member_row) : result launch.CommitteeMember :=
  addr ← NewAccountID (me_address r); Ok (launch.mkCM addr (me_moniker r)).

(** [ORDER BY position]: members are inserted in that order. *)
Definition loadCommittee (d : db) (l : launch.Launch) : result launch.Launch :=
  match first (is_id co_launch_id (launch.l_ID l)) (db_committees d) with
  | None => Ok l
  | Some c =>
      lead ← NewAccountID (co_lead_address c);
      ca ← strToTime (co_created_at c);
      ms ← scan_rows scanMember
             (List.filter (is_id me_committee_id (co_id c)) (db_members d));
      Ok (launch.set_Committee
            (launch.mkCommittee (co_id c) ms (co_threshold_m c) (co_total_n c) lead ca) l)
  end.

Definition scanAllow (r : allowlist_row) : result Member :=
  addr ← NewAccountID (aw_address r);
  at_ ← (if is_empty (aw_added_at r) then Ok time.zeroTime else strToTime (aw_added_at r));
  Ok (mkMember addr (aw_label r) (aw_added_by r) at_).

Definition loadAllowlist (d : db) (l : launch.Launch) : result launch.Launch :=
  ms ← scan_rows scanAllow
         (List.filter (is_id aw_launch_id (launch.l_ID l)) (db_allowlist d));
  Ok (launch.set_Allowlist (NewAllowlistFromMembers ms) l).

Definition approved_in (launchID : uuid) (r : jr_row) : bool :=
  is_id jw_launch_id launchID r && bool_decide (jw_status r = joinrequest.StatusApproved).

Definition scanPower (r : jr_row) : result (string * Z) :=
  id ← NewAccountID (jw_operator_address r);
  Ok (account_Hex id, jw_self_delegation_amount r).

Definition loadVotingPower (d : db) (l : launch.Launch) : result launch.Launch :=
  ps ← scan_rows scanPower (List.filter (approved_in (launch.l_ID l)) (db_jrs d));
  Ok (launch.InitVotingPower l (foldl (λ m kv, <[kv.1 := kv.2]> m) ∅ ps)).

Definition scanAlloc (r : alloc_row) : result launch.AllocationFile :=
  ua ← strToTime (fr_uploaded_at r);
  Ok (launch.mkAllocationFile (fr_alloc_type r) (fr_sha256 r) (fr_status r)
        (fr_approved_by_proposal r) ua).

Definition loadAllocationFiles (d : db) (l : launch.Launch) : result launch.Launch :=
  fs ← scan_rows scanAlloc
         (order_by (λ r, launch.AllocationType_String (fr_alloc_type r))
            (List.filter (is_id fr_launch_id (launch.l_ID l)) (db_allocs d)));
  Ok (launch.set_AllocationFiles (launch.l_AllocationFiles l ++ fs) l).

Definition hydrate (d : db) (l : launch.Launch) : result launch.Launch :=
  l1 ← loadCommittee d l;
  l2 ← loadAllowlist d l1;
  l3 ← loadVotingPower d l2;
  loadAllocationFiles d l3.

Definition load_first (p : launch_row → bool) (d : db) : result launch.Launch :=
  match first p (db_launches d) with
  | None => Err [ErrNotFound]
  | Some r => l ← scanLaunchCols r; hydrate d l
  end.

(** [LaunchRepository.FindByID], [FindByChainID] *)
Definition findLaunch (id : uuid) : St launch.Launch := query (load_first (is_id lr_id id)).
Definition findLaunchByChainID (chainID : string) : St launch.Launch :=
  query (load_first (is_str lr_chain_id chainID)).

(** [accountHex] (coordinator_allowlist.go) *)
Definition accountHex (addr : string) : option string :=
  match NewAccountID addr with Ok id => Some (account_Hex id) | Err _ => None end.

(** [membershipFilterFrom]: on the allowlist, or on the committee of any
    committee row of the launch. *)
Definition listed (d : db) (acct : string) (r : launch_row) : bool :=
  existsb (λ a, is_id aw_launch_id (lr_id r) a && is_str aw_account acct a) (db_allowlist d)
  || existsb (λ c, is_id co_launch_id (lr_id r) c
       && existsb (λ m, is_id me_committee_id (co_id c) m && is_str me_account acct m)
            (db_members d)) (db_committees d).

(** [FindAll] *)
Definition findAllLaunches (operatorAddr : string) (page perPage : Z)
    : St (list launch.Launch * Z) := query (λ d,
  match accountHex operatorAddr with
  | None => Ok ([], 0)
  | Some a =>
      let rows := List.filter (listed d a) (db_launches d) in
      scanned ← scan_rows scanLaunchCols
        (limit_offset perPage (page_offset page perPage) (order_by_desc lr_created_at rows));
      ls ← scan_rows (hydrate d) scanned;
      Ok (ls, len rows)
  end).

(** [FindByStatus] *)
Definition findLaunchesByStatus (s : launch.Status) : St (list launch.Launch) := query (λ d,
  scanned ← scan_rows scanLaunchCols (order_by lr_created_at
    (List.filter (λ r, bool_decide (lr_status r = s)) (db_launches d)));
  scan_rows (hydrate d) scanned).

(** ** joinrequest.go *)
Definition launchPrefix (d : db) (launchID : uuid) : string :=
  match first (is_id lr_id launchID) (db_launches d) with
  | Some r => lr_bech32_prefix r | None => "" end.

Definition jr_cols (d : db) (jr : joinrequest.JoinRequest) : jr_row :=
  mkJrRow (joinrequest.j_ID jr) (joinrequest.j_LaunchID jr)
    (account_String (joinrequest.j_OperatorAddress jr)) (joinrequest.j_ConsensusPubKey jr)
    (joinrequest.j_GentxJSON jr) (joinrequest.j_PeerAddress jr)
    (joinrequest.j_RPCEndpoint jr) (joinrequest.j_Memo jr)
    (timeToStr (joinrequest.j_SubmittedAt jr)) (joinrequest.j_OperatorSignature jr)
    (joinrequest.j_Status jr) (joinrequest.j_RejectionReason jr)
    (joinrequest.j_ApprovedByProposal jr) (joinrequest.SelfDelegationAmount jr)
    (underPrefix (joinrequest.j_SubmitterAddress jr)
                 (launchPrefix d (joinrequest.j_LaunchID jr))).

Definition active (r : jr_row) : bool :=
  bool_decide (jw_status r = joinrequest.StatusPending)
  || bool_decide (jw_status r = joinrequest.StatusApproved).

(** Both partial unique indexes: [idx_jr_consensus_pubkey] and
    [idx_jr_active_validator]. *)
Definition clashes (r r' : jr_row) : bool :=
  negb (is_id jw_id (jw_id r) r') && active r && active r'
  && is_id jw_launch_id (jw_launch_id r) r'
  && (is_str jw_consensus_pubkey (jw_consensus_pubkey r) r'
      || is_str jw_operator_address (jw_operator_address r) r').

(** The three columns [ON CONFLICT(id) DO UPDATE] sets. *)
Definition jr_set (new r : jr_row) : jr_row :=
  mkJrRow (jw_id r) (jw_launch_id r) (jw_operator_address r) (jw_consensus_pubkey r)
    (jw_gentx_json r) (jw_peer_address r) (jw_rpc_endpoint r) (jw_memo r)
    (jw_submitted_at r) (jw_operator_signature r) (jw_status new) (jw_rejection_reason new)
    (jw_approved_by_proposal new) (jw_self_delegation_amount r) (jw_submitter_address r).

(** [JoinRequestRepository.Save]: any constraint violation, the foreign key
    included, is reported as a conflict. *)
Definition saveJoinRequest (jr : joinrequest.JoinRequest) : St unit := λ d,
  let new := jr_cols d jr in
  match first (is_id jw_id (jw_id new)) (db_jrs d) with
  | Some old =>
      if existsb (clashes (jr_set new old)) (db_jrs d) then (Err [ErrConflict], d)
      else (Ok tt, with_jrs (update (is_id jw_id (jw_id new)) (jr_set new) (db_jrs d)) d)
  | None =>
      if existsb (clashes new) (db_jrs d)
         || negb (existsb (is_id lr_id (jw_launch_id new)) (db_launches d))
      then (Err [ErrConflict], d)
      else (Ok tt, with_jrs (db_jrs d ++ [new]) d)
  end.

Definition scanJoinRequest (r : jr_row) : result joinrequest.JoinRequest :=
  oa ← NewAccountID (jw_operator_address r);
  pa ← NewPeerAddress (jw_peer_address r);
  rpc ← (if is_empty (jw_rpc_endpoint r) then Ok "" else NewRPCEndpoint (jw_rpc_endpoint r));
  sa ← strToTime (jw_submitted_at r);
  sig ← NewSignature (jw_operator_signature r);
  submitter ← (if is_empty (jw_submitter_address r) then Ok zeroAccountID
               else NewAccountID (jw_submitter_address r));
  Ok (joinrequest.mkJR (jw_id r) (jw_launch_id r) oa submitter (jw_consensus_pubkey r)
        (jw_gentx_json r) pa rpc (jw_memo r) sa sig (jw_status r) (jw_rejection_reason r)
        (jw_approved_by_proposal r)).

Definition scan_first {R A} (scan : R → result A) (l : list R) : result A :=
  match l with [] => Err [ErrNotFound] | r :: _ => scan r end.

(** [JoinRequestRepository.FindByID] *)
Definition findJoinRequest (id : uuid) : St joinrequest.JoinRequest := query (λ d,
  scan_first scanJoinRequest (List.filter (is_id jw_id id) (db_jrs d))).

Definition in_launch (launchID : uuid) (s : option joinrequest.Status) (r : jr_row) : bool :=
  is_id jw_launch_id launchID r
  && match s with None => true | Some s => bool_decide (jw_status r = s) end.

(** [JoinRequestRepository.FindByLaunch] *)
Definition findJoinRequestsByLaunch (launchID : uuid) (s : option joinrequest.Status)
    (page perPage : Z) : St (list joinrequest.JoinRequest * Z) := query (λ d,
  let rows := List.filter (in_launch launchID s) (db_jrs d) in
  jrs ← scan_rows scanJoinRequest
    (limit_offset perPage (page_offset page perPage) (order_by_desc jw_submitted_at rows));
  Ok (jrs, len rows)).

(** [FindByOperator], [FindActiveByValidator] *)
Definition findJoinRequestByOperator (launchID : uuid) (op : string)
    : St joinrequest.JoinRequest := query (λ d,
  scan_first scanJoinRequest (order_by_desc jw_submitted_at
    (List.filter (λ r, is_id jw_launch_id launchID r && is_str jw_operator_address op r)
       (db_jrs d)))).
Definition findActiveByValidator (launchID : uuid) (op : string)
    : St joinrequest.JoinRequest := query (λ d,
  scan_first scanJoinRequest (order_by_desc jw_submitted_at
    (List.filter (λ r, is_id jw_launch_id launchID r && is_str jw_operator_address op r
                       && active r) (db_jrs d)))).

(** [FindApprovedByLaunch], [AllByLaunch] *)
Definition findApprovedByLaunch (launchID : uuid) : St (list joinrequest.JoinRequest) :=
  query (λ d, scan_rows scanJoinRequest
    (order_by jw_submitted_at (List.filter (approved_in launchID) (db_jrs d)))).
Definition allByLaunch (launchID : uuid) : St (list joinrequest.JoinRequest) :=
  query (λ d, scan_rows scanJoinRequest
    (order_by jw_submitted_at (List.filter (is_id jw_launch_id launchID) (db_jrs d)))).

(** [CountBySubmitter], [CountByConsensusPubKey] *)
Definition countBySubmitter (launchID : uuid) (submitterAddr : string) : St Z := query (λ d,
  id ← NewAccountID submitterAddr;
  let stored := underPrefix id (launchPrefix d launchID) in
  Ok (len (List.filter (λ r, is_id jw_launch_id launchID r
                             && is_str jw_submitter_address stored r) (db_jrs d)))).
Definition countByConsensusPubKey (launchID : uuid) (key : string) : St Z := query (λ d,
  Ok (len (List.filter (λ r, is_id jw_launch_id launchID r
                             && is_str jw_consensus_pubkey key r && active r) (db_jrs d)))).

(** ** proposal.go *)
Definition proposal_cols (p : proposal.Proposal) : proposal_row :=
  mkProposalRow (proposal.p_ID p) (proposal.p_LaunchID p) (proposal.p_ActionType p)
    (proposal.p_Payload p) (account_String (proposal.p_ProposedBy p))
    (timeToStr (proposal.p_ProposedAt p)) (timeToStr (proposal.p_TTLExpires p))
    (proposal.p_Status p) (nullTimeToStr (proposal.p_ExecutedAt p)).

(** The two columns [ON CONFLICT(id) DO UPDATE] sets. *)
Definition proposal_set (s : proposal.Status) (ex : option string) (r : proposal_row)
    : proposal_row :=
  mkProposalRow (pw_id r) (pw_launch_id r) (pw_action_type r) (pw_payload r)
    (pw_proposed_by r) (pw_proposed_at r) (pw_ttl_expires r) s ex.

Definition upsert_proposal (new : proposal_row) : St unit := λ d,
  if existsb (is_id pw_id (pw_id new)) (db_proposals d)
  then (Ok tt, with_proposals
          (update (is_id pw_id (pw_id new))
             (proposal_set (pw_status new) (pw_executed_at new)) (db_proposals d)) d)
  else if negb (existsb (is_id lr_id (pw_launch_id new)) (db_launches d))
  then (Err errorf, d)
  else (Ok tt, with_proposals (db_proposals d ++ [new]) d).

Definition signature_cols (id : uuid) (s : proposal.SignatureEntry) : signature_row :=
  mkSignatureRow id (account_String (proposal.s_MemberAddress s)) (proposal.s_Decision s)
    (timeToStr (proposal.s_Timestamp s)) (proposal.s_Signature s).

Definition same_signer (r r' : signature_row) : bool :=
  is_id sw_proposal_id (sw_proposal_id r) r' && is_str sw_member_address (sw_member_address r) r'.

(** [INSERT OR IGNORE] *)
Definition insert_signature (r : signature_row) : St unit := exec (λ d,
  if existsb (same_signer r) (db_signatures d) then d
  else with_signatures (db_signatures d ++ [r]) d).

(** [ProposalRepository.Save] *)
Definition saveProposal (p : proposal.Proposal) : St unit :=
  upsert_proposal (proposal_cols p) ≫= λ _,
  for_each (proposal.p_Signatures p)
    (λ s, insert_signature (signature_cols (proposal.p_ID p) s)).

Definition scanProposal (r : proposal_row) : result proposal.Proposal :=
  pb ← NewAccountID (pw_proposed_by r);
  pa ← strToTime (pw_proposed_at r);
  ttl ← strToTime (pw_ttl_expires r);
  ea ← nullStrToTime (pw_executed_at r);
  Ok (proposal.mkProposal (pw_id r) (pw_launch_id r) (pw_action_type r) (pw_payload r) pb pa
        ttl (pw_status r) ea [] []).

Definition scanSignature (r : signature_row) : result proposal.SignatureEntry :=
  addr ← NewAccountID (sw_member_address r);
  t ← strToTime (sw_signed_at r);
  sig ← NewSignature (sw_signature r);
  Ok (proposal.mkSig addr (sw_decision r) t sig).

Definition set_signatures (ss : list proposal.SignatureEntry) (p : proposal.Proposal)
    : proposal.Proposal :=
  proposal.mkProposal (proposal.p_ID p) (proposal.p_LaunchID p) (proposal.p_ActionType p)
    (proposal.p_Payload p) (proposal.p_ProposedBy p) (proposal.p_ProposedAt p)
    (proposal.p_TTLExpires p) (proposal.p_Status p) (proposal.p_ExecutedAt p) ss
    (proposal.p_events p).

Definition loadSignatures (d : db) (p : proposal.Proposal) : result proposal.Proposal :=
  ss ← scan_rows scanSignature (order_by sw_signed_at
         (List.filter (is_id sw_proposal_id (proposal.p_ID p)) (db_signatures d)));
  Ok (set_signatures (proposal.p_Signatures p ++ ss) p).

Definition load_proposal (d : db) (r : proposal_row) : result proposal.Proposal :=
  p ← scanProposal r; loadSignatures d p.

Definition scanProposalRows (d : db) (rows : list proposal_row)
    : result (list proposal.Proposal) :=
  scanned ← scan_rows scanProposal rows; scan_rows (loadSignatures d) scanned.

(** [ProposalRepository.FindByID], [FindByLaunch], [FindPending] *)
Definition findProposal (id : uuid) : St proposal.Proposal := query (λ d,
  scan_first (load_proposal d) (List.filter (is_id pw_id id) (db_proposals d))).
Definition findProposalsByLaunch (launchID : uuid) (page perPage : Z)
    : St (list proposal.Proposal * Z) := query (λ d,
  let rows := List.filter (is_id pw_launch_id launchID) (db_proposals d) in
  ps ← scanProposalRows d
    (limit_offset perPage (page_offset page perPage) (order_by_desc pw_proposed_at rows));
  Ok (ps, len rows)).
Definition is_pending (r : proposal_row) : bool :=
  bool_decide (pw_status r = proposal.StatusPendingSignatures).
Definition findPending : St (list proposal.Proposal) := query (λ d,
  scanProposalRows d (order_by pw_proposed_at (List.filter is_pending (db_proposals d)))).

(** [ExpireAllPending] *)
Definition expireAllPending (launchID : uuid) : St unit := exec (λ d,
  with_proposals
    (update (λ r, is_id pw_launch_id launchID r && is_pending r)
       (λ r, proposal_set proposal.StatusExpired (pw_executed_at r) r) (db_proposals d)) d).

(** ** readiness.go *)
Definition readiness_cols (rc : rehearsal.ReadinessConfirmation) : readiness_row :=
  mkReadinessRow (rehearsal.rd_ID rc) (rehearsal.rd_LaunchID rc)
    (rehearsal.rd_JoinRequestID rc) (account_String (rehearsal.rd_OperatorAddress rc))
    (rehearsal.rd_GenesisHashConfirmed rc) (rehearsal.rd_BinaryHashConfirmed rc)
    (timeToStr (rehearsal.rd_ConfirmedAt rc)) (rehearsal.rd_OperatorSignature rc)
    (nullTimeToStr (rehearsal.rd_InvalidatedAt rc)).

Definition set_invalidated (s : option string) (r : readiness_row) : readiness_row :=
  mkReadinessRow (dw_id r) (dw_launch_id r) (dw_join_request_id r) (dw_operator_address r)
    (dw_genesis_hash r) (dw_binary_hash r) (dw_confirmed_at r) (dw_operator_signature r) s.

(** [ReadinessRepository.Save] *)
Definition saveReadiness (rc : rehearsal.ReadinessConfirmation) : St unit := λ d,
  let new := readiness_cols rc in
  if existsb (is_id dw_id (dw_id new)) (db_readiness d)
  then (Ok tt, with_readiness (update (is_id dw_id (dw_id new))
                 (set_invalidated (dw_invalidated_at new)) (db_readiness d)) d)
  else if negb (existsb (is_id lr_id (dw_launch_id new)) (db_launches d)
                && existsb (is_id jw_id (dw_join_request_id new)) (db_jrs d))
  then (Err errorf, d)
  else (Ok tt, with_readiness (db_readiness d ++ [new]) d).

Definition scanReadiness (r : readiness_row) : result rehearsal.ReadinessConfirmation :=
  oa ← NewAccountID (dw_operator_address r);
  ca ← strToTime (dw_confirmed_at r);
  sig ← NewSignature (dw_operator_signature r);
  ia ← nullStrToTime (dw_invalidated_at r);
  Ok (rehearsal.mkReadiness (dw_id r) (dw_launch_id r) (dw_join_request_id r) oa
        (dw_genesis_hash r) (dw_binary_hash r) ca sig ia).

(** [FindByLaunch], [FindByOperator], [InvalidateByLaunch] *)
Definition findReadinessByLaunch (launchID : uuid)
    : St (list rehearsal.ReadinessConfirmation) := query (λ d,
  scan_rows scanReadiness
    (order_by dw_confirmed_at (List.filter (is_id dw_launch_id launchID) (db_readiness d)))).
Definition findReadinessByOperator (launchID : uuid) (op : string)
    : St rehearsal.ReadinessConfirmation := query (λ d,
  scan_first scanReadiness (order_by_desc dw_confirmed_at
    (List.filter (λ r, is_id dw_launch_id launchID r && is_str dw_operator_address op r)
       (db_readiness d)))).
Definition standing (r : readiness_row) : bool := bool_decide (dw_invalidated_at r = None).
Definition invalidateByLaunch (now : time.Time) (launchID : uuid) : St unit := exec (λ d,
  with_readiness
    (update (λ r, is_id dw_launch_id launchID r && standing r)
       (set_invalidated (Some (timeToStr now))) (db_readiness d)) d).

(** ** nonce.go *)
Definition nonceTTL : time.Duration := 10 * time.Minute.

Definition nonce_is (addr nonce : string) (r : nonce_row) : bool :=
  is_str nw_operator_address addr r && is_str nw_nonce nonce r.

(** [Consume] reads the clock twice: [now] for the expiry, [now'] for the
    clean-up of expired rows, which compares text. *)
Definition consumeNonce (now now' : time.Time) (addr nonce : string) : St unit := λ d,
  if existsb (nonce_is addr nonce) (db_nonces d) then (Err [ErrConflict], d)
  else
    let row := mkNonceRow addr nonce (timeToStr (time.Add now nonceTTL)) in
    (Ok tt, with_nonces (remove (λ r, strings.ltb (nw_expires_at r) (timeToStr now'))
                           (db_nonces d ++ [row])) d).

(** ** rehearsal.go *)
Definition scanAttempt (r : attempt_row) : result rehearsal.RehearsalAttempt :=
  issued ← strToTime (atw_issued_at r);
  claimed ← nullStrToTime (atw_claimed_at r);
  lease ← nullStrToTime (atw_lease_expires_at r);
  Ok (rehearsal.mkAttempt (atw_id r) (atw_launch_id r) (atw_input_set_hash r) issued (atw_status r)
        claimed lease (atw_runner_id r)).

Definition serves (launchID : uuid) (hash : string) (r : attempt_row) : bool :=
  is_id atw_launch_id launchID r && is_str atw_input_set_hash hash r.

(** [RehearsalAttemptRepository.GetOrCreate]; [fresh] is [uuid.New()]. *)
Definition getOrCreateAttempt (fresh launchID : uuid) (hash : string) (issuedAt : time.Time)
    : St rehearsal.RehearsalAttempt := λ d,
  let new := mkAttemptRow fresh launchID hash (timeToStr issuedAt) rehearsal.AttemptOpen
               None None "" in
  let scan d := match first (serves launchID hash) (db_attempts d) with
                | Some r => scanAttempt r | None => Err errorf end in
  if existsb (serves launchID hash) (db_attempts d) then (scan d, d)
  else if existsb (is_id atw_id fresh) (db_attempts d) then (Err errorf, d)
  else let d := with_attempts (db_attempts d ++ [new]) d in (scan d, d).

Definition findAttempt (id : uuid) : St rehearsal.RehearsalAttempt := query (λ d,
  scan_first scanAttempt (List.filter (is_id atw_id id) (db_attempts d))).

Definition attempt_set (a : rehearsal.RehearsalAttempt) (r : attempt_row) : attempt_row :=
  mkAttemptRow (atw_id r) (atw_launch_id r) (atw_input_set_hash r) (atw_issued_at r)
    (rehearsal.at_Status a) (nullTimeToStr (rehearsal.at_ClaimedAt a))
    (nullTimeToStr (rehearsal.at_LeaseExpiresAt a)) (rehearsal.at_RunnerID a).

(** [RehearsalAttemptRepository.Save] *)
Definition saveAttempt (a : rehearsal.RehearsalAttempt) : St unit := exec (λ d,
  with_attempts (update (is_id atw_id (rehearsal.at_ID a)) (attempt_set a) (db_attempts d)) d).

Definition result_cols (res : rehearsal.RehearsalResult) : result_row :=
  mkResultRow (rehearsal.re_ID res) (rehearsal.re_AttemptID res) (rehearsal.re_LaunchID res)
    (rehearsal.re_InputSetHash res) (rehearsal.re_Outcome res) (rehearsal.re_FailedStep res)
    (rehearsal.re_Summary res) (rehearsal.re_Steps res) (rehearsal.re_EngineVersion res)
    (rehearsal.re_BinaryName res) (rehearsal.re_BinaryVersion res)
    (rehearsal.re_BinarySHA256 res) (rehearsal.re_Validators res)
    (rehearsal.re_BlocksAdvanced res) (timeToStr (rehearsal.re_StartedAt res))
    (timeToStr (rehearsal.re_FinishedAt res)) (rehearsal.re_ServicePubKey res)
    (rehearsal.re_Signature res) (rehearsal.re_Stale res)
    (timeToStr (rehearsal.re_RecordedAt res)).

(** [RehearsalResultRepository.Save]: [ON CONFLICT(signature) DO NOTHING] *)
Definition saveResult (res : rehearsal.RehearsalResult) : St unit := λ d,
  let new := result_cols res in
  if existsb (is_str tw_signature (tw_signature new)) (db_results d) then (Ok tt, d)
  else if existsb (is_id tw_id (tw_id new)) (db_results d) then (Err errorf, d)
  else (Ok tt, with_results (db_results d ++ [new]) d).

Definition scanResult (r : result_row) : result rehearsal.RehearsalResult :=
  started ← strToTime (tw_started_at r);
  finished ← strToTime (tw_finished_at r);
  recorded ← strToTime (tw_recorded_at r);
  Ok (rehearsal.mkResult (tw_id r) (tw_attempt_id r) (tw_launch_id r) (tw_input_set_hash r)
        (tw_outcome r) (tw_failed_step r) (tw_summary r) (tw_steps r) (tw_engine_version r)
        (tw_binary_name r) (tw_binary_version r) (tw_binary_sha256 r) (tw_validators r)
        (tw_blocks_advanced r) started finished (tw_service_pubkey r) (tw_signature r)
        (tw_stale r) recorded).

Definition findResultsByLaunch (launchID : uuid) : St (list rehearsal.RehearsalResult) :=
  query (λ d, scan_rows scanResult (order_by_desc tw_recorded_at
    (List.filter (is_id tw_launch_id launchID) (db_results d)))).

End repositories.

#[global] Arguments saveLaunch : simpl never.
#[global] Arguments saveProposal : simpl never.
#[global] Arguments saveJoinRequest : simpl never.
#[global] Arguments timeToStr : simpl never.
#[global] Arguments strToTime : simpl never.

End sqlite.
