(* ===== verification/StoreProps.v ===== *)
(** * What the repositories guarantee

    Stored instants, the optimistic lock on launches, and the invariants that
    every sequence of repository writes keeps: the schema's uniqueness rules,
    and signatures that are only ever added. *)

From S2P Require Import Prelude GoStd GoTime TimeProps GoFloat Values LaunchAgg Fixtures Json.
From S2P Require Import Payload Proposal JoinRequest Rehearsal Store.
From stdpp Require Import relations.
Import sqlite.
#[global] Open Scope Z_scope.

(** ** Stored instants *)

Lemma strToTime_timeToStr t : timetext.storable t → strToTime (timeToStr t) = Ok t.
Proof.
  intros Ht. unfold strToTime, timeToStr, rfc3339.Parse. by rewrite timetext.parse_format.
Qed.

(** An instant of the years 0 to 9999 is read back exactly as it was
    stored, and two stored texts are ordered as the seconds of their instants:
    a smaller text is not of a later second, and an earlier second has a
    smaller text. *)
Theorem stored_time_faithful t u :
  timetext.storable t → timetext.storable u →
  strToTime (timeToStr t) = Ok t ∧
  (strings.ltb (timeToStr t) (timeToStr u) = true → t / time.Second ≤ u / time.Second) ∧
  (t / time.Second < u / time.Second → strings.ltb (timeToStr t) (timeToStr u) = true).
Proof.
  intros Ht Hu. split_and!.
  - by apply strToTime_timeToStr.
  - by apply timetext.text_lt_second.
  - by apply timetext.second_lt_text.
Qed.

Lemma stored_time_faithful_witness : strToTime (timeToStr 5) = Ok 5.
Proof.
  apply (stored_time_faithful 5 7); apply (bool_decide_eq_true_1 (timetext.storable _));
    vm_compute; reflexivity.
Defined.

(** Within a second the text order is not the order of time: a later
    instant can have a smaller text, so [ORDER BY] over stored texts can return
    the two in the wrong order. *)
Lemma text_order_not_time :
  ∃ t u, timetext.storable t ∧ timetext.storable u ∧ t < u ∧
    strings.ltb (timeToStr u) (timeToStr t) = true ∧
    order_by_desc timeToStr [u; t] = [t; u].
Proof.
  exists (100 * 10 ^ 6), (150 * 10 ^ 6). unfold timetext.storable.
  split_and!; vm_compute; congruence.
Qed.

(** ** Statements that leave a table alone *)
Definition frames {X A} (proj : db → X) (m : St A) : Prop := ∀ d, proj (m d).2 = proj d.

Lemma frames_bind {X A B} (proj : db → X) (m : St A) (f : A → St B) :
  frames proj m → (∀ a, frames proj (f a)) → frames proj (m ≫= f).
Proof.
  intros Hm Hf d. unfold mbind, St_bind. specialize (Hm d).
  destruct (m d) as [[a|e] d1]; cbn in *; [by rewrite Hf|done].
Qed.

Lemma frames_ret {X A} (proj : db → X) (a : A) : frames proj (mret a : St A).
Proof. by intros d. Qed.

Lemma frames_exec {X} (proj : db → X) f : (∀ d, proj (f d) = proj d) → frames proj (exec f).
Proof. intros H d. apply H. Qed.

Lemma frames_for_each {X A} (proj : db → X) (l : list A) f :
  (∀ x, frames proj (f x)) → frames proj (for_each l f).
Proof.
  intros Hf. induction l as [|x l IH]; cbn; [apply frames_ret|].
  apply frames_bind; auto.
Qed.

Create HintDb frame.
#[export] Hint Resolve frames_bind frames_ret frames_exec frames_for_each : frame.

(** Decide a framing goal by running the statement. *)
Ltac frame_tac :=
  repeat first
    [ apply frames_bind; [|intros ?] | apply frames_ret | apply frames_for_each; intros ?
    | apply frames_exec; intros []; reflexivity
    | let d := fresh "d" in intros d; destruct d; cbn; repeat case_match; reflexivity ].

Section guarantees.
Context `{B32 : Bech32} `{NU : NetURL} `{UT : UUIDText}.

(** The tables the committee, allowlist and allocation statements leave alone. *)
Definition core_tables (d : db) :=
  (db_launches d, db_jrs d, db_proposals d, db_signatures d).

(** The statements after the launch row is written. *)
Definition save_rest (l : launch.Launch) : St unit :=
  saveCommittee l ≫= λ _, saveAllowlist l ≫= λ _, saveAllocationFiles l.

Lemma save_rest_frames l : frames core_tables (save_rest l).
Proof. unfold save_rest, saveCommittee, saveAllowlist, saveAllocationFiles. frame_tac. Qed.

(** ** The optimistic lock *)
Definition row_of (d : db) (id : uuid) : option launch_row :=
  first (is_id lr_id id) (db_launches d).
Definition version_at (d : db) (id : uuid) : option Z := lr_version <$> row_of d id.
Definition unique_launches (d : db) : Prop := NoDup (lr_id <$> db_launches d).

Lemma first_id_Some {A} (f : A → uuid) i l x :
  first (is_id f i) l = Some x → x ∈ l ∧ f x = i.
Proof.
  unfold first. intros [Hin Hf]%find_some.
  split; [by apply list_elem_of_In|by apply bool_decide_eq_true in Hf].
Qed.

Lemma find_app {A} (p : A → bool) l r :
  List.find p (l ++ r)
  = match List.find p l with Some x => Some x | None => List.find p r end.
Proof. induction l as [|x l IH]; [done|]. cbn. by destruct (p x). Qed.

Lemma first_id_None {A} (f : A → uuid) i l :
  first (is_id f i) l = None ↔ i ∉ f <$> l.
Proof.
  unfold first. split.
  - intros H (x & -> & Hx%list_elem_of_In)%list_elem_of_fmap.
    pose proof (find_none _ _ H x Hx) as E. unfold is_id in E.
    by rewrite bool_decide_eq_true_2 in E.
  - intros H. destruct (List.find _ l) eqn:E; [|done]. exfalso. apply H.
    apply first_id_Some in E as [Hin <-]. by apply list_elem_of_fmap_2.
Qed.

Lemma existsb_id {A} (f : A → uuid) i l :
  existsb (is_id f i) l = true ↔ i ∈ f <$> l.
Proof.
  rewrite existsb_exists, list_elem_of_fmap. unfold is_id. split.
  - intros (x & Hx & E%bool_decide_eq_true). exists x. by rewrite list_elem_of_In.
  - intros (x & -> & Hx). exists x. rewrite <- list_elem_of_In. split; [done|].
    by apply bool_decide_eq_true_2.
Qed.

(** With unique keys, the row found by key is the only one with that key. *)
Lemma unique_first {A} (f : A → uuid) l x :
  NoDup (f <$> l) → x ∈ l → first (is_id f (f x)) l = Some x.
Proof.
  induction l as [|y l IH]; cbn; [set_solver|]. intros [Hy Hnd]%NoDup_cons Hx.
  unfold is_id at 1. case_bool_decide as E.
  - apply elem_of_cons in Hx as [->|Hx]; [done|]. exfalso. apply Hy. rewrite E.
    by apply list_elem_of_fmap_2.
  - apply elem_of_cons in Hx as [->|Hx]; [done|]. by apply IH.
Qed.

Lemma lock_matches_spec d l :
  unique_launches d →
  existsb (lock_matches l) (db_launches d) = true ↔
  version_at d (launch.l_ID l) = Some (launch.l_Version l).
Proof.
  intros Hu. unfold version_at, row_of. rewrite existsb_exists, fmap_Some. split.
  - intros (r & Hr & [Hid%bool_decide_eq_true Hv%Z.eqb_eq]%andb_prop).
    exists r. rewrite <- Hid. split; [|done].
    apply unique_first; [done|by apply list_elem_of_In].
  - intros (r & [Hin Hid]%first_id_Some & Hv). exists r.
    split; [by apply list_elem_of_In|]. unfold lock_matches, is_id.
    rewrite bool_decide_eq_true_2 by done. by apply Z.eqb_eq.
Qed.

(** [UPDATE] of columns other than the key keeps the keys. *)
Lemma update_keys {A} (f : A → uuid) p g (l : list A) :
  (∀ x, p x = true → f (g x) = f x) → f <$> update p g l = f <$> l.
Proof.
  intros H. unfold update. rewrite <- list_fmap_compose. apply list_fmap_ext.
  intros _ x _. cbn. destruct (p x) eqn:E; auto.
Qed.

Lemma first_update {A} (f : A → uuid) p g i (l : list A) :
  (∀ x, p x = true → f (g x) = f x) →
  first (is_id f i) (update p g l)
  = (λ x, if p x then g x else x) <$> first (is_id f i) l.
Proof.
  intros H. unfold first, update. induction l as [|x l IH]; [done|]. cbn.
  replace (is_id f i (if p x then g x else x)) with (is_id f i x).
  - destruct (is_id f i x); done.
  - unfold is_id. destruct (p x) eqn:E; [by rewrite H|done].
Qed.

(** The launch table after the row of [l] is written. *)
Definition launches_updated (l : launch.Launch) (rows : list launch_row) : list launch_row :=
  update (lock_matches l) (λ r, launch_cols l (lr_created_at r) (lr_version r + 1)) rows.
Definition launches_inserted (l : launch.Launch) (rows : list launch_row) : list launch_row :=
  rows ++ [launch_cols l (timeToStr (launch.l_CreatedAt l)) 0].

(** The four ways [Save] can go. *)
Inductive save_outcome (l : launch.Launch) (d : db) : Prop :=
  | save_stale v : version_at d (launch.l_ID l) = Some v → v ≠ launch.l_Version l →
      saveLaunch l d = (Err [ErrConflict], d) → save_outcome l d
  | save_refused e : version_at d (launch.l_ID l) = None ∨
        version_at d (launch.l_ID l) = Some (launch.l_Version l) →
      saveLaunch l d = (Err e, d) → save_outcome l d
  | save_updated : version_at d (launch.l_ID l) = Some (launch.l_Version l) →
      chain_id_taken l (db_launches d) = false →
      saveLaunch l d = save_rest l (with_launches (launches_updated l (db_launches d)) d) →
      save_outcome l d
  | save_inserted : version_at d (launch.l_ID l) = None →
      existsb (is_str lr_chain_id (launch.r_ChainID (launch.l_Record l))) (db_launches d)
        = false →
      saveLaunch l d = save_rest l (with_launches (launches_inserted l (db_launches d)) d) →
      save_outcome l d.

Lemma version_at_None d id : version_at d id = None ↔ id ∉ lr_id <$> db_launches d.
Proof. unfold version_at, row_of. rewrite fmap_None. apply first_id_None. Qed.

Lemma saveLaunch_cases l d : unique_launches d → save_outcome l d.
Proof.
  intros Hu. pose proof (lock_matches_spec d l Hu) as Hlock.
  assert (saveLaunch l d =
    match update_launch l d with
    | (Ok m, d1) => ((if m : bool then mret tt else insert_or_conflict l) ≫= λ _, save_rest l) d1
    | (Err e, d1) => (Err e, d1)
    end) as Hsave by done.
  unfold update_launch in Hsave.
  destruct (existsb (lock_matches l) (db_launches d)) eqn:Hm.
  - destruct Hlock as [Hlock _]. specialize (Hlock eq_refl).
    destruct (chain_id_taken l (db_launches d)) eqn:Hc.
    + eapply save_refused; [by right|exact Hsave].
    + by apply save_updated.
  - destruct (version_at d (launch.l_ID l)) as [v|] eqn:Hv.
    + assert (v ≠ launch.l_Version l) as Hne.
      { intros ->. destruct Hlock as [_ H]. specialize (H eq_refl). congruence. }
      apply (save_stale l d v); [done..|]. rewrite Hsave.
      unfold mbind, St_bind, insert_or_conflict, insert.
      rewrite (proj2 (existsb_id lr_id (launch.l_ID l) (db_launches d))); [done|].
      unfold version_at, row_of in Hv. apply fmap_Some in Hv as (r & [Hin <-]%first_id_Some & _).
      by apply list_elem_of_fmap_2.
    + pose proof Hv as Hid. rewrite version_at_None, <- existsb_id in Hid.
      apply not_true_is_false in Hid.
      unfold mbind, St_bind, insert_or_conflict, insert in Hsave. rewrite Hid in Hsave.
      destruct (existsb (is_str lr_chain_id _) (db_launches d)) eqn:Hc; cbn in Hsave.
      * eapply save_refused; [by left|exact Hsave].
      * by apply save_inserted.
Qed.

Lemma save_rest_launches l d : db_launches (save_rest l d).2 = db_launches d.
Proof. pose proof (save_rest_frames l d) as H. unfold core_tables in H. congruence. Qed.

Lemma db_launches_with x d : db_launches (with_launches x d) = x.
Proof. by destruct d. Qed.

Lemma launches_updated_keys l rows : lr_id <$> launches_updated l rows = lr_id <$> rows.
Proof.
  apply update_keys. intros r [E%bool_decide_eq_true _]%andb_prop. cbn. done.
Qed.

(** What a [Save] leaves in the launch table. *)
Lemma saveLaunch_rows l d :
  unique_launches d →
  (∃ e, saveLaunch l d = (Err e, d)) ∨
  (unique_launches (saveLaunch l d).2 ∧
   (version_at d (launch.l_ID l) = Some (launch.l_Version l) ∨
    version_at d (launch.l_ID l) = None) ∧
   version_at (saveLaunch l d).2 (launch.l_ID l) =
     Some (match version_at d (launch.l_ID l) with Some v => v + 1 | None => 0 end) ∧
   ∀ id, id ≠ launch.l_ID l → row_of (saveLaunch l d).2 id = row_of d id).
Proof.
  intros Hu. destruct (saveLaunch_cases l d Hu) as [v _ _ E|e _ E|Hv _ E|Hv _ E].
  - left. by eexists.
  - left. by exists e.
  - right. rewrite E. unfold unique_launches, version_at, row_of.
    rewrite save_rest_launches, db_launches_with, launches_updated_keys. split; [done|].
    assert (∀ r, lock_matches l r = true →
      lr_id (launch_cols l (lr_created_at r) (lr_version r + 1)) = lr_id r) as Hkey.
    { intros r [Ei%bool_decide_eq_true _]%andb_prop. done. }
    unfold launches_updated. split_and!; [auto| |].
    + rewrite first_update by done. unfold version_at, row_of in Hv.
      destruct (first (is_id lr_id (launch.l_ID l)) (db_launches d)) as [r|] eqn:Hr; [|done].
      cbn in Hv |- *. injection Hv as Hv. apply first_id_Some in Hr as [_ Hid].
      unfold lock_matches, is_id. rewrite bool_decide_eq_true_2, Hv, Z.eqb_refl by done. done.
    + intros id Hid. rewrite first_update by done.
      destruct (first (is_id lr_id id) (db_launches d)) as [r|] eqn:Hr; [|done]. cbn.
      apply first_id_Some in Hr as [_ <-]. unfold lock_matches, is_id.
      by rewrite bool_decide_eq_false_2.
  - right. rewrite E. unfold unique_launches, version_at, row_of.
    rewrite save_rest_launches, db_launches_with. unfold launches_inserted.
    pose proof (proj1 (version_at_None _ _) Hv) as Hnew. split_and!; [|auto| |].
    + rewrite fmap_app. apply NoDup_app. split_and!; [done| |apply NoDup_singleton].
      intros x Hx ->%list_elem_of_singleton. by apply Hnew.
    + unfold first. rewrite find_app. unfold version_at, row_of, first in Hv.
      apply fmap_None in Hv. rewrite Hv. cbn. unfold is_id. by rewrite bool_decide_eq_true_2.
    + intros id Hid. unfold first. rewrite find_app.
      destruct (List.find _ _); [done|]. cbn. unfold is_id.
      by rewrite bool_decide_eq_false_2.
Qed.

(** The row a successful save of a stored launch leaves. *)
Lemma saveLaunch_row l d r :
  unique_launches d → row_of d (launch.l_ID l) = Some r → (saveLaunch l d).1 = Ok tt →
  row_of (saveLaunch l d).2 (launch.l_ID l)
  = Some (launch_cols l (lr_created_at r) (launch.l_Version l + 1)).
Proof.
  intros Hu Hr Hok. assert (version_at d (launch.l_ID l) = Some (lr_version r)) as Hver
    by (unfold version_at; by rewrite Hr).
  destruct (saveLaunch_cases l d Hu) as [v _ _ E|e _ E|Hv _ E|Hv _ _];
    [by rewrite E in Hok|by rewrite E in Hok| |congruence].
  rewrite E. unfold row_of in *. rewrite save_rest_launches, db_launches_with.
  unfold launches_updated. rewrite first_update.
  2: { intros x [Ei%bool_decide_eq_true _]%andb_prop. done. }
  rewrite Hr. cbn. rewrite Hver in Hv. injection Hv as Hv.
  apply first_id_Some in Hr as [_ Hid]. unfold lock_matches, is_id.
  by rewrite bool_decide_eq_true_2, Hv, Z.eqb_refl by done.
Qed.

(** C4. Of two writers that loaded the same version of a launch only the
    first succeeds: its save found the loaded version and stored the next one,
    and the second writer's save is a conflict that changes nothing. *)
Theorem no_lost_update d l1 l2 :
  unique_launches d → launch.l_ID l1 = launch.l_ID l2 →
  launch.l_Version l1 = launch.l_Version l2 → is_Some (version_at d (launch.l_ID l1)) →
  (saveLaunch l1 d).1 = Ok tt →
  version_at d (launch.l_ID l1) = Some (launch.l_Version l1) ∧
  version_at (saveLaunch l1 d).2 (launch.l_ID l1) = Some (launch.l_Version l1 + 1) ∧
  saveLaunch l2 (saveLaunch l1 d).2 = (Err [ErrConflict], (saveLaunch l1 d).2).
Proof.
  intros Hu Hid Hver Hex Hok.
  destruct (saveLaunch_rows l1 d Hu) as [[e E]|(Hu1 & Hv & Hv1 & _)];
    [rewrite E in Hok; discriminate|].
  destruct Hv as [Hv|Hv]; [|rewrite Hv in Hex; by destruct Hex]. rewrite Hv in Hv1.
  split_and!; [done..|].
  destruct (saveLaunch_cases l2 (saveLaunch l1 d).2 Hu1) as [v _ _ E|e Hv2 _|Hv2 _ _|Hv2 _ _].
  - done.
  - exfalso. rewrite <- Hid, <- Hver, Hv1 in Hv2. destruct Hv2 as [|[=]]; [done|lia].
  - exfalso. rewrite <- Hid, <- Hver, Hv1 in Hv2. injection Hv2. lia.
  - exfalso. rewrite <- Hid, Hv1 in Hv2. done.
Qed.

(** ** Invariants of every write history *)

(** One write by a repository method, whatever its result. *)
Inductive repo_write (d : db) : db → Prop :=
  | wr_launch l : repo_write d (saveLaunch l d).2
  | wr_join_request jr : repo_write d (saveJoinRequest jr d).2
  | wr_proposal p : repo_write d (saveProposal p d).2
  | wr_expire id : repo_write d (expireAllPending id d).2
  | wr_readiness rc : repo_write d (saveReadiness rc d).2
  | wr_invalidate now id : repo_write d (invalidateByLaunch now id d).2
  | wr_nonce now now' a n : repo_write d (consumeNonce now now' a n d).2
  | wr_result res : repo_write d (saveResult res d).2
  | wr_attempt_new id lid h t : repo_write d (getOrCreateAttempt id lid h t d).2
  | wr_attempt a : repo_write d (saveAttempt a d).2.

Definition history : relation db := rtc repo_write.

(** At most one active request per validator and per consensus key. *)
Definition no_clash (rows : list jr_row) : Prop :=
  ∀ r r', r ∈ rows → r' ∈ rows → clashes r r' = false.
Definition signer_key (r : signature_row) : uuid * string :=
  (sw_proposal_id r, sw_member_address r).

Record wf_db (d : db) : Prop := {
  wf_launch_ids : unique_launches d;
  wf_jr_ids : NoDup (jw_id <$> db_jrs d);
  wf_no_clash : no_clash (db_jrs d);
  wf_proposal_ids : NoDup (pw_id <$> db_proposals d);
  wf_signers : NoDup (signer_key <$> db_signatures d) }.

Lemma wf_core d d' : core_tables d' = core_tables d → wf_db d → wf_db d'.
Proof.
  unfold core_tables. intros [= El Ej Ep Es] [].
  split; unfold unique_launches in *; by rewrite ?El, ?Ej, ?Ep, ?Es.
Qed.

Lemma clashes_sym r r' : clashes r r' = clashes r' r.
Proof.
  unfold clashes, is_id, is_str.
  rewrite (bool_decide_ext (jw_id r' = jw_id r) (jw_id r = jw_id r')),
    (bool_decide_ext (jw_launch_id r' = jw_launch_id r) (jw_launch_id r = jw_launch_id r')),
    (bool_decide_ext (jw_consensus_pubkey r' = jw_consensus_pubkey r)
       (jw_consensus_pubkey r = jw_consensus_pubkey r')),
    (bool_decide_ext (jw_operator_address r' = jw_operator_address r)
       (jw_operator_address r = jw_operator_address r')) by done.
  by destruct (active r), (active r'), (bool_decide (jw_id r = jw_id r')).
Qed.

Lemma existsb_false {A} (f : A → bool) l x : existsb f l = false → x ∈ l → f x = false.
Proof.
  intros H Hx%list_elem_of_In. destruct (f x) eqn:E; [|done].
  assert (existsb f l = true) by (apply existsb_exists; eauto). congruence.
Qed.

Lemma clashes_self r : clashes r r = false.
Proof. unfold clashes, is_id. by rewrite bool_decide_eq_true_2. Qed.

Lemma no_clash_add rows r :
  no_clash rows → existsb (clashes r) rows = false → no_clash (rows ++ [r]).
Proof.
  intros Hn He x y [Hx| ->%list_elem_of_singleton]%elem_of_app
    [Hy| ->%list_elem_of_singleton]%elem_of_app.
  - by apply Hn.
  - rewrite clashes_sym. by eapply existsb_false.
  - by eapply existsb_false.
  - apply clashes_self.
Qed.

(** Replacing one row by one that clashes with none. *)
Lemma no_clash_set rows new old :
  NoDup (jw_id <$> rows) → no_clash rows → first (is_id jw_id (jw_id new)) rows = Some old →
  existsb (clashes (jr_set new old)) rows = false →
  no_clash (update (is_id jw_id (jw_id new)) (jr_set new) rows).
Proof.
  intros Hnd Hn Hold He.
  assert (∀ x, x ∈ rows → is_id jw_id (jw_id new) x = true → x = old) as Honly.
  { intros x Hx E%bool_decide_eq_true. rewrite <- E, unique_first in Hold by done.
    congruence. }
  intros x y Hx Hy. unfold update in Hx, Hy.
  apply list_elem_of_fmap in Hx as (x0 & -> & Hx). apply list_elem_of_fmap in Hy as (y0 & -> & Hy).
  destruct (is_id jw_id (jw_id new) x0) eqn:Ex, (is_id jw_id (jw_id new) y0) eqn:Ey.
  - rewrite (Honly x0), (Honly y0) by done. apply clashes_self.
  - rewrite (Honly x0) by done. by eapply existsb_false.
  - rewrite (Honly y0), clashes_sym by done. by eapply existsb_false.
  - by apply Hn.
Qed.

(** Everything but the launch tables. *)
Definition other_tables (d : db) :=
  (db_jrs d, db_proposals d, db_signatures d, db_readiness d, db_nonces d, db_results d).

(** The tables [saveLaunch] writes; what it does there, and whether it
    succeeds, depends on nothing else. *)
Definition launch_tables (d : db) :=
  (db_launches d, db_committees d, db_members d, db_allowlist d, db_allocs d).
(** [d] with the other tables of [e]. *)
Definition beside (e d : db) : db :=
  mkDB (db_launches d) (db_committees d) (db_members d) (db_allowlist d) (db_allocs d)
    (db_jrs e) (db_proposals e) (db_signatures e) (db_readiness e) (db_nonces e) (db_results e)
    (db_attempts e).
Definition apart {A} (m : St A) : Prop :=
  ∀ e d, m (beside e d) = ((m d).1, beside e (m d).2).

Lemma apart_bind {A B} (m : St A) (f : A → St B) :
  apart m → (∀ a, apart (f a)) → apart (m ≫= f).
Proof.
  intros Hm Hf e d. unfold mbind, St_bind. rewrite Hm. destruct (m d) as [[a|x] d1]; cbn; [|done].
  apply Hf.
Qed.
Lemma apart_for_each {A} (l : list A) f : (∀ x, apart (f x)) → apart (for_each l f).
Proof.
  intros Hf. induction l as [|x l IH]; cbn; [done|]. apply apart_bind; auto.
Qed.

Lemma saveLaunch_apart l : apart (saveLaunch l).
Proof.
  unfold saveLaunch. apply apart_bind; [|intros m; apply apart_bind; [|intros _; apply apart_bind;
    [|intros _; apply apart_bind; [|intros _]]]].
  - intros e d. unfold update_launch. change (db_launches (beside e d)) with (db_launches d).
    destruct (existsb (lock_matches l) (db_launches d)); [|done].
    destruct (chain_id_taken l (db_launches d)); [done|]. by destruct d.
  - destruct m; [done|]. intros e d. unfold insert_or_conflict, insert.
    change (db_launches (beside e d)) with (db_launches d). destruct (_ || _); [done|]. by destruct d.
  - unfold saveCommittee. repeat (apply apart_bind; [by intros e []|intros _]). by intros e [].
  - unfold saveAllowlist. apply apart_bind; [by intros e []|intros _]. apply apart_for_each.
    intros x e d. change (db_allowlist (beside e d)) with (db_allowlist d).
    destruct (existsb _ (db_allowlist d)); [done|]. by destruct d.
  - unfold saveAllocationFiles. apply apart_bind; [by intros e []|intros _]. apply apart_for_each.
    intros x e d. change (db_allocs (beside e d)) with (db_allocs d).
    destruct (existsb _ (db_allocs d)); [done|]. by destruct d.
Qed.

Lemma saveLaunch_tables l d1 d2 :
  launch_tables d1 = launch_tables d2 →
  (saveLaunch l d1).1 = (saveLaunch l d2).1 ∧
  launch_tables (saveLaunch l d1).2 = launch_tables (saveLaunch l d2).2.
Proof.
  intros H. assert (d1 = beside d1 d2) as ->.
  { destruct d1, d2. unfold launch_tables in H. cbn in H. by simplify_eq. }
  by rewrite saveLaunch_apart.
Qed.

Lemma insert_frames l : frames other_tables (insert_or_conflict l).
Proof.
  assert (frames other_tables (insert l)) as H by (unfold insert; frame_tac).
  intros d. specialize (H d). unfold insert_or_conflict. by destruct (insert l d).
Qed.

Lemma saveLaunch_frames l : frames other_tables (saveLaunch l).
Proof.
  unfold saveLaunch, update_launch, saveCommittee, saveAllowlist, saveAllocationFiles.
  apply frames_bind; [frame_tac|intros m].
  apply frames_bind; [destruct m; [apply frames_ret|apply insert_frames]|intros _]. frame_tac.
Qed.

Lemma wf_saveLaunch l d : wf_db d → wf_db (saveLaunch l d).2.
Proof.
  intros W. pose proof (saveLaunch_frames l d) as Hf.
  destruct (saveLaunch_rows l d (wf_launch_ids d W)) as [[e E]|(Hu & _)];
    [by rewrite E|].
  unfold other_tables in Hf. injection Hf as Ej Ep Es _ _ _.
  destruct W. split; rewrite ?Ej, ?Ep, ?Es; done.
Qed.

Lemma wf_with_jrs rows d :
  wf_db d → NoDup (jw_id <$> rows) → no_clash rows → wf_db (with_jrs rows d).
Proof. intros [] H1 H2. by destruct d; split. Qed.

Lemma wf_saveJoinRequest jr d : wf_db d → wf_db (saveJoinRequest jr d).2.
Proof.
  intros W. unfold saveJoinRequest. set (new := jr_cols d jr).
  destruct (first (is_id jw_id (jw_id new)) (db_jrs d)) as [old|] eqn:Hold.
  - destruct (existsb _ _) eqn:He; [done|].
    apply wf_with_jrs; [done| |eapply no_clash_set; [apply W..|exact Hold|done]].
    rewrite update_keys by done. apply W.
  - destruct (existsb (clashes new) _) eqn:He; [done|]. destruct (negb _); [done|]. cbn [orb snd].
    apply first_id_None in Hold.
    apply wf_with_jrs; [done| |by apply no_clash_add; [apply W|]].
    rewrite fmap_app. apply NoDup_app. split_and!; [apply W| |apply NoDup_singleton].
    intros x Hx ->%list_elem_of_singleton. by apply Hold.
Qed.

(** ** Proposals and their signatures *)
Definition add_signature_row (rows : list signature_row) (r : signature_row)
    : list signature_row :=
  if existsb (same_signer r) rows then rows else rows ++ [r].

Lemma for_each_signatures {A} (f : A → signature_row) (l : list A) d :
  for_each l (λ s, insert_signature (f s)) d
  = (Ok tt, with_signatures (foldl add_signature_row (db_signatures d) (f <$> l)) d).
Proof.
  revert d. induction l as [|s l IH]; intros d; cbn [for_each fmap list_fmap foldl];
    [by destruct d|].
  unfold mbind, St_bind. cbn. rewrite IH. unfold add_signature_row.
  destruct (existsb _ _); destruct d; done.
Qed.

Lemma add_signature_row_nodup rows r :
  NoDup (signer_key <$> rows) → NoDup (signer_key <$> add_signature_row rows r).
Proof.
  intros H. unfold add_signature_row. destruct (existsb _ _) eqn:E; [done|].
  rewrite fmap_app. apply NoDup_app. split_and!; [done| |apply NoDup_singleton].
  intros k Hk ->%list_elem_of_singleton. apply list_elem_of_fmap in Hk as (r' & Hk & Hr').
  pose proof (existsb_false _ _ _ E Hr') as Hs. unfold same_signer, is_id, is_str in Hs.
  injection Hk as E1 E2. rewrite !bool_decide_eq_true_2 in Hs by done. done.
Qed.

Lemma add_signature_row_prefix rows r : rows `prefix_of` add_signature_row rows r.
Proof. unfold add_signature_row. case_match; [done|by apply prefix_app_r]. Qed.

Lemma fold_signatures rows rs :
  (NoDup (signer_key <$> rows) → NoDup (signer_key <$> foldl add_signature_row rows rs)) ∧
  rows `prefix_of` foldl add_signature_row rows rs.
Proof.
  revert rows. induction rs as [|r rs IH]; intros rows; cbn; [done|].
  destruct (IH (add_signature_row rows r)) as [H1 H2]. split.
  - intros H. by apply H1, add_signature_row_nodup.
  - etrans; [apply add_signature_row_prefix|done].
Qed.

Lemma upsert_frames new :
  frames (λ d, (db_launches d, db_jrs d, db_signatures d)) (upsert_proposal new).
Proof. unfold upsert_proposal. frame_tac. Qed.

Lemma db_proposals_with x d : db_proposals (with_proposals x d) = x.
Proof. by destruct d. Qed.

Lemma upsert_ids new d :
  NoDup (pw_id <$> db_proposals d) → NoDup (pw_id <$> db_proposals (upsert_proposal new d).2).
Proof.
  intros H. unfold upsert_proposal.
  destruct (existsb _ _) eqn:E; [|destruct (negb _); [done|]]; cbn [snd];
    rewrite db_proposals_with.
  - by rewrite update_keys.
  - rewrite fmap_app. apply NoDup_app. split_and!; [done| |apply NoDup_singleton].
    intros x Hx ->%list_elem_of_singleton. apply not_true_iff_false in E.
    by apply E, existsb_id.
Qed.

Lemma saveProposal_spec p d :
  let new := proposal_cols p in
  saveProposal p d =
    match upsert_proposal new d with
    | (Ok _, d1) => (Ok tt, with_signatures (foldl add_signature_row (db_signatures d1)
        (signature_cols (proposal.p_ID p) <$> proposal.p_Signatures p)) d1)
    | (Err e, d1) => (Err e, d1)
    end.
Proof.
  cbn. unfold saveProposal. unfold mbind at 1, St_bind at 1.
  destruct (upsert_proposal _ d) as [[[]|e] d1]; [|done]. apply for_each_signatures.
Qed.

Lemma wf_saveProposal p d : wf_db d → wf_db (saveProposal p d).2.
Proof.
  intros [Wl Wj Wc Wp Ws]. rewrite saveProposal_spec.
  pose proof (upsert_frames (proposal_cols p) d) as Hf. cbn in Hf.
  pose proof (upsert_ids (proposal_cols p) d Wp) as Hp.
  destruct (upsert_proposal _ d) as [[[]|e] d1]; cbn in *; injection Hf as El Ej Es;
    destruct d1; cbn in *; split; unfold unique_launches in *; cbn; try congruence;
    subst; try done.
  by apply fold_signatures.
Qed.

Lemma wf_repo_write d d' : wf_db d → repo_write d d' → wf_db d'.
Proof.
  intros W [].
  - by apply wf_saveLaunch.
  - by apply wf_saveJoinRequest.
  - by apply wf_saveProposal.
  - unfold expireAllPending, exec; cbn [snd]. destruct W. split.
    4: by rewrite db_proposals_with, update_keys. all: by destruct d.
  - eapply wf_core; [|exact W]. unfold saveReadiness. destruct d; cbn. by repeat case_match.
  - eapply wf_core; [|exact W]. by destruct d.
  - eapply wf_core; [|exact W]. unfold consumeNonce. destruct d; cbn. by repeat case_match.
  - eapply wf_core; [|exact W]. unfold saveResult. destruct d; cbn. by repeat case_match.
  - eapply wf_core; [|exact W]. unfold getOrCreateAttempt. destruct d; cbn. by repeat case_match.
  - eapply wf_core; [|exact W]. by destruct d.
Qed.

Lemma wf_empty : wf_db empty_db.
Proof.
  split; try apply NoDup_nil_2. intros r r' H. by apply elem_of_nil in H.
Qed.

Lemma repo_write_signatures d d' :
  repo_write d d' → db_signatures d `prefix_of` db_signatures d'.
Proof.
  intros [].
  - pose proof (saveLaunch_frames l d) as H. unfold other_tables in H.
    injection H as _ _ -> _ _ _. done.
  - unfold saveJoinRequest. destruct d; cbn. by repeat case_match.
  - rewrite saveProposal_spec. pose proof (upsert_frames (proposal_cols p) d) as Hf. cbn in Hf.
    destruct (upsert_proposal _ d) as [[[]|e] d1]; cbn in *; injection Hf as _ _ <-; [|done].
    destruct d1; cbn. apply fold_signatures.
  - by destruct d.
  - unfold saveReadiness. destruct d; cbn. by repeat case_match.
  - by destruct d.
  - unfold consumeNonce. destruct d; cbn. by repeat case_match.
  - unfold saveResult. destruct d; cbn. by repeat case_match.
  - unfold getOrCreateAttempt. destruct d; cbn. by repeat case_match.
  - by destruct d.
Qed.

Lemma history_signatures d d' :
  history d d' → db_signatures d `prefix_of` db_signatures d'.
Proof.
  induction 1 as [|d d1 d' H _ IH]; [done|].
  etrans; [by apply repo_write_signatures|done].
Qed.

Lemma history_wf d0 d : history d0 d → wf_db d0 → wf_db d.
Proof. unfold history. induction 1; [done|]. eauto using wf_repo_write. Qed.

(** C31. Whatever sequence of repository writes produced the database, also
    failed ones, identifiers are unique, no two active join requests of a
    launch share a validator or a consensus key, and a member has at most one
    signature per proposal; and the stored signatures are append-only: no later
    write removes, changes or reorders one. *)
Theorem history_invariant d :
  history empty_db d →
  wf_db d ∧ ∀ d', history d d' → db_signatures d `prefix_of` db_signatures d'.
Proof.
  intros H. split; [|apply history_signatures].
  eapply history_wf; [exact H|apply wf_empty].
Qed.

(** ** Nonces *)
Definition nonce_known (a n : string) (d : db) : Prop :=
  ∃ r, r ∈ db_nonces d ∧ nw_operator_address r = a ∧ nw_nonce r = n.

Lemma known_conflict now now' a n d :
  nonce_known a n d → consumeNonce now now' a n d = (Err [ErrConflict], d).
Proof.
  intros (r & Hr & <- & <-). unfold consumeNonce. destruct (existsb _ _) eqn:E; [done|].
  pose proof (existsb_false _ _ _ E Hr) as Hn. unfold nonce_is, is_str in Hn.
  by rewrite !bool_decide_eq_true_2 in Hn.
Qed.

(** The row a [Consume] at [now] stores survives a clean-up in any second
    before that of its expiry. *)
Definition remembered (a n : string) (T : time.Time) (d : db) : Prop :=
  mkNonceRow a n (timeToStr T) ∈ db_nonces d.

Definition clears_before (T now' : time.Time) : Prop :=
  timetext.storable now' ∧ now' / time.Second < T / time.Second.

Lemma survives T now' :
  timetext.storable T → clears_before T now' →
  strings.ltb (timeToStr T) (timeToStr now') = false.
Proof.
  intros HT [Hs Hlt]. destruct (strings.ltb _ _) eqn:E; [|done].
  apply timetext.text_lt_second in E; [lia|done|done].
Qed.

Lemma consume_keeps a n T u u' b m d :
  timetext.storable T → clears_before T u' → remembered a n T d →
  remembered a n T (consumeNonce u u' b m d).2.
Proof.
  intros HT Hc Hr. unfold remembered, consumeNonce in *.
  destruct (existsb _ _); [done|]. cbn [snd]. destruct d; cbn [db_nonces with_nonces].
  unfold remove. apply list_elem_of_In, filter_In. split.
  - apply list_elem_of_In, elem_of_app. by left.
  - cbn [nw_expires_at]. by rewrite survives.
Qed.

Lemma consume_remembers a n now now' d :
  timetext.storable (now + nonceTTL) → clears_before (now + nonceTTL) now' →
  (consumeNonce now now' a n d).1 = Ok tt →
  remembered a n (now + nonceTTL) (consumeNonce now now' a n d).2.
Proof.
  intros HT Hc Hok. unfold remembered, consumeNonce in *.
  destruct (existsb _ _); [done|]. cbn [snd]. destruct d; cbn [db_nonces with_nonces].
  unfold remove. apply list_elem_of_In, filter_In. split.
  - apply list_elem_of_In, elem_of_app. right. by left.
  - cbn [nw_expires_at]. unfold time.Add. by rewrite survives.
Qed.

(** Writes whose nonce clean-ups, if any, read the clock before [T]'s second. *)
Inductive write_before (T : time.Time) (d : db) : db → Prop :=
  | wb_nonce u u' b m : clears_before T u' → write_before T d (consumeNonce u u' b m d).2
  | wb_other d' : repo_write d d' → db_nonces d' = db_nonces d → write_before T d d'.

Lemma remembered_until a n T d d' :
  timetext.storable T → rtc (write_before T) d d' → remembered a n T d → remembered a n T d'.
Proof.
  intros HT. induction 1 as [|d d1 d' [u u' b m Hc|? _ E] _ IH]; [done|..]; intros Hr.
  - apply IH. by apply consume_keeps.
  - apply IH. unfold remembered in *. by rewrite E.
Qed.

Lemma remembered_known a n T d : remembered a n T d → nonce_known a n d.
Proof. intros H. by eexists. Qed.

End guarantees.

(** ** Witnesses *)
Module store_samples.
Import fixtures.

(** The sample draft, stored once. *)
Definition db1 : db := (saveLaunch (B32 := toy_bech32) draft empty_db).2.

Lemma db1_history : history (B32 := toy_bech32) empty_db db1.
Proof. apply rtc_once. apply wr_launch. Defined.

Lemma history_invariant_witness : wf_db db1.
Proof. apply (history_invariant (B32 := toy_bech32)), db1_history. Defined.

(** Two copies of the loaded draft: the second writer is refused. *)
Lemma no_lost_update_witness :
  saveLaunch (B32 := toy_bech32) draft (saveLaunch (B32 := toy_bech32) draft db1).2
  = (Err [ErrConflict], (saveLaunch (B32 := toy_bech32) draft db1).2).
Proof.
  destruct (no_lost_update (B32 := toy_bech32) db1 draft draft) as (_ & _ & H).
  - apply (NoDup_singleton 1%N).
  - reflexivity.
  - reflexivity.
  - by eexists.
  - vm_compute. reflexivity.
  - exact H.
Defined.

End store_samples.
