(* ===== verification/Codec.v ===== *)
(** * The address codec on accounts

    Repositories write account addresses under a launch's prefix and parse them
    back ([underPrefix], [NewAccountID]).  The bech32 package is a parameter;
    this file states what it must satisfy for the two to be inverse, and gives
    a codec that does, with which samples are evaluated. *)

From S2P Require Import Prelude GoStd GoTime GoFloat Values Store.
Import sqlite.
#[global] Open Scope Z_scope.

(** A lower-case human-readable part (BIP 173). *)
Definition hrp_char (c : ascii) : bool :=
  let n := nat_of_ascii c in
  (33 <=? n)%nat && (n <=? 126)%nat && negb ((65 <=? n)%nat && (n <=? 90)%nat).
Definition lower_hrp (p : string) : bool := negb (is_empty p) && forallb hrp_char (chars p).

(** An account prefix: not the one of an operator or consensus address. *)
Definition account_prefix (p : string) : bool :=
  lower_hrp p && negb (strings.HasSuffix p "valoper" || strings.HasSuffix p "valcons").

(** Account bytes that fit, with the prefix, the 1023 characters read back. *)
Definition account_fits (p : string) (b : bytes) : Prop :=
  (String.length p + 2 * String.length b ≤ 1000)%nat.

(** The codec's documented inverse: regrouping account bytes and encoding
    them under a lower-case part is undone by decoding and regrouping; and a
    decoded human-readable part is in lower case. *)
Class Bech32Correct `{B32 : Bech32} : Prop := {
  encode_decode p b : lower_hrp p = true → account_fits p b →
    ∃ d s, bech32_ConvertBits b 8 5 true = Ok d ∧ bech32_Encode p d = Ok s ∧
      bech32_Decode s 1023 = Ok (p, d) ∧ bech32_ConvertBits d 5 8 false = Ok b ∧
      strings.TrimSpace s = s ∧ s ≠ "";
  decode_lower s n p d : bech32_Decode s n = Ok (p, d) →
    lower_hrp p = true ∧ (String.length p ≤ String.length s)%nat }.

Section codec.
#[local] Set Default Proof Using "Type*".
Context `{B32 : Bech32} {BC : Bech32Correct}.

(** An account whose hexadecimal key is one, of a size the codec carries. *)
Definition storable_account (p : string) (a : AccountID) : Prop :=
  ∃ b, acct a = hex.EncodeToString b ∧ account_fits p b.

(** The account as it is read back from a row written under [p]. *)
Definition redisplay (p : string) (a : AccountID) : AccountID :=
  mkAccountID (acct a) (underPrefix a p).

Lemma account_prefix_spec p :
  account_prefix p = true →
  lower_hrp p = true ∧ is_empty p = false ∧
  strings.HasSuffix p "valoper" || strings.HasSuffix p "valcons" = false.
Proof.
  unfold account_prefix, lower_hrp. intros [[Hne Hf]%andb_prop Hs%negb_true_iff]%andb_prop.
  split_and!; [by rewrite Hne, Hf|by apply negb_true_iff|done].
Qed.

Lemma NewAccountID_underPrefix p a :
  account_prefix p = true → storable_account p a →
  NewAccountID (underPrefix a p) = Ok (redisplay p a).
Proof.
  intros (Hl & Hne & Hsuf)%account_prefix_spec (b & Hb & Hfit).
  destruct (encode_decode p b Hl Hfit) as (d & s & Hc & He & Hd & Hc' & Ht & Hs).
  assert (underPrefix a p = s) as Hu.
  { unfold underPrefix, account_Bech32. rewrite Hne, Hb, hex.Decode_Encode. cbn.
    rewrite Hc. cbn. by rewrite He. }
  unfold redisplay. rewrite Hu. unfold NewAccountID. rewrite Ht.
  destruct (is_empty s) eqn:E; [by destruct s|].
  rewrite Hd, Hne, Hsuf, Hc'. by rewrite Hb.
Qed.

(** Only the account decides what is stored. *)
Lemma underPrefix_acct p a a' :
  account_prefix p = true → storable_account p a → acct a' = acct a →
  underPrefix a' p = underPrefix a p.
Proof.
  intros (Hl & Hne & _)%account_prefix_spec (b & Hb & Hfit) Heq.
  destruct (encode_decode p b Hl Hfit) as (d & s & Hc & He & _).
  unfold underPrefix, account_Bech32. rewrite Hne, Heq, Hb, hex.Decode_Encode. cbn.
  rewrite Hc. cbn. by rewrite He.
Qed.

Lemma redisplay_twice p a :
  account_prefix p = true → storable_account p a →
  redisplay p (redisplay p a) = redisplay p a.
Proof. intros Hp Ha. unfold redisplay. f_equal. by apply underPrefix_acct. Qed.

End codec.


(** ** A codec with this property

    Eight-to-five regrouping is replaced by the letters of a hexadecimal text,
    and there is no checksum; the shape is [<part>1<letters>], split at the
    last [1] as in bech32. *)
Module letters.

Definition letter (c : ascii) : ascii :=
  let n := nat_of_ascii c in if (n <=? 57)%nat then ascii_of_nat (n + 55) else c.
Definition unletter (c : ascii) : ascii :=
  let n := nat_of_ascii c in if (103 <=? n)%nat then ascii_of_nat (n - 55) else c.
Definition one : ascii := ascii_of_nat 49.

Definition convert (b : bytes) (from to : Z) (pad : bool) : result bytes :=
  if from =? 8 then Ok (hex.EncodeToString b) else hex.DecodeString b.
Definition encode (hrp : string) (d : bytes) : result string :=
  Ok (of_chars (chars hrp ++ one :: map letter (chars d))).
Definition decode (s : string) (limit : Z) : result (string * bytes) :=
  if limit <? Z.of_nat (String.length s) then Err errorf
  else match net.last_index 49 (chars s) with
       | None => Err errorf
       | Some i =>
           let hrp := of_chars (take i (chars s)) in
           if negb (lower_hrp hrp) then Err errorf
           else Ok (hrp, of_chars (map unletter (drop (S i) (chars s))))
       end.

Definition codec : Bech32 := {|
  bech32_Decode := decode; bech32_ConvertBits := convert; bech32_Encode := encode |}.

(** Printable characters are not trimmed. *)
Definition printable (c : ascii) : bool :=
  (33 <=? nat_of_ascii c)%nat && (nat_of_ascii c <=? 126)%nat.

Definition starts_printable (l : list ascii) : bool :=
  match l with c :: _ => printable c | [] => false end.

Definition unprintable_start (l : list ascii) : bool :=
  match l with c :: _ => negb (printable c) | [] => false end.

Lemma strip_any_printable ps l :
  forallb unprintable_start ps = true →
  starts_printable l = true → strings.strip_any ps l = None.
Proof.
  intros Hps Hl. induction ps as [|p ps IH]; [done|]. cbn in Hps |- *.
  apply andb_prop in Hps as [Hp Hps].
  destruct l as [|c l]; [done|]. destruct p as [|b p]; [done|]. cbn.
  destruct (ascii_dec b c) as [->|_]; [|by apply IH].
  cbn in Hp, Hl. by rewrite Hl in Hp.
Qed.

Lemma TrimSpace_printable s :
  starts_printable (chars s) = true → starts_printable (rev (chars s)) = true →
  strings.TrimSpace s = s.
Proof.
  intros Hl Hr. unfold strings.TrimSpace.
  assert (∀ n ps l, forallb unprintable_start ps = true →
            starts_printable l = true → strings.trim_left n ps l = l) as Htrim.
  { intros [|n] ps l Hps Hsl; [done|]. cbn. by rewrite strip_any_printable. }
  rewrite (Htrim _ strings.spaces) by done.
  rewrite (Htrim _ (map (@rev ascii) strings.spaces)) by done.
  rewrite rev_involutive. apply String.string_of_list_ascii_of_string.
Qed.

Lemma letter_facts c :
  hex.is_lower_digit c = true →
  unletter (letter c) = c ∧ printable (letter c) = true ∧ net.is_char 49 (letter c) = false.
Proof.
  destruct c as [[] [] [] [] [] [] [] []]; vm_compute; intros; try discriminate; auto.
Qed.

Lemma find_index_app_false {A} (f : A → bool) (l r : list A) :
  forallb (λ c, negb (f c)) l = true →
  find_index f (l ++ r) = Nat.add (length l) <$> find_index f r.
Proof.
  induction l as [|c l IH]; cbn; [by destruct (find_index f r)|].
  intros [Hc%negb_true_iff Hl]%andb_prop. rewrite Hc, IH by done.
  by destruct (find_index f r).
Qed.

Lemma last_index_one h t :
  forallb (λ c, negb (net.is_char 49 c)) t = true →
  net.last_index 49 (h ++ one :: t) = Some (length h).
Proof.
  intros Ht. unfold net.last_index. rewrite rev_app_distr. cbn [rev]. rewrite <- app_assoc.
  rewrite find_index_app_false.
  - change (find_index (net.is_char 49) ([one] ++ rev h)) with (Some 0%nat).
    rewrite length_app, length_rev. cbn -[Nat.sub Nat.add].
    rewrite Nat.add_0_r. f_equal. lia.
  - rewrite forallb_forall in Ht |- *. intros c Hc. apply Ht. by rewrite in_rev.
Qed.

Lemma letters_facts l :
  forallb hex.is_lower_digit l = true →
  map unletter (map letter l) = l ∧ forallb printable (map letter l) = true ∧
  forallb (λ c, negb (net.is_char 49 c)) (map letter l) = true.
Proof.
  induction l as [|c l IH]; cbn; [done|]. intros [Hc Hl]%andb_prop.
  destruct (letter_facts c Hc) as (-> & -> & ->). destruct (IH Hl) as (-> & -> & ->). done.
Qed.

Lemma starts_printable_rev l c r :
  forallb printable r = true → printable c = true → starts_printable (rev (l ++ c :: r)) = true.
Proof.
  intros Hr Hc. rewrite rev_app_distr. cbn [rev].
  destruct (rev r) as [|x xs] eqn:E; cbn; [done|].
  rewrite forallb_forall in Hr. apply Hr, in_rev. rewrite E. by left.
Qed.

Lemma chars_length s : length (chars s) = String.length s.
Proof. induction s as [|c s IH]; cbn; [done|by rewrite IH]. Qed.

#[export] Instance codec_correct : Bech32Correct (B32 := codec).
Proof.
  split.
  2: { intros s n p d. cbn. unfold decode. destruct (n <? _); [done|].
       destruct (net.last_index 49 (chars s)) as [i|]; [|done]. cbv zeta.
       destruct (lower_hrp _) eqn:E; [|done]. intros [= <- _]. split; [done|].
       rewrite <- !chars_length, String.list_ascii_of_string_of_list_ascii, length_take. lia. }
  intros p b [Hne Hp]%andb_prop Hfit.
  pose proof (hex.encode_chars_lower (chars b)) as Hlow.
  destruct (letters_facts _ Hlow) as (Hun & Hpr & Hno).
  assert (chars (hex.EncodeToString b) = hex.encode_chars (chars b)) as Hd
    by apply String.list_ascii_of_string_of_list_ascii.
  set (l := chars p ++ one :: map letter (hex.encode_chars (chars b))).
  assert (chars (of_chars l) = l) as Hl by apply String.list_ascii_of_string_of_list_ascii.
  exists (hex.EncodeToString b), (of_chars l). cbn [codec bech32_ConvertBits bech32_Encode bech32_Decode].
  unfold encode. rewrite Hd. fold l. split_and!; [done..| | | |].
  - unfold decode. rewrite Hl. replace (1023 <? Z.of_nat (String.length (of_chars l))) with false.
    2: { symmetry. apply Z.ltb_ge. rewrite <- chars_length, Hl. unfold l, account_fits in *.
         rewrite <- !chars_length in Hfit. rewrite length_app. cbn [length].
         rewrite length_map, hex.encode_chars_length. lia. }
    unfold l. rewrite last_index_one by done.
    rewrite take_app_length, String.string_of_list_ascii_of_string. cbv zeta.
    unfold lower_hrp at 1. rewrite Hne, Hp. cbn [andb negb].
    rewrite <- (Nat.add_1_r (length (chars p))), drop_app_add. cbn [drop].
    by rewrite drop_0, Hun.
  - apply hex.Decode_Encode.
  - apply TrimSpace_printable; rewrite Hl.
    + unfold l. destruct (chars p) as [|c cs] eqn:E; [by destruct p|]. cbn in Hp |- *.
      apply andb_prop in Hp as [Hc _]. by apply andb_prop in Hc as [Hc _].
    + by apply starts_printable_rev.
  - intros E. assert (chars (of_chars l) = []) as E' by by rewrite E. rewrite Hl in E'.
    unfold l in E'. by destruct (chars p).
Qed.

End letters.
