(* ===== verification/StoreRoundtrip.v ===== *)
(** * A stored launch reads back

    What [LaunchRepository.Save] writes for a launch, [FindByID] reads back:
    the same aggregate under the next version, with every address shown under
    the launch's own prefix and the committed voting power taken from the
    approved join requests; and the membership query behind the launch list
    agrees with [IsVisibleTo].  The address codec is required to decode what it
    encodes under a lower-case human-readable part ([Bech32Correct]). *)

From S2P Require Import Prelude GoStd GoTime TimeProps GoFloat Values LaunchAgg Fixtures Json.
From S2P Require Import Payload Proposal JoinRequest Rehearsal Store StoreProps Codec.
Import sqlite.
#[global] Open Scope Z_scope.

(** ** Statements that replace the rows of one launch *)

(** A loop of guarded inserts that succeeds has appended every row. *)
Lemma for_each_inserts {X R} (get : db → list R) (put : list R → db → db) (row : X → R)
    (taken : R → list R → bool) (ins : X → St unit) (xs : list X) d :
  (∀ rows d, get (put rows d) = rows) → (∀ rows rows' d, put rows (put rows' d) = put rows d) →
  (∀ d, put (get d) d = d) →
  (∀ x d, ins x d = if taken (row x) (get d) then (Err errorf, d)
                    else (Ok tt, put (get d ++ [row x]) d)) →
  (for_each xs ins d).1 = Ok tt →
  for_each xs ins d = (Ok tt, put (get d ++ (row <$> xs)) d).
Proof.
  intros Hget Hput Hid Hins. revert d.
  induction xs as [|x xs IH]; intros d; cbn [for_each fmap list_fmap].
  - intros _. by rewrite app_nil_r, Hid.
  - unfold mbind, St_bind. rewrite Hins.
    destruct (taken (row x) (get d)); [done|]. intros H.
    rewrite IH by done. rewrite Hget, Hput, <- app_assoc. done.
Qed.

Lemma filter_own {A} (f : A → uuid) i (old new : list A) :
  Forall (λ x, f x = i) new →
  List.filter (is_id f i) (remove (is_id f i) old ++ new) = new.
Proof.
  intros Hnew. rewrite List.filter_app.
  replace (List.filter (is_id f i) (remove (is_id f i) old)) with (@nil A).
  - cbn. induction Hnew as [|x l Hx _ IH]; [done|]. cbn. unfold is_id at 1.
    by rewrite bool_decide_eq_true_2, IH.
  - unfold remove. induction old as [|x l IH]; [done|]. cbn.
    destruct (is_id f i x) eqn:E; cbn; [done|]. by rewrite E.
Qed.

Lemma scan_rows_fmap {X R A} (row : X → R) (scan : R → result A) (g : X → A) (xs : list X) :
  Forall (λ x, scan (row x) = Ok (g x)) xs → scan_rows scan (row <$> xs) = Ok (g <$> xs).
Proof. induction 1 as [|x xs Hx _ IH]; [done|]. cbn. by rewrite Hx, IH. Qed.

(** Sorting commutes with a map that keeps the keys. *)
Section sorting.
Context {A B : Type} (f : A → B) (ka : A → string) (kb : B → string).
Context (Hk : ∀ x, kb (f x) = ka x).
#[local] Set Default Proof Using "Type*".

Lemma list_merge_fmap l1 : ∀ l2,
  list_merge (asc kb) (f <$> l1) (f <$> l2) = f <$> list_merge (asc ka) l1 l2.
Proof.
  induction l1 as [|x l1 IH1]; intros l2; [by destruct l2|].
  induction l2 as [|y l2 IH2]; [done|]. cbn.
  rewrite !(decide_ext (asc kb (f x) (f y)) (asc ka x y)) by (unfold asc; by rewrite !Hk).
  destruct (decide (asc ka x y)); cbn.
  - f_equal. apply (IH1 (y :: l2)).
  - f_equal. exact IH2.
Qed.

Definition fmap_stack (st : list (option (list A))) : list (option (list B)) :=
  List.map (option_map (List.map f)) st.

Lemma merge_list_to_stack_fmap (st : list (option (list A))) (l : list A) :
  merge_list_to_stack (asc kb) (fmap_stack st) (f <$> l)
  = fmap_stack (merge_list_to_stack (asc ka) st l).
Proof.
  revert l. induction st as [|[l'|] st IH]; intros l; [done| |done].
  change (None :: merge_list_to_stack (asc kb) (fmap_stack st)
                    (list_merge (asc kb) (f <$> l') (f <$> l))
          = None :: fmap_stack (merge_list_to_stack (asc ka) st (list_merge (asc ka) l' l))).
  by rewrite <- IH, list_merge_fmap.
Qed.

Lemma merge_stack_fmap (st : list (option (list A))) :
  merge_stack (asc kb) (fmap_stack st) = f <$> merge_stack (asc ka) st.
Proof.
  induction st as [|[l|] st IH]; [done| |exact IH].
  change (list_merge (asc kb) (f <$> l) (merge_stack (asc kb) (fmap_stack st))
          = f <$> list_merge (asc ka) l (merge_stack (asc ka) st)).
  by rewrite IH, list_merge_fmap.
Qed.

Lemma order_by_fmap l : order_by kb (f <$> l) = f <$> order_by ka l.
Proof.
  unfold order_by, merge_sort.
  enough (∀ st, merge_sort_aux (asc kb) (fmap_stack st) (f <$> l)
                = f <$> merge_sort_aux (asc ka) st l) as H by apply (H []).
  induction l as [|x l IH]; intros st; cbn; [apply merge_stack_fmap|].
  rewrite <- IH. f_equal. apply (merge_list_to_stack_fmap st [x]).
Qed.

End sorting.

Section round_trip.
Context `{B32 : Bech32} {BC : Bech32Correct} `{NU : NetURL} `{UT : UUIDText}.
#[local] Set Default Proof Using "Type*".
Implicit Types (l : launch.Launch) (d : db).

Definition prefix_of l : string := launch.r_Bech32Prefix (launch.l_Record l).

(** ** The tables after a save *)
Definition committee_row_of l : committee_row :=
  let c := launch.l_Committee l in
  mkCommitteeRow (launch.c_ID c) (launch.l_ID l) (launch.c_ThresholdM c) (launch.c_TotalN c)
    (underPrefix (launch.c_LeadAddress c) (prefix_of l)) (timeToStr (launch.c_CreatedAt c)).

(** [d1] is [d] with the committee of [l] saved, with its members list saved. *)
Definition committee_saved l d d1 : Prop :=
  let c := launch.l_Committee l in
  db_committees d1
  = remove (is_id co_id (launch.c_ID c)) (db_committees d) ++ [committee_row_of l] ∧
  db_members d1
  = remove (is_id me_committee_id (launch.c_ID c)) (db_members d) ++ member_rows c (prefix_of l).
Definition allowlist_saved l d d1 : Prop :=
  db_allowlist d1
  = remove (is_id aw_launch_id (launch.l_ID l)) (db_allowlist d)
    ++ (allow_row l <$> al_Members (launch.l_Allowlist l)).

Definition saved_tables l d : db :=
  let c := launch.l_Committee l in
  with_allocs (remove (is_id fr_launch_id (launch.l_ID l)) (db_allocs d)
               ++ (alloc_row_of l <$> launch.l_AllocationFiles l))
  (with_allowlist (remove (is_id aw_launch_id (launch.l_ID l)) (db_allowlist d)
                   ++ (allow_row l <$> al_Members (launch.l_Allowlist l)))
  (with_members (remove (is_id me_committee_id (launch.c_ID c)) (db_members d)
                 ++ member_rows c (prefix_of l))
  (with_committees (remove (is_id co_id (launch.c_ID c)) (db_committees d)
                    ++ [committee_row_of l]) d))).

Lemma saveAllowlist_Ok l d :
  (saveAllowlist l d).1 = Ok tt →
  saveAllowlist l d = (Ok tt, with_allowlist
    (remove (is_id aw_launch_id (launch.l_ID l)) (db_allowlist d)
     ++ (allow_row l <$> al_Members (launch.l_Allowlist l))) d).
Proof using Type.
  unfold saveAllowlist, mbind, St_bind, exec. intros H.
  rewrite (for_each_inserts db_allowlist with_allowlist (allow_row l)
    (λ r, existsb (λ r', is_id aw_launch_id (launch.l_ID l) r'
                         && is_str aw_address (aw_address r) r'))) by (done || by intros; destruct d0).
  by destruct d.
Qed.

Lemma saveAllocationFiles_Ok l d :
  (saveAllocationFiles l d).1 = Ok tt →
  saveAllocationFiles l d = (Ok tt, with_allocs
    (remove (is_id fr_launch_id (launch.l_ID l)) (db_allocs d)
     ++ (alloc_row_of l <$> launch.l_AllocationFiles l)) d).
Proof using Type.
  unfold saveAllocationFiles, mbind, St_bind, exec. intros H.
  rewrite (for_each_inserts db_allocs with_allocs (alloc_row_of l)
    (λ r, existsb (λ r', is_id fr_launch_id (launch.l_ID l) r'
                         && bool_decide (fr_alloc_type r' = fr_alloc_type r)))) by (done || by intros; destruct d0).
  by destruct d.
Qed.

Lemma save_rest_Ok l d :
  (save_rest l d).1 = Ok tt → save_rest l d = (Ok tt, saved_tables l d).
Proof using Type.
  unfold save_rest, saveCommittee, mbind, St_bind, exec at 1 2 3. cbn -[saveAllowlist saveAllocationFiles].
  set (d1 := with_members _ _). destruct (saveAllowlist l d1) as [[[]|e] d2] eqn:E2; [|done].
  pose proof (saveAllowlist_Ok l d1) as H2. rewrite E2 in H2. specialize (H2 eq_refl).
  injection H2 as ->. intros H3. rewrite (saveAllocationFiles_Ok l _ H3).
  unfold d1, saved_tables. by destruct d.
Qed.

(** ** What is read back *)

Definition redisplay_member (p : string) (m : launch.CommitteeMember) : launch.CommitteeMember :=
  launch.mkCM (redisplay p (launch.cm_Address m)) (launch.cm_Moniker m).

Definition redisplay_committee (p : string) (c : launch.Committee) : launch.Committee :=
  launch.mkCommittee (launch.c_ID c) (redisplay_member p <$> launch.c_Members c)
    (launch.c_ThresholdM c) (launch.c_TotalN c) (redisplay p (launch.c_LeadAddress c))
    (launch.c_CreatedAt c).

(** The map from account keys keeps its keys; an unknown instant stays so. *)
Definition redisplay_meta (p k : string) (m : memberMeta) : memberMeta :=
  mkMeta (underPrefix (mkAccountID k (mm_display m)) p) (mm_label m) (mm_addedBy m)
         (mm_addedAt m).
Definition redisplay_allowlist (p : string) (al : Allowlist) : Allowlist :=
  map_imap (λ k m, Some (redisplay_meta p k m)) al.

(** The launch [FindByID] returns after [Save], with the version and the
    voting power the tables hold. *)
Definition stored_form l (version : Z) (power : gmap string Z) : launch.Launch :=
  launch.mkLaunch (launch.l_ID l) (launch.l_Record l) (launch.l_LaunchType l)
    (redisplay_allowlist (prefix_of l) (launch.l_Allowlist l)) (launch.l_Status l)
    (redisplay_committee (prefix_of l) (launch.l_Committee l))
    (launch.l_InitialGenesisSHA256 l) (launch.l_FinalGenesisSHA256 l)
    (launch.l_FinalGenesisInputSetHash l)
    (order_by (λ f, launch.AllocationType_String (launch.af_Type f))
       (launch.l_AllocationFiles l))
    (launch.l_MonitorRPCURL l) (launch.l_RehearsalServicePubKey l)
    (launch.l_RehearsalEndpoint l) (launch.l_CreatedAt l) (launch.l_UpdatedAt l)
    version power.

Definition added_at_ok (t : time.Time) : Prop := t = time.zeroTime ∨ timetext.storable t.

(** What a launch must satisfy to be written without loss: an account prefix,
    accounts of a size the codec carries, instants RFC 3339 can write, and
    rates that are what their text says. *)
Record storable_launch l : Prop := {
  sl_prefix : account_prefix (prefix_of l) = true;
  sl_lead : storable_account (prefix_of l) (launch.c_LeadAddress (launch.l_Committee l));
  sl_members : Forall (λ m, storable_account (prefix_of l) (launch.cm_Address m))
                 (launch.c_Members (launch.l_Committee l));
  sl_allowlist : map_Forall (λ k m, storable_account (prefix_of l) (mkAccountID k (mm_display m)) ∧
                                    added_at_ok (mm_addedAt m)) (launch.l_Allowlist l);
  sl_files : Forall (λ f, timetext.storable (launch.af_UploadedAt f)) (launch.l_AllocationFiles l);
  sl_genesis_time : ∀ t, launch.r_GenesisTime (launch.l_Record l) = Some t → timetext.storable t;
  sl_times : Forall timetext.storable
    [launch.r_GentxDeadline (launch.l_Record l); launch.l_CreatedAt l; launch.l_UpdatedAt l;
     launch.c_CreatedAt (launch.l_Committee l)];
  sl_rate : NewCommissionRate (cr_value (launch.r_MaxCommissionRate (launch.l_Record l)))
            = Ok (launch.r_MaxCommissionRate (launch.l_Record l));
  sl_change_rate :
    NewCommissionRate (cr_value (launch.r_MaxCommissionChangeRate (launch.l_Record l)))
    = Ok (launch.r_MaxCommissionChangeRate (launch.l_Record l)) }.

(** No other committee row claims the launch. *)
Definition own_committee l d : Prop :=
  ∀ c, c ∈ db_committees d → co_launch_id c = launch.l_ID l →
       co_id c = launch.c_ID (launch.l_Committee l).

(** ** Reading the tables of [saved_tables] *)

Lemma scan_launch l v :
  storable_launch l →
  scanLaunchCols (launch_cols l (timeToStr (launch.l_CreatedAt l)) v)
  = Ok (launch.mkLaunch (launch.l_ID l) (launch.l_Record l) (launch.l_LaunchType l) ∅
          (launch.l_Status l) (launch.mkCommittee uuid_Nil [] 0 0 zeroAccountID time.zeroTime)
          (launch.l_InitialGenesisSHA256 l) (launch.l_FinalGenesisSHA256 l)
          (launch.l_FinalGenesisInputSetHash l) [] (launch.l_MonitorRPCURL l)
          (launch.l_RehearsalServicePubKey l) (launch.l_RehearsalEndpoint l)
          (launch.l_CreatedAt l) (launch.l_UpdatedAt l) v ∅).
Proof.
  intros [_ _ _ _ _ Hgt Ht Hr Hcr].
  apply Forall_cons in Ht as [Hdl [Hca [Hua _]%Forall_cons]%Forall_cons].
  assert (nullStrToTime (nullTimeToStr (launch.r_GenesisTime (launch.l_Record l)))
          = Ok (launch.r_GenesisTime (launch.l_Record l))) as Hg.
  { destruct (launch.r_GenesisTime _) as [t|]; [|done]. cbn.
    by rewrite strToTime_timeToStr by auto. }
  unfold scanLaunchCols, launch_cols. cbn -[strToTime timeToStr nullStrToTime nullTimeToStr].
  rewrite Hg. cbn -[strToTime timeToStr NewCommissionRate].
  rewrite !strToTime_timeToStr by done. cbn -[NewCommissionRate].
  rewrite Hr. cbn -[NewCommissionRate]. rewrite Hcr. cbn. by destruct (launch.l_Record l).
Qed.

Lemma find_removed {A} (f g : A → uuid) i j (rows : list A) :
  (∀ x, x ∈ rows → f x = i → g x = j) →
  List.find (is_id f i) (remove (is_id g j) rows) = None.
Proof using Type.
  intros H. destruct (List.find _ _) as [x|] eqn:E; [|done]. exfalso.
  apply find_some in E as [[Hin Hg%negb_true_iff]%filter_In Hf%bool_decide_eq_true].
  apply bool_decide_eq_false in Hg. apply Hg, H; [by apply list_elem_of_In|done].
Qed.

Lemma scan_member p cid i m :
  account_prefix p = true → storable_account p (launch.cm_Address m) →
  scanMember (mkMemberRow cid i (underPrefix (launch.cm_Address m) p)
                (account_Hex (launch.cm_Address m)) (launch.cm_Moniker m))
  = Ok (redisplay_member p m).
Proof. intros Hp Hm. unfold scanMember. cbn [me_address me_moniker]. by rewrite NewAccountID_underPrefix. Qed.

Lemma scan_members p c :
  account_prefix p = true →
  Forall (λ m, storable_account p (launch.cm_Address m)) (launch.c_Members c) →
  scan_rows scanMember (member_rows c p) = Ok (redisplay_member p <$> launch.c_Members c).
Proof.
  intros Hp. unfold member_rows.
  set (row := λ n i m, mkMemberRow (launch.c_ID c) (Z.of_nat (n + i))
    (underPrefix (launch.cm_Address m) p) (account_Hex (launch.cm_Address m))
    (launch.cm_Moniker m)).
  change (imap _ _) with (imap (row 0%nat) (launch.c_Members c)). generalize 0%nat.
  induction (launch.c_Members c) as [|m ms IH]; [done|].
  intros n [Hm Hms]%Forall_cons. rewrite imap_cons. cbn [scan_rows].
  assert (scanMember (row n 0%nat m) = Ok (redisplay_member p m)) as -> by by apply scan_member.
  rewrite (imap_ext (row n ∘ S) (row (S n))) by (intros i x _; unfold row; cbn; do 2 f_equal; lia).
  cbn [mbind result_bind]. by rewrite IH.
Qed.

Lemma load_committee l d d1 l0 :
  storable_launch l → own_committee l d → launch.l_ID l0 = launch.l_ID l →
  committee_saved l d d1 →
  loadCommittee d1 l0
  = Ok (launch.set_Committee (redisplay_committee (prefix_of l) (launch.l_Committee l)) l0).
Proof.
  intros [Hp Hlead Hms _ _ _ Ht _ _] Hown Hid [Hc Hm]. set (c := launch.l_Committee l) in *.
  unfold loadCommittee, first. rewrite Hc, Hm, Hid, find_app.
  replace (List.find _ (remove _ _)) with (@None committee_row).
  2: { symmetry. by apply find_removed. }
  cbn [List.find]. unfold is_id at 1, committee_row_of. fold c. cbv zeta.
  cbn [co_launch_id]. rewrite bool_decide_eq_true_2 by done. cbv iota beta.
  cbn [co_lead_address co_created_at co_id co_threshold_m co_total_n].
  rewrite NewAccountID_underPrefix by done.
  cbn -[strToTime timeToStr member_rows redisplay].
  apply Forall_cons in Ht as [_ [_ [_ [Hct _]%Forall_cons]%Forall_cons]%Forall_cons].
  rewrite strToTime_timeToStr by done. cbn -[member_rows redisplay].
  rewrite filter_own.
  2: { apply Forall_forall. intros x (i & m & -> & _)%elem_of_lookup_imap. done. }
  by rewrite scan_members.
Qed.

Lemma timeToStr_nonempty t : timetext.storable t → is_empty (timeToStr t) = false.
Proof using Type.
  intros Ht. destruct (is_empty (timeToStr t)) eqn:E; [|done].
  apply strToTime_timeToStr in Ht. destruct (timeToStr t); done.
Qed.

Definition entry_member (kv : string * memberMeta) : Member :=
  mkMember (mkAccountID kv.1 (mm_display kv.2)) (mm_label kv.2) (mm_addedBy kv.2)
           (mm_addedAt kv.2).
Definition redisplay_entry (p : string) (m : Member) : Member :=
  mkMember (redisplay p (m_Address m)) (m_Label m) (m_AddedBy m) (m_AddedAt m).

Lemma scan_allow l m :
  account_prefix (prefix_of l) = true → storable_account (prefix_of l) (m_Address m) →
  added_at_ok (m_AddedAt m) →
  scanAllow (allow_row l m) = Ok (redisplay_entry (prefix_of l) m).
Proof.
  intros Hp Ha Ht. unfold scanAllow, allow_row.
  cbn [aw_address aw_added_at aw_label aw_added_by]. fold (prefix_of l).
  rewrite NewAccountID_underPrefix by done. cbn -[redisplay timeToStr strToTime].
  destruct (time.IsZero (m_AddedAt m)) eqn:Hz.
  - apply Z.eqb_eq in Hz. cbn. unfold redisplay_entry. by rewrite Hz.
  - destruct Ht as [Hzero|Ht]; [by rewrite Hzero in Hz|].
    rewrite timeToStr_nonempty, strToTime_timeToStr by done. done.
Qed.

Lemma underPrefix_nonempty p a :
  account_prefix p = true → storable_account p a → is_empty (underPrefix a p) = false.
Proof.
  intros Hp Ha. pose proof (NewAccountID_underPrefix p a Hp Ha) as H.
  destruct (is_empty (underPrefix a p)) eqn:E; [|done].
  by destruct (underPrefix a p).
Qed.

(** Inserting the pairs of a list with distinct keys. *)
Lemma foldl_insert_lookup (h : string → memberMeta → memberMeta)
    (ps : list (string * memberMeta)) (M : gmap string memberMeta) k :
  NoDup ps.*1 →
  foldl (λ M kv, <[kv.1 := h kv.1 kv.2]> M) M ps !! k
  = match (list_to_map ps : gmap string memberMeta) !! k with
    | Some m => Some (h k m) | None => M !! k end.
Proof using Type.
  revert M. induction ps as [|[k1 m1] ps IH]; intros M; [done|].
  cbn [fmap list_fmap fst foldl list_to_map foldr]. intros [Hk Hnd]%NoDup_cons.
  rewrite IH by done. cbn [fst snd]. destruct (decide (k1 = k)) as [->|Hne].
  - rewrite (not_elem_of_list_to_map_1 ps k) by done.
    by rewrite !lookup_insert_eq.
  - rewrite !lookup_insert_ne by done. done.
Qed.

Lemma sorted_entries_perm (al : Allowlist) : sorted_entries al ≡ₚ map_to_list al.
Proof using Type. apply merge_sort_Permutation. Qed.

Lemma allowlist_from_entries p (al : Allowlist) :
  account_prefix p = true →
  map_Forall (λ k m, storable_account p (mkAccountID k (mm_display m))) al →
  NewAllowlistFromMembers (redisplay_entry p ∘ entry_member <$> sorted_entries al)
  = redisplay_allowlist p al.
Proof.
  intros Hp Hal. pose proof (sorted_entries_perm al) as Hperm.
  assert (NoDup (sorted_entries al).*1) as Hnd
    by (rewrite Hperm; apply NoDup_fst_map_to_list).
  assert (Forall (λ kv, storable_account p (m_Address (entry_member kv))) (sorted_entries al)) as Hf.
  { apply Forall_forall. intros [k m] Hin. rewrite Hperm in Hin.
    apply elem_of_map_to_list in Hin. exact (Hal k m Hin). }
  assert (NewAllowlistFromMembers (redisplay_entry p ∘ entry_member <$> sorted_entries al)
          = foldl (λ M kv, <[kv.1 := redisplay_meta p kv.1 kv.2]> M) ∅ (sorted_entries al)) as ->.
  { unfold NewAllowlistFromMembers. generalize (∅ : Allowlist). clear Hperm Hnd.
    induction Hf as [|[k m] ps Hkm _ IH]; intros M; [done|]. cbn [fmap list_fmap foldl].
    rewrite IH. f_equal. cbn -[underPrefix]. f_equal.
    unfold meta_of, account_String, redisplay_meta. cbn -[underPrefix].
    by rewrite underPrefix_nonempty. }
  apply map_eq. intros k. rewrite foldl_insert_lookup by done.
  unfold redisplay_allowlist. rewrite map_lookup_imap.
  rewrite <- (list_to_map_proper (M := gmap string) _ _ (NoDup_fst_map_to_list al) (symmetry Hperm)).
  rewrite list_to_map_to_list. by destruct (al !! k).
Qed.

Lemma load_allowlist l d d1 l0 :
  storable_launch l → launch.l_ID l0 = launch.l_ID l → allowlist_saved l d d1 →
  loadAllowlist d1 l0
  = Ok (launch.set_Allowlist (redisplay_allowlist (prefix_of l) (launch.l_Allowlist l)) l0).
Proof.
  intros Hl Hid Ht. pose proof (sl_prefix l Hl) as Hp. pose proof (sl_allowlist l Hl) as Hal.
  unfold loadAllowlist. rewrite Ht, Hid, filter_own by (by apply Forall_fmap, Forall_true).
  rewrite (scan_rows_fmap _ _ (redisplay_entry (prefix_of l))).
  - cbn [mbind result_bind]. do 2 f_equal.
    rewrite <- allowlist_from_entries by (done || (eapply map_Forall_impl; [exact Hal|by intros k m []])).
    unfold al_Members. by rewrite <- list_fmap_compose.
  - unfold al_Members. apply Forall_fmap, Forall_forall. intros [k m] Hin.
    rewrite sorted_entries_perm in Hin. apply elem_of_map_to_list in Hin.
    destruct (Hal k m Hin) as [Ha Hadd]. by apply scan_allow.
Qed.

Lemma load_files l d l0 :
  storable_launch l → launch.l_ID l0 = launch.l_ID l → launch.l_AllocationFiles l0 = [] →
  loadAllocationFiles (saved_tables l d) l0
  = Ok (launch.set_AllocationFiles
          (order_by (λ f, launch.AllocationType_String (launch.af_Type f))
             (launch.l_AllocationFiles l)) l0).
Proof.
  intros Hl Hid Hnil.
  assert (db_allocs (saved_tables l d)
    = remove (is_id fr_launch_id (launch.l_ID l)) (db_allocs d)
      ++ (alloc_row_of l <$> launch.l_AllocationFiles l)) as Ht by by destruct d.
  unfold loadAllocationFiles. rewrite Ht, Hid, Hnil, filter_own by (by apply Forall_fmap, Forall_true).
  rewrite (order_by_fmap (alloc_row_of l) (λ f, launch.AllocationType_String (launch.af_Type f)))
    by done.
  rewrite (scan_rows_fmap _ _ id).
  - cbn [mbind result_bind]. by rewrite list_fmap_id.
  - unfold order_by. rewrite merge_sort_Permutation. eapply Forall_impl; [exact (sl_files l Hl)|].
    intros f Hf. unfold scanAlloc. cbn [alloc_row_of fr_uploaded_at]. cbn -[strToTime timeToStr].
    rewrite strToTime_timeToStr by done. by destruct f.
Qed.

(** The voting power the approved requests of a launch amount to. *)
Definition power_at d (id : uuid) : result (gmap string Z) :=
  ps ← scan_rows scanPower (List.filter (approved_in id) (db_jrs d));
  Ok (foldl (λ m kv, <[kv.1 := kv.2]> m) ∅ ps).

Lemma load_power d l0 vp :
  power_at d (launch.l_ID l0) = Ok vp →
  loadVotingPower d l0 = Ok (launch.set_VotingPower vp l0).
Proof using Type.
  unfold power_at, loadVotingPower. destruct (scan_rows scanPower _) as [ps|]; [|done].
  cbn. by intros [= <-].
Qed.

Lemma hydrate_saved l d v vp :
  storable_launch l → own_committee l d → power_at d (launch.l_ID l) = Ok vp →
  (l0 ← scanLaunchCols (launch_cols l (timeToStr (launch.l_CreatedAt l)) v);
   hydrate (saved_tables l d) l0) = Ok (stored_form l v vp).
Proof.
  intros Hl Hown Hvp. rewrite scan_launch by done. cbn [mbind result_bind]. unfold hydrate.
  rewrite (load_committee l d) by (done || by destruct d). cbn [mbind result_bind].
  rewrite (load_allowlist l d) by (done || by destruct d). cbn [mbind result_bind].
  rewrite (load_power _ _ vp).
  2: { rewrite <- Hvp. unfold power_at. by destruct d. }
  cbn [mbind result_bind]. by rewrite (load_files l).
Qed.

(** The version [Save] writes. *)
Definition next_version l d : Z :=
  match version_at d (launch.l_ID l) with Some v => v + 1 | None => 0 end.

Lemma saved_row l d :
  unique_launches d → (saveLaunch l d).1 = Ok tt →
  (∀ r, row_of d (launch.l_ID l) = Some r → lr_created_at r = timeToStr (launch.l_CreatedAt l)) →
  ∃ rows, saveLaunch l d = (Ok tt, saved_tables l (with_launches rows d)) ∧
    first (is_id lr_id (launch.l_ID l)) rows
    = Some (launch_cols l (timeToStr (launch.l_CreatedAt l)) (next_version l d)).
Proof using Type.
  intros Hu Hok Hcr. unfold next_version.
  destruct (saveLaunch_cases l d Hu) as [v _ _ E|e _ E|Hv _ E|Hv _ E];
    [by rewrite E in Hok|by rewrite E in Hok| |];
    rewrite E in Hok; rewrite (save_rest_Ok _ _ Hok) in E; rewrite Hv.
  - exists (launches_updated l (db_launches d)). split; [done|].
    unfold launches_updated. rewrite first_update.
    2: { intros x [Ei%bool_decide_eq_true _]%andb_prop. done. }
    unfold version_at, row_of in Hv, Hcr.
    destruct (first _ (db_launches d)) as [r|] eqn:Hr; [|done]. cbn in Hv |- *.
    injection Hv as Hv. rewrite (Hcr r eq_refl). apply first_id_Some in Hr as [_ Hid].
    unfold lock_matches, is_id. by rewrite bool_decide_eq_true_2, Hv, Z.eqb_refl by done.
  - exists (launches_inserted l (db_launches d)). split; [done|].
    unfold launches_inserted, first. rewrite find_app. unfold version_at, row_of, first in Hv.
    apply fmap_None in Hv. rewrite Hv. cbn. unfold is_id. by rewrite bool_decide_eq_true_2.
Qed.

(** ** The membership query *)

Lemma existsb_ext_in {A} (f g : A → bool) (xs : list A) :
  (∀ x, x ∈ xs → f x = g x) → existsb f xs = existsb g xs.
Proof using Type.
  induction xs as [|x xs IH]; intros H; [done|]. cbn. rewrite H by left.
  rewrite IH; [done|]. intros y Hy. apply H. by right.
Qed.

(** Only the rows written for the key count. *)
Lemma existsb_own {A} (f : A → uuid) i (p : A → bool) (old new : list A) :
  Forall (λ x, f x = i) new →
  existsb (λ x, is_id f i x && p x) (remove (is_id f i) old ++ new) = existsb p new.
Proof using Type.
  intros Hnew. rewrite existsb_app.
  replace (existsb _ (remove (is_id f i) old)) with false.
  - cbn. apply existsb_ext_in. intros x Hx. rewrite Forall_forall in Hnew.
    unfold is_id. by rewrite bool_decide_eq_true_2 by auto.
  - symmetry. apply not_true_iff_false. intros (x & Hx & Hp)%existsb_exists.
    apply filter_In in Hx as [_ Hn%negb_true_iff]. by rewrite Hn in Hp.
Qed.

Lemma allow_rows_account l a :
  existsb (is_str aw_account a) (allow_row l <$> al_Members (launch.l_Allowlist l))
  = bool_decide (is_Some (launch.l_Allowlist l !! a)).
Proof using Type.
  apply eq_true_iff_eq. rewrite existsb_exists, bool_decide_eq_true. unfold al_Members. split.
  - intros (r & Hr & Ha%bool_decide_eq_true).
    apply list_elem_of_In, list_elem_of_fmap in Hr as (m & -> & Hm).
    apply list_elem_of_fmap in Hm as ([k x] & -> & Hin).
    rewrite sorted_entries_perm in Hin. apply elem_of_map_to_list in Hin.
    cbn in Ha. rewrite <- Ha. by exists x.
  - intros [m Hm]. apply elem_of_map_to_list in Hm. rewrite <- sorted_entries_perm in Hm.
    exists (allow_row l (entry_member (a, m))). split.
    + apply list_elem_of_In, list_elem_of_fmap_2.
      exact (list_elem_of_fmap_2 entry_member _ (a, m) Hm).
    + by apply bool_decide_eq_true_2.
Qed.

Lemma member_rows_account c p a :
  existsb (is_str me_account a) (member_rows c p)
  = existsb (λ m, bool_decide (acct (launch.cm_Address m) = a)) (launch.c_Members c).
Proof using Type.
  unfold member_rows.
  set (row := λ n i m, mkMemberRow (launch.c_ID c) (Z.of_nat (n + i))
    (underPrefix (launch.cm_Address m) p) (account_Hex (launch.cm_Address m))
    (launch.cm_Moniker m)).
  change (imap _ _) with (imap (row 0%nat) (launch.c_Members c)). generalize 0%nat.
  induction (launch.c_Members c) as [|m ms IH]; [done|]. intros n. rewrite imap_cons.
  cbn [existsb].
  rewrite (imap_ext (row n ∘ S) (row (S n))) by (intros i x _; unfold row; cbn; do 2 f_equal; lia).
  by rewrite IH.
Qed.

(** Whether the launch of [l] is listed after a save. *)
Lemma listed_saved l d d1 a r :
  own_committee l d → lr_id r = launch.l_ID l →
  committee_saved l d d1 → allowlist_saved l d d1 →
  listed d1 a r
  = bool_decide (is_Some (launch.l_Allowlist l !! a))
    || existsb (λ m, bool_decide (acct (launch.cm_Address m) = a))
         (launch.c_Members (launch.l_Committee l)).
Proof using Type.
  intros Hown Hr [Hc Hm] Ha. unfold listed. rewrite Hr, Hc, Hm, Ha.
  set (c := launch.l_Committee l).
  rewrite existsb_own by (by apply Forall_fmap, Forall_true). rewrite allow_rows_account. f_equal.
  rewrite existsb_app.
  replace (existsb _ (remove _ _)) with false.
  - unfold committee_row_of. fold c. cbv zeta. cbn [existsb co_id co_launch_id orb].
    unfold is_id at 1. cbn [co_launch_id]. rewrite bool_decide_eq_true_2 by done. cbn [andb].
    rewrite existsb_own, orb_false_r.
    + apply member_rows_account.
    + apply Forall_forall. intros x (i & m & -> & _)%elem_of_lookup_imap. done.
  - symmetry. apply not_true_iff_false.
    intros (x & Hx & [Hl%bool_decide_eq_true _]%andb_prop)%existsb_exists.
    apply filter_In in Hx as [Hin Hn%negb_true_iff%bool_decide_eq_false].
    apply Hn, Hown; [by apply list_elem_of_In|done].
Qed.

Lemma redisplay_lookup p (al : gmap string memberMeta) k :
  (redisplay_allowlist p al : gmap string memberMeta) !! k = redisplay_meta p k <$> al !! k.
Proof using Type. unfold redisplay_allowlist. rewrite map_lookup_imap. by destruct (al !! k). Qed.

Lemma IsVisibleTo_stored l v vp addr a :
  accountHex addr = Some a →
  launch.IsVisibleTo (stored_form l v vp) addr
  = bool_decide (is_Some (launch.l_Allowlist l !! a))
    || existsb (λ m, bool_decide (acct (launch.cm_Address m) = a))
         (launch.c_Members (launch.l_Committee l)).
Proof using Type.
  unfold accountHex, launch.IsVisibleTo. intros H.
  destruct (NewAccountID addr) as [id|] eqn:Hid; [|done]. injection H as <-.
  destruct (is_empty addr) eqn:He; [by destruct addr|].
  unfold launch.IsVisibleToAddr, launch.HasMember, al_Contains. rewrite orb_comm. f_equal.
  - apply bool_decide_ext. cbn [stored_form launch.l_Allowlist].
    pose proof (redisplay_lookup (prefix_of l) (launch.l_Allowlist l) (account_Hex id)) as Hl.
    unfold Allowlist in *. rewrite Hl. by rewrite fmap_is_Some.
  - cbn [stored_form launch.l_Committee redisplay_committee launch.c_Members].
    induction (launch.c_Members (launch.l_Committee l)) as [|m ms IH]; [done|].
    cbn [fmap list_fmap existsb]. by rewrite IH.
Qed.

(** C34. A launch that [Save] accepts is what [FindByID] then returns: every
    field as it was, under the next version, the addresses of the committee
    and the members list naming the same accounts under the launch's prefix,
    the allocation files in order of type, and the voting power the approved
    join requests amount to; and the query behind the launch list admits an
    account exactly when that launch is visible to it.  This needs a launch of the
    shape the services build, under a prefix of account addresses
    ([storable_launch]; [operator_prefix_blocks_start] shows another prefix), that no
    other committee row names the launch ([own_committee];
    [acknowledged_but_not_served] shows what happens otherwise), unique
    identifiers, and that a row of the launch carries its creation time. *)
Theorem launch_round_trip l d vp :
  unique_launches d → storable_launch l → own_committee l d →
  (∀ r, row_of d (launch.l_ID l) = Some r → lr_created_at r = timeToStr (launch.l_CreatedAt l)) →
  power_at d (launch.l_ID l) = Ok vp →
  (saveLaunch l d).1 = Ok tt →
  let d' := (saveLaunch l d).2 in
  let l' := stored_form l (next_version l d) vp in
  (findLaunch (launch.l_ID l) d').1 = Ok l' ∧
  ∀ addr a r, accountHex addr = Some a → row_of d' (launch.l_ID l) = Some r →
    listed d' a r = launch.IsVisibleTo l' addr.
Proof.
  intros Hu Hl Hown Hcr Hvp Hok. destruct (saved_row l d Hu Hok Hcr) as (rows & -> & Hrow).
  cbn [fst snd]. split.
  - unfold findLaunch, query, load_first. cbn [fst snd].
    assert (db_launches (saved_tables l (with_launches rows d)) = rows) as -> by by destruct d.
    rewrite Hrow. apply hydrate_saved; [done| |].
    + unfold own_committee. by destruct d.
    + rewrite <- Hvp. unfold power_at. by destruct d.
  - intros addr a r Ha Hr. apply first_id_Some in Hr as [_ Hr].
    rewrite (IsVisibleTo_stored _ _ _ addr a) by done.
    apply (listed_saved l (with_launches rows d)); [|done|by destruct d|by destruct d].
    unfold own_committee. by destruct d.
Qed.

End round_trip.

(** ** A sample *)
Module roundtrip_samples.
Import fixtures.

Definition parsed_rate (s : string) : CommissionRate :=
  match NewCommissionRate s with Ok r => r | Err _ => rate 0 end.
Definition chain : launch.ChainRecord :=
  launch.mkRecord "chain-1" "Chain" "cosmos" "chaind" "v1" "" "" "" (Some (t0 + 11 * day))
    "utok" "1" "" (parsed_rate "0.20") (parsed_rate "0.01") (t0 + 10 * day) 1.
Definition file (t : launch.AllocationType) : launch.AllocationFile :=
  launch.mkAllocationFile t hash64 launch.AllocationPending None t0.
Definition sample : launch.Launch :=
  launch.mkLaunch 1%N chain launch.LaunchTypeTestnet
    (al_AddMember (al_Add ∅ dave) (mkMember carol "val" "cosmos1alice" t0))
    launch.StatusPublished committee hash64 "" ""
    [file launch.AllocationGrants; file launch.AllocationAccounts] "" "" "" t0 t0 3 ∅.

#[local] Existing Instances letters.codec letters.codec_correct.

Lemma storable_sample : storable_launch sample.
Proof.
  split.
  - vm_compute. reflexivity.
  - exists "alice"%string. split; [reflexivity|]. vm_compute. lia.
  - repeat apply Forall_cons_2; try apply Forall_nil_2;
      [exists "alice"%string|exists "bob"%string|exists "carol"%string];
      (split; [reflexivity|vm_compute; lia]).
  - apply map_Forall_insert_2; [|apply map_Forall_insert_2; [|apply map_Forall_empty]].
    + split; [exists "carol"%string; split; [reflexivity|vm_compute; lia]|].
      right. apply (bool_decide_eq_true_1 (timetext.storable _)). vm_compute. reflexivity.
    + split; [exists "dave"%string; split; [reflexivity|vm_compute; lia]|by left].
  - repeat apply Forall_cons_2; try apply Forall_nil_2;
      apply (bool_decide_eq_true_1 (timetext.storable _)); vm_compute; reflexivity.
  - intros t [= <-]. apply (bool_decide_eq_true_1 (timetext.storable _)). vm_compute. reflexivity.
  - repeat apply Forall_cons_2; try apply Forall_nil_2;
      apply (bool_decide_eq_true_1 (timetext.storable _)); vm_compute; reflexivity.
  - vm_compute. reflexivity.
  - vm_compute. reflexivity.
Qed.

Lemma launch_round_trip_witness :
  ∃ l', (findLaunch 1%N (saveLaunch sample empty_db).2).1 = Ok l' ∧
    launch.l_Version l' = 0 ∧
    launch.af_Type <$> launch.l_AllocationFiles l'
    = [launch.AllocationAccounts; launch.AllocationGrants].
Proof.
  destruct (launch_round_trip (BC := letters.codec_correct) sample empty_db ∅) as [H _].
  - apply NoDup_nil_2.
  - exact storable_sample.
  - intros c Hc. by apply elem_of_nil in Hc.
  - intros r Hr. discriminate.
  - reflexivity.
  - vm_compute. reflexivity.
  - eexists. split; [exact H|]. split; reflexivity.
Defined.

End roundtrip_samples.
