(* ===== verification/World.v ===== *)
(** * Effects of the application services

    A service call reads the clock, draws identifiers, runs statements on the
    database, writes files, appends to the audit log and publishes events.  [M A] is a
    computation on the [world] that ends in a result, an error, a panic or the
    exit of the process.  What the environment decides (clock readings, fresh
    identifiers, which audit appends, commits and file writes fail) is the class
    [Oracle], read in order through [w_tick]; every theorem holds for all of
    them.

    Also here: the interfaces services depend on (src/internal/application/
    ports), the shared helpers of [helpers.go] and [audit.go], and
    [transactor.go]. *)

From S2P Require Import Prelude GoStd GoTime Values LaunchAgg Events Payload Store.
Import sqlite.
#[global] Open Scope Z_scope.

(** ** Third-party packages behind the services *)

(** The value a Go struct presents to the JSON encoder. *)
Inductive jdoc : Type :=
  | DNull
  | DStr (s : string)
  | DBool (b : bool)
  | DInt (z : Z)
  | DRaw (raw : option bytes) (* json.RawMessage *)
  | DArr (l : list jdoc)
  | DObj (fields : list (string * jdoc)).

(** github.com/ny4rl4th0t3p/seedward-libs/canonicaljson *)
Class CanonicalJSON : Type := {
  canonical_MarshalForSigning : jdoc → result bytes;
  canonical_Marshal : option bytes → result bytes (* of a json.RawMessage *) }.

(** [ports.SignatureVerifier] *)
Class SignatureVerifier : Type := {
  verifier_Verify : string → string → bytes → bytes → result unit }.

(** ** The environment *)
Class Oracle : Type := {
  oracle_Now : nat → time.Time;
  oracle_uuid : nat → uuid;
  oracle_audit_fails : nat → bool;
  oracle_commit_fails : nat → bool;
  oracle_file_fails : nat → bool }.

(** [ports.AuditEvent], with the event in place of its JSON. *)
Record AuditEvent : Type := mkAudit {
  ae_LaunchID : string;
  ae_EventName : string;
  ae_OccurredAt : time.Time;
  ae_Event : domain.DomainEvent }.

#[global] Instance AuditEvent_eq_dec : EqDecision AuditEvent.
Proof. solve_decision. Defined.

(** A file under a launch's directory: raw bytes, or the [refFile] sidecar of
    attestor mode (its JSON text is written and read by the store alone). *)
Inductive stored_file : Type :=
  | RawBytes (data : bytes)
  | RefFile (URL SHA256 : string).

Record world : Type := mkWorld {
  w_db : db;
  w_files : gmap (string * string) stored_file; (* by launch directory and name *)
  w_audit : list AuditEvent;
  w_published : list domain.DomainEvent;
  w_tick : nat }.

Definition set_db (d : db) (w : world) : world :=
  mkWorld d (w_files w) (w_audit w) (w_published w) (w_tick w).
Definition set_files (f : gmap (string * string) stored_file) (w : world) : world :=
  mkWorld (w_db w) f (w_audit w) (w_published w) (w_tick w).
Definition tick (w : world) : world :=
  mkWorld (w_db w) (w_files w) (w_audit w) (w_published w) (S (w_tick w)).

(** ** Computations *)
Inductive outcome (A : Type) : Type :=
  | Ret (a : A)
  | Fail (e : error)
  | Panic
  | Exit.
Arguments Ret {_} _.
Arguments Fail {_} _.
Arguments Panic {_}.
Arguments Exit {_}.

Definition M (A : Type) : Type := world → outcome A * world.

#[global] Instance M_ret : MRet M := λ A a w, (Ret a, w).
#[global] Instance M_bind : MBind M := λ A B f m w,
  match m w with
  | (Ret a, w1) => f a w1
  | (Fail e, w1) => (Fail e, w1)
  | (Panic, w1) => (Panic, w1)
  | (Exit, w1) => (Exit, w1)
  end.

Definition throw {A} (e : error) : M A := λ w, (Fail e, w).
(** [if cond { return err }] *)
Definition guard_err (cond : bool) (e : error) : M unit :=
  if cond then throw e else mret tt.
Definition of_result {A} (r : result A) : M A := λ w,
  (match r with Ok a => Ret a | Err e => Fail e end, w).
(** [None] is a panic. *)
Definition of_option {A} (o : option A) : M A := λ w,
  (match o with Some a => Ret a | None => Panic end, w).
(** [if err := m; err != nil { return f(err) }] *)
Definition on_err {A} (f : error → error) (m : M A) : M A := λ w,
  match m w with (Fail e, w1) => (Fail (f e), w1) | r => r end.
Definition run_st {A} (m : St A) : M A := λ w,
  let (r, d) := m (w_db w) in
  (match r with Ok a => Ret a | Err e => Fail e end, set_db d w).

Section effects.
Context `{O : Oracle} `{UT : UUIDText}.

(** [time.Now()] and [uuid.New()] *)
Definition Now : M time.Time := λ w, (Ret (oracle_Now (w_tick w)), tick w).
Definition NewUUID : M uuid := λ w, (Ret (oracle_uuid (w_tick w)), tick w).

(** [EventPublisher.Publish] *)
Definition Publish (ev : domain.DomainEvent) : M unit := λ w,
  (Ret tt, mkWorld (w_db w) (w_files w) (w_audit w) (w_published w ++ [ev]) (w_tick w)).

(** [AuditLogWriter.Append] *)
Definition Append (e : AuditEvent) : M unit := λ w,
  if oracle_audit_fails (w_tick w) then (Fail errorf, tick w)
  else (Ret tt, tick (mkWorld (w_db w) (w_files w) (w_audit w ++ [e]) (w_published w)
                         (w_tick w))).

(** [Transactor.InTransaction] (transactor.go): the pool holds one
    connection, so a transaction runs alone; an error of [fn] or of the
    commit leaves the database as it was.  No service nests transactions. *)
Definition InTransaction {A} (fn : M A) : M A := λ w,
  match fn w with
  | (Ret a, w1) =>
      if oracle_commit_fails (w_tick w1) then (Fail errorf, tick (set_db (w_db w) w1))
      else (Ret a, tick w1)
  | (r, w1) => (r, set_db (w_db w) w1)
  end.

(** ** audit.go *)

(** An event without an occurrence time is stamped when it is written. *)
Definition writeAuditEvent (scope : string) (ev : domain.DomainEvent) : M unit :=
  (if time.IsZero (domain.occurredAt ev) then Now else mret (domain.occurredAt ev))
    ≫= λ occurredAt,
  Append (mkAudit scope (domain.EventName ev) occurredAt ev).

(** An error is logged and swallowed. *)
Definition recordAudit (scope : string) (ev : domain.DomainEvent) : M unit := λ w,
  match writeAuditEvent scope ev w with
  | (Fail _, w1) => (Ret tt, w1)
  | r => r
  end.

(** [ProposalService.emit], [LaunchService.emit] *)
Definition emit (scope : string) (ev : domain.DomainEvent) : M unit :=
  recordAudit scope ev ≫= λ _, Publish ev.

(** ** helpers.go *)
Definition signedPayloadMaxAge : time.Duration := 5 * time.Minute.

(** The negation is on a 64-bit [Duration]. *)
Definition timestamp_ok (now t : time.Time) : bool :=
  let diff := time.Since now t in
  let diff := if diff <? 0 then int64_wrap (- diff) else diff in
  negb (signedPayloadMaxAge <? diff).

Definition validateTimestamp (ts : string) : M unit :=
  if is_empty ts then throw [ErrUnauthorized]
  else
    match rfc3339.Parse ts with
    | Err _ => throw [ErrUnauthorized]
    | Ok t => Now ≫= λ now, guard_err (negb (timestamp_ok now t)) [ErrUnauthorized]
    end.

Definition decodeBase64Sig (s : string) : M bytes :=
  of_result (map_err (λ _, [ErrBadRequest]) (base64.DecodeString s)).

(** [NonceStore.Consume] *)
Definition ConsumeNonce (addr nonce : string) : M unit :=
  Now ≫= λ now, Now ≫= λ now', run_st (consumeNonce now now' addr nonce).

(** [ReadinessRepository.InvalidateByLaunch] *)
Definition InvalidateByLaunch (launchID : uuid) : M unit :=
  Now ≫= λ now, run_st (invalidateByLaunch now launchID).

End effects.
