(* ===== verification/JsonProps.v ===== *)
(** * The round trip of encoding/json

    [parse_print]: the decoder applied to an encoded document returns the
    document (strings with U+FFFD in place of invalid bytes), each member and
    element with exactly the bytes written for it. *)

From S2P Require Import Prelude GoStd GoTime Json World TimeProps JsonPrint.
Import json jsonenc.
#[global] Open Scope Z_scope.

(** ** Strings *)

Lemma ascii_cases (P : ascii → Prop) :
  (∀ n, (n < 256)%nat → P (ascii_of_nat n)) → ∀ a, P a.
Proof.
  intros H a. rewrite <- (ascii_nat_embedding a). apply H, nat_ascii_bounded.
Qed.

Lemma lex_escape_ascii f a x acc :
  (nat_of_ascii a < 128)%nat →
  lex_string (S f) (escape_ascii a ++ x) acc = lex_string f x (a :: acc).
Proof.
  destruct a as [[] [] [] [] [] [] [] []]; intros H;
    first [reflexivity | exfalso; vm_compute in H; lia].
Qed.

Lemma escape_ascii_nonempty a : (1 <= length (escape_ascii a))%nat.
Proof. unfold escape_ascii, u00. repeat case_match; cbn; lia. Qed.

(** Four hexadecimal digits of a code point outside the surrogates. *)
Lemma lex_u f p q r s u x acc :
  hex4 [p; q; r; s] = Some (u, []) → (55296 <=? u) && (u <=? 57343) = false →
  lex_string (S f) (bs :: byte 117 :: p :: q :: r :: s :: x) acc
    = lex_string f x (rev (utf8 u) ++ acc).
Proof.
  intros Hh Hu.
  assert (hex4 (p :: q :: r :: s :: x) = Some (u, x)) as E.
  { revert Hh. cbn [hex4].
    destruct (hex.digit_val p), (hex.digit_val q), (hex.digit_val r), (hex.digit_val s);
      cbn [mbind option_bind]; try done. intros H. injection H as H. by rewrite H. }
  cbn [lex_string].
  change (c 34 bs) with false. change (nat_of_ascii bs <? 32)%nat with false.
  change (c 92 bs) with true. cbn iota.
  change (c 34 (byte 117)) with false. change (c 92 (byte 117)) with false.
  change (c 47 (byte 117)) with false. change (c 98 (byte 117)) with false.
  change (c 102 (byte 117)) with false. change (c 110 (byte 117)) with false.
  change (c 114 (byte 117)) with false. change (c 116 (byte 117)) with false.
  change (c 117 (byte 117)) with true. cbn iota. by rewrite E, Hu.
Qed.

Lemma lex_escape_error f x acc :
  lex_string (S f) (escape_error ++ x) acc = lex_string f x (rev (utf8 rune_error) ++ acc).
Proof. apply lex_u; vm_compute; reflexivity. Qed.

Lemma line_sep_spec l d :
  line_sep l = Some d →
  ∃ r, l = byte 226 :: byte 128 :: d :: r ∧ (d = byte 168 ∨ d = byte 169).
Proof.
  unfold line_sep. destruct l as [|a [|b [|e r]]]; try done.
  destruct (c 226 a) eqn:Ha; [|done]. destruct (c 128 b) eqn:Hb; [|done].
  destruct (c 168 e) eqn:H1; [|destruct (c 169 e) eqn:H2; [|done]]; intros [= ->];
    unfold c in *; apply Nat.eqb_eq in Ha, Hb;
    apply (f_equal ascii_of_nat) in Ha, Hb; rewrite ascii_nat_embedding in Ha, Hb;
    subst a b; exists r; (split; [done|]).
  - left. apply Nat.eqb_eq in H1. apply (f_equal ascii_of_nat) in H1.
    by rewrite ascii_nat_embedding in H1.
  - right. apply Nat.eqb_eq in H2. apply (f_equal ascii_of_nat) in H2.
    by rewrite ascii_nat_embedding in H2.
Qed.

(** A well-formed sequence is recognised by its own bytes, and none of them is
    below 128. *)
Lemma utf8_seq_take l k x :
  utf8_seq l = S k →
  utf8_seq (take (S k) l ++ x) = S k ∧ (S k <= length l)%nat ∧ (k < 4)%nat.
Proof.
  destruct l as [|a r]; [done|]. cbn [utf8_seq].
  repeat first
    [ progress case_match
    | progress intros [= <-]
    | done
    | (split; [cbn [take app utf8_seq]; repeat case_match; congruence|cbn [length]; lia]) ].
Qed.

Lemma utf8_seq_lead a r k : utf8_seq (a :: r) = S k → (128 <= nat_of_ascii a)%nat.
Proof.
  intros H. destruct (decide (128 <= nat_of_ascii a)%nat) as [?|Hlt]; [done|exfalso].
  revert H. cbn [utf8_seq].
  rewrite !(proj2 (andb_false_iff _ _)); [done|left; apply Z.leb_gt; lia..].
Qed.

(** One step of the lexer on a well-formed sequence. *)
Lemma lex_utf8 f l k x acc :
  utf8_seq l = S k →
  lex_string (S f) (take (S k) l ++ x) acc = lex_string f x (rev (take (S k) l) ++ acc).
Proof.
  intros H. destruct (utf8_seq_take l k x H) as (Ht & Hlen & _).
  destruct l as [|a r]; [done|].
  pose proof (utf8_seq_lead a r k H) as Hge.
  cbn [take app] in Ht |- *. cbn [lex_string].
  assert (∀ n, (n < 128)%nat → c n a = false) as Hc
    by (intros n Hn; unfold c; apply Nat.eqb_neq; lia).
  rewrite !Hc by lia.
  rewrite !(proj2 (Nat.ltb_ge _ _)) by lia.
  rewrite Ht. f_equal.
  - change (a :: take k r ++ x) with (take (S k) (a :: r) ++ x).
    rewrite drop_app_length'; [done|]. cbn [take length]. rewrite length_take. cbn in Hlen. lia.
  - change (a :: take k r ++ x) with (take (S k) (a :: r) ++ x).
    rewrite take_app_length'; [done|]. cbn [take length]. rewrite length_take. cbn in Hlen. lia.
Qed.

Lemma lex_escape_sep f d x acc :
  d = byte 168 ∨ d = byte 169 →
  lex_string (S f) (escape_sep d ++ x) acc
    = lex_string f x (rev [byte 226; byte 128; d] ++ acc).
Proof.
  intros [-> | ->].
  - apply (lex_u f _ _ _ _ 8232); vm_compute; reflexivity.
  - apply (lex_u f _ _ _ _ 8233); vm_compute; reflexivity.
Qed.

Lemma lex_escape n : ∀ l f rest acc,
  (length l <= n)%nat → (length (escape n l) < f)%nat →
  lex_string f (escape n l ++ quote :: rest) acc = Some (rev acc ++ sanitize_chars n l, rest).
Proof.
  induction n as [|n IH]; intros l f rest acc Hn Hf.
  { destruct l; [|cbn in Hn; lia]. destruct f; [lia|]. cbn. by rewrite app_nil_r. }
  destruct l as [|a r].
  { destruct f; [lia|]. cbn. by rewrite app_nil_r. }
  cbn [length] in Hn. destruct f as [|f]; [lia|].
  cbn [escape sanitize_chars] in Hf |- *.
  destruct (nat_of_ascii a <? 128)%nat eqn:Ha.
  { apply Nat.ltb_lt in Ha. rewrite length_app in Hf.
    pose proof (escape_ascii_nonempty a).
    rewrite <- app_assoc, lex_escape_ascii by done.
    rewrite IH by lia. cbn [rev]. by rewrite <- app_assoc. }
  destruct (utf8_seq (a :: r)) as [|k] eqn:Hk.
  { rewrite length_app in Hf. change (length escape_error) with 6%nat in Hf.
    rewrite <- app_assoc, lex_escape_error, IH by lia.
    by rewrite rev_app_distr, rev_involutive, <- app_assoc. }
  destruct (utf8_seq_take _ _ [] Hk) as (_ & Hlen & Hk4).
  assert (length (drop (S k) (a :: r)) <= n)%nat by (rewrite length_drop; cbn [length]; lia).
  destruct (line_sep (a :: r)) as [d|] eqn:Hd.
  - destruct (line_sep_spec _ _ Hd) as (r' & Heq & Hcase).
    rewrite length_app in Hf. change (length (escape_sep d)) with 6%nat in Hf.
    rewrite <- app_assoc, lex_escape_sep, IH by (done || lia).
    assert (k = 2%nat) as -> by (rewrite Heq in Hk; destruct Hcase as [-> | ->]; vm_compute in Hk; congruence).
    rewrite Heq. by rewrite rev_app_distr, rev_involutive, <- app_assoc.
  - rewrite length_app in Hf. rewrite length_take in Hf.
    rewrite <- app_assoc, lex_utf8 by done.
    rewrite IH by (try lia; cbn [length] in Hf, Hlen; lia).
    by rewrite rev_app_distr, rev_involutive, <- app_assoc.
Qed.

Lemma quoted_print s rest :
  quoted (print_string s ++ rest) = Some (chars (sanitize s), rest).
Proof.
  unfold print_string, sanitize, quoted.
  rewrite String.list_ascii_of_string_of_list_ascii.
  cbn [app]. change (c 34 quote) with true. cbn iota.
  rewrite <- app_assoc. cbn [app].
  assert (Hl : String.length s = length (chars s)).
  { clear. induction s as [|a s IH]; [done|]. cbn. by rewrite IH. }
  rewrite lex_escape; [done|lia|]. rewrite !length_app. cbn [length]. lia.
Qed.

(** ** Integers *)

(** What may follow a value inside a document. *)
Definition delim (x : list ascii) : bool :=
  match x with [] => true | a :: _ => c 44 a || c 93 a || c 125 a end.

Lemma is_digit_dig z : is_digit (rfc3339.dig z) = true.
Proof.
  unfold is_digit. rewrite timetext.dig_nat.
  assert (0 <= z mod 10 < 10) by (apply Z.mod_pos_bound; lia).
  apply andb_true_iff. split; apply Nat.leb_le; lia.
Qed.

Lemma delim_digit x : delim x = true → ∀ ds,
  forallb is_digit ds = true → take_digits (ds ++ x) = (ds, x).
Proof.
  intros Hx ds. induction ds as [|a ds IH]; cbn [forallb app take_digits].
  - intros _. destruct x as [|a x]; [done|]. cbn [delim take_digits] in *.
    destruct (is_digit a) eqn:Ha; [|done]. exfalso. revert Hx Ha.
    unfold is_digit, c. rewrite !orb_true_iff, andb_true_iff, !Nat.eqb_eq, !Nat.leb_le. lia.
  - intros [-> H]%andb_true_iff. by rewrite IH.
Qed.

Lemma dec_chars_spec f n : 0 <= n < 10 ^ Z.of_nat f → (0 < f)%nat →
  forallb is_digit (dec_chars f n) = true ∧
  ∃ a r, dec_chars f n = a :: r ∧ (c 48 a = true → r = []).
Proof.
  revert n. induction f as [|f IH]; [lia|]. intros n Hn _. cbn [dec_chars].
  destruct (n <? 10) eqn:H10.
  { cbn [forallb]. rewrite is_digit_dig. split; [done|]. by eexists _, []. }
  apply Z.ltb_ge in H10.
  assert (Hq : 0 <= n / 10 < 10 ^ Z.of_nat f).
  { split; [apply Z.div_pos; lia|]. apply Z.div_lt_upper_bound; [lia|].
    replace (10 * 10 ^ Z.of_nat f) with (10 ^ Z.of_nat (S f)); [lia|].
    rewrite Nat2Z.inj_succ, Z.pow_succ_r; lia. }
  assert (Hf : (0 < f)%nat).
  { destruct f; [|lia]. change (10 ^ Z.of_nat 0) with 1 in Hq.
    assert (1 <= n / 10) by (apply Z.div_le_lower_bound; lia). lia. }
  destruct (IH _ Hq Hf) as (Hd & a & r & Heq & Ha). split.
  { rewrite forallb_app, Hd. cbn [forallb]. by rewrite is_digit_dig. }
  rewrite Heq. exists a, (r ++ [rfc3339.dig n]). split; [done|].
  intros H48. exfalso. specialize (Ha H48). subst r.
  destruct f as [|f]; [lia|]. cbn [dec_chars] in Heq.
  destruct (n / 10 <? 10) eqn:Hs.
  - apply Z.ltb_lt in Hs. injection Heq as <-.
    unfold c in H48. apply Nat.eqb_eq in H48. rewrite timetext.dig_nat in H48.
    rewrite Z.mod_small in H48 by lia.
    assert (1 <= n / 10) by (apply Z.div_le_lower_bound; lia). lia.
  - apply (f_equal length) in Heq. rewrite length_app in Heq. cbn [length] in Heq.
    destruct f as [|f]; cbn [dec_chars] in Heq.
    + apply Z.ltb_ge in Hs. change (10 ^ Z.of_nat 1) with 10 in Hq. lia.
    + repeat case_match; cbn in Heq; rewrite ?length_app in Heq; cbn in Heq; lia.
Qed.

Lemma digits_of_spec n : 0 <= n →
  forallb is_digit (digits_of n) = true ∧
  ∃ a r, digits_of n = a :: r ∧ (c 48 a = true → r = []).
Proof.
  intros Hn. apply dec_chars_spec; [|lia]. split; [done|].
  rewrite Nat2Z.inj_succ, Z2Nat.id by apply Z.log2_nonneg.
  destruct (decide (n = 0)) as [->|Hne]; [done|].
  eapply Z.lt_le_trans; [apply Z.log2_spec; lia|].
  apply Z.pow_le_mono_l. lia.
Qed.

Lemma delim_tail x : delim x = true →
  match x with a :: _ => c 46 a || (c 101 a || c 69 a) | [] => false end = false.
Proof.
  destruct x as [|a x]; [done|]. cbn [delim].
  unfold c. rewrite !orb_true_iff, !orb_false_iff, !Nat.eqb_eq, !Nat.eqb_neq. lia.
Qed.

Lemma lex_digits n x : 0 <= n → delim x = true →
  ∃ a r, digits_of n = a :: r ∧ is_digit a = true ∧
    (if c 48 a then ([a], r ++ x) else take_digits (digits_of n ++ x)) = (digits_of n, x).
Proof.
  intros Hn Hx. destruct (digits_of_spec n Hn) as (Hd & a & r & Heq & Ha).
  exists a, r. split; [done|]. rewrite Heq in Hd.
  split; [by apply andb_true_iff in Hd as [? _]|].
  rewrite Heq, delim_digit by done.
  destruct (c 48 a); [|done]. by rewrite Ha.
Qed.

Lemma lex_number_print z x : delim x = true →
  lex_number (print_int z ++ x) = Some (print_int z, x).
Proof.
  intros Hx. pose proof (delim_tail x Hx) as Ht.
  unfold print_int. destruct (z <? 0) eqn:Hz.
  - apply Z.ltb_lt in Hz.
    destruct (lex_digits (- z) x) as (a & r & Heq & Hd & Hl); [lia|done|].
    unfold lex_number. cbn [app]. change (c 45 (byte 45)) with true. cbn iota.
    rewrite Heq in Hl |- *. cbn [app] in Hl |- *. rewrite Hl. cbn [length Nat.eqb].
    destruct x as [|b x]; [by rewrite !app_nil_r|].
    apply orb_false_iff in Ht as [H46 H101]. rewrite H46, H101. by rewrite !app_nil_r.
  - apply Z.ltb_ge in Hz.
    destruct (lex_digits z x) as (a & r & Heq & Hd & Hl); [lia|done|].
    unfold lex_number. rewrite Heq in Hl |- *. cbn [app] in Hl |- *.
    assert (c 45 a = false) as ->.
    { unfold is_digit in Hd. unfold c. apply Nat.eqb_neq.
      apply andb_true_iff in Hd as [?%Nat.leb_le _]. lia. }
    cbn iota. rewrite Hl. cbn [length Nat.eqb].
    destruct x as [|b x]; [by rewrite !app_nil_r|].
    apply orb_false_iff in Ht as [H46 H101]. rewrite H46, H101. by rewrite !app_nil_r.
Qed.

(** ** Documents *)

(** Induction over nested documents. *)
Lemma jdoc_nested_ind (P : jdoc → Prop) :
  P DNull → (∀ s, P (DStr s)) → (∀ b, P (DBool b)) → (∀ z, P (DInt z)) →
  (∀ r, P (DRaw r)) → (∀ ds, Forall P ds → P (DArr ds)) →
  (∀ kvs, Forall (λ kv, P kv.2) kvs → P (DObj kvs)) → ∀ d, P d.
Proof.
  intros Hn Hs Hb Hz Hr Ha Ho. fix IH 1. intros [| s | b | z | r | ds | kvs];
    [done|apply Hs|apply Hb|apply Hz|apply Hr|..].
  - apply Ha. induction ds as [|d ds IHds]; constructor; [apply IH|exact IHds].
  - apply Ho. induction kvs as [|[k d] kvs IHk]; constructor; [apply IH|exact IHk].
Qed.

(** A document without embedded raw messages. *)
Fixpoint plain (d : jdoc) : bool :=
  match d with
  | DRaw _ => false
  | DArr ds => forallb plain ds
  | DObj kvs => forallb (λ kv, plain kv.2) kvs
  | _ => true
  end.

Fixpoint nesting (d : jdoc) : nat :=
  match d with
  | DArr ds => S (foldr (λ d n, Nat.max (nesting d) n) O ds)
  | DObj kvs => S (foldr (λ kv n, Nat.max (nesting kv.2) n) O kvs)
  | _ => O
  end.

(** The value the decoder builds. *)
Fixpoint value_of (d : jdoc) : value :=
  match d with
  | DNull => JNull
  | DStr s => json.JStr (sanitize s)
  | DBool b => JBool b
  | DInt z => JNum (of_chars (print_int z))
  | DRaw _ => JNull
  | DArr ds => JArr (map (λ d, (of_chars (print d), value_of d)) ds)
  | DObj kvs => JObj (map (λ kv, (sanitize kv.1, (of_chars (print kv.2), value_of kv.2))) kvs)
  end.

(** The first character of a value: not white space, not a closing bracket. *)
Definition starts_value (l : list ascii) : bool :=
  match l with
  | a :: _ => negb (is_space a || c 93 a || c 125 a)
  | [] => false
  end.

Lemma starts_char a l : (nat_of_ascii a <? 33)%nat = false → c 93 a = false → c 125 a = false →
  starts_value (a :: l) = true.
Proof.
  intros Ha H1 H2. cbn [starts_value]. unfold is_space. rewrite H1, H2.
  apply Nat.ltb_ge in Ha. unfold c.
  rewrite !(proj2 (Nat.eqb_neq _ _)) by lia. done.
Qed.

Lemma starts_digit a l : is_digit a = true → starts_value (a :: l) = true.
Proof.
  unfold is_digit. intros [H1%Nat.leb_le H2%Nat.leb_le]%andb_true_iff.
  apply starts_char; [apply Nat.ltb_ge; lia|unfold c; apply Nat.eqb_neq; lia..].
Qed.

Lemma print_starts d : plain d = true → starts_value (print d) = true.
Proof.
  destruct d as [| s | [] | z | r | ds | kvs]; try done. intros _.
  cbn [print]. unfold print_int. destruct (z <? 0) eqn:Hz; [done|].
  apply Z.ltb_ge in Hz. destruct (digits_of_spec z Hz) as (Hd & a & r & Heq & _).
  rewrite Heq in Hd |- *. apply andb_true_iff in Hd as [Hd _]. by apply starts_digit.
Qed.

Lemma skip_space_starts l x : starts_value l = true → skip_space (l ++ x) = l ++ x.
Proof.
  destruct l as [|a l]; [done|]. cbn [starts_value app skip_space].
  by destruct (is_space a).
Qed.

Lemma consumed_app l x : consumed (l ++ x) x = of_chars l.
Proof.
  unfold consumed. rewrite length_app, Nat.add_sub.
  by rewrite take_app_length.
Qed.

(** The text of the elements after the opening bracket. *)
Fixpoint tail_elems (close : ascii) (ls : list (list ascii)) : list ascii :=
  match ls with
  | [] => [close]
  | [l] => l ++ [close]
  | l :: ls => l ++ comma :: tail_elems close ls
  end.

Lemma sep_by_tail close ls : sep_by ls ++ [close] = tail_elems close ls.
Proof.
  induction ls as [|l [|l' ls] IH]; [done..|].
  cbn [sep_by tail_elems] in IH |- *. by rewrite <- app_assoc, <- IH.
Qed.

Definition parses (d : jdoc) : Prop := ∀ f depth x,
  (2 * length (print d) <= f)%nat → (nesting d <= depth)%nat → delim x = true →
  parse_value f depth (print d ++ x) = Some (value_of d, x).

Lemma parses_str s : parses (DStr s).
Proof.
  intros f depth x Hf _ _. cbn [print] in *. destruct f as [|f].
  { unfold print_string in Hf. cbn in Hf. lia. }
  cbn [parse_value]. rewrite skip_space_starts by done.
  pose proof (quoted_print s x) as Hq. unfold print_string in *. cbn [app] in *.
  change (c 34 quote) with true. cbn iota. rewrite Hq. cbn.
  by rewrite String.string_of_list_ascii_of_string.
Qed.

Lemma parses_int z : parses (DInt z).
Proof.
  intros f depth x Hf _ Hx. cbn [print value_of] in *.
  pose proof (print_starts (DInt z) eq_refl) as Hs. cbn [print] in Hs.
  pose proof (lex_number_print z x Hx) as Hl.
  assert (H : ∃ a r, print_int z = a :: r ∧ (c 45 a || is_digit a) = true).
  { unfold print_int. destruct (z <? 0) eqn:Hz; [by eexists _, _|].
    apply Z.ltb_ge in Hz. destruct (digits_of_spec z Hz) as (Hd & a & r & Heq & _).
    rewrite Heq in Hd |- *. apply andb_true_iff in Hd as [Hd _].
    exists a, r. split; [done|]. rewrite Hd. apply orb_true_r. }
  destruct H as (a & r & Heq & Ha). destruct f as [|f].
  { rewrite Heq in Hf. cbn in Hf. lia. }
  cbn [parse_value]. rewrite skip_space_starts by done.
  rewrite Heq in Hl |- *. cbn [app] in Hl |- *.
  assert (Hc : (nat_of_ascii a = 45 ∨ 48 <= nat_of_ascii a <= 57)%nat).
  { apply orb_true_iff in Ha as [Ha|Ha]; [left; by apply Nat.eqb_eq in Ha|right].
    unfold is_digit in Ha. apply andb_true_iff in Ha as [?%Nat.leb_le ?%Nat.leb_le]. lia. }
  assert (Hn : ∀ n, n = 34%nat ∨ n = 123%nat ∨ n = 91%nat → c n a = false)
    by (intros n Hn; apply Nat.eqb_neq; lia).
  rewrite !Hn by auto. rewrite Ha, Hl. done.
Qed.

Lemma parses_keyword d : d = DNull ∨ d = DBool true ∨ d = DBool false → parses d.
Proof.
  intros Hd [|f] depth x Hf _ _; [|by destruct Hd as [-> | [-> | ->]]].
  destruct Hd as [-> | [-> | ->]]; vm_compute in Hf; lia.
Qed.

Lemma parse_elems_print ds : ds ≠ [] → Forall parses ds → forallb plain ds = true →
  ∀ f depth x,
  (2 * length (tail_elems (byte 93) (map print ds)) + 1 <= f)%nat →
  (foldr (λ d n, Nat.max (nesting d) n) O ds <= depth)%nat →
  parse_elems f depth (tail_elems (byte 93) (map print ds) ++ x)
    = Some (map (λ d, (of_chars (print d), value_of d)) ds, x).
Proof.
  intros Hne H. revert Hne. induction H as [|d ds Hd H IH]; [done|].
  intros _ [Hp Hps]%andb_true_iff [|f] depth x Hf Hn; [lia|].
  cbn [foldr] in Hn. cbn [parse_elems].
  destruct ds as [|d' ds].
  - cbn [map tail_elems] in Hf |- *. rewrite length_app in Hf. cbn [length] in Hf.
    rewrite <- app_assoc. cbn [app].
    rewrite skip_space_starts by (by apply print_starts).
    rewrite Hd by (done || lia). cbn [mbind option_bind].
    by rewrite consumed_app.
  - cbn [map tail_elems] in Hf, IH |- *. rewrite length_app in Hf. cbn [length] in Hf.
    rewrite <- app_assoc. cbn [app].
    rewrite skip_space_starts by (by apply print_starts).
    rewrite Hd by (done || lia). cbn [mbind option_bind].
    change (skip_space (comma :: ?l)) with (comma :: l).
    cbn iota. change (c 93 comma) with false. change (c 44 comma) with true. cbn iota.
    rewrite IH by (done || lia). cbn [mbind option_bind]. by rewrite consumed_app.
Qed.

Definition print_member (kv : string * jdoc) : list ascii :=
  print_string kv.1 ++ byte 58 :: print kv.2.

Lemma parse_members_print kvs : kvs ≠ [] → Forall (λ kv, parses kv.2) kvs →
  forallb (λ kv : string * jdoc, plain kv.2) kvs = true →
  ∀ f depth x,
  (2 * length (tail_elems (byte 125) (map print_member kvs)) + 1 <= f)%nat →
  (foldr (λ kv n, Nat.max (nesting kv.2) n) O kvs <= depth)%nat →
  parse_members f depth (tail_elems (byte 125) (map print_member kvs) ++ x)
    = Some (map (λ kv, (sanitize kv.1, (of_chars (print kv.2), value_of kv.2))) kvs, x).
Proof.
  assert (Hkey : ∀ k l, skip_space (print_string k ++ l) = print_string k ++ l) by done.
  assert (Hval : ∀ d l, plain d = true →
    skip_space (byte 58 :: print d ++ l) = byte 58 :: print d ++ l) by done.
  intros Hne H. revert Hne. induction H as [|[k d] kvs Hd H IH]; [done|].
  intros _ [Hp Hps]%andb_true_iff [|f] depth x Hf Hn; [lia|].
  cbn [foldr snd] in Hn, Hd, Hp. cbn [parse_members].
  destruct kvs as [|kv' kvs].
  - cbn [map tail_elems] in Hf |- *. unfold print_member in Hf |- *. cbn [fst snd] in Hf |- *.
    rewrite !length_app in Hf. cbn [length] in Hf.
    rewrite <- !app_assoc. cbn [app]. rewrite Hkey, quoted_print. cbn [mbind option_bind].
    rewrite Hval by done. change (c 58 (byte 58)) with true. cbn iota zeta.
    rewrite skip_space_starts by (by apply print_starts).
    rewrite Hd by (done || lia). cbn [mbind option_bind app].
    rewrite consumed_app. by rewrite String.string_of_list_ascii_of_string.
  - cbn [map tail_elems] in Hf, IH |- *. unfold print_member at 1 in Hf.
    unfold print_member at 1. cbn [fst snd] in Hf |- *.
    rewrite !length_app in Hf. cbn [length] in Hf.
    rewrite <- !app_assoc. cbn [app]. rewrite Hkey, quoted_print. cbn [mbind option_bind].
    rewrite Hval by done. change (c 58 (byte 58)) with true. cbn iota zeta.
    rewrite skip_space_starts by (by apply print_starts).
    rewrite Hd by (done || lia). cbn [mbind option_bind app].
    change (skip_space (comma :: ?l)) with (comma :: l).
    cbn iota. change (c 125 comma) with false. change (c 44 comma) with true. cbn iota.
    rewrite IH by (done || lia). cbn [mbind option_bind].
    rewrite consumed_app. by rewrite String.string_of_list_ascii_of_string.
Qed.

Lemma tail_elems_head close l ls : ∃ t, tail_elems close (l :: ls) = l ++ t.
Proof. destruct ls; cbn [tail_elems]; eauto. Qed.

(** Every plain document parses back, whatever follows it. *)
Lemma print_parses d : plain d = true → parses d.
Proof.
  induction d as [| s | b | z | r | ds IH | kvs IH] using jdoc_nested_ind; intros Hp.
  - apply parses_keyword. auto.
  - apply parses_str.
  - apply parses_keyword. destruct b; auto.
  - apply parses_int.
  - done.
  - cbn [plain] in Hp. intros f depth x Hf Hn Hx.
    cbn [print] in Hf |- *. rewrite sep_by_tail in Hf |- *.
    destruct f as [|f]; [cbn in Hf; lia|]. cbn [nesting] in Hn.
    destruct depth as [|depth]; [lia|]. cbn [app length] in Hf |- *.
    cbn [parse_value]. change (skip_space (byte 91 :: ?l)) with (byte 91 :: l).
    cbn iota. change (c 34 (byte 91)) with false. change (c 123 (byte 91)) with false.
    change (c 91 (byte 91)) with true. cbn iota.
    destruct ds as [|d ds]; [done|].
    assert (Hps : Forall parses (d :: ds)).
    { rewrite Forall_forall in IH |- *. intros d' Hin. apply IH; [done|].
      rewrite forallb_forall in Hp. apply Hp. by apply list_elem_of_In. }
    rewrite parse_elems_print by (done || lia).
    cbn [map]. destruct (tail_elems_head (byte 93) (print d) (map print ds)) as [t ->].
    rewrite <- app_assoc. apply andb_true_iff in Hp as [Hp _].
    pose proof (print_starts d Hp) as Hs. rewrite skip_space_starts by done.
    destruct (print d) as [|a l] eqn:Epd; [done|]. cbn [app].
    cbn [starts_value] in Hs. apply negb_true_iff, orb_false_iff in Hs as [[_ Hs]%orb_false_iff _].
    rewrite Hs. cbn [mbind option_bind value_of map]. by rewrite Epd.
  - cbn [plain] in Hp. intros f depth x Hf Hn Hx.
    cbn [print] in Hf |- *.
    change (map _ kvs) with (map print_member kvs) in Hf |- *.
    rewrite sep_by_tail in Hf |- *.
    destruct f as [|f]; [cbn in Hf; lia|]. cbn [nesting] in Hn.
    destruct depth as [|depth]; [lia|]. cbn [app length] in Hf |- *.
    cbn [parse_value]. change (skip_space (byte 123 :: ?l)) with (byte 123 :: l).
    cbn iota. change (c 34 (byte 123)) with false. change (c 123 (byte 123)) with true.
    cbn iota. destruct kvs as [|kv kvs]; [done|].
    assert (Hps : Forall (λ kv, parses kv.2) (kv :: kvs)).
    { rewrite Forall_forall in IH |- *. intros d' Hin. apply IH; [done|].
      rewrite forallb_forall in Hp. apply (Hp d'). by apply list_elem_of_In. }
    rewrite parse_members_print by (done || lia).
    cbn [map]. destruct (tail_elems_head (byte 125) (print_member kv) (map print_member kvs))
      as [t ->]. done.
Qed.

(** Nesting within Go's limit. *)
Lemma parse_print d : plain d = true → (nesting d <= maxNestingDepth)%nat →
  parse (of_chars (print d)) = Some (value_of d).
Proof.
  intros Hp Hn. unfold parse. rewrite String.list_ascii_of_string_of_list_ascii.
  assert (2 * length (print d) <= 2 * length (print d) + 2)%nat as Hf by (clear; lia).
  pose proof (print_parses d Hp _ maxNestingDepth [] Hf Hn eq_refl) as H.
  rewrite app_nil_r in H. by rewrite H.
Qed.

(** ** What the encoder writes: no control characters, already compact *)

Definition printable (a : ascii) : Prop := (32 <= nat_of_ascii a)%nat.

Lemma printable_eval l : forallb (λ b, 32 <=? nat_of_ascii b)%nat l = true → Forall printable l.
Proof.
  intros Hb. apply Forall_forall. intros b Hin. rewrite forallb_forall in Hb.
  by apply Nat.leb_le, Hb, list_elem_of_In.
Qed.

Lemma escape_ascii_printable a : (nat_of_ascii a < 128)%nat → Forall printable (escape_ascii a).
Proof.
  intros H. apply printable_eval. revert H.
  destruct a as [[] [] [] [] [] [] [] []]; intros H;
    first [reflexivity | exfalso; vm_compute in H; lia].
Qed.

Lemma cont_bounds lo hi a : cont lo hi a = true → lo <= Z.of_nat (nat_of_ascii a) <= hi.
Proof. unfold cont. intros [?%Z.leb_le ?%Z.leb_le]%andb_true_iff. lia. Qed.

(** The bytes after the first are continuation bytes. *)
Lemma utf8_seq_conts a r k : utf8_seq (a :: r) = S k →
  Forall (λ b, 128 <= nat_of_ascii b <= 191)%nat (take k r).
Proof.
  cbn [utf8_seq].
  repeat first [progress case_match | intros [= <-] | done];
    subst; cbn [take];
    repeat match goal with
    | H : (_ && _)%bool = true |- _ => apply andb_true_iff in H as [? ?]
    | H : cont _ _ _ = true |- _ => apply cont_bounds in H
    end; repeat (apply Forall_cons; split; [lia|]); apply Forall_nil; exact I.
Qed.

Lemma escape_printable n : ∀ l, Forall printable (escape n l).
Proof.
  induction n as [|n IH]; intros [|a r]; cbn [escape]; try constructor.
  destruct (nat_of_ascii a <? 128)%nat eqn:Ha.
  { apply Nat.ltb_lt in Ha. apply Forall_app; split; [|apply IH].
    by apply escape_ascii_printable. }
  apply Nat.ltb_ge in Ha.
  destruct (utf8_seq (a :: r)) as [|k] eqn:Hk.
  { apply Forall_app; split; [|apply IH]. by apply printable_eval. }
  apply Forall_app; split; [|apply IH].
  destruct (line_sep (a :: r)) as [d|] eqn:Hd.
  - destruct (line_sep_spec _ _ Hd) as (r' & _ & [-> | ->]); by apply printable_eval.
  - cbn [take]. constructor; [unfold printable; lia|].
    eapply Forall_impl; [by eapply utf8_seq_conts|]. cbn. unfold printable. lia.
Qed.

Lemma print_string_printable s : Forall printable (print_string s).
Proof.
  unfold print_string. constructor; [vm_compute; lia|].
  apply Forall_app; split; [apply escape_printable|]. by apply printable_eval.
Qed.

Lemma digits_printable ds : forallb is_digit ds = true → Forall printable ds.
Proof.
  intros H. apply Forall_forall. intros a Ha. rewrite forallb_forall in H.
  specialize (H a (proj1 (list_elem_of_In _ _) Ha)). unfold is_digit in H.
  apply andb_true_iff in H as [?%Nat.leb_le _]. unfold printable. lia.
Qed.

Lemma print_int_printable z : Forall printable (print_int z).
Proof.
  unfold print_int. destruct (z <? 0) eqn:Hz.
  - constructor; [vm_compute; lia|]. apply Z.ltb_lt in Hz.
    apply digits_printable, digits_of_spec. lia.
  - apply Z.ltb_ge in Hz. by apply digits_printable, digits_of_spec.
Qed.

Lemma sep_by_printable ls : Forall (Forall printable) ls → Forall printable (sep_by ls).
Proof.
  induction 1 as [|l [|l' ls] Hl H IH]; cbn [sep_by]; [constructor|done|].
  apply Forall_app; split; [done|]. constructor; [vm_compute; lia|done].
Qed.

Lemma print_printable d : plain d = true → Forall printable (print d).
Proof.
  induction d as [| s | b | z | r | ds IH | kvs IH] using jdoc_nested_ind; intros Hp; cbn [print].
  - by apply printable_eval.
  - apply print_string_printable.
  - destruct b; by apply printable_eval.
  - apply print_int_printable.
  - done.
  - constructor; [vm_compute; lia|]. apply Forall_app; split; [|by apply printable_eval].
    apply sep_by_printable, Forall_map. rewrite Forall_forall in IH |- *. intros d Hd.
    apply IH; [done|]. cbn [plain] in Hp. rewrite forallb_forall in Hp.
    by apply Hp, list_elem_of_In.
  - constructor; [vm_compute; lia|]. apply Forall_app; split; [|by apply printable_eval].
    apply sep_by_printable, Forall_map. rewrite Forall_forall in IH |- *. intros kv Hd.
    apply Forall_app; split; [apply print_string_printable|]. constructor; [vm_compute; lia|].
    apply IH; [done|]. cbn [plain] in Hp. rewrite forallb_forall in Hp.
    by apply (Hp kv), list_elem_of_In.
Qed.

(** Text the compacter copies inside a string. *)
Definition copied (p : list ascii) : Prop :=
  ∀ y, compact_chars true false (p ++ y) = p ++ compact_chars true false y.

Lemma copied_app p q : copied p → copied q → copied (p ++ q).
Proof. intros Hp Hq y. by rewrite <- !app_assoc, Hp, Hq. Qed.

Lemma copied_nil : copied [].
Proof. done. Qed.

Lemma copied_ascii a : (nat_of_ascii a < 128)%nat → copied (escape_ascii a).
Proof.
  rewrite <- Nat.ltb_lt.
  destruct a as [[] [] [] [] [] [] [] []]; intros H;
    first [discriminate H | intros [|? [|? ?]]; reflexivity].
Qed.

Lemma copied_sep d : d = byte 168 ∨ d = byte 169 → copied (escape_sep d).
Proof. intros [-> | ->] [|? [|? ?]]; reflexivity. Qed.

(** A byte above 127 that does not start a line separator. *)
Lemma compact_high a y : (128 <= nat_of_ascii a)%nat → line_sep (a :: y) = None →
  compact_chars true false (a :: y) = a :: compact_chars true false y.
Proof.
  intros Ha Hs. cbn [compact_chars]. rewrite Hs.
  assert (Hc : ∀ n, (n < 128)%nat → c n a = false) by (intros n Hn; apply Nat.eqb_neq; lia).
  unfold html_unsafe. rewrite !Hc by lia. by destruct y.
Qed.

Lemma copied_conts p : Forall (λ b, 128 <= nat_of_ascii b <= 191)%nat p → copied p.
Proof.
  induction 1 as [|b p Hb H IH]; [apply copied_nil|]. intros y. cbn [app].
  rewrite compact_high; [by rewrite IH|lia|].
  unfold line_sep. destruct (p ++ y) as [|d [|e t]]; try done.
  assert (c 226 b = false) as -> by (apply Nat.eqb_neq; lia). done.
Qed.

Lemma line_sep_take l k y : utf8_seq l = S k → line_sep l = None →
  line_sep (take (S k) l ++ y) = None.
Proof.
  destruct l as [|a r]; [done|]. intros Hk Hs.
  destruct (c 226 a) eqn:Ha.
  - apply Nat.eqb_eq in Ha. revert Hk. cbn [utf8_seq]. rewrite Ha.
    destruct r as [|b [|d r]]; try done. cbn [Z.of_nat].
    change ((194 <=? Z.of_nat 226) && (Z.of_nat 226 <=? 223)) with false.
    change ((224 <=? Z.of_nat 226) && (Z.of_nat 226 <=? 239)) with true. cbn iota.
    case_match; [|done]. intros [= <-]. exact Hs.
  - cbn [take app line_sep]. rewrite Ha.
    by destruct (take k r ++ y) as [|b [|d t]].
Qed.

Lemma copied_escape n : ∀ l, copied (escape n l).
Proof.
  induction n as [|n IH]; intros [|a r]; cbn [escape]; try apply copied_nil.
  destruct (nat_of_ascii a <? 128)%nat eqn:Ha.
  { apply Nat.ltb_lt in Ha. by apply copied_app, IH; apply copied_ascii. }
  apply Nat.ltb_ge in Ha.
  destruct (utf8_seq (a :: r)) as [|k] eqn:Hk.
  { apply copied_app; [intros [|? [|? ?]]; reflexivity|apply IH]. }
  apply copied_app; [|apply IH].
  destruct (line_sep (a :: r)) as [d|] eqn:Hd.
  - destruct (line_sep_spec _ _ Hd) as (r' & _ & Hcase). by apply copied_sep.
  - intros y. pose proof (line_sep_take _ _ y Hk Hd) as Hs. cbn [take app] in Hs |- *.
    rewrite compact_high by done. by rewrite copied_conts by (by eapply utf8_seq_conts).
Qed.

Definition kept (p : list ascii) : Prop :=
  ∀ y, compact_chars false false (p ++ y) = p ++ compact_chars false false y.

Lemma kept_app p q : kept p → kept q → kept (p ++ q).
Proof. intros Hp Hq y. by rewrite <- !app_assoc, Hp, Hq. Qed.

Lemma kept_cons a q : kept [a] → kept q → kept (a :: q).
Proof. apply (kept_app [a]). Qed.

Lemma kept_string s : kept (print_string s).
Proof.
  intros y. unfold print_string. cbn [app].
  assert (∀ l, compact_chars false false (quote :: l) = quote :: compact_chars true false l) as ->
    by (intros [|? [|? ?]]; done).
  rewrite <- app_assoc, copied_escape. cbn [app].
  assert (∀ l, compact_chars true false (quote :: l) = quote :: compact_chars false false l) as ->
    by (intros [|? [|? ?]]; done).
  by rewrite <- app_assoc.
Qed.

Lemma kept_char a : is_digit a = true ∨ a ∈ chars "-,:[]{}trufalsen" → kept [a].
Proof.
  intros Ha y.
  assert (Hc : c 226 a = false ∧ is_space a = false ∧ html_unsafe a = false ∧ c 34 a = false).
  { destruct Ha as [Ha|Ha].
    - unfold is_digit in Ha. apply andb_true_iff in Ha as [?%Nat.leb_le ?%Nat.leb_le].
      unfold is_space, html_unsafe, c. rewrite !(proj2 (Nat.eqb_neq _ _)) by lia. done.
    - revert a Ha. apply Forall_forall. repeat (constructor; [done|]). constructor. }
  destruct Hc as (H1 & H2 & H3 & H4). cbn [app compact_chars].
  rewrite H3. unfold line_sep. rewrite H1, H2, H4. cbn [negb andb orb].
  by destruct y as [|? [|? ?]].
Qed.

Lemma kept_word l : forallb (λ a, is_digit a || bool_decide (a ∈ chars "-,:[]{}trufalsen")) l = true →
  kept l.
Proof.
  induction l as [|a l IH]; [done|]. intros [Ha Hl]%andb_true_iff.
  apply kept_cons; [|by apply IH]. apply kept_char.
  apply orb_true_iff in Ha as [Ha|Ha]; [by left|right; by apply bool_decide_eq_true in Ha].
Qed.

Lemma kept_digits l : forallb is_digit l = true → kept l.
Proof.
  intros H. apply kept_word. rewrite forallb_forall in H |- *. intros a Ha. by rewrite (H a Ha).
Qed.

Lemma kept_sep_by ls : Forall kept ls → kept (sep_by ls).
Proof.
  induction 1 as [|l [|l' ls] Hl H IH]; cbn [sep_by]; [done|done|].
  apply kept_app; [done|]. apply kept_cons; [by apply kept_word|done].
Qed.

Lemma kept_print d : plain d = true → kept (print d).
Proof.
  induction d as [| s | b | z | r | ds IH | kvs IH] using jdoc_nested_ind; intros Hp; cbn [print].
  - by apply kept_word.
  - apply kept_string.
  - destruct b; by apply kept_word.
  - unfold print_int. destruct (z <? 0) eqn:Hz.
    + apply kept_cons; [by apply kept_word|]. apply Z.ltb_lt in Hz.
      apply kept_digits, digits_of_spec. lia.
    + apply Z.ltb_ge in Hz. by apply kept_digits, digits_of_spec.
  - done.
  - apply kept_cons; [by apply kept_word|]. apply kept_app; [|by apply kept_word].
    apply kept_sep_by, Forall_map. rewrite Forall_forall in IH |- *. intros d Hd.
    apply IH; [done|]. cbn [plain] in Hp. rewrite forallb_forall in Hp.
    by apply Hp, list_elem_of_In.
  - apply kept_cons; [by apply kept_word|]. apply kept_app; [|by apply kept_word].
    apply kept_sep_by, Forall_map. rewrite Forall_forall in IH |- *. intros kv Hd.
    apply kept_app; [apply kept_string|]. apply kept_cons; [by apply kept_word|].
    apply IH; [done|]. cbn [plain] in Hp. rewrite forallb_forall in Hp.
    by apply (Hp kv), list_elem_of_In.
Qed.

(** What [json.Marshal] wrote passes through [json.RawMessage] unchanged. *)
Lemma compact_print d : plain d = true → (nesting d <= maxNestingDepth)%nat →
  compact (Some (of_chars (print d))) = Some (print d).
Proof.
  intros Hp Hn. unfold compact. rewrite parse_print by done.
  rewrite String.list_ascii_of_string_of_list_ascii. f_equal.
  pose proof (kept_print d Hp []) as H. by rewrite app_nil_r in H; rewrite H, app_nil_r.
Qed.

(** ** Text the escaper copies *)

(** Printable ASCII without the characters that are escaped. *)
Definition safe (a : ascii) : bool :=
  let n := nat_of_ascii a in
  (n <? 128)%nat && negb (n <? 32)%nat && negb (c 34 a || c 92 a || html_unsafe a).

Lemma escape_safe n : ∀ l, forallb safe l = true → (length l <= n)%nat → escape n l = l.
Proof.
  induction n as [|n IH]; intros [|a l]; cbn [forallb length escape]; try done; [lia|].
  intros [Ha Hl]%andb_true_iff Hn. unfold safe in Ha.
  apply andb_true_iff in Ha as [[H1 H2%negb_true_iff]%andb_true_iff H3%negb_true_iff].
  rewrite H1, IH by (done || lia). apply orb_false_iff in H3 as [[H34 H92]%orb_false_iff Hh].
  unfold escape_ascii. rewrite H34, H92, H2, Hh. cbn [orb].
  apply Nat.ltb_ge in H2. unfold c. by rewrite !(proj2 (Nat.eqb_neq _ _)) by lia.
Qed.

Lemma sanitize_ascii n : ∀ l, forallb (λ a, nat_of_ascii a <? 128)%nat l = true →
  (length l <= n)%nat → sanitize_chars n l = l.
Proof.
  induction n as [|n IH]; intros [|a l]; cbn [forallb length sanitize_chars]; try done; [lia|].
  intros [Ha Hl]%andb_true_iff Hn. rewrite Ha, IH by (done || lia). done.
Qed.

Lemma length_chars s : String.length s = length (chars s).
Proof. induction s as [|a s IH]; [done|]. cbn. by rewrite IH. Qed.

(** Text that survives the round trip: well-formed UTF-8. *)
Definition valid_text (s : string) : Prop := sanitize s = s.

Lemma valid_ascii s :
  forallb (λ a, nat_of_ascii a <? 128)%nat (chars s) = true → valid_text s.
Proof.
  intros H. unfold valid_text, sanitize. rewrite sanitize_ascii; [|done|].
  - apply String.string_of_list_ascii_of_string.
  - by rewrite length_chars.
Qed.

Lemma print_string_safe s : forallb safe (chars s) = true →
  print_string s = quote :: chars s ++ [quote].
Proof. intros H. unfold print_string. by rewrite escape_safe by (by rewrite ?length_chars). Qed.
