(* ===== verification/AuditLog.v ===== *)
(** * The audit log file

    src/internal/infrastructure/auditlog: the append-only JSONL file whose
    entries are signed and chained by hash ([jsonl.go]), its scan
    ([scan.go]), the persisted chain tip ([sqlite/audit_state.go]), and the
    JSON of an entry ([ports.AuditEvent], [services/audit.go]).

    The disk holds the bytes of the log file and the stored tip.  What the
    operating system decides about one call (a write that stops after some
    bytes, a statement on the tip that fails) is the record [io]. *)

From S2P Require Import Prelude GoStd GoTime Json Events Payload Sha256 TimeProps World JsonPrint.
#[global] Open Scope Z_scope.

(** crypto/ed25519.  Keys, messages and signatures are byte strings. *)
Class Ed25519 : Type := {
  ed25519_Public : bytes → bytes;
  ed25519_Sign : bytes → bytes → bytes;
  ed25519_Verify : bytes → bytes → bytes → bool }.

(** ** bufio.Scanner with ScanLines *)
Module bufio.

Definition MaxScanTokenSize : Z := 64 * 1024.

Definition newline : ascii := ascii_of_nat 10.
Definition is_newline (a : ascii) : bool := json.c 10 a.

(** The lines ended by a newline, and the bytes after the last newline. *)
Fixpoint split_lines (l : list ascii) : list (list ascii) * list ascii :=
  match l with
  | [] => ([], [])
  | a :: r =>
      let (ls, rest) := split_lines r in
      if is_newline a then ([] :: ls, rest)
      else match ls with
           | [] => ([], a :: rest)
           | x :: ls => ((a :: x) :: ls, rest)
           end
  end.

Definition dropCR (l : list ascii) : list ascii :=
  match rev l with
  | a :: r => if json.c 13 a then rev r else l
  | [] => []
  end.

(** The tokens up to a line that does not fit the buffer together with its
    newline, and whether [Scanner.Err] is [ErrTooLong]. *)
Fixpoint take_lines (max : Z) (ls : list (list ascii)) : list (list ascii) * bool :=
  match ls with
  | [] => ([], false)
  | l :: ls =>
      if max <=? len l then ([], true)
      else let (ts, e) := take_lines max ls in (dropCR l :: ts, e)
  end.

Definition scan_lines (max : Z) (data : list ascii) : list (list ascii) * bool :=
  let (ls, rest) := split_lines data in
  take_lines max (ls ++ match rest with [] => [] | _ => [rest] end).

End bufio.

(** ** ports.AuditEvent *)
Module ports.

Record AuditEvent : Type := mkAuditEvent {
  LaunchID : string;
  EventName : string;
  OccurredAt : time.Time;
  Payload : option bytes; (* json.RawMessage *)
  Signature : string;
  PrevHash : string }.

#[global] Instance AuditEvent_eq_dec : EqDecision AuditEvent.
Proof. solve_decision. Defined.

Definition with_Signature (s : string) (e : AuditEvent) : AuditEvent :=
  mkAuditEvent (LaunchID e) (EventName e) (OccurredAt e) (Payload e) s (PrevHash e).
Definition with_PrevHash (h : string) (e : AuditEvent) : AuditEvent :=
  mkAuditEvent (LaunchID e) (EventName e) (OccurredAt e) (Payload e) (Signature e) h.

Definition GlobalAuditScope : string := "global".

(** The struct presented to the encoders; [prev_hash] is [omitempty]. *)
Definition doc_of (e : AuditEvent) (payload : jdoc) : jdoc :=
  DObj ([("launch_id", DStr (LaunchID e)); ("event_name", DStr (EventName e));
         ("occurred_at", DStr (rfc3339.FormatNano (OccurredAt e)));
         ("payload", payload); ("signature", DStr (Signature e))]%string
        ++ if is_empty (PrevHash e) then [] else [("prev_hash"%string, DStr (PrevHash e))]).
Definition doc (e : AuditEvent) : jdoc := doc_of e (DRaw (Payload e)).

(** A year outside 0 to 9999 cannot be written. *)
Definition json_Marshal (e : AuditEvent) : result bytes :=
  if bool_decide (timetext.storable (OccurredAt e)) then jsonenc.Marshal (doc e) else Err errorf.

Definition names : list string :=
  ["launch_id"; "event_name"; "occurred_at"; "payload"; "signature"; "prev_hash"]%string.

Section decoding.
Import json.

Definition decode (v : value) : option AuditEvent :=
  l ← field names "launch_id" d_string "" v;
  n ← field names "event_name" d_string "" v;
  t ← field names "occurred_at" payload.d_time time.zeroTime v;
  p ← field names "payload" d_raw None v;
  s ← field names "signature" d_string "" v;
  h ← field names "prev_hash" d_string "" v;
  Some (mkAuditEvent l n t p s h).

Definition json_Unmarshal (s : bytes) : result AuditEvent := unmarshal decode s.
End decoding.

End ports.

(** ** The writer *)
Module auditlog.
Import ports.

Definition sha256hex (b : list ascii) : string := sha256.hex_sum (of_chars b).

Record JSONLWriter : Type := mkWriter {
  w_privKey : option bytes;
  w_prevHash : string;
  w_prevHashStore : bool; (* attached *)
  w_lastOccurredAt : time.Time;
  w_closed : bool }.

Record disk : Type := mkDisk {
  d_file : option (list ascii);
  d_tip : option string (* row 1 of audit_state *) }.

(** [io_write = Some n]: the write fails after [n] bytes. *)
Record io : Type := mkIO { io_write : option nat; io_tip_fails : bool }.
Definition io_ok : io := mkIO None false.

(** [Open]: [O_CREATE | O_APPEND]. *)
Definition Open (privKey : option bytes) (d : disk) : JSONLWriter * disk :=
  (mkWriter privKey "" false time.zeroTime false,
   mkDisk (Some (default [] (d_file d))) (d_tip d)).

(** audit_state.go *)
Definition LoadPrevHash (d : disk) (o : io) : result string :=
  if io_tip_fails o then Err errorf else Ok (default ""%string (d_tip d)).
Definition SavePrevHash (hash : string) (d : disk) (o : io) : result unit * disk :=
  if io_tip_fails o then (Err errorf, d) else (Ok tt, mkDisk (d_file d) (Some hash)).

Definition maxScan : Z := 64 * 1024.

(** The last non-empty token of the last 64 KB, and the scanner's error. *)
Definition last_nonempty (ts : list (list ascii)) : list ascii :=
  foldl (λ cur t, match t with [] => cur | _ => t end) [] ts.

Definition readLastLine (data : list ascii) : result (list ascii) :=
  let offset := Z.max 0 (len data - maxScan) in
  let (ts, e) := bufio.scan_lines bufio.MaxScanTokenSize (drop (Z.to_nat offset) data) in
  if e then Err errorf else Ok (last_nonempty ts).

Definition verifyLastLineHash (d : disk) (storedHash : string) : result unit :=
  match d_file d with
  | None => Err errorf
  | Some data =>
      last ← readLastLine data;
      match last with
      | [] => Err errorf
      | _ => if bool_decide (sha256hex last = storedHash) then Ok tt else Err errorf
      end
  end.

Definition WithPrevHashStore (w : JSONLWriter) (d : disk) (o : io) : result JSONLWriter :=
  storedHash ← LoadPrevHash d o;
  _ ← (if is_empty storedHash then Ok tt else verifyLastLineHash d storedHash);
  Ok (mkWriter (w_privKey w) storedHash true (w_lastOccurredAt w) (w_closed w)).

Definition lastEntryOccurredAt (d : disk) : result time.Time :=
  match d_file d with
  | None => Err errorf
  | Some data =>
      last ← readLastLine data;
      match last with
      | [] => Ok time.zeroTime
      | _ => ev ← json_Unmarshal (of_chars last); Ok (OccurredAt ev)
      end
  end.

Section signing.
Context `{CJ : CanonicalJSON} `{ED : Ed25519}.

Definition PubKey (w : JSONLWriter) : option bytes := ed25519_Public <$> w_privKey w.

(** The entry as it is signed: everything but the signature. *)
Definition sign (k : bytes) (ev : AuditEvent) : result string :=
  msg ← canonical_MarshalForSigning (doc ev);
  Ok (base64.EncodeToString (ed25519_Sign k msg)).

(** The clock-regression warning of [Append] is a log line only. *)
Definition Append (w : JSONLWriter) (d : disk) (o : io) (ev0 : AuditEvent)
    : result unit * (JSONLWriter * disk) :=
  let ev := with_PrevHash (w_prevHash w) ev0 in
  match
    ev ← (match w_privKey w with
          | Some k => sig ← sign k ev; Ok (with_Signature sig ev)
          | None => Ok ev
          end);
    line ← json_Marshal ev; Ok (ev, chars line)
  with
  | Err e => (Err e, (w, d))
  | Ok (ev, line) =>
      let data := default [] (d_file d) in
      let out := line ++ [bufio.newline] in
      if w_closed w then (Err errorf, (w, d))
      else
        match io_write o with
        | Some n => (Err errorf, (w, mkDisk (Some (data ++ take n out)) (d_tip d)))
        | None =>
            let d := mkDisk (Some (data ++ out)) (d_tip d) in
            let w := mkWriter (w_privKey w) (sha256hex line) (w_prevHashStore w)
                       (OccurredAt ev) false in
            if w_prevHashStore w then
              let (r, d) := SavePrevHash (w_prevHash w) d o in (r, (w, d))
            else (Ok tt, (w, d))
        end
  end.

(** Lines that are not entries are skipped; the scanner's error comes with
    what was read before it. *)
Definition ReadForLaunch (d : disk) (launchID : string) : list AuditEvent * bool :=
  match d_file d with
  | None => ([], false)
  | Some data =>
      let (ts, e) := bufio.scan_lines bufio.MaxScanTokenSize data in
      (filter (λ ev, LaunchID ev = launchID)
         (omap (λ t, match json_Unmarshal (of_chars t) with Ok ev => Some ev | Err _ => None end) ts),
       e)
  end.

(** ** scan.go *)
Definition maxAuditLineBytes : Z := 2 ^ 20.

Inductive AnomalyKind : Type := AnomalyTamper | AnomalyClock.

(** What an anomaly's message says. *)
Inductive reason : Type :=
  | invalid_json
  | missing_fields (fields : list string)
  | timestamp_before (t prev : time.Time)
  | invalid_signature_encoding
  | remarshaling
  | signature_failed
  | no_previous_line
  | prev_hash_mismatch (want got : string).

Record Anomaly : Type := mkAnomaly { Line : Z; Kind : AnomalyKind; Msg : reason }.

Record ScanResult : Type := mkScan {
  Count : Z;
  FirstTime : time.Time;
  LastTime : time.Time;
  Anomalies : list Anomaly;
  ChainChecked : bool }.

Definition is_tamper (a : Anomaly) : bool :=
  match Kind a with AnomalyTamper => true | AnomalyClock => false end.
Definition HasTamper (r : ScanResult) : bool := existsb is_tamper (Anomalies r).

Definition missingAuditFields (entry : AuditEvent) : list string :=
  (if is_empty (LaunchID entry) then ["launch_id"%string] else [])
  ++ (if is_empty (EventName entry) then ["event_name"%string] else [])
  ++ (if time.IsZero (OccurredAt entry) then ["occurred_at"%string] else [])
  ++ (if is_empty (default "" (Payload entry)) then ["payload"%string] else []).

(** [None] when there is nothing to report. *)
Definition checkSignature (entry : AuditEvent) (pubKey : option bytes) : option reason :=
  match pubKey with
  | None => None
  | Some pub =>
      if is_empty (Signature entry) then None
      else
        match base64.DecodeString (Signature entry) with
        | Err _ => Some invalid_signature_encoding
        | Ok sig =>
            match canonical_MarshalForSigning (doc (with_Signature "" entry)) with
            | Err _ => Some remarshaling
            | Ok msg => if ed25519_Verify pub msg sig then None else Some signature_failed
            end
        end
  end.

Definition checkPrevHashLink (entry : AuditEvent) (prev : list ascii) : option reason * bool :=
  if is_empty (PrevHash entry) then (None, false)
  else
    match prev with
    | [] => (Some no_previous_line, false)
    | _ =>
        let want := sha256hex prev in
        if bool_decide (PrevHash entry = want) then (None, true)
        else (Some (prev_hash_mismatch want (PrevHash entry)), false)
    end.

(** The loop's variables. *)
Record scan_state : Type := mkScanState {
  ss_res : ScanResult;
  ss_lineNum : Z;
  ss_prevTime : time.Time;
  ss_prevLine : list ascii }.

Definition add_anomalies (l : list Anomaly) (r : ScanResult) : ScanResult :=
  mkScan (Count r) (FirstTime r) (LastTime r) (Anomalies r ++ l) (ChainChecked r).

Definition tamper_of (n : Z) (m : option reason) : list Anomaly :=
  match m with Some m => [mkAnomaly n AnomalyTamper m] | None => [] end.

Definition scan_step (pubKey : option bytes) (s : scan_state) (line : list ascii) : scan_state :=
  let n := ss_lineNum s + 1 in
  let report m := mkScanState (add_anomalies [mkAnomaly n AnomalyTamper m] (ss_res s)) n
                    (ss_prevTime s) (ss_prevLine s) in
  match line with
  | [] => mkScanState (ss_res s) n (ss_prevTime s) (ss_prevLine s)
  | _ =>
      match json_Unmarshal (of_chars line) with
      | Err _ => report invalid_json
      | Ok entry =>
          match missingAuditFields entry with
          | (_ :: _) as missing => report (missing_fields missing)
          | [] =>
              let clock :=
                if negb (time.IsZero (ss_prevTime s))
                   && time.Before (OccurredAt entry) (ss_prevTime s)
                then [mkAnomaly n AnomalyClock (timestamp_before (OccurredAt entry) (ss_prevTime s))]
                else [] in
              let sig := tamper_of n (checkSignature entry pubKey) in
              let '(m, checked) := checkPrevHashLink entry (ss_prevLine s) in
              let r := add_anomalies (clock ++ sig ++ tamper_of n m) (ss_res s) in
              mkScanState
                (mkScan (Count r + 1) (if Count r =? 0 then OccurredAt entry else FirstTime r)
                   (OccurredAt entry) (Anomalies r) (checked || ChainChecked r))
                n (OccurredAt entry) line
          end
      end
  end.

Definition scan_start : scan_state :=
  mkScanState (mkScan 0 time.zeroTime time.zeroTime [] false) 0 time.zeroTime [].

(** The result, and whether the scanner stopped at an oversized line. *)
Definition Scan (data : list ascii) (pubKey : option bytes) : ScanResult * bool :=
  let (ts, e) := bufio.scan_lines maxAuditLineBytes data in
  (ss_res (foldl (scan_step pubKey) scan_start ts), e).

Definition VerifyOnStart (w : JSONLWriter) (d : disk) (full : bool) : result JSONLWriter :=
  last ← lastEntryOccurredAt d;
  let w := mkWriter (w_privKey w) (w_prevHash w) (w_prevHashStore w) last (w_closed w) in
  if negb full then Ok w
  else
    match d_file d with
    | None => Err errorf
    | Some data =>
        let (res, e) := Scan data (PubKey w) in
        if e then Err errorf
        else if HasTamper res then Err errorf
        else Ok w
    end.

(** [openAuditLog] (serve.go): open, restore the tip, check. *)
Definition openAuditLog (privKey : option bytes) (full : bool) (d : disk) (o : io)
    : result JSONLWriter * disk :=
  let (w, d) := Open privKey d in
  (w ← WithPrevHashStore w d o; VerifyOnStart w d full, d).

Definition Close (w : JSONLWriter) : JSONLWriter :=
  mkWriter (w_privKey w) (w_prevHash w) (w_prevHashStore w) (w_lastOccurredAt w) true.

End signing.
End auditlog.
