(* ===== verification/AuditLogProps.v ===== *)
(** * Properties of the audit log

    [Append] keeps the file a chain of entries that scans clean and reads
    back exactly; what a check at startup accepts ends with the true log. *)

From S2P Require Import Prelude GoStd GoTime Json Events Payload Sha256 TimeProps World JsonPrint.
From S2P Require Import JsonProps AuditLog.
From stdpp Require Import sorting.
Import json jsonenc ports auditlog.
#[global] Open Scope Z_scope.

(** ** The JSON of an entry *)

Lemma pad_digits_safe n z : forallb safe (rfc3339.pad_digits n z) = true.
Proof.
  revert z. induction n as [|n IH]; intros z; [done|]. cbn [rfc3339.pad_digits].
  rewrite forallb_app, IH. cbn [forallb]. rewrite andb_true_r.
  assert (0 <= z mod 10 < 10) by (apply Z.mod_pos_bound; lia).
  unfold rfc3339.dig. remember (Z.to_nat (z mod 10)) as k eqn:Hk.
  assert (k < 10)%nat by lia. do 10 (destruct k as [|k]; [reflexivity|]). lia.
Qed.

Lemma forallb_safe_rev l : forallb safe (rev l) = forallb safe l.
Proof.
  induction l as [|a l IH]; [done|]. cbn [rev]. rewrite forallb_app, IH. cbn [forallb].
  by rewrite andb_true_r, andb_comm.
Qed.

Lemma drop_zeros_safe l : forallb safe l = true → forallb safe (rfc3339.drop_zeros l) = true.
Proof.
  induction l as [|a l IH]; [done|]. cbn [rfc3339.drop_zeros]. intros H.
  destruct (net.is_char 48 a); [|done]. apply IH. by apply andb_true_iff in H as [_ ?].
Qed.

Lemma frac_safe ns : forallb safe (rfc3339.frac_chars ns) = true.
Proof.
  unfold rfc3339.frac_chars.
  assert (forallb safe (rev (rfc3339.drop_zeros (rev (rfc3339.pad_digits 9 ns)))) = true) as H.
  { rewrite forallb_safe_rev. apply drop_zeros_safe. rewrite forallb_safe_rev.
    apply pad_digits_safe. }
  destruct (rev _); [done|]. cbn [forallb] in *. by rewrite H.
Qed.

Lemma format_safe t : forallb safe (chars (rfc3339.FormatNano t)) = true.
Proof.
  rewrite timetext.FormatNano_chars. unfold rfc3339.format_chars.
  destruct (rfc3339.civil_from_days _) as [[y mo] d]. cbn zeta.
  assert (∀ z, forallb safe (rfc3339.pad2 z) = true) as Hp
    by (intros z; rewrite timetext.pad2_digits; apply pad_digits_safe).
  rewrite timetext.pad4_digits, !forallb_app, !Hp, pad_digits_safe, frac_safe.
  reflexivity.
Qed.

Section members.
Variables x1 x2 x3 x4 x5 : string * value.

Definition members5 : list (string * (string * value)) :=
  [("launch_id", x1); ("event_name", x2); ("occurred_at", x3); ("payload", x4);
   ("signature", x5)]%string.

Lemma stores5 rest (r : list (string * value)) :
  rest = [] ∧ r = [] ∨ (∃ x, rest = [("prev_hash"%string, x)] ∧ r = [x]) →
  stores names "launch_id" (JObj (members5 ++ rest)) = [x1] ∧
  stores names "event_name" (JObj (members5 ++ rest)) = [x2] ∧
  stores names "occurred_at" (JObj (members5 ++ rest)) = [x3] ∧
  stores names "payload" (JObj (members5 ++ rest)) = [x4] ∧
  stores names "signature" (JObj (members5 ++ rest)) = [x5] ∧
  stores names "prev_hash" (JObj (members5 ++ rest)) = r.
Proof. intros [[-> ->]|(x & -> & ->)]; vm_compute; auto 10. Qed.
End members.

Lemma plain_doc e p : plain p = true → plain (doc_of e p) = true.
Proof. intros Hp. unfold doc_of. destruct (is_empty (PrevHash e)); cbn; by rewrite Hp. Qed.

Lemma nesting_doc e p : nesting (doc_of e p) = S (nesting p).
Proof.
  unfold doc_of. destruct (is_empty (PrevHash e)); cbn [app nesting foldr snd]; lia.
Qed.

(** An entry whose text fields are well-formed, with the JSON of [p] as its
    payload. *)
Record printable_entry (e : AuditEvent) (p : jdoc) : Prop := {
  pe_plain : plain p = true;
  pe_nesting : (S (nesting p) <= maxNestingDepth)%nat;
  pe_payload : Payload e = Some (of_chars (print p));
  pe_time : timetext.storable (OccurredAt e);
  pe_launch : valid_text (LaunchID e);
  pe_name : valid_text (EventName e);
  pe_sig : valid_text (Signature e);
  pe_prev : valid_text (PrevHash e) }.

Lemma print_doc e p : printable_entry e p → print (doc e) = print (doc_of e p).
Proof.
  intros [Hp Hn Hpl _ _ _ _ _].
  assert (print (DRaw (Payload e)) = print p) as E.
  { cbn [print]. rewrite Hpl, compact_print; [done|done|].
    apply Nat.le_trans with (S (nesting p)); [apply Nat.le_succ_diag_r|done]. }
  unfold doc, doc_of. destruct (is_empty (PrevHash e)); cbn [app print map snd] in E |- *;
    by rewrite E.
Qed.

Lemma Marshal_entry e p : printable_entry e p →
  json_Marshal e = Ok (of_chars (print (doc_of e p))).
Proof.
  intros He. pose proof He as [Hp Hn Hpl Ht _ _ _ _].
  unfold json_Marshal. rewrite bool_decide_true by done. unfold Marshal.
  rewrite (print_doc e p He).
  assert (raw_ok (doc e) = true) as ->; [|done].
  unfold doc, doc_of. rewrite Hpl.
  assert (compact (Some (of_chars (print p))) = Some (print p)) as Hc.
  { apply compact_print; [done|].
    apply Nat.le_trans with (S (nesting p)); [apply Nat.le_succ_diag_r|done]. }
  destruct (is_empty (PrevHash e)); cbn [raw_ok app forallb snd andb]; rewrite Hc; done.
Qed.

Definition slot (d : jdoc) : string * value := (of_chars (print d), value_of d).

Definition tail_members (e : AuditEvent) : list (string * (string * value)) :=
  if is_empty (PrevHash e) then [] else [("prev_hash"%string, slot (DStr (PrevHash e)))].

Definition members_of (e : AuditEvent) (p : jdoc) : list (string * (string * value)) :=
  members5 (slot (DStr (LaunchID e))) (slot (DStr (EventName e)))
    (slot (DStr (rfc3339.FormatNano (OccurredAt e)))) (slot p) (slot (DStr (Signature e)))
  ++ tail_members e.

Lemma names_valid :
  sanitize "launch_id" = "launch_id"%string ∧ sanitize "event_name" = "event_name"%string ∧
  sanitize "occurred_at" = "occurred_at"%string ∧ sanitize "payload" = "payload"%string ∧
  sanitize "signature" = "signature"%string ∧ sanitize "prev_hash" = "prev_hash"%string.
Proof. vm_compute. auto 10. Qed.

Lemma value_doc e p : value_of (doc_of e p) = JObj (members_of e p).
Proof.
  destruct names_valid as (H1 & H2 & H3 & H4 & H5 & H6).
  unfold doc_of, members_of, tail_members, members5. cbn [value_of]. f_equal.
  rewrite map_app. apply (f_equal2 app).
  - cbn [map fst snd]. by rewrite H1, H2, H3, H4, H5.
  - destruct (is_empty (PrevHash e)); cbn [map fst snd]; by rewrite ?H6.
Qed.

Lemma d_time_slot t cur : timetext.storable t →
  payload.d_time cur (slot (DStr (rfc3339.FormatNano t))) = Some t.
Proof.
  intros Ht. unfold payload.d_time, slot. cbn [fst snd value_of print].
  rewrite print_string_safe by apply format_safe.
  rewrite String.list_ascii_of_string_of_list_ascii.
  change (drop 1 (quote :: ?l)) with l.
  rewrite removelast_last, String.string_of_list_ascii_of_string.
  by apply timetext.parse_format.
Qed.

Lemma field_one {A} (d : decoder A) zero v x a n :
  stores names n v = [x] → d zero x = Some a → field names n d zero v = Some a.
Proof. intros Hs Hd. unfold field. by rewrite Hs. Qed.

Lemma d_string_slot s cur : valid_text s → d_string cur (slot (DStr s)) = Some s.
Proof. intros H. cbn. by rewrite H. Qed.

Lemma decode_members e p : printable_entry e p → decode (JObj (members_of e p)) = Some e.
Proof.
  intros He. pose proof He as [_ _ Hpl Ht Hl Hnm Hs Hpr].
  set (r := snd <$> tail_members e).
  assert (Hrest : tail_members e = [] ∧ r = [] ∨
    (∃ x, tail_members e = [("prev_hash"%string, x)] ∧ r = [x])).
  { unfold r, tail_members. destruct (is_empty (PrevHash e)); [by left|right; eauto]. }
  destruct (stores5 (slot (DStr (LaunchID e))) (slot (DStr (EventName e)))
    (slot (DStr (rfc3339.FormatNano (OccurredAt e)))) (slot p) (slot (DStr (Signature e)))
    (tail_members e) r Hrest) as (S1 & S2 & S3 & S4 & S5 & S6).
  fold (members_of e p) in S1, S2, S3, S4, S5, S6.
  assert (field names "prev_hash" d_string "" (JObj (members_of e p)) = Some (PrevHash e)) as S6'.
  { unfold field. rewrite S6. unfold r, tail_members.
    destruct (is_empty (PrevHash e)) eqn:Hempty.
    - apply is_empty_spec in Hempty. by rewrite Hempty.
    - cbn [fmap list_fmap snd foldl]. by apply d_string_slot. }
  unfold decode.
  rewrite (field_one d_string _ _ _ _ _ S1 (d_string_slot _ _ Hl)).
  rewrite (field_one d_string _ _ _ _ _ S2 (d_string_slot _ _ Hnm)).
  rewrite (field_one payload.d_time _ _ _ _ _ S3 (d_time_slot _ _ Ht)).
  rewrite (field_one d_raw None _ _ _ _ S4 eq_refl).
  rewrite (field_one d_string _ _ _ _ _ S5 (d_string_slot _ _ Hs)).
  rewrite S6'. cbn [mbind option_bind slot fst]. rewrite <- Hpl. by destruct e.
Qed.

(** [json.Unmarshal] of [json.Marshal] is the entry. *)
Lemma Unmarshal_entry e p : printable_entry e p →
  json_Unmarshal (of_chars (print (doc_of e p))) = Ok e.
Proof.
  intros He. pose proof He as [Hp Hn _ _ _ _ _ _].
  unfold json_Unmarshal, unmarshal.
  rewrite parse_print; [|by apply plain_doc|by rewrite nesting_doc].
  rewrite value_doc. cbn [is_struct_doc negb]. by rewrite (decode_members e p He).
Qed.

(** ** Lines of a file *)
Import bufio.

Definition no_newline (l : list ascii) : Prop := Forall (λ a, is_newline a = false) l.

(** Newline-terminated lines, one after the other. *)
Fixpoint flat (ls : list (list ascii)) : list ascii :=
  match ls with [] => [] | l :: ls => l ++ newline :: flat ls end.

Lemma flat_app ls ls' : flat (ls ++ ls') = flat ls ++ flat ls'.
Proof. induction ls as [|l ls IH]; [done|]. cbn. by rewrite IH, <- app_assoc. Qed.

Lemma split_lines_spec data ls rest :
  split_lines data = (ls, rest) →
  data = flat ls ++ rest ∧ Forall no_newline ls ∧ no_newline rest.
Proof.
  revert ls rest. induction data as [|a r IH]; intros ls rest; cbn [split_lines].
  { intros [= <- <-]. repeat split; constructor. }
  destruct (split_lines r) as [ls0 rest0] eqn:E.
  destruct (IH ls0 rest0 eq_refl) as (-> & Hls & Hrest).
  destruct (is_newline a) eqn:Ha.
  - intros [= <- <-]. unfold is_newline, c in Ha. apply Nat.eqb_eq in Ha.
    assert (a = newline) as -> by (rewrite <- (ascii_nat_embedding a), Ha; reflexivity).
    split; [done|]. split; [|done]. constructor; [constructor|done].
  - destruct ls0 as [|x ls0]; intros [= <- <-].
    + split; [done|]. split; [constructor|]. by constructor.
    + split; [done|]. inversion Hls; subst. split; [|done]. constructor; [|done]. by constructor.
Qed.

Lemma split_lines_flat ls rest : Forall no_newline ls → no_newline rest →
  split_lines (flat ls ++ rest) = (ls, rest).
Proof.
  assert (Hr : ∀ rest, no_newline rest → split_lines rest = ([], rest)).
  { induction 1 as [|a r Ha H IH]; cbn [split_lines]; [done|]. by rewrite IH, Ha. }
  intros H Hrest. induction H as [|l ls Hl H IH]; [by apply Hr|]. cbn [flat].
  induction Hl as [|a l Ha Hl IHl]; cbn [app split_lines].
  - by rewrite IH.
  - cbn [app] in IHl. by rewrite IHl, Ha.
Qed.

Lemma take_lines_short max ls : Forall (λ l, len l < max) ls →
  take_lines max ls = (map dropCR ls, false).
Proof.
  induction 1 as [|l ls Hl H IH]; cbn [take_lines map]; [done|].
  rewrite (proj2 (Z.leb_gt _ _)) by lia. by rewrite IH.
Qed.

Lemma take_lines_ok max ls ts : take_lines max ls = (ts, false) →
  Forall (λ l, len l < max) ls ∧ ts = map dropCR ls.
Proof.
  revert ts. induction ls as [|l ls IH]; intros ts; cbn [take_lines map].
  { intros [= <-]. split; [constructor|done]. }
  destruct (max <=? len l) eqn:E; [done|]. apply Z.leb_gt in E.
  destruct (take_lines max ls) as [ts' e]. intros [= <- ->].
  destruct (IH ts' eq_refl) as [H ->]. split; [by constructor|done].
Qed.

Lemma flat_length l ls : l ∈ ls → (length l < length (flat ls))%nat.
Proof.
  induction ls as [|x ls IH]; [by intros ?%elem_of_nil|]. cbn [flat].
  rewrite length_app. cbn [length]. intros [->|H]%elem_of_cons; [lia|]. specialize (IH H). lia.
Qed.

(** All the lines of a file. *)
Definition raw_lines (data : list ascii) : list (list ascii) :=
  let (ls, rest) := split_lines data in ls ++ match rest with [] => [] | _ => [rest] end.

Lemma scan_lines_raw max data : scan_lines max data = take_lines max (raw_lines data).
Proof. unfold scan_lines, raw_lines. by destruct (split_lines data). Qed.

(** A file is what precedes its last line, and that line with or without a
    newline. *)
Lemma raw_lines_snoc data ls l : raw_lines data = ls ++ [l] →
  ∃ t, data = flat ls ++ l ++ t ∧ (t = [] ∧ l ≠ [] ∨ t = [newline]) ∧
       Forall no_newline ls ∧ no_newline l.
Proof.
  unfold raw_lines. destruct (split_lines data) as [ls0 rest] eqn:E.
  destruct (split_lines_spec _ _ _ E) as (-> & Hls & Hrest).
  destruct rest as [|a rest].
  - rewrite app_nil_r. intros ->. exists [newline]. rewrite app_nil_r, flat_app. cbn [flat].
    apply Forall_app in Hls as [? Hl]. inversion Hl. auto.
  - intros [-> [= <-]]%app_inj_2; [|done]. exists []. rewrite app_nil_r. split; [done|].
    split; [by left|done].
Qed.

Lemma raw_lines_join ls l t : Forall no_newline ls → no_newline l →
  (t = [] ∧ l ≠ [] ∨ t = [newline]) → raw_lines (flat ls ++ l ++ t) = ls ++ [l].
Proof.
  intros Hls Hl [[-> Hne]| ->]; unfold raw_lines.
  - rewrite app_nil_r, split_lines_flat by done. by destruct l.
  - replace (flat ls ++ l ++ [newline]) with (flat (ls ++ [l]) ++ []).
    + rewrite split_lines_flat; [by rewrite app_nil_r| |constructor].
      apply Forall_app. split; [done|by constructor].
    + rewrite flat_app, app_nil_r. done.
Qed.

(** What is left of complete lines after a cut: complete lines again. *)
Lemma drop_flat n ls : Forall no_newline ls →
  ∃ ls', drop n (flat ls) = flat ls' ∧ Forall no_newline ls'.
Proof.
  intros H. revert n. induction H as [|l ls Hl H IH]; intros n.
  { exists []. cbn [flat]. split; [by destruct n|constructor]. }
  cbn [flat]. destruct (decide (n <= length l)%nat) as [Hn|Hn].
  - exists (drop n l :: ls). rewrite drop_app_le by done. split; [done|].
    constructor; [by apply Forall_drop|done].
  - rewrite drop_app_ge by lia.
    replace (n - length l)%nat with (S (n - length l - 1)) by lia. cbn [drop]. apply IH.
Qed.

Lemma last_nonempty_snoc ts l : l ≠ [] → last_nonempty (ts ++ [l]) = l.
Proof. unfold last_nonempty. rewrite foldl_app. cbn. by destruct l. Qed.

(** [readLastLine] finds the last line when it fits the window. *)
Lemma readLastLine_last data ls l :
  raw_lines data = ls ++ [l] → len l < maxScan → dropCR l ≠ [] →
  readLastLine data = Ok (dropCR l).
Proof.
  intros Hraw Hlen Hne. destruct (raw_lines_snoc _ _ _ Hraw) as (t & -> & Ht & Hls & Hl).
  assert (Htl : (length t <= 1)%nat) by (destruct Ht as [[-> _]| ->]; cbn; lia).
  unfold readLastLine. set (off := Z.to_nat _).
  assert (Hoff : (off <= length (flat ls))%nat).
  { unfold off. rewrite !length_app in *. lia. }
  rewrite drop_app_le by done.
  destruct (drop_flat off ls Hls) as (ls' & Hd & Hls').
  rewrite scan_lines_raw, Hd, raw_lines_join by done.
  rewrite take_lines_short.
  - rewrite map_app. cbn [map]. by rewrite last_nonempty_snoc.
  - assert (len (flat ls' ++ l ++ t) <= maxScan) as Hw.
    { rewrite <- Hd, length_app, length_drop. unfold off.
      rewrite !length_app in *. unfold maxScan in *. lia. }
    rewrite !length_app in Hw. apply Forall_app. split.
    + apply Forall_forall. intros x Hx. pose proof (flat_length _ _ Hx).
      unfold MaxScanTokenSize. unfold maxScan in *. lia.
    + constructor; [|constructor]. exact Hlen.
Qed.

(** ** The chain *)

Lemma dropCR_printable l : Forall printable l → dropCR l = l.
Proof.
  intros H. unfold dropCR. destruct (rev l) as [|a r] eqn:E.
  - apply (f_equal (@rev ascii)) in E. by rewrite rev_involutive in E.
  - assert (printable a) as Ha.
    { rewrite Forall_forall in H. apply H, list_elem_of_In, in_rev. rewrite E. apply in_eq. }
    unfold printable in Ha. unfold c. by rewrite (proj2 (Nat.eqb_neq _ _)) by lia.
Qed.

Lemma printable_no_newline l : Forall printable l → no_newline l.
Proof.
  intros H. apply (Forall_impl _ _ _ H). intros a Ha. unfold printable in Ha. unfold is_newline, c.
  apply Nat.eqb_neq. lia.
Qed.

Definition line (e : AuditEvent) : list ascii :=
  match json_Marshal e with Ok s => chars s | Err _ => [] end.

Lemma line_print e p : printable_entry e p → line e = print (doc_of e p).
Proof.
  intros He. unfold line. rewrite (Marshal_entry e p He).
  apply String.list_ascii_of_string_of_list_ascii.
Qed.

Lemma line_printable e p : printable_entry e p → Forall printable (line e).
Proof.
  intros He. rewrite (line_print e p He). apply print_printable, plain_doc, He.
Qed.

Lemma line_nonempty e p : printable_entry e p → line e ≠ [].
Proof.
  intros He E. pose proof (print_starts (doc_of e p) (plain_doc e p (pe_plain e p He))) as H.
  by rewrite <- (line_print e p He), E in H.
Qed.

Lemma line_unmarshal e p : printable_entry e p → json_Unmarshal (of_chars (line e)) = Ok e.
Proof. intros He. rewrite (line_print e p He). by apply Unmarshal_entry. Qed.

(** The hash the next entry carries. *)
Definition tip_after (prev : string) (es : list AuditEvent) : string :=
  foldl (λ _ e, sha256hex (line e)) prev es.

Lemma tip_after_snoc prev es e : tip_after prev (es ++ [e]) = sha256hex (line e).
Proof. unfold tip_after. by rewrite foldl_app. Qed.

Fixpoint chained (prev : string) (es : list AuditEvent) : Prop :=
  match es with
  | [] => True
  | e :: es => PrevHash e = prev ∧ chained (sha256hex (line e)) es
  end.

Lemma chained_snoc prev es e :
  chained prev (es ++ [e]) ↔ chained prev es ∧ PrevHash e = tip_after prev es.
Proof.
  revert prev. induction es as [|x es IH]; intros prev; cbn [app chained tip_after foldl].
  - naive_solver.
  - rewrite IH. unfold tip_after. naive_solver.
Qed.

Lemma sha256hex_valid l : valid_text (sha256hex l).
Proof.
  apply valid_ascii. destruct (sha256.hex_sum_chars (of_chars l)) as [_ H].
  rewrite forallb_forall in H |- *. intros a Ha. specialize (H a Ha).
  unfold hex.is_lower_digit in H. apply Nat.ltb_lt.
  apply orb_true_iff in H as [[_ ?%Nat.leb_le]%andb_true_iff|[_ ?%Nat.leb_le]%andb_true_iff]; lia.
Qed.

Lemma sha256hex_nonempty l : is_empty (sha256hex l) = false.
Proof.
  apply is_empty_false. intros H. unfold sha256hex in H.
  destruct (sha256.hex_sum_chars (of_chars l)) as [Hl _]. by rewrite H in Hl.
Qed.

Lemma EncodeToString_valid b : valid_text (base64.EncodeToString b).
Proof.
  apply valid_ascii. unfold base64.EncodeToString.
  rewrite String.list_ascii_of_string_of_list_ascii.
  pose proof (base64.encode_chars_text (chars b)) as H.
  rewrite forallb_forall in H |- *. intros a Ha. specialize (H a Ha).
  unfold base64.is_text in H. by apply andb_true_iff in H as [_ ?].
Qed.

(** The law of the signature scheme. *)
Class Ed25519Correct `{ED : Ed25519} : Prop :=
  verify_sign : ∀ k m, ed25519_Verify (ed25519_Public k) m (ed25519_Sign k m) = true.

Section log.
Context `{CJ : CanonicalJSON} `{ED : Ed25519} {EDC : Ed25519Correct}.

(** ** What the writer maintains *)

(** An entry that [writeAuditEvent] may hand to [Append]: the payload is the
    JSON of a document, the required fields are there, and the chain fields
    are not yet set. *)
Record writable (ev : AuditEvent) (p : jdoc) : Prop := {
  wr_entry : printable_entry ev p;
  wr_launch : LaunchID ev ≠ ""%string;
  wr_name : EventName ev ≠ ""%string;
  wr_time : time.IsZero (OccurredAt ev) = false;
  wr_sig : Signature ev = ""%string;
  wr_prev : PrevHash ev = ""%string }.

Definition unsealed (e : AuditEvent) : AuditEvent := with_Signature "" (with_PrevHash "" e).

(** The signature of an entry covers everything else. *)
Definition signed (k : option bytes) (e : AuditEvent) : Prop :=
  match k with
  | None => Signature e = ""%string
  | Some k => sign k (with_Signature "" e) = Ok (Signature e)
  end.

Record sealed (k : option bytes) (e : AuditEvent) : Prop := {
  se_entry : ∃ p, printable_entry e p;
  se_signed : signed k e;
  se_writable : ∃ p, writable (unsealed e) p }.

Record log_inv (k : option bytes) (es : list AuditEvent) (w : JSONLWriter) (d : disk) : Prop := {
  li_key : w_privKey w = k;
  li_file : d_file d = Some (flat (map line es));
  li_prev : w_prevHash w = tip_after "" es;
  li_open : w_closed w = false;
  li_store : w_prevHashStore w = true;
  li_tip : default ""%string (d_tip d) = tip_after "" es;
  li_chain : chained "" es;
  li_sealed : Forall (sealed k) es }.

Lemma tip_valid es : valid_text (tip_after "" es).
Proof.
  destruct es as [|e es] using rev_ind; [reflexivity|].
  rewrite tip_after_snoc. apply sha256hex_valid.
Qed.

Lemma printable_seal ev p h s : printable_entry ev p → valid_text h → valid_text s →
  printable_entry (with_Signature s (with_PrevHash h ev)) p.
Proof. intros [] Hh Hs. by constructor. Qed.

Lemma sign_valid key ev s : sign key ev = Ok s → valid_text s.
Proof.
  unfold sign. destruct (canonical_MarshalForSigning _); [|done].
  intros [= <-]. apply EncodeToString_valid.
Qed.

(** One [Append] extends the chain by one entry. *)
Lemma Append_extends k es w d ev p w' d' :
  log_inv k es w d → writable ev p → Append w d io_ok ev = (Ok tt, (w', d')) →
  ∃ e, unsealed e = ev ∧ log_inv k (es ++ [e]) w' d'.
Proof.
  intros [Hk Hf Hp Hc Hs Ht Hch Hse] Hw HA.
  pose proof Hw as [He Hl Hn Htm Hsg Hpv].
  assert (Hun : ∀ s, unsealed (with_Signature s (with_PrevHash (w_prevHash w) ev)) = ev).
  { intros s. unfold unsealed. destruct ev. cbn in *. by subst. }
  assert (H0 : with_Signature "" (with_PrevHash (w_prevHash w) ev) = with_PrevHash (w_prevHash w) ev).
  { destruct ev. cbn in *. by subst. }
  assert (∃ s, valid_text s ∧ signed k (with_Signature s (with_PrevHash (w_prevHash w) ev)) ∧
    (w' = mkWriter k (sha256hex (line (with_Signature s (with_PrevHash (w_prevHash w) ev))))
            true (OccurredAt ev) false) ∧
    d' = mkDisk (Some (flat (map line es) ++
                       line (with_Signature s (with_PrevHash (w_prevHash w) ev)) ++ [newline]))
           (Some (sha256hex (line (with_Signature s (with_PrevHash (w_prevHash w) ev))))))
    as (s & Hsv & Hsig & -> & ->).
  { revert HA. unfold Append. rewrite Hk, Hf, Hc, Hs. cbn [default io_ok io_write].
    assert (Hline : ∀ s, valid_text s →
      let e := with_Signature s (with_PrevHash (w_prevHash w) ev) in
      json_Marshal e = Ok (of_chars (line e))).
    { intros s Hv e. assert (printable_entry e p) as Hpe
        by (apply printable_seal; [done|rewrite Hp; apply tip_valid|done]).
      rewrite (line_print e p Hpe). by apply Marshal_entry. }
    destruct k as [key|].
    - destruct (sign key _) as [s|] eqn:Es; [|done].
      pose proof (sign_valid _ _ _ Es) as Hv. cbn [mbind result_bind].
      rewrite (Hline s Hv). cbn [mbind result_bind].
      rewrite String.list_ascii_of_string_of_list_ascii. unfold SavePrevHash. cbn.
      intros [= <- <-]. exists s. split_and!; [done| |done|done].
      unfold signed. rewrite <- Es. f_equal. exact H0.
    - cbn [mbind result_bind]. rewrite <- H0, (Hline "" eq_refl). cbn [mbind result_bind].
      rewrite String.list_ascii_of_string_of_list_ascii. unfold SavePrevHash. cbn.
      intros [= <- <-]. exists ""%string.
      split_and!; first [done | exact Hsg | by rewrite !H0]. }
  set (e := with_Signature s (with_PrevHash (w_prevHash w) ev)) in *.
  exists e. split; [apply Hun|].
  constructor; cbn [w_privKey d_file w_prevHash w_closed w_prevHashStore d_tip default];
    try done.
  - rewrite map_app, flat_app. done.
  - by rewrite tip_after_snoc.
  - by rewrite tip_after_snoc.
  - apply chained_snoc. split; [done|]. exact Hp.
  - apply Forall_app. split; [done|]. constructor; [|constructor].
    constructor; [exists p|done|exists p; by replace (unsealed e) with ev by (symmetry; apply Hun)].
    apply printable_seal; [done|rewrite Hp; apply tip_valid|done].
Qed.

(** ** What a scan of the file finds *)

Lemma sealed_signature k e : sealed k e → checkSignature e (ed25519_Public <$> k) = None.
Proof using EDC.
  intros [_ Hs _]. destruct k as [key|]; [|done]. cbn [fmap option_fmap option_map signed] in *.
  unfold sign in Hs. cbn [checkSignature].
  destruct (canonical_MarshalForSigning _) as [msg|] eqn:Em; [|done].
  cbn [mbind result_bind] in Hs. injection Hs as Hs.
  destruct (is_empty (Signature e)); [done|].
  rewrite <- Hs, base64.DecodeString_Encode. by rewrite verify_sign.
Qed.

Lemma sealed_fields k e : sealed k e → missingAuditFields e = [].
Proof.
  intros [_ _ [p [He Hl Hn Ht _ _]]].
  assert (Hp : is_empty (default "" (Payload (unsealed e))) = false).
  { rewrite (pe_payload _ _ He). apply is_empty_false. change (of_chars (print p) ≠ ""%string). intros E.
    pose proof (print_starts p (pe_plain _ _ He)) as H.
    apply (f_equal String.list_ascii_of_string) in E.
    rewrite String.list_ascii_of_string_of_list_ascii in E. by rewrite E in H. }
  change (LaunchID (unsealed e)) with (LaunchID e) in Hl.
  change (EventName (unsealed e)) with (EventName e) in Hn.
  change (OccurredAt (unsealed e)) with (OccurredAt e) in Ht.
  change (Payload (unsealed e)) with (Payload e) in Hp.
  unfold missingAuditFields.
  apply is_empty_false in Hl, Hn. by rewrite Hl, Hn, Ht, Hp.
Qed.

Lemma sealed_line k e : sealed k e →
  Forall printable (line e) ∧ line e ≠ [] ∧ json_Unmarshal (of_chars (line e)) = Ok e.
Proof.
  intros [[p He] _ _]. split; [by eapply line_printable|].
  split; [by eapply line_nonempty|by eapply line_unmarshal].
Qed.

Lemma sealed_lines k es : Forall (sealed k) es →
  Forall no_newline (map line es) ∧ map dropCR (map line es) = map line es.
Proof.
  induction 1 as [|e es He H [IH1 IH2]]; cbn [map]; [done|].
  destruct (sealed_line k e He) as (Hp & _). split.
  - constructor; [by apply printable_no_newline|done].
  - by rewrite dropCR_printable, IH2.
Qed.

(** The lines of the file, when none exceeds the scanner's buffer. *)
Lemma scan_lines_log k es max : Forall (sealed k) es → Forall (λ e, len (line e) < max) es →
  scan_lines max (flat (map line es)) = (map line es, false).
Proof.
  intros Hs Hl. destruct (sealed_lines k es Hs) as [Hn Hd].
  unfold scan_lines. rewrite <- (app_nil_r (flat _)), split_lines_flat by (done || constructor).
  rewrite app_nil_r, take_lines_short; [by rewrite Hd|]. by apply Forall_map.
Qed.

(** [readLine s es]: what the loop knows after the lines of [es]. *)
Record scanned (es : list AuditEvent) (s : scan_state) : Prop := {
  sc_prev : match ss_prevLine s with
            | [] => es = []
            | _ => tip_after "" es = sha256hex (ss_prevLine s)
            end;
  sc_count : Count (ss_res s) = len es;
  sc_clean : HasTamper (ss_res s) = false;
  sc_time : ss_prevTime s = match last es with Some e => OccurredAt e | None => time.zeroTime end;
  sc_quiet : StronglySorted Z.le (OccurredAt <$> es) → Anomalies (ss_res s) = [] }.

(** Entries in the order of their times raise no clock warning. *)
Lemma sorted_clock es e : StronglySorted Z.le (OccurredAt <$> es ++ [e]) →
  StronglySorted Z.le (OccurredAt <$> es) ∧
  let prev := match last es with Some e => OccurredAt e | None => time.zeroTime end in
  negb (time.IsZero prev) && time.Before (OccurredAt e) prev = false.
Proof.
  rewrite fmap_app. cbn. intros (Hall & Hs & _)%StronglySorted_app. split; [done|].
  destruct (last es) as [e0|] eqn:El; [|done]. apply last_Some in El as [es0 ->].
  apply andb_false_intro2, Z.ltb_ge. apply Hall; [|by apply list_elem_of_singleton].
  rewrite fmap_app. apply elem_of_app. right. by apply list_elem_of_singleton.
Qed.

Lemma scan_chain k es : Forall (sealed k) es → chained "" es →
  scanned es (foldl (scan_step (ed25519_Public <$> k)) scan_start (map line es)).
Proof using EDC.
  induction es as [|e es IH] using rev_ind.
  { by constructor. }
  intros [Hse He]%Forall_app [Hch Hprev]%chained_snoc. inversion He as [|? ? Hsealed _]; subst.
  rewrite map_app, foldl_app. cbn [map foldl].
  destruct (IH Hse Hch) as [Hp Hc Ht Hti Hq]. clear IH.
  set (s := foldl _ _ _) in *.
  destruct (sealed_line k e Hsealed) as (_ & Hne & Hun).
  unfold scan_step. destruct (line e) as [|a l] eqn:El; [done|]. rewrite <- El in *. rewrite Hun.
  rewrite (sealed_fields k e Hsealed), (sealed_signature k e Hsealed).
  assert (∃ b, checkPrevHashLink e (ss_prevLine s) = (None, b)) as [b ->].
  { unfold checkPrevHashLink. rewrite Hprev.
    destruct (ss_prevLine s) as [|x r] eqn:Ep.
    - subst es. eauto.
    - rewrite Hp, sha256hex_nonempty, bool_decide_true by done. eauto. }
  constructor; cbn [ss_prevLine ss_res].
  - rewrite El, tip_after_snoc. by rewrite El.
  - cbn. rewrite Hc, length_app. cbn. lia.
  - unfold HasTamper in *. cbn [Anomalies add_anomalies]. rewrite existsb_app, Ht.
    by destruct (_ && _).
  - by rewrite last_snoc.
  - intros [Hs Hclock]%sorted_clock. cbn zeta in Hclock. rewrite <- Hti in Hclock.
    cbn [Anomalies add_anomalies]. by rewrite (Hq Hs), Hclock.
Qed.

Lemma Scan_log k es w d : log_inv k es w d →
  Forall (λ e, len (line e) < maxAuditLineBytes) es →
  ∃ res, Scan (default [] (d_file d)) (PubKey w) = (res, false)
         ∧ HasTamper res = false ∧ Count res = len es
         ∧ (StronglySorted Z.le (OccurredAt <$> es) → Anomalies res = []).
Proof using EDC.
  intros [Hk Hf _ _ _ _ Hch Hse] Hl. unfold Scan, PubKey. rewrite Hf, Hk. change (default [] (Some ?x)) with x.
  rewrite (scan_lines_log k es _ Hse Hl).
  destruct (scan_chain k es Hse Hch) as [_ Hc Ht _ Hq]. eexists. split; [reflexivity|]. done.
Qed.

Lemma Read_log k es w d id : log_inv k es w d →
  Forall (λ e, len (line e) < MaxScanTokenSize) es →
  ReadForLaunch d id = (filter (λ e, LaunchID e = id) es, false).
Proof.
  intros [_ Hf _ _ _ _ _ Hse] Hl. unfold ReadForLaunch. rewrite Hf.
  rewrite (scan_lines_log k es _ Hse Hl). f_equal. f_equal. clear Hf Hl.
  induction Hse as [|e es He H IH]; [done|]. cbn [map omap list_omap].
  destruct (sealed_line k e He) as (_ & _ & ->). by rewrite IH.
Qed.

Lemma Open_log k es w d : log_inv k es w d →
  Forall (λ e, len (line e) < MaxScanTokenSize) es →
  ∃ w', openAuditLog k true d io_ok = (Ok w', d) ∧ log_inv k es w' d.
Proof using EDC.
  intros Hinv Hl. pose proof Hinv as [Hk Hf Hp Hc Hs Ht Hch Hse].
  unfold openAuditLog, Open. rewrite Hf. change (default [] (Some ?x)) with x.
  assert (mkDisk (Some (flat (map line es))) (d_tip d) = d) as Hd
    by (destruct d; cbn in *; by subst).
  rewrite Hd. unfold WithPrevHashStore, LoadPrevHash. cbn [io_ok io_tip_fails mbind result_bind].
  rewrite Ht.
  assert (Hempty : es = [] → readLastLine (flat (map line es)) = Ok []) by (by intros ->).
  assert (Hlast : ∀ es0 e, es = es0 ++ [e] →
    readLastLine (flat (map line es)) = Ok (line e) ∧ sealed k e).
  { destruct (sealed_lines k es Hse) as [Hn Hdr]. intros es1 e Heq. rewrite Heq in *.
    apply Forall_app in Hse as [_ He], Hl as [_ Hle].
    apply Forall_cons in He as [He _], Hle as [Hle _].
    destruct (sealed_line k e He) as (Hpr & Hne & _). split; [|done].
    rewrite (readLastLine_last _ (map line es1) (line e)).
    - by rewrite dropCR_printable.
    - unfold raw_lines. rewrite <- (app_nil_r (flat _)), split_lines_flat by (done || constructor).
      by rewrite app_nil_r, map_app.
    - done.
    - by rewrite dropCR_printable. }
  destruct (Scan_log k es w d Hinv) as (res & Hsc & Htam & _ & _).
  { eapply Forall_impl; [exact Hl|]. cbn. unfold MaxScanTokenSize, maxAuditLineBytes. lia. }
  rewrite Hf in Hsc. change (default [] (Some ?x)) with x in Hsc. unfold PubKey in Hsc. rewrite Hk in Hsc.
  assert (∀ w0 : JSONLWriter, w_privKey w0 = k → w_prevHash w0 = tip_after "" es →
    w_closed w0 = false → w_prevHashStore w0 = true →
    ∃ w', VerifyOnStart w0 d true = Ok w' ∧ log_inv k es w' d) as Hv.
  { intros w0 Hk0 Hp0 Hc0 Hs0. unfold VerifyOnStart, lastEntryOccurredAt. rewrite Hf.
    destruct es as [|e es0 _] using rev_ind.
    - rewrite (Hempty eq_refl). cbn [mbind result_bind negb PubKey w_privKey].
      unfold PubKey. cbn [w_privKey]. rewrite Hk0, Hsc, Htam.
      eexists. split; [reflexivity|]. by constructor.
    - destruct (Hlast es0 e eq_refl) as [-> He].
      destruct (sealed_line k e He) as (Hpr & Hne & Hun).
      cbn [mbind result_bind]. destruct (line e) eqn:El; [done|]. rewrite <- El in *.
      rewrite Hun. cbn [mbind result_bind negb].
      unfold PubKey. cbn [w_privKey]. rewrite Hk0, Hsc, Htam.
      eexists. split; [reflexivity|]. by constructor. }
  destruct es as [|e es0 _] using rev_ind.
  - cbn [tip_after foldl is_empty]. cbn [mbind result_bind].
    destruct (Hv (mkWriter k "" true time.zeroTime false)) as (w' & Hr & Hw'); [done..|].
    exists w'. cbn. by rewrite Hr.
  - unfold verifyLastLineHash. rewrite Hf.
    destruct (Hlast es0 e eq_refl) as [-> He].
    rewrite tip_after_snoc, sha256hex_nonempty. cbn [mbind result_bind].
    destruct (sealed_line k e He) as (Hpr & Hne & Hun).
    destruct (line e) eqn:El; [done|]. rewrite <- El in *.
    rewrite bool_decide_true by done. cbn [mbind result_bind].
    destruct (Hv (mkWriter k (sha256hex (line e)) true time.zeroTime false)) as (w' & Hr & Hw');
      [done|by rewrite tip_after_snoc|done|done|].
    exists w'. cbn. by rewrite Hr.
Qed.

End log.
