(* ===== verification/AuditTrail.v ===== *)
(** * The audit trail from domain events to the file

    The JSON of every domain event (the exported fields of the structs of
    [domain/events.go]), the entry [writeAuditEvent] makes of it
    ([services/audit.go]), and the theorems that compose this with the file:
    the trail reads back and survives restarts, and a file accepted at startup
    ends with the true log. *)

From S2P Require Import Prelude GoStd GoTime Json Events Payload Sha256 TimeProps World JsonPrint.
From S2P Require Import JsonProps AuditLog AuditLogProps.
From stdpp Require Import sorting.
Import ports auditlog bufio jsonenc.
#[global] Open Scope Z_scope.

Module trail.
Section trail.
Context `{UT : UUIDText}.
(** [err.Error()] of an aborted execution *)
Variable error_text : error → string.

(** ** domain/events.go as JSON *)
Definition u (k : string) (i : uuid) : string * jdoc := (k, DStr (uuid_String i)).
Definition s (k : string) (x : string) : string * jdoc := (k, DStr x).
Definition n (k : string) (z : Z) : string * jdoc := (k, DInt z).
Definition strs (k : string) (l : list string) : string * jdoc := (k, DArr (map DStr l)).
Definition t (k : string) (x : time.Time) : string * jdoc := (k, DStr (rfc3339.FormatNano x)).
Definition L (i : uuid) : string * jdoc := u "LaunchID" i.

Definition governance_doc (e : domain.governance_event) : list (string * jdoc) :=
  match e with
  | domain.ValidatorApproved l j o => [L l; u "JoinRequestID" j; s "OperatorAddress" o]
  | domain.ValidatorRejected l j r => [L l; u "JoinRequestID" j; s "Reason" r]
  | domain.ValidatorRemoved l j r => [L l; u "JoinRequestID" j; s "Reason" r]
  | domain.GenesisPublished l h => [L l; s "GenesisHash" h]
  | domain.RehearsalGateNotSatisfied l r => [L l; s "Reason" r]
  | domain.GenesisTimeUpdated l a b => [L l; t "NewGenesisTime" a; t "PrevGenesisTime" b]
  | domain.WindowClosed l => [L l]
  | domain.ChainRecordPublished l h => [L l; s "InitialGenesisHash" h]
  | domain.LaunchCancelled l => [L l]
  | domain.GenesisRevisionApproved l => [L l]
  end.

Definition launch_doc (e : domain.launch_event) : list (string * jdoc) :=
  match e with
  | domain.LaunchCreated l c ty a => [L l; s "ChainID" c; s "LaunchType" ty; s "LeadAddress" a]
  | domain.WindowOpened l => [L l]
  | domain.InitialGenesisUploaded l h => [L l; s "GenesisHash" h]
  | domain.FinalGenesisUploaded l h => [L l; s "GenesisHash" h]
  | domain.AllocationFileUploaded l ty h => [L l; s "AllocationType" ty; s "SHA256" h]
  | domain.AllocationFileApproved l ty h => [L l; s "AllocationType" ty; s "SHA256" h]
  | domain.AllocationFileRejected l ty h => [L l; s "AllocationType" ty; s "SHA256" h]
  | domain.LaunchDetected l b r => [L l; n "BlockHeight" b; s "SourceRPC" r]
  | domain.RehearsalResultRecorded l a h o st =>
      [L l; u "AttemptID" a; s "InputSetHash" h; s "Outcome" o; ("Stale"%string, DBool st)]
  | domain.RehearsalAttemptReset l a b => [L l; u "AttemptID" a; s "ResetBy" b]
  | domain.RehearsalRunClaimed l a r => [L l; u "AttemptID" a; s "RunnerID" r]
  end.

Definition change_doc (c : domain.FieldChange) : jdoc :=
  DObj [s "Field" (domain.Field c); s "Old" (domain.Old c); s "New" (domain.New c)].

Definition committee_doc (e : domain.committee_event) : list (string * jdoc) :=
  match e with
  | domain.ProposalExpired l p a => [L l; u "ProposalID" p; s "ActionType" a]
  | domain.LaunchMemberAdded l a b c => [L l; s "Address" a; s "Label" b; s "AddedBy" c]
  | domain.LaunchMemberRemoved l a b => [L l; s "Address" a; s "RemovedBy" b]
  | domain.CommitteeSet l ms tm tn ld sb =>
      [L l; strs "Members" ms; n "ThresholdM" tm; n "TotalN" tn; s "LeadAddress" ld; s "SetBy" sb]
  | domain.LaunchPatched l b cs =>
      [L l; s "ChangedBy" b; ("Changes"%string, DArr (map change_doc cs))]
  | domain.CommitteeMemberReplaced l a b om nm ot nt =>
      [L l; s "OldAddress" a; s "NewAddress" b; strs "OldMembers" om; strs "NewMembers" nm;
       n "OldThresholdM" ot; n "NewThresholdM" nt]
  | domain.CommitteeExpanded l a om nm ot nt =>
      [L l; s "AddedAddress" a; strs "OldMembers" om; strs "NewMembers" nm;
       n "OldThresholdM" ot; n "NewThresholdM" nt]
  | domain.CommitteeShrunk l a om nm ot nt =>
      [L l; s "RemovedAddress" a; strs "OldMembers" om; strs "NewMembers" nm;
       n "OldThresholdM" ot; n "NewThresholdM" nt]
  end.

Definition system_doc (e : domain.system_event) : list (string * jdoc) :=
  match e with
  | domain.CoordinatorAdded a b => [s "Address" a; s "AddedBy" b]
  | domain.CoordinatorRemoved a b => [s "Address" a; s "RemovedBy" b]
  | domain.SessionsRevoked a b => [s "Account" a; s "RevokedBy" b]
  | domain.ProposalExecuting l p a => [L l; u "ProposalID" p; s "ActionType" a]
  | domain.ProposalExecutionAborted l p a r =>
      [L l; u "ProposalID" p; s "ActionType" a; s "Reason" (error_text r)]
  | domain.JoinRequestSubmitted l j o b =>
      [L l; u "JoinRequestID" j; s "OperatorAddress" o; s "SubmitterAddress" b]
  | domain.ReadinessConfirmed l o => [L l; s "OperatorAddress" o]
  end.

(** [json.Marshal(ev)]: the embedded [base] has no exported field. *)
Definition event_doc (e : domain.DomainEvent) : jdoc :=
  DObj (match domain.body e with
        | domain.Gov g => governance_doc g
        | domain.Lch g => launch_doc g
        | domain.Com g => committee_doc g
        | domain.Sys g => system_doc g
        end).

(** A time outside the years 0 to 9999 does not marshal. *)
Definition event_times (e : domain.DomainEvent) : list time.Time :=
  match domain.body e with
  | domain.Gov (domain.GenesisTimeUpdated _ a b) => [a; b]
  | _ => []
  end.
Definition event_json (e : domain.DomainEvent) : result bytes :=
  if forallb (λ x, bool_decide (timetext.storable x)) (event_times e)
  then Marshal (event_doc e) else Err errorf.

(** The [ports.AuditEvent] that [writeAuditEvent] appends; [World.writeAuditEvent]
    has chosen the scope and the time. *)
Definition audit_entry (a : World.AuditEvent) : result AuditEvent :=
  payload ← event_json (ae_Event a);
  Ok (mkAuditEvent (ae_LaunchID a) (ae_EventName a) (ae_OccurredAt a) (Some payload) "" "").

Lemma event_doc_plain e : plain (event_doc e) = true ∧ (nesting (event_doc e) <= 10)%nat.
Proof.
  assert (Hs : ∀ l, forallb plain (map DStr l) = true ∧
    foldr (λ d k, Nat.max (nesting d) k) O (map DStr l) = O).
  { induction l as [|x l [IH1 IH2]]; [done|]. cbn [map forallb foldr plain]. by rewrite IH1, IH2. }
  assert (Hc : ∀ l, forallb plain (map change_doc l) = true ∧
    (foldr (λ d k, Nat.max (nesting d) k) O (map change_doc l) <= 1)%nat).
  { induction l as [|x l [IH1 IH2]]; [cbn; lia|]. cbn [map forallb foldr].
    rewrite IH1. split; [done|]. cbn. lia. }
  unfold event_doc. cbn [plain nesting].
  destruct e as [? [[]|[]|[]|[]]]; cbn [domain.body governance_doc launch_doc committee_doc
    system_doc forallb foldr L u s n strs t snd plain nesting andb];
    rewrite ?(proj1 (Hs _)), ?(proj2 (Hs _)), ?(proj1 (Hc _)); split; try done; try lia.
  specialize (Hc Changes) as [_ ?]. lia.
Qed.

Lemma event_name_valid e : valid_text (domain.EventName e) ∧ domain.EventName e ≠ ""%string.
Proof. destruct e as [? [[]|[]|[]|[]]]; split; try done; vm_compute; reflexivity. Qed.

(** ** Runs of the writer *)
Context `{CJ : CanonicalJSON} `{ED : Ed25519} {EDC : Ed25519Correct}.

(** Consecutive appends that all succeed. *)
Fixpoint append_all (w : JSONLWriter) (d : disk) (evs : list AuditEvent)
    : option (JSONLWriter * disk) :=
  match evs with
  | [] => Some (w, d)
  | ev :: evs =>
      match Append w d io_ok ev with
      | (Ok tt, (w, d)) => append_all w d evs
      | _ => None
      end
  end.

(** A first start without a file, then appends of the entries of [aes]. *)
Definition trail_of (k : option bytes) (aes : list World.AuditEvent)
    : option (JSONLWriter * disk) :=
  match mapM audit_entry aes, openAuditLog k true (mkDisk None None) io_ok with
  | Ok evs, (Ok w, d) => append_all w d evs
  | _, _ => None
  end.

(** Scope and time of an entry, as every caller sets them. *)
Definition entry_ok (a : World.AuditEvent) : Prop :=
  valid_text (ae_LaunchID a) ∧ ae_LaunchID a ≠ ""%string ∧
  ae_EventName a = domain.EventName (ae_Event a) ∧
  timetext.storable (ae_OccurredAt a) ∧ time.IsZero (ae_OccurredAt a) = false.

Definition file_lines (d : disk) : list (list ascii) :=
  map dropCR (raw_lines (default [] (d_file d))).
Definition fits (d : disk) : bool :=
  forallb (λ l, len l <? MaxScanTokenSize) (raw_lines (default [] (d_file d))).

Lemma small_nesting k : (k <= 11)%nat → (k <= json.maxNestingDepth)%nat.
Proof. intros H. apply Nat.le_trans with 11%nat; [done|]. apply Nat.leb_le. reflexivity. Qed.

Lemma audit_entry_writable a ev : audit_entry a = Ok ev → entry_ok a → ∃ p, writable ev p.
Proof.
  intros H (Hv & Hne & Hname & Ht & Hz). exists (event_doc (ae_Event a)).
  destruct (event_doc_plain (ae_Event a)) as [Hp Hn].
  destruct (event_name_valid (ae_Event a)) as [Hnv Hnn]. rewrite <- Hname in Hnv, Hnn.
  assert (nesting (event_doc (ae_Event a)) <= json.maxNestingDepth)%nat
    by (apply small_nesting; lia).
  unfold audit_entry, event_json, Marshal in H.
  destruct (forallb _ _); [|done]. destruct (raw_ok _); [|done].
  cbn [mbind result_bind] in H. injection H as <-.
  constructor; try done. constructor; try done. apply small_nesting. lia.
Qed.

Lemma mapM_Ok {A B} (f : A → result B) l k : mapM f l = Ok k → Forall2 (λ a b, f a = Ok b) l k.
Proof.
  revert k. induction l as [|a l IH]; intros k; cbn.
  - intros [= <-]. constructor.
  - destruct (f a) as [b|] eqn:E; [|done]. cbn.
    change (mapM f l) with (mapM f l) in *. destruct (mapM f l) as [bs|] eqn:El; [|done].
    cbn. intros [= <-]. constructor; [done|by apply IH].
Qed.

Lemma append_all_inv k evs : ∀ es w d w' d',
  log_inv k es w d → Forall (λ ev, ∃ p, writable ev p) evs →
  append_all w d evs = Some (w', d') →
  ∃ es', log_inv k (es ++ es') w' d' ∧ unsealed <$> es' = evs.
Proof.
  induction evs as [|ev evs IH]; intros es w d w' d' Hinv Hw; cbn [append_all].
  { intros [= <- <-]. exists []. by rewrite app_nil_r. }
  apply Forall_cons in Hw as [[p Hw] Hws].
  destruct (Append w d io_ok ev) as [[[]|] [w1 d1]] eqn:E; [|done]. intros Hall.
  destruct (Append_extends k es w d ev p w1 d1 Hinv Hw E) as (e & He & Hinv1).
  destruct (IH _ _ _ _ _ Hinv1 Hws Hall) as (es' & Hinv' & <-).
  exists (e :: es'). rewrite cons_middle, app_assoc. split; [done|]. cbn. by rewrite He.
Qed.

Lemma entries_writable aes evs : Forall2 (λ a ev, audit_entry a = Ok ev) aes evs →
  Forall entry_ok aes → Forall (λ ev, ∃ p, writable ev p) evs.
Proof.
  induction 1 as [|a ev l evs Ha H IH]; [constructor|].
  intros [Hok Hoks]%Forall_cons. constructor; [by eapply audit_entry_writable|auto].
Qed.

Lemma entries_times aes evs : Forall2 (λ a ev, audit_entry a = Ok ev) aes evs →
  OccurredAt <$> evs = ae_OccurredAt <$> aes.
Proof.
  induction 1 as [|a ev l evs Ha H IH]; [done|]. rewrite !fmap_cons, IH. f_equal.
  unfold audit_entry in Ha. apply result_bind_Ok in Ha as (p & _ & [= <-]). done.
Qed.

Lemma trail_inv k aes w d : trail_of k aes = Some (w, d) → Forall entry_ok aes →
  ∃ es, log_inv k es w d ∧ mapM audit_entry aes = Ok (unsealed <$> es).
Proof.
  unfold trail_of. destruct (mapM audit_entry aes) as [evs|] eqn:Em; [|done].
  change (openAuditLog k true (mkDisk None None) io_ok)
    with (@Ok JSONLWriter (mkWriter k "" true time.zeroTime false), mkDisk (Some []) None).
  cbn iota. intros Hall Hok.
  pose proof (entries_writable _ _ (mapM_Ok _ _ _ Em) Hok) as Hw.
  assert (log_inv k [] (mkWriter k "" true time.zeroTime false) (mkDisk (Some []) None)) as H0
    by (by constructor).
  destruct (append_all_inv k evs [] _ _ _ _ H0 Hw Hall) as (es & Hinv & <-).
  by exists es.
Qed.

Lemma raw_lines_log k es w d : log_inv k es w d →
  raw_lines (default [] (d_file d)) = map line es ∧ file_lines d = map line es.
Proof.
  intros Hinv. destruct (sealed_lines k es (li_sealed _ _ _ _ Hinv)) as [Hn Hd].
  assert (raw_lines (default [] (d_file d)) = map line es) as E.
  { rewrite (li_file _ _ _ _ Hinv). change (default [] (Some ?x)) with x.
    unfold raw_lines. rewrite <- (app_nil_r (flat _)), split_lines_flat by (done || constructor).
    apply app_nil_r. }
  split; [done|]. unfold file_lines. by rewrite E.
Qed.

Lemma fits_lines k es w d : log_inv k es w d → fits d = true →
  Forall (λ e, len (line e) < MaxScanTokenSize) es.
Proof.
  intros Hinv Hf. unfold fits in Hf. rewrite (proj1 (raw_lines_log _ _ _ _ Hinv)) in Hf.
  apply Forall_forall. intros e He. rewrite forallb_forall in Hf.
  apply Z.ltb_lt, Hf, in_map, list_elem_of_In, He.
Qed.

(** C8. The audit trail is faithful.  Domain events recorded through
    [writeAuditEvent] and [Append], from the first start on an empty disk, are
    read back by [ReadForLaunch] under their scope, in order, with their name,
    time and payload; the scan of the file reports no tampering and counts
    every entry (and reports nothing at all when the clock never went back
    between two of them); and a restart on that disk succeeds and continues from the
    same chain tip.  The lines must fit the 64 KB line buffer of the readers
    ([oversized_line_unreadable] shows what happens otherwise). *)
Theorem audit_trail_faithful k aes w d :
  trail_of k aes = Some (w, d) → Forall entry_ok aes → fits d = true →
  (∀ scope, ∃ evs, mapM audit_entry aes = Ok evs ∧
     unsealed <$> (ReadForLaunch d scope).1 = filter (λ ev, LaunchID ev = scope) evs ∧
     (ReadForLaunch d scope).2 = false) ∧
  (∃ res, Scan (default [] (d_file d)) (PubKey w) = (res, false) ∧
     HasTamper res = false ∧ Count res = len aes ∧
     (StronglySorted Z.le (ae_OccurredAt <$> aes) → Anomalies res = [])) ∧
  (∃ w', openAuditLog k true d io_ok = (Ok w', d) ∧ w_prevHash w' = w_prevHash w).
Proof using EDC.
  intros Htr Hok Hfit. destruct (trail_inv _ _ _ _ Htr Hok) as (es & Hinv & Hm).
  pose proof (fits_lines _ _ _ _ Hinv Hfit) as Hl. split; [|split].
  - intros scope. eexists. split; [exact Hm|].
    rewrite (Read_log k es w d scope Hinv Hl). split; [|done]. cbn [fst]. clear.
    induction es as [|e es IH]; [done|]. rewrite fmap_cons, !filter_cons.
    change (LaunchID (unsealed e)) with (LaunchID e).
    destruct (decide (LaunchID e = scope)); [by rewrite fmap_cons, IH|done].
  - destruct (Scan_log k es w d Hinv) as (res & Hs & Ht & Hc & Hq).
    { eapply Forall_impl; [exact Hl|]. cbn. unfold MaxScanTokenSize, maxAuditLineBytes. lia. }
    exists res. apply mapM_Ok in Hm. split_and!; [done..| |].
    + rewrite Hc. apply Forall2_length in Hm. rewrite length_fmap in Hm. by rewrite Hm.
    + intros Hsorted. apply Hq. rewrite <- (entries_times aes (unsealed <$> es)) in Hsorted by done.
      by rewrite <- list_fmap_compose in Hsorted.
  - destruct (Open_log k es w d Hinv Hl) as (w' & Ho & Hinv'). exists w'. split; [done|].
    by rewrite (li_prev _ _ _ _ Hinv), (li_prev _ _ _ _ Hinv').
Qed.

(** ** What a clean scan says about an arbitrary file *)

Lemma raw_lines_nil data : raw_lines data = [] → data = [].
Proof using Type.
  unfold raw_lines. destruct (split_lines data) as [ls rest] eqn:E.
  destruct (split_lines_spec _ _ _ E) as (-> & _ & _). intros [-> H]%app_eq_nil. by destruct rest.
Qed.

(** Every line is an entry, and one with a [prev_hash] names the line
    before it. *)
Definition linked (ts : list (list ascii)) : Prop :=
  ∀ ts0 x ts1, ts = ts0 ++ x :: ts1 →
  ∃ e, json_Unmarshal (of_chars x) = Ok e ∧
    (is_empty (PrevHash e) = true ∨
     ∃ ts00 x0, ts0 = ts00 ++ [x0] ∧ PrevHash e = sha256hex x0).

Lemma linked_app_l ts ts' : linked (ts ++ ts') → linked ts.
Proof. intros H ts0 x ts1 ->. apply (H ts0 x (ts1 ++ ts')). by rewrite <- app_assoc. Qed.

Lemma scan_step_clean pk st x : x ≠ [] → HasTamper (ss_res (scan_step pk st x)) = false →
  HasTamper (ss_res st) = false ∧ ss_prevLine (scan_step pk st x) = x ∧
  ∃ e, json_Unmarshal (of_chars x) = Ok e ∧
    (is_empty (PrevHash e) = true ∨
     ss_prevLine st ≠ [] ∧ PrevHash e = sha256hex (ss_prevLine st)) ∧
    missingAuditFields e = [] ∧ checkSignature e pk = None.
Proof.
  intros Hne. unfold scan_step. destruct x as [|a x]; [done|].
  assert (Ht : ∀ (p q : list Anomaly), existsb is_tamper (p ++ q) = false →
    existsb is_tamper p = false ∧ existsb is_tamper q = false)
    by (intros p q; by rewrite existsb_app, orb_false_iff).
  destruct (json_Unmarshal _) as [e|]; [|by intros [_ ?]%Ht].
  destruct (missingAuditFields e) as [|m ms] eqn:Hmiss; [|by intros [_ ?]%Ht].
  unfold checkPrevHashLink. destruct (is_empty (PrevHash e)) eqn:Hemp.
  { intros [H [_ [Hsig _]%Ht]%Ht]%Ht. split; [exact H|]. split; [done|].
    exists e. destruct (checkSignature e pk); [done|]. eauto. }
  destruct (ss_prevLine st) as [|b p] eqn:Ep.
  { by intros [_ [_ [_ ?]%Ht]%Ht]%Ht. }
  case_bool_decide as Heq.
  - intros [H [_ [Hsig _]%Ht]%Ht]%Ht. split; [exact H|]. split; [done|]. exists e.
    destruct (checkSignature e pk); [done|]. split_and!; [done|by right|done..].
  - by intros [_ [_ [_ ?]%Ht]%Ht]%Ht.
Qed.

Lemma scan_linked pk ts : Forall (λ x, x ≠ []) ts →
  HasTamper (ss_res (foldl (scan_step pk) scan_start ts)) = false →
  linked ts ∧ (ss_prevLine (foldl (scan_step pk) scan_start ts) = [] ∧ ts = [] ∨
               ∃ ts0 x, ts = ts0 ++ [x] ∧ ss_prevLine (foldl (scan_step pk) scan_start ts) = x).
Proof.
  induction ts as [|x ts IH] using rev_ind.
  { intros _ _. split; [|by left]. intros [|? ?] ? ? [=]. }
  rewrite foldl_app. cbn [foldl]. intros [Hne [Hx _]%Forall_cons]%Forall_app Hc.
  destruct (scan_step_clean pk _ x Hx Hc) as (Hc' & Hprev & e & He & Hlink & _).
  destruct (IH Hne Hc') as [Hl Hst]. split; [|right; eauto].
  intros ts0 y ts1 Heq. destruct ts1 as [|z ts1 _] using rev_ind.
  - apply app_inj_tail in Heq as [<- <-]. exists e. split; [done|].
    destruct Hlink as [?|[Hp He']]; [by left|right].
    destruct Hst as [[Hnil _]|(ts0 & x0 & -> & Hx0)]; [done|].
    exists ts0, x0. split; [done|]. by rewrite He', Hx0.
  - rewrite app_comm_cons, app_assoc in Heq. apply app_inj_tail in Heq as [-> _].
    by apply (Hl ts0 y ts1).
Qed.

(** A complete entry that carries no signature, or one that verifies under
    [pub] over the entry without it. *)
Definition authentic (pub : option bytes) (x : list ascii) : Prop :=
  ∃ e, json_Unmarshal (of_chars x) = Ok e ∧
    LaunchID e ≠ ""%string ∧ EventName e ≠ ""%string ∧ time.IsZero (OccurredAt e) = false ∧
    (∃ p, Payload e = Some p ∧ p ≠ ""%string) ∧
    ∀ pk, pub = Some pk → Signature e ≠ ""%string →
      ∃ sig msg, base64.DecodeString (Signature e) = Ok sig ∧
        canonical_MarshalForSigning (doc (with_Signature "" e)) = Ok msg ∧
        ed25519_Verify pk msg sig = true.

Lemma clean_authentic pub x e : json_Unmarshal (of_chars x) = Ok e →
  missingAuditFields e = [] → checkSignature e pub = None → authentic pub x.
Proof.
  intros He Hm Hs. exists e. split; [done|]. unfold missingAuditFields in Hm.
  apply app_eq_nil in Hm as [H1 [H2 [H3 H4]%app_eq_nil]%app_eq_nil].
  split_and!.
  - intros E. by rewrite E in H1.
  - intros E. by rewrite E in H2.
  - by destruct (time.IsZero _).
  - destruct (Payload e) as [[|c p]|]; [done| |done]. eexists; done.
  - intros pk -> Hsig. unfold checkSignature in Hs.
    destruct (Signature e) as [|c sg]; [done|]. cbn [is_empty] in Hs.
    destruct (base64.DecodeString _) as [sig|]; [|done].
    destruct (canonical_MarshalForSigning _) as [msg|]; [|done].
    destruct (ed25519_Verify pk msg sig) eqn:Hv; [|done]. eauto.
Qed.

Lemma scan_authentic pk ts : Forall (λ x, x ≠ []) ts →
  HasTamper (ss_res (foldl (scan_step pk) scan_start ts)) = false → Forall (authentic pk) ts.
Proof.
  induction ts as [|x ts IH] using rev_ind; [constructor|].
  rewrite foldl_app. cbn [foldl]. intros [Hne [Hx _]%Forall_cons]%Forall_app Hc.
  destruct (scan_step_clean pk _ x Hx Hc) as (Hc' & _ & e & He & _ & Hm & Hs).
  apply Forall_app. split; [by apply IH|]. constructor; [by eapply clean_authentic|constructor].
Qed.

(** Walking the links backwards from a common last line. *)
Lemma linked_suffix k es ts :
  linked ts → Forall (sealed k) es → chained "" es → es ≠ [] →
  (∀ x e, x ∈ ts → e ∈ es → sha256hex x = sha256hex (line e) → x = line e) →
  (∃ ts0 x, ts = ts0 ++ [x] ∧ sha256hex x = tip_after "" es) →
  ∃ extra, ts = extra ++ map line es.
Proof.
  revert ts. induction es as [|e es IH] using rev_ind; [done|].
  intros ts Hl [Hse Hs]%Forall_app [Hch Hprev]%chained_snoc _ Hcol (ts0 & x & -> & Hx).
  apply Forall_cons in Hs as [Hs _]. rewrite tip_after_snoc in Hx.
  apply Hcol in Hx; [|apply elem_of_app; right; by apply list_elem_of_singleton
                     |apply elem_of_app; right; by apply list_elem_of_singleton].
  subst x. rewrite map_app. cbn [map].
  destruct es as [|e0 es0] eqn:Ees; [by exists ts0|]. rewrite <- Ees in *.
  destruct (Hl ts0 (line e) [] eq_refl) as (e' & He' & Hlink).
  destruct (sealed_line k e Hs) as (_ & _ & Hun). rewrite Hun in He'. injection He' as <-.
  assert (∃ es1 e1, es = es1 ++ [e1]) as (es1 & e1 & Hes1).
  { destruct es as [|? ? _] using rev_ind; [done|eauto]. }
  rewrite Hes1, tip_after_snoc in Hprev.
  destruct Hlink as [Hemp|(ts00 & x0 & -> & Hx0)].
  { by rewrite Hprev, sha256hex_nonempty in Hemp. }
  destruct (IH (ts00 ++ [x0])) as [extra Hextra].
  - by apply linked_app_l with [line e].
  - done.
  - done.
  - by rewrite Ees.
  - intros y e2 Hy He2. apply Hcol; apply elem_of_app; by left.
  - exists ts00, x0. split; [done|]. by rewrite <- Hx0, Hprev, Hes1, tip_after_snoc.
  - exists extra. by rewrite Hextra, <- app_assoc.
Qed.

Lemma accepted_clean k data tip w' d' :
  openAuditLog k true (mkDisk (Some data) tip) io_ok = (Ok w', d') →
  Forall (λ l, len l < MaxScanTokenSize) (raw_lines data) →
  (is_empty (default "" tip)%string = false →
   ∃ last, readLastLine data = Ok last ∧ last ≠ [] ∧ sha256hex last = default ""%string tip) ∧
  HasTamper (ss_res (foldl (scan_step (ed25519_Public <$> k)) scan_start
                       (map dropCR (raw_lines data)))) = false.
Proof using Type.
  intros Hopen Hshort. revert Hopen. unfold openAuditLog, Open. cbn [d_file d_tip].
  unfold WithPrevHashStore, LoadPrevHash. cbn [io_ok io_tip_fails d_tip].
  change (default [] (Some data)) with data. intros [= Hopen _].
  apply result_bind_Ok in Hopen as (w0 & H0 & Hopen).
  apply result_bind_Ok in H0 as (u & Hlast & [= <-]). split.
  - intros Hemp. rewrite Hemp in Hlast. unfold verifyLastLineHash in Hlast. cbn [d_file] in Hlast.
    apply result_bind_Ok in Hlast as (last & Hr & Hlast). exists last. split; [done|].
    destruct last; [done|]. split; [done|]. by case_bool_decide.
  - unfold VerifyOnStart in Hopen. apply result_bind_Ok in Hopen as (tm & _ & Hopen).
    cbn [negb d_file] in Hopen. unfold Scan in Hopen.
    rewrite scan_lines_raw, take_lines_short in Hopen.
    + change (PubKey _) with (ed25519_Public <$> k) in Hopen. by destruct (HasTamper _).
    + eapply Forall_impl; [exact Hshort|]. cbn. unfold MaxScanTokenSize, maxAuditLineBytes. lia.
Qed.

(** C9. Tamper evidence.  Start the daemon with the chain tip stored by a run
    of [Append]s but with an arbitrary log file of non-empty lines that fit
    the readers' buffer.  If the startup check (tip and full scan) accepts it,
    the file ends with exactly the lines that were written: none was altered,
    removed, reordered or inserted among them, and nothing follows them.  What
    stands in front of them is made of complete entries; each one with a
    [prev_hash] names the line right before it, and each one with a signature
    carries one that verifies under the server's key.  (Entries with neither are
    accepted there, see [forged_prefix_accepted].)  The hypothesis on SHA-256 is
    that no line of the file collides with a line that was written. *)
Theorem tampering_is_detected k aes w d data w' d' :
  trail_of k aes = Some (w, d) → Forall entry_ok aes →
  openAuditLog k true (mkDisk (Some data) (d_tip d)) io_ok = (Ok w', d') →
  fits (mkDisk (Some data) (d_tip d)) = true →
  forallb (λ x, negb (bool_decide (x = []))) (map dropCR (raw_lines data)) = true →
  (∀ x y, x ∈ map dropCR (raw_lines data) → y ∈ file_lines d →
     sha256hex x = sha256hex y → x = y) →
  ∃ extra, map dropCR (raw_lines data) = extra ++ file_lines d ∧
    linked extra ∧ Forall (authentic (ed25519_Public <$> k)) extra.
Proof using Type.
  intros Htr Hok Hopen Hfit Hne Hcol. destruct (trail_inv _ _ _ _ Htr Hok) as (es & Hinv & _).
  destruct (raw_lines_log _ _ _ _ Hinv) as [_ Hlines]. rewrite Hlines in *.
  assert (Hshort : Forall (λ l, len l < MaxScanTokenSize) (raw_lines data)).
  { unfold fits in Hfit. cbn [d_file] in Hfit. apply Forall_forall. intros x Hx.
    rewrite forallb_forall in Hfit. by apply Z.ltb_lt, Hfit, list_elem_of_In. }
  assert (Hnil : Forall (λ x, x ≠ []) (map dropCR (raw_lines data))).
  { apply Forall_forall. intros x Hx. rewrite forallb_forall in Hne.
    apply list_elem_of_In, Hne in Hx. by case_bool_decide. }
  destruct (accepted_clean _ _ _ _ _ Hopen Hshort) as [Hlast Hclean].
  destruct (scan_linked _ _ Hnil Hclean) as [Hl _].
  pose proof (scan_authentic _ _ Hnil Hclean) as Hau.
  assert (∃ extra, map dropCR (raw_lines data) = extra ++ map line es) as [extra Hextra].
  { destruct es as [|e0 es0] eqn:Ees; [eexists; by rewrite app_nil_r|]. rewrite <- Ees in *.
    apply (linked_suffix k es); [done|apply Hinv|apply Hinv|by rewrite Ees| |].
    { intros x e Hx He. apply Hcol; [done|]. apply list_elem_of_In, in_map, list_elem_of_In, He. }
    rewrite (li_tip _ _ _ _ Hinv) in Hlast. destruct Hlast as (last & Elast & Hlne & Hhash).
    { destruct es as [|e es' _] using rev_ind; [done|].
      rewrite tip_after_snoc. apply sha256hex_nonempty. }
    destruct (raw_lines data) as [|l ls _] eqn:Eraw using rev_ind.
    { apply raw_lines_nil in Eraw. subst data.
      change (readLastLine []) with (@Ok (list ascii) []) in Elast. injection Elast as <-.
      destruct (Hlne eq_refl). }
    rewrite map_app in Hnil. apply Forall_app in Hnil as [_ [Hl0 _]%Forall_cons].
    apply Forall_app in Hshort as [_ [Hl1 _]%Forall_cons].
    rewrite (readLastLine_last data ls l Eraw Hl1 Hl0) in Elast. injection Elast as Elast.
    exists (map dropCR ls), (dropCR l). rewrite map_app. split; [done|]. by rewrite Elast. }
  exists extra. rewrite Hextra in Hl, Hau. split_and!; [done|by eapply linked_app_l|].
  by apply Forall_app in Hau as [? _].
Qed.

(** ** The readers' buffer *)

(** A reader fails as soon as one line of the file, with its newline, exceeds
    64 KB; [Append] has no such limit. *)
Lemma oversized_line_unreadable d data launchID :
  d_file d = Some data →
  (ReadForLaunch d launchID).2 = existsb (λ l, MaxScanTokenSize <=? len l) (raw_lines data).
Proof using Type.
  intros Hf. unfold ReadForLaunch. rewrite Hf, scan_lines_raw.
  destruct (take_lines _ _) as [ts e] eqn:E. cbn [snd]. revert ts e E.
  induction (raw_lines data) as [|l ls IH]; intros ts e; cbn [take_lines existsb].
  { by intros [= _ <-]. }
  destruct (MaxScanTokenSize <=? len l); [by intros [= _ <-]|].
  destruct (take_lines _ ls) as [ts' e'] eqn:E'. intros [= _ <-]. by apply (IH ts').
Qed.

End trail.
End trail.
