(* ===== verification/AuditSamples.v ===== *)
(** * A log on disk

    A concrete run of the writer, the witnesses of the audit trail's theorems,
    and two starts worth knowing: entries put before the first true one are
    accepted, and a line whose tip was not saved is refused. *)

From S2P Require Import Prelude GoStd GoTime Json Events Payload Sha256 TimeProps World JsonPrint.
From S2P Require Import Proposal ProposalProps Fixtures JsonProps AuditLog AuditLogProps AuditTrail.
From stdpp Require Import sorting.
Import ports auditlog bufio jsonenc.
#[global] Open Scope Z_scope.
Module trail_samples.
Import fixtures proposal_samples trail.
#[local] Existing Instance toy_uuid.

(** Canonical JSON as the encoder's own text, and a signature that repeats the
    digest of what it signs under the key. *)
#[local] Instance text_canonical : CanonicalJSON := {|
  canonical_MarshalForSigning := Marshal;
  canonical_Marshal := λ raw, Ok (default ""%string raw) |}.
#[local] Instance digest_ed25519 : Ed25519 := {|
  ed25519_Public := id;
  ed25519_Sign := λ k m, String.append k (sha256.hex_sum m);
  ed25519_Verify := λ k m s, bool_decide (s = String.append k (sha256.hex_sum m)) |}.
#[local] Instance digest_correct : Ed25519Correct.
Proof. intros k m. by apply bool_decide_eq_true. Qed.

Definition no_text : error → string := λ _, "failed"%string.

Definition entry (scope : string) (at_ : time.Time) (b : domain.event_body) : World.AuditEvent :=
  let ev := domain.event b in World.mkAudit scope (domain.EventName ev) at_ ev.

Definition events : list World.AuditEvent :=
  [entry "1" t0 (domain.Lch (domain.LaunchCreated 1%N "chain" "TESTNET" "a"));
   entry "global" (t0 + time.Second) (domain.Sys (domain.CoordinatorAdded "b" "<a&b>"));
   entry "1" (t0 + 2 * time.Second) (domain.Gov (domain.WindowClosed 1%N))]%string.

Definition first_start : JSONLWriter * disk := (mkWriter None "" false 0 false, mkDisk None None).
Definition run : option (JSONLWriter * disk) := trail_of no_text (Some "key"%string) events.
Definition w3 : JSONLWriter := (default first_start run).1.
Definition d3 : disk := (default first_start run).2.

Lemma events_ok : Forall entry_ok events.
Proof. repeat (constructor; [repeat split; vm_compute; congruence|]). constructor. Qed.

Lemma run_eq : run = Some (w3, d3).
Proof.
  unfold w3, d3. destruct run as [[w d]|] eqn:E; [reflexivity|].
  exfalso. revert E. vm_compute. discriminate.
Qed.

Lemma audit_trail_faithful_witness :
  fits d3 = true ∧
  ∃ res, Scan (default [] (d_file d3)) (PubKey w3) = (res, false) ∧
         HasTamper res = false ∧ Count res = len events ∧
         (StronglySorted Z.le (ae_OccurredAt <$> events) → Anomalies res = []).
Proof.
  assert (fits d3 = true) as Hf by (vm_compute; reflexivity).
  split; [exact Hf|].
  destruct (audit_trail_faithful no_text (Some "key"%string) events w3 d3 run_eq events_ok Hf)
    as (_ & H & _). exact H.
Defined.

(** An unsigned entry in front of the true log. *)
Definition forged : AuditEvent :=
  mkAuditEvent "1" "LaunchCreated" t0 (Some "{}"%string) "" "".
Definition forged_file : list ascii :=
  line forged ++ [newline] ++ default [] (d_file d3).

Definition no_collisions (xs ys : list (list ascii)) : bool :=
  let hs := map (λ y, (sha256hex y, y)) ys in
  forallb (λ x, let h := sha256hex x in
    forallb (λ hy, negb (bool_decide (h = hy.1)) || bool_decide (x = hy.2)) hs) xs.

Lemma no_collisions_spec xs ys : no_collisions xs ys = true →
  ∀ x y, x ∈ xs → y ∈ ys → sha256hex x = sha256hex y → x = y.
Proof.
  unfold no_collisions. intros H x y Hx Hy Heq. rewrite forallb_forall in H.
  apply list_elem_of_In, H in Hx. rewrite forallb_forall in Hx.
  specialize (Hx (sha256hex y, y)). cbn [fst snd] in Hx.
  rewrite bool_decide_true in Hx by done. cbn in Hx.
  assert (bool_decide (x = y) = true) as ?%bool_decide_eq_true; [|done].
  apply Hx, in_map_iff. exists y. split; [done|]. by apply list_elem_of_In.
Qed.

(** The startup check accepts it: the entry carries no [prev_hash] and no
    signature, so there is nothing to check. *)
Definition restart : result JSONLWriter * disk :=
  openAuditLog (Some "key"%string) true (mkDisk (Some forged_file) (d_tip d3)) io_ok.

Lemma forged_prefix_accepted : is_ok restart.1 = true.
Proof. vm_compute. reflexivity. Qed.

Lemma tampering_is_detected_witness :
  is_ok restart.1 = true ∧
  ∃ extra, map dropCR (raw_lines forged_file) = extra ++ file_lines d3 ∧
    linked extra ∧ Forall (authentic (ed25519_Public <$> Some "key"%string)) extra.
Proof.
  split; [vm_compute; reflexivity|].
  destruct restart as [[w'|e] d'] eqn:E.
  - refine (tampering_is_detected no_text (Some "key"%string) events w3 d3 forged_file w' d'
      run_eq events_ok E _ _ (no_collisions_spec _ _ _)); vm_compute; reflexivity.
  - exfalso. pose proof forged_prefix_accepted as H. rewrite E in H. discriminate H.
Defined.

(** The line is in the file, the tip is not saved: [Append] reports an error,
    and the next start refuses a log nobody tampered with. *)
Definition unsaved : result unit * (JSONLWriter * disk) :=
  match audit_entry no_text (entry "1" (t0 + 3 * time.Second)
                               (domain.Gov (domain.LaunchCancelled 1%N))) with
  | Ok ev => Append w3 d3 (mkIO None true) ev
  | Err e => (Err e, (w3, d3))
  end.

Lemma unsaved_tip_blocks_restart :
  is_ok unsaved.1 = false ∧
  length (file_lines unsaved.2.2) = 4%nat ∧
  HasTamper (Scan (default [] (d_file unsaved.2.2)) (PubKey w3)).1 = false ∧
  is_ok (openAuditLog (Some "key"%string) true unsaved.2.2 io_ok).1 = false.
Proof. vm_compute. auto. Qed.

End trail_samples.
