(* ===== verification/FileStore.v ===== *)
(** * Genesis and allocation files (src/internal/infrastructure/storage/fs)

    Each file of a launch can be stored in two forms: its bytes (host mode), or
    a sidecar with an external address and digest (attestor mode); a reader is
    given the sidecar when there is one.  The two stores have base directories
    of their own, and their file names are disjoint, so one map holds both. *)

From S2P Require Import Prelude GoStd Values LaunchAgg Store World.
#[global] Open Scope Z_scope.

Module fs.

(** [ports.StoredFileRef] *)
Record StoredFileRef : Type := mkRef {
  ExternalURL : string; SHA256 : string; LocalPath : option (string * string) }.

Section store.
Context `{O : Oracle}.

Definition write (launchID name : string) (f : stored_file) : M unit := λ w,
  if oracle_file_fails (w_tick w) then (Fail errorf, tick w)
  else (Ret tt, tick (set_files (<[(launchID, name) := f]> (w_files w)) w)).

Definition writeBytes (launchID filename : string) (data : bytes) : M unit :=
  write launchID filename (RawBytes data).
Definition writeRef (launchID filename url sha256 : string) : M unit :=
  write launchID filename (RefFile url sha256).

(** The sidecar first, then the bytes. *)
Definition getRef (launchID refName fileName : string) : M StoredFileRef := λ w,
  (match w_files w !! (launchID, refName) with
   | Some (RefFile url sha) => Ret (mkRef url sha None)
   | Some (RawBytes _) => Fail errorf
   | None =>
       match w_files w !! (launchID, fileName) with
       | Some _ => Ret (mkRef "" "" (Some (launchID, fileName)))
       | None => Fail [ErrNotFound]
       end
   end, w).

(** [GenesisStore] *)
Definition SaveInitial (launchID : string) (data : bytes) : M unit :=
  writeBytes launchID "initial.json" data.
Definition SaveFinal (launchID : string) (data : bytes) : M unit :=
  writeBytes launchID "final.json" data.
Definition SaveInitialRef (launchID url sha256 : string) : M unit :=
  writeRef launchID "initial.ref" url sha256.
Definition SaveFinalRef (launchID url sha256 : string) : M unit :=
  writeRef launchID "final.ref" url sha256.
Definition GetInitialRef (launchID : string) : M StoredFileRef :=
  getRef launchID "initial.ref" "initial.json".
Definition GetFinalRef (launchID : string) : M StoredFileRef :=
  getRef launchID "final.ref" "final.json".

(** [AllocationStore] *)
Definition alloc_file (allocType ext : string) : string :=
  String.append "alloc-" (String.append allocType ext).
Definition AllocSave (launchID allocType : string) (data : bytes) : M unit :=
  writeBytes launchID (alloc_file allocType ".data") data.
Definition AllocSaveRef (launchID allocType url sha256 : string) : M unit :=
  writeRef launchID (alloc_file allocType ".ref") url sha256.
Definition AllocGetRef (launchID allocType : string) : M StoredFileRef :=
  getRef launchID (alloc_file allocType ".ref") (alloc_file allocType ".data").

End store.
End fs.
