(* ===== verification/GenesisCheck.v ===== *)
(** * Checks of an uploaded genesis file (src/internal/application/services/launch.go)

    [validateGenesisStructure] (the file is JSON for this chain) and
    [validateFinalGenesis] (the file starts in the future and contains exactly
    the approved validators), with what the second really compares. *)

From S2P Require Import Prelude GoStd GoTime Values LaunchAgg Fixtures Json Payload JoinRequest.
From S2P Require Import ProposalProps.
#[global] Open Scope Z_scope.

Module genesis.
Import json payload.

Definition validateGenesisStructure (data : bytes) (expectedChainID : string) : result unit :=
  chain ← unmarshal (field ["chain_id"%string] "chain_id" d_string ""%string) data;
  if is_empty chain then Err errorf
  else if negb (bool_decide (chain = expectedChainID)) then Err errorf
  else Ok tt.

(** A slice of structs: element [i] is decoded over the element a repeated key
    left there, or over a zero value. *)
Fixpoint dec_elems {A} (dec : A → value → option A) (zero : A) (cur : list A)
    (vs : list (string * value)) : option (list A) :=
  match vs with
  | [] => Some []
  | (_, v) :: vs =>
      x ← (match v with
           | JNull => Some (default zero (head cur))
           | JObj _ => dec (default zero (head cur)) v
           | _ => None
           end);
      xs ← dec_elems dec zero (tail cur) vs; Some (x :: xs)
  end.
Definition d_slice {A} (dec : A → value → option A) (zero : A) : decoder (list A) := λ cur rv,
  match rv.2 with
  | JNull => Some []
  | JArr vs => dec_elems dec zero cur vs
  | _ => None
  end.

(** [pubkey.key] / [consensus_pubkey.key]: a struct holding a struct with a key. *)
Definition dec_key (cur : string) (v : value) : option string :=
  field ["key"%string] "key" d_string cur v.
Definition dec_in (name : string) (cur : string) (v : value) : option string :=
  field [name] name (d_struct dec_key) cur v.

Definition dec_messages (cur : list string) (v : value) : option (list string) :=
  field ["messages"%string] "messages" (d_slice (dec_in "pubkey") ""%string) cur v.

Definition extractGenTxPubKey (genTx : bytes) : result string :=
  keys ← unmarshal (field ["body"%string] "body" (d_struct dec_messages) []) genTx;
  match keys with
  | [] => Err errorf
  | key :: _ => if is_empty key then Err errorf else Ok key
  end.

(** The parts of the file the check reads. *)
Record FinalGenesis : Type := mkFinal {
  g_GenesisTime : time.Time;
  g_GenTxs : list bytes;
  g_StakingKeys : list string }.

Record AppState : Type := mkAppState { as_GenTxs : list bytes; as_StakingKeys : list string }.
Definition dec_genutil (cur : list bytes) (v : value) : option (list bytes) :=
  field ["gen_txs"%string] "gen_txs" d_raw_list cur v.
Definition dec_staking (cur : list string) (v : value) : option (list string) :=
  field ["validators"%string] "validators" (d_slice (dec_in "consensus_pubkey") ""%string) cur v.
Definition app_names : list string := ["genutil"; "staking"].
Definition dec_app (cur : AppState) (v : value) : option AppState :=
  t ← field app_names "genutil" (d_struct dec_genutil) (as_GenTxs cur) v;
  k ← field app_names "staking" (d_struct dec_staking) (as_StakingKeys cur) v;
  Some (mkAppState t k).
Definition final_names : list string := ["genesis_time"; "app_state"].
Definition dec_final (v : value) : option FinalGenesis :=
  t ← field final_names "genesis_time" d_time time.zeroTime v;
  a ← field final_names "app_state" (d_struct dec_app) (mkAppState [] []) v;
  Some (mkFinal t (as_GenTxs a) (as_StakingKeys a)).

(** The loop that fills the set of keys and refuses duplicates. *)
Fixpoint collect (seen : gset string) (keys : list string) : result (gset string) :=
  match keys with
  | [] => Ok seen
  | k :: keys => if bool_decide (k ∈ seen) then Err errorf else collect ({[k]} ∪ seen) keys
  end.

Fixpoint txKeys (txs : list bytes) : result (list string) :=
  match txs with
  | [] => Ok []
  | tx :: txs => k ← extractGenTxPubKey tx; ks ← txKeys txs; Ok (k :: ks)
  end.

Definition all_present (approved : list joinrequest.JoinRequest) (keys : gset string) : bool :=
  forallb (λ jr, bool_decide (joinrequest.j_ConsensusPubKey jr ∈ keys)) approved.

Definition validateFinalGenesis (data : bytes) (approved : list joinrequest.JoinRequest)
    (now : time.Time) : result time.Time :=
  g ← unmarshal dec_final data;
  if time.IsZero (g_GenesisTime g) then Err errorf
  else if negb (time.After (g_GenesisTime g) now) then Err errorf
  else if (len (g_GenTxs g) =? 0) && (0 <? len approved) then
    if existsb is_empty (g_StakingKeys g) then Err errorf
    else
      keys ← collect ∅ (g_StakingKeys g);
      if negb (Z.of_nat (size keys) =? len approved) then Err errorf
      else if negb (all_present approved keys) then Err errorf
      else Ok (g_GenesisTime g)
  else if negb (len (g_GenTxs g) =? len approved) then Err errorf
  else
    ks ← txKeys (g_GenTxs g);
    keys ← collect ∅ ks;
    if negb (all_present approved keys) then Err errorf
    else Ok (g_GenesisTime g).

End genesis.

Import genesis.

Definition consensus_keys (jrs : list joinrequest.JoinRequest) : list string :=
  joinrequest.j_ConsensusPubKey <$> jrs.

Lemma collect_Ok seen ks s :
  collect seen ks = Ok s →
  NoDup ks ∧ (∀ k, k ∈ ks → k ∉ seen) ∧ ∀ k, k ∈ s ↔ k ∈ ks ∨ k ∈ seen.
Proof.
  revert seen. induction ks as [|k ks IH]; intros seen H; cbn in H.
  { injection H as ->. split_and!; [apply NoDup_nil_2|set_solver|set_solver]. }
  case_bool_decide as Hk; [done|]. apply IH in H as (Hnd & Hd & Hs).
  split_and!; [constructor; [|done]|set_solver|set_solver].
  intros Hin. apply (Hd k Hin). set_solver.
Qed.

Lemma collect_size ks s : collect ∅ ks = Ok s → size s = length ks ∧ ∀ k, k ∈ s ↔ k ∈ ks.
Proof.
  intros (Hnd & _ & Hs)%collect_Ok. split; [|set_solver].
  assert (s = list_to_set ks) as -> by set_solver. by apply size_list_to_set.
Qed.

(** Distinct lists of the same length, one inside the other, are permutations. *)
Lemma perm_of_covering {A} (ks aks : list A) :
  NoDup aks → length ks = length aks → (∀ k, k ∈ aks → k ∈ ks) → ks ≡ₚ aks.
Proof.
  intros Ha Hl Hi. symmetry. apply submseteq_length_Permutation; [|lia].
  by apply NoDup_submseteq.
Qed.

Lemma all_present_spec approved keys :
  all_present approved keys = true ↔ ∀ k, k ∈ consensus_keys approved → k ∈ keys.
Proof.
  unfold all_present, consensus_keys. rewrite forallb_forall. split.
  - intros H k (jr & -> & Hj)%list_elem_of_fmap. specialize (H jr (proj1 (list_elem_of_In _ _) Hj)).
    by apply bool_decide_eq_true in H.
  - intros H jr Hj%list_elem_of_In. apply bool_decide_eq_true. apply H.
    by apply list_elem_of_fmap_2.
Qed.

Lemma keys_match approved ks s :
  NoDup (consensus_keys approved) → collect ∅ ks = Ok s → length ks = length approved →
  all_present approved s = true → ks ≡ₚ consensus_keys approved.
Proof.
  intros Hnd (_ & Hs)%collect_size Hl Hp. apply perm_of_covering; [done| |].
  - unfold consensus_keys. by rewrite length_fmap.
  - intros k Hk. apply Hs. by apply (proj1 (all_present_spec approved s) Hp).
Qed.

Lemma txKeys_length txs ks : txKeys txs = Ok ks → length ks = length txs.
Proof.
  revert ks. induction txs as [|tx txs IH]; intros ks H; cbn in H; [by injection H as <-|].
  apply result_bind_Ok in H as (k & _ & H). apply result_bind_Ok in H as (ks' & Hk & [= <-]).
  cbn. by rewrite (IH _ Hk).
Qed.

(** C24. A final genesis is accepted only if it starts in the future and carries
    the approved validators one for one: either it has no gentxs and the
    consensus keys of its staking validators are a permutation of the approved
    keys, or the keys of its gentxs are. *)
Theorem final_genesis_matches_approved data approved now t :
  NoDup (consensus_keys approved) → validateFinalGenesis data approved now = Ok t →
  ∃ g, json.unmarshal dec_final data = Ok g ∧ g_GenesisTime g = t ∧ now < t ∧
    ((g_GenTxs g = [] ∧ approved ≠ [] ∧ g_StakingKeys g ≡ₚ consensus_keys approved) ∨
     (∃ ks, txKeys (g_GenTxs g) = Ok ks ∧ ks ≡ₚ consensus_keys approved)).
Proof.
  intros Hnd H. unfold validateFinalGenesis in H.
  apply result_bind_Ok in H as (g & Hg & H). destruct (time.IsZero _); [done|].
  destruct (time.After _ _) eqn:Ht; [|done]. cbn [negb] in H. apply Z.ltb_lt in Ht.
  exists g. split; [done|].
  destruct (_ && _) eqn:Eb.
  - apply andb_true_iff in Eb as [E0 E1]. apply Z.eqb_eq in E0. apply Z.ltb_lt in E1.
    destruct (existsb _ _); [done|]. apply result_bind_Ok in H as (s & Hs & H).
    destruct (Z.of_nat (size s) =? _) eqn:El; [|done].
    destruct (all_present _ _) eqn:Ep; [|done].
    injection H as <-. split_and!; [done|done|]. left.
    apply Z.eqb_eq in El. destruct (collect_size _ _ Hs) as [Hsz _].
    split_and!; [by destruct (g_GenTxs g)|by intros ->|].
    eapply keys_match; [done|exact Hs|lia|done].
  - destruct (negb (_ =? len approved)) eqn:El; [done|]. apply negb_false_iff, Z.eqb_eq in El.
    apply result_bind_Ok in H as (ks & Hk & H). apply result_bind_Ok in H as (s & Hs & H).
    destruct (all_present _ _) eqn:Ep; [|done]. injection H as <-.
    split_and!; [done|done|]. right. exists ks. split; [done|].
    eapply keys_match; [done|exact Hs| |done]. rewrite (txKeys_length _ _ Hk).
    by apply Nat2Z.inj.
Qed.

(** ** Sample files *)
Module genesis_samples.
Import fixtures.

(** JSON text written with single quotes. *)
Definition js (s : string) : bytes :=
  of_chars ((λ a, if bool_decide (a = ascii_of_nat 39) then ascii_of_nat 34 else a) <$> chars s).

Definition validator (key : string) : joinrequest.JoinRequest :=
  joinrequest.New 1%N 1%N alice alice "" "" "" "" "" key 0.

Definition baked : bytes := js
  "{'genesis_time':'2030-01-01T00:00:00Z','app_state':{'genutil':{'gen_txs':[]},
    'staking':{'validators':[{'consensus_pubkey':{'key':'k2'}},
                             {'consensus_pubkey':{'key':'k1'}}]}}}".

Lemma final_genesis_matches_approved_witness :
  ∃ g, json.unmarshal dec_final baked = Ok g ∧ g_GenesisTime g = 1893456000 * time.Second ∧
    0 < 1893456000 * time.Second ∧
    ((g_GenTxs g = [] ∧ [validator "k1"; validator "k2"] ≠ [] ∧
      g_StakingKeys g ≡ₚ consensus_keys [validator "k1"; validator "k2"]) ∨
     (∃ ks, txKeys (g_GenTxs g) = Ok ks ∧
            ks ≡ₚ consensus_keys [validator "k1"; validator "k2"])).
Proof.
  apply (final_genesis_matches_approved baked [validator "k1"; validator "k2"] 0).
  - apply (bool_decide_eq_true_1 (NoDup _)). vm_compute. reflexivity.
  - vm_compute. reflexivity.
Defined.

(** A file with one gentx, of the approved key, and two staking validators. *)
Definition mixed : bytes := js
  "{'genesis_time':'2030-01-01T00:00:00Z','app_state':{
    'genutil':{'gen_txs':[{'body':{'messages':[{'pubkey':{'key':'k1'}}]}}]},
    'staking':{'validators':[{'consensus_pubkey':{'key':'x1'}},
                             {'consensus_pubkey':{'key':'x2'}}]}}}".
End genesis_samples.
Import genesis_samples.

(** The comparison looks at one of the two places only: with gentxs for
    the approved validators in the file, validators written directly into the
    staking state are not checked, and a genesis with validators nobody
    approved is accepted. *)
Theorem unapproved_staking_accepted :
  ∃ data approved g t, validateFinalGenesis data approved 0 = Ok t ∧
    json.unmarshal dec_final data = Ok g ∧
    g_StakingKeys g = ["x1"; "x2"]%string ∧
    (∀ k, k ∈ g_StakingKeys g → k ∉ consensus_keys approved).
Proof.
  exists mixed, [validator "k1"]. eexists _, _.
  split; [vm_compute; reflexivity|]. split; [vm_compute; reflexivity|].
  split; [reflexivity|]. cbn. set_solver.
Qed.
