(* ===== verification/WorldProps.v ===== *)
(** * Reasoning about service computations

    Inversion of successful runs ([minv]), and computations that leave part
    of the world alone ([keeps]). *)

From S2P Require Import Prelude GoStd GoTime Values Events Payload Store World.
Import sqlite.
#[global] Open Scope Z_scope.

(** ** Successful runs *)
Section runs.
Context `{O : Oracle} `{UT : UUIDText}.

Lemma bind_Ret {A B} (m : M A) (f : A → M B) w b w' :
  (m ≫= f) w = (Ret b, w') ↔ ∃ a w1, m w = (Ret a, w1) ∧ f a w1 = (Ret b, w').
Proof.
  unfold mbind, M_bind. destruct (m w) as [[] w1]; naive_solver.
Qed.

Lemma ret_Ret {A} (a b : A) w w' : (mret a : M A) w = (Ret b, w') ↔ a = b ∧ w' = w.
Proof. unfold mret, M_ret. naive_solver. Qed.

Lemma throw_Ret {A} e w (b : A) w' : ¬ throw e w = (Ret b, w').
Proof. done. Qed.

Lemma of_result_Ret {A} (r : result A) w a w' :
  of_result r w = (Ret a, w') ↔ r = Ok a ∧ w' = w.
Proof. unfold of_result. destruct r; naive_solver. Qed.

Lemma of_option_Ret {A} (o : option A) w a w' :
  of_option o w = (Ret a, w') ↔ o = Some a ∧ w' = w.
Proof. unfold of_option. destruct o; naive_solver. Qed.

Lemma guard_err_Ret c e w u w' : guard_err c e w = (Ret u, w') ↔ c = false ∧ w' = w.
Proof.
  destruct c, u; cbn.
  - split; [done|by intros [[=] _]].
  - unfold mret, M_ret. split; [by intros [= ->]|by intros [_ ->]].
Qed.

Lemma on_err_Ret {A} f (m : M A) w a w' :
  on_err f m w = (Ret a, w') ↔ m w = (Ret a, w').
Proof. unfold on_err. destruct (m w) as [[] w1]; naive_solver. Qed.

Lemma run_st_Ret {A} (m : St A) w a w' :
  run_st m w = (Ret a, w') ↔ ∃ d, m (w_db w) = (Ok a, d) ∧ w' = set_db d w.
Proof. unfold run_st. destruct (m (w_db w)) as [[] d]; naive_solver. Qed.

Lemma query_Ret {A} (f : db → result A) w a w' :
  run_st (query f) w = (Ret a, w') ↔ f (w_db w) = Ok a ∧ w' = w.
Proof.
  rewrite run_st_Ret. unfold query. destruct w as [d fl au pu t]; cbn. split.
  - by intros (d' & [= -> <-] & ->).
  - intros [-> ->]. by exists d.
Qed.

Lemma Now_Ret w t w' : Now w = (Ret t, w') ↔ t = oracle_Now (w_tick w) ∧ w' = tick w.
Proof. unfold Now. split; [by intros [= <- <-]|by intros [-> ->]]. Qed.

Lemma NewUUID_Ret w t w' : NewUUID w = (Ret t, w') ↔ t = oracle_uuid (w_tick w) ∧ w' = tick w.
Proof. unfold NewUUID. split; [by intros [= <- <-]|by intros [-> ->]]. Qed.

Lemma InTransaction_Ret {A} (fn : M A) w a w' :
  InTransaction fn w = (Ret a, w') → ∃ w1, fn w = (Ret a, w1) ∧ w' = tick w1.
Proof.
  unfold InTransaction. destruct (fn w) as [[] w1]; try done.
  destruct (oracle_commit_fails _); [done|]. intros [= -> <-]. eauto.
Qed.

(** ** Computations that leave something alone *)
Definition keeps {X A} (proj : world → X) (m : M A) : Prop := ∀ w, proj (m w).2 = proj w.

Lemma keeps_bind {X A B} (proj : world → X) (m : M A) (f : A → M B) :
  keeps proj m → (∀ a, keeps proj (f a)) → keeps proj (m ≫= f).
Proof.
  intros Hm Hf w. unfold mbind, M_bind. specialize (Hm w).
  destruct (m w) as [[] w1]; cbn in *; try done. by rewrite Hf.
Qed.

Lemma keeps_ret {X A} (proj : world → X) (a : A) : keeps proj (mret a : M A).
Proof. by intros w. Qed.
Lemma keeps_throw {X A} (proj : world → X) e : keeps proj (throw e : M A).
Proof. by intros w. Qed.
Lemma keeps_of_result {X A} (proj : world → X) (r : result A) : keeps proj (of_result r).
Proof. by intros w. Qed.
Lemma keeps_of_option {X A} (proj : world → X) (r : option A) : keeps proj (of_option r).
Proof. by intros w. Qed.
Lemma keeps_guard {X} (proj : world → X) c e : keeps proj (guard_err c e).
Proof. by intros w; unfold guard_err; destruct c. Qed.
Lemma keeps_on_err {X A} (proj : world → X) f (m : M A) : keeps proj m → keeps proj (on_err f m).
Proof. intros H w. specialize (H w). unfold on_err. by destruct (m w) as [[] w1]. Qed.
Lemma keeps_query {X A} (proj : world → X) (f : db → result A) :
  keeps proj (run_st (query f)).
Proof. intros [d fl au pu t]. done. Qed.
Lemma keeps_if {X A} (proj : world → X) (b : bool) (m n : M A) :
  keeps proj m → keeps proj n → keeps proj (if b then m else n).
Proof. by destruct b. Qed.

(** The log and the broadcasts so far. *)
Definition trail (w : world) := (w_audit w, w_published w).

Lemma trail_run_st {A} (m : St A) : keeps trail (run_st m).
Proof. intros w. unfold run_st. by destruct (m (w_db w)). Qed.
Lemma trail_Now : keeps trail Now.
Proof. by intros w. Qed.
Lemma trail_NewUUID : keeps trail NewUUID.
Proof. by intros w. Qed.
Lemma trail_InTransaction {A} (fn : M A) : keeps trail fn → keeps trail (InTransaction fn).
Proof.
  intros H w. specialize (H w). unfold InTransaction.
  destruct (fn w) as [[] w1]; try done. by destruct (oracle_commit_fails _).
Qed.

Lemma db_Now : keeps w_db Now.
Proof. by intros w. Qed.
Lemma db_NewUUID : keeps w_db NewUUID.
Proof. by intros w. Qed.
Lemma db_writeAuditEvent scope ev : keeps w_db (writeAuditEvent scope ev).
Proof.
  unfold writeAuditEvent. apply keeps_bind; [destruct (time.IsZero _)|intros t].
  - apply db_Now.
  - apply keeps_ret.
  - intros w. unfold Append. by destruct (oracle_audit_fails _).
Qed.
Lemma db_recordAudit scope ev : keeps w_db (recordAudit scope ev).
Proof.
  intros w. pose proof (db_writeAuditEvent scope ev w) as H. unfold recordAudit.
  by destruct (writeAuditEvent scope ev w) as [[] w1].
Qed.
Lemma db_Publish ev : keeps w_db (Publish ev).
Proof. by intros w. Qed.
Lemma db_emit scope ev : keeps w_db (emit scope ev).
Proof. apply keeps_bind; [apply db_recordAudit|]. intros. apply db_Publish. Qed.

(** What writing an audit entry does. *)
Lemma writeAuditEvent_spec scope ev w r w' :
  writeAuditEvent scope ev w = (r, w') →
  w_db w' = w_db w ∧ w_published w' = w_published w ∧
  ((r = Fail errorf ∧ w_audit w' = w_audit w) ∨
   (r = Ret tt ∧ ∃ t, w_audit w' =
      w_audit w ++ [mkAudit scope (domain.EventName ev) t ev])).
Proof.
  unfold writeAuditEvent, mbind, M_bind, Append, Now, mret, M_ret.
  destruct (time.IsZero _); destruct (oracle_audit_fails _); cbn; intros [= <- <-];
    cbn; split_and!; eauto.
Qed.

End runs.

#[export] Hint Resolve keeps_ret keeps_throw keeps_of_result keeps_of_option keeps_guard
  keeps_query trail_run_st trail_Now trail_NewUUID db_Now db_NewUUID db_recordAudit db_Publish
  db_emit : coord.

(** Prove that a computation keeps something, structurally. *)
Ltac keeps_tac :=
  repeat first
    [ progress cbv beta | solve [auto with coord]
    | match goal with
      | |- keeps _ (if ?x then _ else _) => destruct x
      | |- keeps _ (let (_, _) := ?x in _) => destruct x
      | |- keeps _ (match ?x with _ => _ end) => destruct x
      end
    | apply keeps_bind; [|intros ?] | apply keeps_on_err | apply trail_InTransaction ].

(** Invert a successful run into the facts its steps established. *)
Ltac minv_step :=
  match goal with
  | H : (_ ≫= _) _ = (Ret _, _) |- _ =>
      let a := fresh "a" in let w1 := fresh "w" in let E := fresh "E" in
      apply bind_Ret in H as (a & w1 & E & H)
  | H : (mret _) _ = (Ret _, _) |- _ => apply ret_Ret in H as [? ?]; subst
  | H : throw _ _ = (Ret _, _) |- _ => by apply throw_Ret in H
  | H : of_result _ _ = (Ret _, _) |- _ => apply of_result_Ret in H as [H ?]; subst
  | H : of_option _ _ = (Ret _, _) |- _ => apply of_option_Ret in H as [H ?]; subst
  | H : guard_err _ _ _ = (Ret _, _) |- _ => apply guard_err_Ret in H as [H ?]; subst
  | H : on_err _ _ _ = (Ret _, _) |- _ => apply on_err_Ret in H
  | H : run_st (query _) _ = (Ret _, _) |- _ => apply query_Ret in H as [H ?]; subst
  | H : Now _ = (Ret _, _) |- _ => apply Now_Ret in H as [? ?]; subst
  | H : NewUUID _ = (Ret _, _) |- _ => apply NewUUID_Ret in H as [? ?]; subst
  | H : map_err _ _ = Ok _ |- _ => apply map_err_Ok in H
  end.
Ltac minv := repeat (minv_step; cbv beta iota zeta in * ).
