(* ===== verification/ReplayProps.v ===== *)
(** * Replay protection of signed requests

    A signed request carries a nonce, remembered by [NonceStore] for ten
    minutes, and a timestamp, accepted within five minutes of the server
    clock ([validateTimestamp]).  Together they reject a captured request,
    except in the second in which the nonce expires; and a timestamp too far
    in the future passes the check. *)

From S2P Require Import Prelude GoStd GoTime TimeProps Values LaunchAgg Fixtures Payload.
From S2P Require Import JoinRequest Store StoreProps World.
From stdpp Require Import relations.
Import sqlite.
#[global] Open Scope Z_scope.





(** A timestamp 2^63 nanoseconds (292 years) or more ahead of the clock is
    accepted, although the window is five minutes: the difference saturates at
    the smallest [Duration], whose negation is itself.  A request signed with
    such a timestamp can be replayed whenever its nonce has expired. *)
Theorem far_future_accepted now t :
  now - t ≤ int64_min → timestamp_ok now t = true.
Proof.
  intros H. unfold timestamp_ok, time.Since, time.Sub, int64_min, int64_max in *.
  rewrite Z.max_l by lia. reflexivity.
Qed.

Module replay_samples.
Import fixtures.

Lemma far_future_accepted_witness :
  rfc3339.Parse "9999-12-31T23:59:59Z" = Ok 253402300799000000000 ∧
  timestamp_ok t0 253402300799000000000 = true.
Proof.
  split; [vm_compute; reflexivity|]. apply far_future_accepted.
  vm_compute. discriminate.
Defined.


End replay_samples.
