(* ===== verification/InputSet.v ===== *)
(** * The rehearsal input set (src/internal/application/services/input_set_hash.go)

    What a genesis would be built from: the chain record, the approved gentxs
    and the approved allocation files, and the digest that identifies it.  The
    rehearsal bridge, the rehearsal gate and the genesis consistency checks
    all use this one assembly. *)

From S2P Require Import Prelude GoStd GoTime Sha256 Values LaunchAgg Payload JoinRequest Store.
From S2P Require Import World.
From stdpp Require Import pretty.
Import sqlite.
#[global] Open Scope Z_scope.

Module inputset.

Record RehearsalChain : Type := mkChain {
  rc_ChainID : string;
  rc_Bech32Prefix : string;
  rc_Denom : string;
  rc_TotalSupply : string;
  rc_MinSelfDelegation : string;
  rc_MaxCommissionRate : string;
  rc_MaxCommissionChangeRate : string;
  rc_MinValidatorCount : Z;
  rc_GenesisTime : option time.Time;
  rc_BinaryName : string;
  rc_BinaryVersion : string;
  rc_BinarySHA256 : string;
  rc_RepoURL : string;
  rc_RepoCommit : string }.

Record RehearsalGentx : Type := mkGentx {
  rg_OperatorAddress : string;
  rg_ConsensusPubKey : string;
  rg_Moniker : string;
  rg_SelfDelegation : string;
  rg_GentxJSON : bytes }.

Record RehearsalAllocation : Type := mkRehearsalAllocation {
  ra_Type : string;
  ra_SHA256 : string;
  ra_ApprovedByProposal : string }.

Record RehearsalInput : Type := mkInput {
  ri_LaunchID : uuid;
  ri_GeneratedAt : time.Time;
  ri_Status : launch.Status;
  ri_Chain : RehearsalChain;
  ri_Gentxs : list RehearsalGentx;
  ri_Allocations : list RehearsalAllocation;
  ri_InputSetHash : string }.

(** [rfc3339OrNil] *)
Definition rfc3339OrNil (t : option time.Time) : jdoc :=
  match t with None => DNull | Some t => DStr (rfc3339.Format t) end.

Section hasher.
Context `{B32 : Bech32} `{NU : NetURL} `{UT : UUIDText} `{CJ : CanonicalJSON} `{O : Oracle}.

Definition hashChain (c : RehearsalChain) : jdoc :=
  DObj [("chain_id", DStr (rc_ChainID c)); ("bech32_prefix", DStr (rc_Bech32Prefix c));
        ("denom", DStr (rc_Denom c)); ("total_supply", DStr (rc_TotalSupply c));
        ("min_self_delegation", DStr (rc_MinSelfDelegation c));
        ("max_commission_rate", DStr (rc_MaxCommissionRate c));
        ("max_commission_change_rate", DStr (rc_MaxCommissionChangeRate c));
        ("min_validator_count", DInt (rc_MinValidatorCount c));
        ("genesis_time", rfc3339OrNil (rc_GenesisTime c));
        ("binary", DObj [("name", DStr (rc_BinaryName c)); ("version", DStr (rc_BinaryVersion c));
                         ("sha256", DStr (rc_BinarySHA256 c)); ("repo_url", DStr (rc_RepoURL c));
                         ("repo_commit", DStr (rc_RepoCommit c))])]%string.

Definition hashGentx (g : RehearsalGentx) : jdoc :=
  DObj [("operator_address", DStr (rg_OperatorAddress g));
        ("consensus_pubkey", DStr (rg_ConsensusPubKey g));
        ("gentx_sha256", DStr (sha256.hex_sum (rg_GentxJSON g)))]%string.

(** The [switch] keeps the last file of each type; unknown types are dropped. *)
Definition file_of (t : launch.AllocationType) (allocs : list RehearsalAllocation) : jdoc :=
  foldl (λ cur a, if bool_decide (launch.AllocationType_of_string (ra_Type a) = t)
                  then DStr (ra_SHA256 a) else cur) DNull allocs.

Definition hashFiles (allocs : list RehearsalAllocation) : jdoc :=
  DObj [("accounts_sha256", file_of launch.AllocationAccounts allocs);
        ("claims_sha256", file_of launch.AllocationClaims allocs);
        ("grants_sha256", file_of launch.AllocationGrants allocs);
        ("authz_sha256", file_of launch.AllocationAuthz allocs);
        ("feegrant_sha256", file_of launch.AllocationFeegrant allocs)]%string.

Definition hashInput (c : RehearsalChain) (gs : list RehearsalGentx)
    (allocs : list RehearsalAllocation) : jdoc :=
  DObj [("chain", hashChain c); ("gentxs", DArr (hashGentx <$> gs));
        ("files", hashFiles allocs)]%string.

Definition computeInputSetHash (c : RehearsalChain) (gs : list RehearsalGentx)
    (allocs : list RehearsalAllocation) : result string :=
  msg ← canonical_MarshalForSigning (hashInput c gs allocs);
  Ok (sha256.hex_sum msg).

Definition gentx_of (jr : joinrequest.JoinRequest) : RehearsalGentx :=
  mkGentx (account_String (joinrequest.j_OperatorAddress jr))
    (joinrequest.j_ConsensusPubKey jr) (joinrequest.Moniker jr)
    (pretty (joinrequest.SelfDelegationAmount jr)) (joinrequest.j_GentxJSON jr).

Definition alloc_of (af : launch.AllocationFile) : RehearsalAllocation :=
  mkRehearsalAllocation (launch.AllocationType_String (launch.af_Type af))
    (launch.af_SHA256 af)
    (match launch.af_ApprovedByProposal af with Some i => uuid_String i | None => "" end).

Definition chain_of (r : launch.ChainRecord) : RehearsalChain :=
  mkChain (launch.r_ChainID r) (launch.r_Bech32Prefix r) (launch.r_Denom r)
    (launch.r_TotalSupply r) (launch.r_MinSelfDelegation r)
    (cr_value (launch.r_MaxCommissionRate r)) (cr_value (launch.r_MaxCommissionChangeRate r))
    (launch.r_MinValidatorCount r) (launch.r_GenesisTime r) (launch.r_BinaryName r)
    (launch.r_BinaryVersion r) (launch.r_BinarySHA256 r) (launch.r_RepoURL r)
    (launch.r_RepoCommit r).

(** The sorted lists [Assemble] builds.  [sort.Slice] is not stable, but the
    active-validator index keeps operator addresses distinct. *)
Definition gentxs_of (approved : list joinrequest.JoinRequest) : list RehearsalGentx :=
  order_by rg_OperatorAddress (gentx_of <$> approved).
Definition is_approved (af : launch.AllocationFile) : bool :=
  bool_decide (launch.af_Status af = launch.AllocationApproved).
Definition allocs_of (l : launch.Launch) : list RehearsalAllocation :=
  order_by ra_Type (alloc_of <$> List.filter is_approved (launch.l_AllocationFiles l)).

(** [InputSetHasher.Assemble] *)
Definition Assemble (l : launch.Launch) : M RehearsalInput :=
  run_st (findApprovedByLaunch (launch.l_ID l)) ≫= λ approved,
  let gentxs := gentxs_of approved in
  let allocs := allocs_of l in
  let chain := chain_of (launch.l_Record l) in
  of_result (computeInputSetHash chain gentxs allocs) ≫= λ hash,
  Now ≫= λ now,
  mret (mkInput (launch.l_ID l) now (launch.l_Status l) chain gentxs allocs hash).

(** [InputSetHasher.Current] *)
Definition Current (l : launch.Launch) : M string :=
  Assemble l ≫= λ in_, mret (ri_InputSetHash in_).

End hasher.
End inputset.
