(* ===== verification/ProposalService.v ===== *)
(** * ProposalService (src/internal/application/services/proposal.go)

    The committee's proposals: raising, signing and expiring them, and applying
    an executed proposal to the aggregates it names.  Everything an executed
    proposal changes is written in one transaction between a write-ahead
    [ProposalExecuting] audit entry and the completion events.

    The wrapping texts of errors are dropped, their sentinels kept.  A Go
    method that mutates the proposal it is given returns the new value here;
    the launch it mutates is not read again by any caller. *)

From S2P Require Import Prelude GoStd GoTime Values LaunchAgg Json Events Payload Proposal.
From S2P Require Import JoinRequest Rehearsal Store World InputSet.
Import sqlite.
#[global] Open Scope Z_scope.

Module proposals.
Import payload.

Definition defaultProposalTTL : time.Duration := 48 * time.Hour.
Definition pendingJRLimit : Z := 1000.

(** The configuration fields of [ProposalService]. *)
Record Config : Type := mkConfig {
  rehearsalGate : rehearsal.RehearsalGateMode;
  has_results : bool (* s.results != nil *) }.

Record RaiseInput : Type := mkRaise {
  ra_ActionType : ActionType;
  ra_Payload : option bytes;
  ra_MemberAddr : string;
  ra_Nonce : string;
  ra_Timestamp : string;
  ra_Signature : string;
  ra_PubKeyB64 : string }.

Record SignInput : Type := mkSignInput {
  si_MemberAddr : string;
  si_Decision : proposal.Decision;
  si_Nonce : string;
  si_Timestamp : string;
  si_Signature : string;
  si_PubKeyB64 : string }.

Definition Decision_String (d : proposal.Decision) : string :=
  match d with
  | proposal.DecisionSign => "SIGN" | proposal.DecisionVeto => "VETO"
  | proposal.DecisionOther s => s
  end.

(** The documents handed to [canonicaljson.MarshalForSigning]. *)
Definition raise_doc (i : RaiseInput) : jdoc :=
  DObj [("action_type", DStr (ActionType_String (ra_ActionType i)));
        ("payload", DRaw (ra_Payload i)); ("member_address", DStr (ra_MemberAddr i));
        ("nonce", DStr (ra_Nonce i)); ("timestamp", DStr (ra_Timestamp i));
        ("signature", DStr (ra_Signature i)); ("pubkey_b64", DStr (ra_PubKeyB64 i))]%string.
Definition sign_doc (i : SignInput) : jdoc :=
  DObj [("member_address", DStr (si_MemberAddr i));
        ("decision", DStr (Decision_String (si_Decision i)));
        ("nonce", DStr (si_Nonce i)); ("timestamp", DStr (si_Timestamp i));
        ("signature", DStr (si_Signature i)); ("pubkey_b64", DStr (si_PubKeyB64 i))]%string.

(** ** Error mapping (proposal.go, launch.go) *)
Definition is_one_of (e : error) (ss : list sentinel) : bool := existsb (errors_Is e) ss.

Definition mapJoinRequestDomainErr (e : error) : error :=
  if errors_Is e ErrInvalidJoinRequestStatus then wrap2 ErrConflict e else e.

Definition mapProposalDomainErr (e : error) : error :=
  if is_one_of e [ErrProposalNotPending; ErrProposalTTLExpired; ErrMemberAlreadySigned]
  then wrap2 ErrConflict e else e.

Definition mapLaunchDomainErr (e : error) : error :=
  if is_one_of e [ErrInvalidStatusTransition; ErrCommitteeMemberExists;
                  ErrInsufficientValidators; ErrMembersNotEditable; ErrDominantVotingPower]
  then wrap2 ErrConflict e
  else if errors_Is e ErrNotAMember then wrap2 ErrNotFound e
  else if is_one_of e [ErrGenesisHashRequired; ErrCommitteeMemberNotFound;
                       ErrInvalidCommitteeChange]
  then wrap2 ErrBadRequest e
  else e.

Definition mapAllocationDomainErr (e : error) : error :=
  if is_one_of e [ErrAllocationLocked; ErrAllocationStaleHash] then wrap2 ErrConflict e
  else if errors_Is e ErrAllocationNotFound then wrap2 ErrNotFound e
  else if is_one_of e [ErrUnknownAllocationType; ErrAllocationEmptyHash]
  then wrap2 ErrBadRequest e
  else e.

(** ** Pure helpers *)
Definition ResolveThreshold (currentM newN : Z) (override : option Z) : Z :=
  match override with
  | Some m => m
  | None =>
      let m := currentM in
      let m := if newN <=? m then newN - 1 else m in
      if m <? 1 then 1 else m
  end.

Definition committeeMemberAddrs (c : launch.Committee) : list string :=
  (λ m, account_String (launch.cm_Address m)) <$> launch.c_Members c.

Definition guardCancelLaunchRaise (action : ActionType) (status : launch.Status)
    : result unit :=
  if negb (bool_decide (action = ActionCancelLaunch)) then Ok tt
  else if bool_decide (status = launch.StatusLaunched)
          || bool_decide (status = launch.StatusCancelled)
  then Err [ErrConflict] else Ok tt.

(** [extractJoinRequestID]: here the field is read as a plain string. *)
Definition extractJoinRequestID (pl : option bytes) : string :=
  match json.unmarshal
          (json.field ["join_request_id"] "join_request_id" json.d_string "") (default "" pl) with
  | Ok s => s
  | Err _ => ""
  end.

Section service.
Context `{B32 : Bech32} `{NU : NetURL} `{UT : UUIDText} `{CJ : CanonicalJSON}
        `{SV : SignatureVerifier} `{O : Oracle}.
Variable cfg : Config.

Definition canonicalPayload (raw : option bytes) : bytes :=
  match canonical_Marshal raw with Ok c => c | Err _ => default "" raw end.

Definition is_validator_decision (a : ActionType) : bool :=
  bool_decide (a = ActionApproveValidator) || bool_decide (a = ActionRejectValidator)
  || bool_decide (a = ActionRemoveApprovedValidator).

Definition conflictKey (a : ActionType) (pl : option bytes) : string :=
  let jr := extractJoinRequestID pl in
  if is_validator_decision a && negb (is_empty jr) then ("validator:" +:+ jr)
  else (ActionType_String a +:+ ":" +:+ canonicalPayload pl).

Definition verifyMemberSig (memberAddr pubKeyB64 : string) (message sigBytes : bytes)
    : M unit :=
  guard_err (is_empty pubKeyB64) [ErrBadRequest] ≫= λ _,
  on_err (wrap2 ErrUnauthorized)
    (of_result (verifier_Verify memberAddr pubKeyB64 message sigBytes)).

(** ** Pending proposals *)
Definition rejectConflictingPending (launchID : uuid) (a : ActionType) (pl : option bytes)
    : M unit :=
  run_st findPending ≫= λ pending,
  let want := conflictKey a pl in
  guard_err
    (existsb (λ ex, bool_decide (proposal.p_LaunchID ex = launchID)
       && bool_decide (conflictKey (proposal.p_ActionType ex) (Some (proposal.p_Payload ex))
                       = want)) pending)
    [ErrConflict].

Definition hasPending (launchID : uuid) (actions : list ActionType) : M bool :=
  run_st findPending ≫= λ pending,
  mret (existsb (λ p, bool_decide (proposal.p_LaunchID p = launchID)
                      && bool_decide (proposal.p_ActionType p ∈ actions)) pending).

(** ** Genesis consistency and the rehearsal gate *)
Definition checkGenesisFresh (l : launch.Launch) : M unit :=
  guard_err (is_empty (launch.l_FinalGenesisInputSetHash l)) [ErrGenesisStale; ErrConflict]
    ≫= λ _,
  inputset.Current l ≫= λ current,
  guard_err (negb (bool_decide (current = launch.l_FinalGenesisInputSetHash l)))
    [ErrGenesisStale; ErrConflict].

Definition latestRehearsal (launchID : uuid) : M (option rehearsal.RehearsalResult) :=
  if negb (has_results cfg) then mret None
  else run_st (findResultsByLaunch launchID) ≫= λ results, mret (head results).

Definition NotReady_reason (n : rehearsal.NotReady) : string :=
  match n with
  | rehearsal.NoResult => "no rehearsal result recorded"
  | rehearsal.WrongOutcome o =>
      "latest rehearsal outcome is " +:+ rehearsal.Outcome_String o
  | rehearsal.StaleRehearsal => "rehearsal is stale — the approved set changed since it ran"
  end.

Definition gateRehearsal (l : launch.Launch) : M unit :=
  match rehearsalGate cfg with
  | rehearsal.RehearsalGateOff => mret tt
  | mode =>
      let required := bool_decide (mode = rehearsal.RehearsalGateRequired) in
      guard_err (required && is_empty (launch.l_RehearsalServicePubKey l))
        [ErrRehearsalGateNoService; ErrConflict] ≫= λ _,
      latestRehearsal (launch.l_ID l) ≫= λ latest,
      inputset.Current l ≫= λ current,
      match rehearsal.EvaluateRehearsalReady latest current with
      | None => mret tt
      | Some reason =>
          if required then throw [ErrRehearsalGateUnsatisfied; ErrConflict]
          else emit (uuid_String (launch.l_ID l))
                 (domain.event (domain.Gov (domain.RehearsalGateNotSatisfied (launch.l_ID l)
                                              (NotReady_reason reason))))
      end
  end.

Definition guardFinalizationRaise (l : launch.Launch) (a : ActionType) : M unit :=
  if bool_decide (a = ActionPublishGenesis) then
    checkGenesisFresh l ≫= λ _,
    hasPending (launch.l_ID l) [ActionApproveValidator; ActionRemoveApprovedValidator]
      ≫= λ pending,
    guard_err pending [ErrGenesisPublishInProgress; ErrConflict] ≫= λ _,
    gateRehearsal l
  else if bool_decide (a = ActionApproveValidator)
          || bool_decide (a = ActionRemoveApprovedValidator) then
    hasPending (launch.l_ID l) [ActionPublishGenesis] ≫= λ pending,
    guard_err pending [ErrGenesisPublishInProgress; ErrConflict]
  else mret tt.

(** ** Applying an executed proposal *)
Definition saveLaunchAndProposal (l : launch.Launch) (p : proposal.Proposal)
    : M proposal.Proposal :=
  run_st (saveLaunch l) ≫= λ _, run_st (saveProposal p) ≫= λ _, mret p.

Definition applyApproveValidator (l : launch.Launch) (p : proposal.Proposal)
    : M proposal.Proposal :=
  of_result (json.unmarshal dec_approve (proposal.p_Payload p)) ≫= λ pl,
  run_st (findJoinRequest (av_JoinRequestID pl)) ≫= λ jr,
  of_result (map_err mapJoinRequestDomainErr (joinrequest.Approve jr (proposal.p_ID p)))
    ≫= λ jr,
  of_result (NewAccountID (av_OperatorAddress pl)) ≫= λ operatorAddr,
  let (l, _) := launch.RecordValidatorApproval l operatorAddr
                  (joinrequest.SelfDelegationAmount jr) in
  run_st (saveJoinRequest jr) ≫= λ _,
  saveLaunchAndProposal l p.

Definition applyRejectValidator (p : proposal.Proposal) : M proposal.Proposal :=
  of_result (json.unmarshal dec_reject (proposal.p_Payload p)) ≫= λ pl,
  run_st (findJoinRequest (rv_JoinRequestID pl)) ≫= λ jr,
  of_result (map_err mapJoinRequestDomainErr (joinrequest.Reject jr (rv_Reason pl))) ≫= λ jr,
  run_st (saveJoinRequest jr) ≫= λ _,
  run_st (saveProposal p) ≫= λ _, mret p.

Definition applyRemoveValidator (l : launch.Launch) (p : proposal.Proposal)
    : M proposal.Proposal :=
  guard_err (negb (bool_decide (launch.l_Status l = launch.StatusWindowOpen))
             && negb (bool_decide (launch.l_Status l = launch.StatusWindowClosed)))
    [ErrBadRequest] ≫= λ _,
  of_result (json.unmarshal dec_reject (proposal.p_Payload p)) ≫= λ pl,
  run_st (findJoinRequest (rv_JoinRequestID pl)) ≫= λ jr,
  of_result (map_err mapJoinRequestDomainErr (joinrequest.Revoke jr (rv_Reason pl))) ≫= λ jr,
  of_result (NewAccountID (rv_OperatorAddress pl)) ≫= λ operatorAddr,
  run_st (saveJoinRequest jr) ≫= λ _,
  saveLaunchAndProposal (launch.RemoveValidatorApproval l operatorAddr) p.

Definition applyPublishChainRecord (l : launch.Launch) (p : proposal.Proposal)
    : M proposal.Proposal :=
  of_result (json.unmarshal dec_publish_record (proposal.p_Payload p)) ≫= λ pl,
  guard_err (is_empty (launch.l_InitialGenesisSHA256 l)) [ErrConflict] ≫= λ _,
  guard_err (negb (bool_decide (pc_InitialGenesisHash pl = launch.l_InitialGenesisSHA256 l)))
    [ErrBadRequest] ≫= λ _,
  Now ≫= λ now,
  of_result (map_err mapLaunchDomainErr (launch.Publish l (pc_InitialGenesisHash pl) now))
    ≫= λ l,
  saveLaunchAndProposal l p.

(** The loop over the pending requests: one that is not PENDING is skipped. *)
Fixpoint expire_all (pending : list joinrequest.JoinRequest) : M unit :=
  match pending with
  | [] => mret tt
  | jr :: rest =>
      match joinrequest.Expire jr with
      | Err _ => expire_all rest
      | Ok jr => run_st (saveJoinRequest jr) ≫= λ _, expire_all rest
      end
  end.

Definition applyCloseWindow (l : launch.Launch) (p : proposal.Proposal)
    : M proposal.Proposal :=
  run_st (findApprovedByLaunch (launch.l_ID l)) ≫= λ approved,
  Now ≫= λ now,
  of_result (map_err mapLaunchDomainErr (launch.CloseWindow l (len approved) now)) ≫= λ l,
  run_st (findJoinRequestsByLaunch (launch.l_ID l) (Some joinrequest.StatusPending) 1
            pendingJRLimit) ≫= λ pending,
  expire_all pending.1 ≫= λ _,
  saveLaunchAndProposal l p.

Definition applyPublishGenesis (l : launch.Launch) (p : proposal.Proposal)
    : M proposal.Proposal :=
  of_result (json.unmarshal dec_publish_genesis (proposal.p_Payload p)) ≫= λ pl,
  guard_err (negb (bool_decide (pg_GenesisHash pl = launch.l_FinalGenesisSHA256 l)))
    [ErrGenesisHashMismatch; ErrConflict] ≫= λ _,
  checkGenesisFresh l ≫= λ _,
  (if bool_decide (rehearsalGate cfg = rehearsal.RehearsalGateRequired)
   then gateRehearsal l else mret tt) ≫= λ _,
  Now ≫= λ now,
  of_result (map_err mapLaunchDomainErr (launch.PublishGenesis l (pg_GenesisHash pl) now))
    ≫= λ l,
  saveLaunchAndProposal l p.

Definition applyUpdateGenesisTime (l : launch.Launch) (p : proposal.Proposal)
    : M proposal.Proposal :=
  guard_err (bool_decide (launch.l_Status l = launch.StatusLaunched)
             || bool_decide (launch.l_Status l = launch.StatusCancelled))
    [ErrBadRequest] ≫= λ _,
  of_result (json.unmarshal dec_time (proposal.p_Payload p)) ≫= λ pl,
  let l := launch.set_Record
             (launch.set_GenesisTime (Some (ut_NewGenesisTime pl)) (launch.l_Record l)) l in
  InvalidateByLaunch (launch.l_ID l) ≫= λ _,
  saveLaunchAndProposal l p.

Definition applyApproveAllocationFile (l : launch.Launch) (p : proposal.Proposal)
    : M proposal.Proposal :=
  of_result (json.unmarshal dec_alloc (proposal.p_Payload p)) ≫= λ pl,
  Now ≫= λ now,
  of_result (map_err mapAllocationDomainErr
    (launch.ApproveAllocationFile l (launch.AllocationType_of_string (aa_Type pl))
       (aa_Hash pl) (proposal.p_ID p) now)) ≫= λ l,
  saveLaunchAndProposal l p.

Definition applyReplaceCommitteeMember (l : launch.Launch) (p : proposal.Proposal)
    : M proposal.Proposal :=
  of_result (json.unmarshal dec_replace (proposal.p_Payload p)) ≫= λ pl,
  of_result (NewAccountID (rc_OldAddress pl)) ≫= λ oldAddr,
  of_result (NewAccountID (rc_NewAddress pl)) ≫= λ newAddr,
  let newMember := launch.mkCM newAddr (rc_NewMoniker pl) in
  let old := launch.l_Committee l in
  Now ≫= λ now,
  of_result (map_err mapLaunchDomainErr
    (launch.ReplaceCommitteeMember l oldAddr newMember now)) ≫= λ l,
  let p := proposal.RecordEvent p (domain.event (domain.Com (domain.CommitteeMemberReplaced
    (launch.l_ID l) (account_String oldAddr) (account_String newAddr)
    (committeeMemberAddrs old) (committeeMemberAddrs (launch.l_Committee l))
    (launch.c_ThresholdM old) (launch.c_ThresholdM (launch.l_Committee l))))) in
  saveLaunchAndProposal l p.

Definition applyReviseGenesis (l : launch.Launch) (p : proposal.Proposal)
    : M proposal.Proposal :=
  Now ≫= λ now,
  of_result (map_err mapLaunchDomainErr (launch.ReopenForRevision l now)) ≫= λ l,
  InvalidateByLaunch (launch.l_ID l) ≫= λ _,
  saveLaunchAndProposal l p.

Definition applyCancelLaunch (l : launch.Launch) (p : proposal.Proposal)
    : M proposal.Proposal :=
  let prev := launch.l_Status l in
  Now ≫= λ now,
  of_result (map_err mapLaunchDomainErr (launch.Cancel l now)) ≫= λ l,
  (if bool_decide (prev = launch.StatusGenesisReady)
   then InvalidateByLaunch (launch.l_ID l) else mret tt) ≫= λ _,
  saveLaunchAndProposal l p.

Definition applyExpandCommittee (l : launch.Launch) (p : proposal.Proposal)
    : M proposal.Proposal :=
  of_result (json.unmarshal dec_expand (proposal.p_Payload p)) ≫= λ pl,
  of_result (NewAccountID (ms_Address (ec_NewMember pl))) ≫= λ newAddr,
  let newMember := launch.mkCM newAddr (ms_Moniker (ec_NewMember pl)) in
  let old := launch.l_Committee l in
  let effectiveM := ResolveThreshold (launch.c_ThresholdM old) (launch.c_TotalN old + 1)
                      (ec_NewThresholdM pl) in
  run_st (expireAllPending (launch.l_ID l)) ≫= λ _,
  Now ≫= λ now,
  of_result (map_err mapLaunchDomainErr
    (launch.ExpandCommittee l newMember effectiveM now)) ≫= λ l,
  let p := proposal.RecordEvent p (domain.event (domain.Com (domain.CommitteeExpanded
    (launch.l_ID l) (account_String newAddr)
    (committeeMemberAddrs old) (committeeMemberAddrs (launch.l_Committee l))
    (launch.c_ThresholdM old) (launch.c_ThresholdM (launch.l_Committee l))))) in
  saveLaunchAndProposal l p.

Definition applyShrinkCommittee (l : launch.Launch) (p : proposal.Proposal)
    : M proposal.Proposal :=
  of_result (json.unmarshal dec_shrink (proposal.p_Payload p)) ≫= λ pl,
  of_result (NewAccountID (sc_RemoveAddress pl)) ≫= λ removeAddr,
  let old := launch.l_Committee l in
  let effectiveM := ResolveThreshold (launch.c_ThresholdM old) (launch.c_TotalN old - 1)
                      (sc_NewThresholdM pl) in
  run_st (expireAllPending (launch.l_ID l)) ≫= λ _,
  Now ≫= λ now,
  of_result (map_err mapLaunchDomainErr
    (launch.ShrinkCommittee l removeAddr effectiveM now)) ≫= λ l,
  let p := proposal.RecordEvent p (domain.event (domain.Com (domain.CommitteeShrunk
    (launch.l_ID l) (account_String removeAddr)
    (committeeMemberAddrs old) (committeeMemberAddrs (launch.l_Committee l))
    (launch.c_ThresholdM old) (launch.c_ThresholdM (launch.l_Committee l))))) in
  saveLaunchAndProposal l p.

Definition applyProposal (l : launch.Launch) (p : proposal.Proposal)
    : M proposal.Proposal :=
  match proposal.p_ActionType p with
  | ActionApproveValidator => applyApproveValidator l p
  | ActionRejectValidator => applyRejectValidator p
  | ActionRemoveApprovedValidator => applyRemoveValidator l p
  | ActionPublishChainRecord => applyPublishChainRecord l p
  | ActionCloseApplicationWindow => applyCloseWindow l p
  | ActionPublishGenesis => applyPublishGenesis l p
  | ActionUpdateGenesisTime => applyUpdateGenesisTime l p
  | ActionApproveAllocationFile => applyApproveAllocationFile l p
  | ActionReplaceCommitteeMember => applyReplaceCommitteeMember l p
  | ActionReviseGenesis => applyReviseGenesis l p
  | ActionExpandCommittee => applyExpandCommittee l p
  | ActionShrinkCommittee => applyShrinkCommittee l p
  | ActionCancelLaunch => applyCancelLaunch l p
  | ActionOther _ => throw errorf
  end.

(** ** Execution and dispatch *)

(** [s.exit(1)] on an error. *)
Definition or_exit (m : M unit) : M unit := λ w,
  match m w with (Fail _, w1) => (Exit, w1) | r => r end.

(** The loop of [dispatchEvents]: a completion event that cannot be audited
    stops the process. *)
Fixpoint dispatch_all (scope : string) (evs : list domain.DomainEvent) : M unit :=
  match evs with
  | [] => mret tt
  | ev :: rest =>
      Publish ev ≫= λ _,
      or_exit (writeAuditEvent scope ev) ≫= λ _,
      dispatch_all scope rest
  end.

Definition dispatchEvents (p : proposal.Proposal) : M proposal.Proposal :=
  let (evs, p) := proposal.PopEvents p in
  dispatch_all (uuid_String (proposal.p_LaunchID p)) evs ≫= λ _, mret p.

Definition intent_event (p : proposal.Proposal) : domain.DomainEvent :=
  domain.event (domain.Sys (domain.ProposalExecuting (proposal.p_LaunchID p)
    (proposal.p_ID p) (ActionType_String (proposal.p_ActionType p)))).
Definition abort_event (p : proposal.Proposal) (e : error) : domain.DomainEvent :=
  domain.event (domain.Sys (domain.ProposalExecutionAborted (proposal.p_LaunchID p)
    (proposal.p_ID p) (ActionType_String (proposal.p_ActionType p)) e)).

(** [if err := m; err != nil { h(err); return err }] *)
Definition on_failure {A} (h : error → M unit) (m : M A) : M A := λ w,
  match m w with
  | (Fail e, w1) => let (_, w2) := h e w1 in (Fail e, w2)
  | r => r
  end.

Definition applyAndSave (l : launch.Launch) (p : proposal.Proposal) : M proposal.Proposal :=
  let scope := uuid_String (proposal.p_LaunchID p) in
  writeAuditEvent scope (intent_event p) ≫= λ _,
  on_failure (λ e, emit scope (abort_event p e)) (InTransaction (applyProposal l p)) ≫= λ p,
  dispatchEvents p.

Definition applyAllocationVeto (l : launch.Launch) (p : proposal.Proposal)
    : M proposal.Proposal :=
  of_result (json.unmarshal dec_alloc (proposal.p_Payload p)) ≫= λ pl,
  Now ≫= λ now,
  let (l, rejected) := launch.RejectAllocationFile l
                         (launch.AllocationType_of_string (aa_Type pl)) (aa_Hash pl) now in
  if negb rejected then run_st (saveProposal p) ≫= λ _, mret p
  else
    InTransaction (saveLaunchAndProposal l p) ≫= λ p,
    dispatchEvents (proposal.RecordEvent p (domain.event (domain.Lch
      (domain.AllocationFileRejected (launch.l_ID l) (aa_Type pl) (aa_Hash pl))))).

(** ** Raise *)

(** Authentication of a signed request, shared by [Raise] and [Sign]: the
    nonce, the timestamp, the launch, committee membership, the signature. *)
Definition authenticate (launchID : uuid) (doc : jdoc) (addr nonce ts sig pub : string)
    : M (launch.Launch * AccountID) :=
  ConsumeNonce addr nonce ≫= λ _,
  validateTimestamp ts ≫= λ _,
  of_result (canonical_MarshalForSigning doc) ≫= λ message,
  decodeBase64Sig sig ≫= λ sigBytes,
  run_st (findLaunch launchID) ≫= λ l,
  of_result (map_err (wrap2 ErrBadRequest) (NewAccountID addr)) ≫= λ memberAddr,
  guard_err (negb (launch.HasMember (launch.l_Committee l) memberAddr)) [ErrForbidden] ≫= λ _,
  verifyMemberSig addr pub message sigBytes ≫= λ _,
  mret (l, memberAddr).

Definition Raise (launchID : uuid) (input : RaiseInput) : M proposal.Proposal :=
  authenticate launchID (raise_doc input) (ra_MemberAddr input) (ra_Nonce input)
    (ra_Timestamp input) (ra_Signature input) (ra_PubKeyB64 input) ≫= λ '(l, memberAddr),
  guardFinalizationRaise l (ra_ActionType input) ≫= λ _,
  of_result (guardCancelLaunchRaise (ra_ActionType input) (launch.l_Status l)) ≫= λ _,
  rejectConflictingPending launchID (ra_ActionType input) (ra_Payload input) ≫= λ _,
  of_result (map_err (wrap2 ErrBadRequest) (NewSignature (ra_Signature input))) ≫= λ sig,
  Now ≫= λ now,
  NewUUID ≫= λ id,
  of_result (map_err (wrap2 ErrBadRequest)
    (proposal.New id launchID (ra_ActionType input) (ra_Payload input) memberAddr sig
       defaultProposalTTL now)) ≫= λ p,
  of_option (proposal.CheckQuorum p (launch.c_ThresholdM (launch.l_Committee l)) now) ≫= λ p,
  if bool_decide (proposal.p_Status p = proposal.StatusExecuted) then applyAndSave l p
  else run_st (saveProposal p) ≫= λ _, mret p.

(** ** Sign

    [sign_load] runs up to and including the decision on the loaded proposal,
    [sign_store] writes its outcome.  Between the two, other requests may run. *)
Definition sign_load (launchID proposalID : uuid) (input : SignInput)
    : M (launch.Launch * proposal.Proposal) :=
  authenticate launchID (sign_doc input) (si_MemberAddr input) (si_Nonce input)
    (si_Timestamp input) (si_Signature input) (si_PubKeyB64 input) ≫= λ '(l, memberAddr),
  run_st (findProposal proposalID) ≫= λ p,
  guard_err (negb (bool_decide (proposal.p_LaunchID p = launchID))) [ErrNotFound] ≫= λ _,
  guard_err (negb (bool_decide (proposal.p_Status p = proposal.StatusPendingSignatures)))
    [ErrConflict] ≫= λ _,
  of_result (map_err (wrap2 ErrBadRequest) (NewSignature (si_Signature input))) ≫= λ sig,
  Now ≫= λ now,
  of_option (proposal.Sign p memberAddr (si_Decision input) sig
               (launch.c_ThresholdM (launch.l_Committee l)) now) ≫= λ r,
  of_result (map_err mapProposalDomainErr r) ≫= λ p,
  mret (l, p).

Definition sign_store (l : launch.Launch) (p : proposal.Proposal) : M proposal.Proposal :=
  if bool_decide (proposal.p_Status p = proposal.StatusExecuted) then applyAndSave l p
  else if bool_decide (proposal.p_Status p = proposal.StatusVetoed)
          && bool_decide (proposal.p_ActionType p = ActionApproveAllocationFile)
  then applyAllocationVeto l p
  else run_st (saveProposal p) ≫= λ _, mret p.

Definition Sign (launchID proposalID : uuid) (input : SignInput) : M proposal.Proposal :=
  sign_load launchID proposalID input ≫= λ '(l, p), sign_store l p.

(** ** Expiry and reading *)
Definition expired_event (p : proposal.Proposal) : domain.DomainEvent :=
  domain.event (domain.Com (domain.ProposalExpired (proposal.p_LaunchID p)
    (proposal.p_ID p) (ActionType_String (proposal.p_ActionType p)))).

Fixpoint expire_stale_all (now : time.Time) (pending : list proposal.Proposal) : M unit :=
  match pending with
  | [] => mret tt
  | p :: rest =>
      (let (p, expired) := proposal.ExpireIfStale p now in
       if expired : bool then
         run_st (saveProposal p) ≫= λ _,
         emit (uuid_String (proposal.p_LaunchID p)) (expired_event p)
       else mret tt) ≫= λ _,
      expire_stale_all now rest
  end.

Definition ExpireStale : M unit :=
  run_st findPending ≫= λ pending,
  Now ≫= λ now,
  expire_stale_all now pending.

Definition ListForLaunch (launchID : uuid) (page perPage : Z)
    : M (list proposal.Proposal * Z) :=
  run_st (findProposalsByLaunch launchID page perPage).

Definition GetByID (launchID proposalID : uuid) : M proposal.Proposal :=
  run_st (findProposal proposalID) ≫= λ p,
  guard_err (negb (bool_decide (proposal.p_LaunchID p = launchID))) [ErrNotFound] ≫= λ _,
  mret p.

End service.
End proposals.
