(* ===== verification/LaunchService.v ===== *)
(** * LaunchService (src/internal/application/services/launch.go)

    Creating and editing launches: the draft and its committee, the members
    list, genesis and allocation files, the application window, direct
    cancellation, and the reads gated by visibility.  Unlike the execution of
    proposals, nothing here runs in a transaction: a request loads the launch,
    changes it and saves it; the version check of [saveLaunch] is the only
    protection between the two.

    The rehearsal bridge, which is declared on the same service, is not
    here. *)

From S2P Require Import Prelude GoStd GoTime Sha256 Values LaunchAgg Json Events Payload.
From S2P Require Import JoinRequest Store World FileStore InputSet GenesisCheck ProposalService.
From stdpp Require Import pretty.
Import sqlite.
#[global] Open Scope Z_scope.

Module launches.
Import proposals.

(** [s.urlValidator]: by default [netutil.ValidateRPCURL], which resolves the
    host; replaced in trusted networks. *)
Class URLValidator : Type := { urlValidator : string → result unit }.

Record CreateLaunchInput : Type := mkCreate {
  ci_Record : launch.ChainRecord;
  ci_LaunchType : launch.LaunchType;
  ci_Allowlist : list AccountID;
  ci_Committee : launch.Committee }.

Record PatchLaunchInput : Type := mkPatch {
  pi_ChainName : option string;
  pi_BinaryVersion : option string;
  pi_BinarySHA256 : option string;
  pi_RepoURL : option string;
  pi_RepoCommit : option string;
  pi_GenesisTime : option time.Time;
  pi_MinValidatorCount : option Z;
  pi_TotalSupply : option string;
  pi_Allowlist : option (list AccountID);
  pi_MonitorRPCURL : option string;
  pi_RehearsalServicePubKey : option string;
  pi_RehearsalEndpoint : option string }.

Definition LaunchType_String (t : launch.LaunchType) : string :=
  match t with
  | launch.LaunchTypeTestnet => "TESTNET"
  | launch.LaunchTypeIncentivizedTestnet => "INCENTIVIZED_TESTNET"
  | launch.LaunchTypeMainnet => "MAINNET"
  | launch.LaunchTypePermissioned => "PERMISSIONED"
  | launch.LaunchTypeOther s => s
  end.

Definition validateEd25519PubKeyB64 (s : string) : result unit :=
  if is_empty s then Ok tt
  else raw ← base64.DecodeString s;
       if negb (String.length raw =? 32)%nat then Err errorf else Ok tt.

(** [isValidSHA256Hex] is the loop of [isSHA256HexLower] again. *)
Definition isValidSHA256Hex (s : string) : bool := isSHA256HexLower s.

Definition sha256Hex (data : bytes) : string := sha256.hex_sum data.

(** ** Audit differences of a patch *)
Definition record (field old updated : string) : list domain.FieldChange :=
  if bool_decide (old = updated) then [] else [domain.mkFieldChange field old updated].

Definition formatTimePtr (t : option time.Time) : string :=
  match t with None => "" | Some t => rfc3339.Format t end.

Section service.
Context `{B32 : Bech32} `{NU : NetURL} `{UT : UUIDText} `{CJ : CanonicalJSON} `{UV : URLValidator}
        `{O : Oracle}.

Definition formatAccountIDs (ids : list AccountID) : string :=
  String.concat "," (order_by id (account_String <$> ids)).

Definition hasDraftFields (i : PatchLaunchInput) : bool :=
  bool_decide (is_Some (pi_ChainName i)) || bool_decide (is_Some (pi_BinaryVersion i))
  || bool_decide (is_Some (pi_BinarySHA256 i)) || bool_decide (is_Some (pi_RepoURL i))
  || bool_decide (is_Some (pi_RepoCommit i)) || bool_decide (is_Some (pi_GenesisTime i))
  || bool_decide (is_Some (pi_MinValidatorCount i)) || bool_decide (is_Some (pi_TotalSupply i))
  || bool_decide (is_Some (pi_Allowlist i)).

Definition patch_record (i : PatchLaunchInput) (r : launch.ChainRecord) : launch.ChainRecord :=
  launch.mkRecord (launch.r_ChainID r) (default (launch.r_ChainName r) (pi_ChainName i))
    (launch.r_Bech32Prefix r) (launch.r_BinaryName r)
    (default (launch.r_BinaryVersion r) (pi_BinaryVersion i))
    (default (launch.r_BinarySHA256 r) (pi_BinarySHA256 i))
    (default (launch.r_RepoURL r) (pi_RepoURL i))
    (default (launch.r_RepoCommit r) (pi_RepoCommit i))
    (match pi_GenesisTime i with Some t => Some t | None => launch.r_GenesisTime r end)
    (launch.r_Denom r) (launch.r_MinSelfDelegation r)
    (default (launch.r_TotalSupply r) (pi_TotalSupply i))
    (launch.r_MaxCommissionRate r) (launch.r_MaxCommissionChangeRate r)
    (launch.r_GentxDeadline r)
    (default (launch.r_MinValidatorCount r) (pi_MinValidatorCount i)).

Definition changed {A} (field : string) (show : A → string) (old : A) (new : option A)
    : list domain.FieldChange :=
  match new with None => [] | Some x => record field (show old) (show x) end.

(** [applyDraftFields]: the launch with the fields written, and the changes. *)
Definition applyDraftFields (l : launch.Launch) (i : PatchLaunchInput)
    : launch.Launch * list domain.FieldChange :=
  let r := launch.l_Record l in
  let al := match pi_Allowlist i with
            | Some ids => NewAllowlist ids | None => launch.l_Allowlist l end in
  (launch.set_Allowlist al (launch.set_Record (patch_record i r) l),
   changed "chain_name" id (launch.r_ChainName r) (pi_ChainName i)
   ++ changed "binary_version" id (launch.r_BinaryVersion r) (pi_BinaryVersion i)
   ++ changed "binary_sha256" id (launch.r_BinarySHA256 r) (pi_BinarySHA256 i)
   ++ changed "repo_url" id (launch.r_RepoURL r) (pi_RepoURL i)
   ++ changed "repo_commit" id (launch.r_RepoCommit r) (pi_RepoCommit i)
   ++ (match pi_GenesisTime i with
       | None => []
       | Some t => record "genesis_time" (formatTimePtr (launch.r_GenesisTime r))
                     (formatTimePtr (Some t)) end)
   ++ changed "min_validator_count" pretty (launch.r_MinValidatorCount r)
        (pi_MinValidatorCount i)
   ++ changed "total_supply" id (launch.r_TotalSupply r) (pi_TotalSupply i)
   ++ changed "allowlist" formatAccountIDs (al_Addresses (launch.l_Allowlist l))
        (pi_Allowlist i)).

(** ** Guards *)

(** [callerOp, err := NewAccountID(caller); err != nil || !HasMember(callerOp)] *)
Definition is_committee (l : launch.Launch) (callerAddr : string) : bool :=
  match NewAccountID callerAddr with
  | Ok a => launch.HasMember (launch.l_Committee l) a
  | Err _ => false
  end.
Definition is_lead (l : launch.Launch) (callerAddr : string) : bool :=
  match NewAccountID callerAddr with
  | Ok a => account_Equal (launch.c_LeadAddress (launch.l_Committee l)) a
  | Err _ => false
  end.

(** The inline form and [requireCommittee] are the same. *)
Definition requireCommittee (launchID : uuid) (callerAddr : string) : M launch.Launch :=
  run_st (findLaunch launchID) ≫= λ l,
  guard_err (negb (is_committee l callerAddr)) [ErrForbidden] ≫= λ _, mret l.
Definition requireLead (launchID : uuid) (callerAddr : string) : M launch.Launch :=
  run_st (findLaunch launchID) ≫= λ l,
  guard_err (negb (is_lead l callerAddr)) [ErrForbidden] ≫= λ _, mret l.
Definition requireStatus (s : launch.Status) (l : launch.Launch) : M unit :=
  guard_err (negb (bool_decide (launch.l_Status l = s))) [ErrConflict].

Definition badRequest {A} (r : result A) : M A := of_result (map_err (wrap2 ErrBadRequest) r).
Definition conflict {A} (r : result A) : M A := of_result (map_err (wrap2 ErrConflict) r).

(** [s.launches.Save], then the event. *)
Definition saveAndEmit (l : launch.Launch) (ev : domain.event_body) : M unit :=
  run_st (saveLaunch l) ≫= λ _, emit (uuid_String (launch.l_ID l)) (domain.event ev).

(** ** Requests *)
Definition CreateLaunch (input : CreateLaunchInput) : M launch.Launch :=
  NewUUID ≫= λ id, Now ≫= λ now,
  badRequest (launch.New id (ci_Record input) (ci_LaunchType input) (ci_Committee input) now)
    ≫= λ l,
  let l := launch.set_Allowlist (NewAllowlist (ci_Allowlist input)) l in
  saveAndEmit l (domain.Lch (domain.LaunchCreated (launch.l_ID l)
    (launch.r_ChainID (launch.l_Record l)) (LaunchType_String (launch.l_LaunchType l))
    (account_String (launch.c_LeadAddress (launch.l_Committee l))))) ≫= λ _,
  mret l.

Definition UploadInitialGenesis (launchID : uuid) (data : bytes) (callerAddr : string)
    : M string :=
  requireCommittee launchID callerAddr ≫= λ l,
  requireStatus launch.StatusDraft l ≫= λ _,
  badRequest (genesis.validateGenesisStructure data (launch.r_ChainID (launch.l_Record l)))
    ≫= λ _,
  let hash := sha256Hex data in
  fs.SaveInitial (uuid_String launchID) data ≫= λ _,
  run_st (saveLaunch (launch.set_InitialGenesisSHA256 hash l)) ≫= λ _,
  emit (uuid_String launchID)
    (domain.event (domain.Lch (domain.InitialGenesisUploaded launchID hash))) ≫= λ _,
  mret hash.

(** The final genesis is bound to the input set it was assembled from. *)
Definition bindFinal (l : launch.Launch) (hash : string) (t : time.Time) : M launch.Launch :=
  let l := launch.set_FinalGenesisSHA256 hash
             (launch.set_Record (launch.set_GenesisTime (Some t) (launch.l_Record l)) l) in
  inputset.Current l ≫= λ inputSetHash,
  mret (launch.set_FinalGenesisInputSetHash inputSetHash l).

Definition UploadFinalGenesis (launchID : uuid) (data : bytes) (callerAddr : string)
    : M string :=
  requireCommittee launchID callerAddr ≫= λ l,
  requireStatus launch.StatusWindowClosed l ≫= λ _,
  badRequest (genesis.validateGenesisStructure data (launch.r_ChainID (launch.l_Record l)))
    ≫= λ _,
  run_st (findApprovedByLaunch launchID) ≫= λ approved,
  Now ≫= λ now,
  badRequest (genesis.validateFinalGenesis data approved now) ≫= λ genesisTime,
  let hash := sha256Hex data in
  fs.SaveFinal (uuid_String launchID) data ≫= λ _,
  bindFinal l hash genesisTime ≫= λ l,
  run_st (saveLaunch l) ≫= λ _,
  emit (uuid_String launchID)
    (domain.event (domain.Lch (domain.FinalGenesisUploaded launchID hash))) ≫= λ _,
  mret hash.

(** [uploadGenesisRef], with the two callbacks *)
Definition uploadGenesisRef (required : launch.Status) (launchID : uuid)
    (genesisURL sha256Hash callerAddr : string) (saveFn : M unit)
    (setHashFn : launch.Launch → M launch.Launch) : M unit :=
  requireCommittee launchID callerAddr ≫= λ l,
  requireStatus required l ≫= λ _,
  badRequest (urlValidator genesisURL) ≫= λ _,
  guard_err (negb (isValidSHA256Hex sha256Hash)) [ErrBadRequest] ≫= λ _,
  saveFn ≫= λ _,
  setHashFn l ≫= λ l,
  run_st (saveLaunch l).

Definition UploadInitialGenesisRef (launchID : uuid) (url sha callerAddr : string) : M unit :=
  uploadGenesisRef launch.StatusDraft launchID url sha callerAddr
    (fs.SaveInitialRef (uuid_String launchID) url sha)
    (λ l, mret (launch.set_InitialGenesisSHA256 sha l)) ≫= λ _,
  emit (uuid_String launchID)
    (domain.event (domain.Lch (domain.InitialGenesisUploaded launchID sha))).

Definition UploadFinalGenesisRef (launchID : uuid) (url sha : string) (genesisTime : time.Time)
    (callerAddr : string) : M unit :=
  guard_err (time.IsZero genesisTime) [ErrBadRequest] ≫= λ _,
  Now ≫= λ now,
  guard_err (negb (time.After genesisTime now)) [ErrBadRequest] ≫= λ _,
  uploadGenesisRef launch.StatusWindowClosed launchID url sha callerAddr
    (fs.SaveFinalRef (uuid_String launchID) url sha)
    (λ l, bindFinal l sha genesisTime) ≫= λ _,
  emit (uuid_String launchID)
    (domain.event (domain.Lch (domain.FinalGenesisUploaded launchID sha))).

(** The hash is recorded on the aggregate before the bytes are written.  The
    part after loading the launch is a definition of its own, so that two
    requests can be interleaved. *)
Definition alloc_store (launchID : uuid) (allocType : string) (data : bytes)
    (l : launch.Launch) : M string :=
  let hash := sha256Hex data in
  Now ≫= λ now,
  of_result (map_err mapAllocationDomainErr (launch.UploadAllocationFile l
    (launch.AllocationType_of_string allocType) hash now)) ≫= λ l,
  fs.AllocSave (uuid_String launchID) allocType data ≫= λ _,
  run_st (saveLaunch l) ≫= λ _,
  emit (uuid_String launchID)
    (domain.event (domain.Lch (domain.AllocationFileUploaded launchID allocType hash))) ≫= λ _,
  mret hash.

Definition UploadAllocationFileBytes (launchID : uuid) (allocType : string) (data : bytes)
    (callerAddr : string) : M string :=
  guard_err (negb (launch.ValidAllocationType (launch.AllocationType_of_string allocType)))
    [ErrBadRequest] ≫= λ _,
  requireCommittee launchID callerAddr ≫= λ l,
  alloc_store launchID allocType data l.

Definition UploadAllocationFileRef (launchID : uuid) (allocType fileURL sha callerAddr : string)
    : M unit :=
  let at_ := launch.AllocationType_of_string allocType in
  guard_err (negb (launch.ValidAllocationType at_)) [ErrBadRequest] ≫= λ _,
  requireCommittee launchID callerAddr ≫= λ l,
  badRequest (urlValidator fileURL) ≫= λ _,
  guard_err (negb (isValidSHA256Hex sha)) [ErrBadRequest] ≫= λ _,
  Now ≫= λ now,
  of_result (map_err mapAllocationDomainErr (launch.UploadAllocationFile l at_ sha now)) ≫= λ l,
  fs.AllocSaveRef (uuid_String launchID) allocType fileURL sha ≫= λ _,
  run_st (saveLaunch l) ≫= λ _,
  emit (uuid_String launchID)
    (domain.event (domain.Lch (domain.AllocationFileUploaded launchID allocType sha))).

(** The three operational fields, each validated before it is written. *)
Definition patch_monitor (l : launch.Launch) (i : PatchLaunchInput)
    : M (launch.Launch * list domain.FieldChange) :=
  match pi_MonitorRPCURL i with
  | None => mret (l, [])
  | Some u =>
      badRequest (urlValidator u) ≫= λ _,
      mret (launch.set_Monitoring u (launch.l_RehearsalServicePubKey l)
              (launch.l_RehearsalEndpoint l) l,
            record "monitor_rpc_url" (launch.l_MonitorRPCURL l) u)
  end.
Definition patch_endpoint (l : launch.Launch) (i : PatchLaunchInput)
    : M (launch.Launch * list domain.FieldChange) :=
  match pi_RehearsalEndpoint i with
  | None => mret (l, [])
  | Some u =>
      guard_err (negb (is_empty u) && negb (IsValidHTTPURL u)) [ErrBadRequest] ≫= λ _,
      mret (launch.set_Monitoring (launch.l_MonitorRPCURL l)
              (launch.l_RehearsalServicePubKey l) u l,
            record "rehearsal_endpoint" (launch.l_RehearsalEndpoint l) u)
  end.
Definition patch_pubkey (l : launch.Launch) (i : PatchLaunchInput)
    : M (launch.Launch * list domain.FieldChange) :=
  match pi_RehearsalServicePubKey i with
  | None => mret (l, [])
  | Some k =>
      badRequest (validateEd25519PubKeyB64 k) ≫= λ _,
      mret (launch.set_Monitoring (launch.l_MonitorRPCURL l) k (launch.l_RehearsalEndpoint l) l,
            record "rehearsal_service_pubkey" (launch.l_RehearsalServicePubKey l) k)
  end.
Definition patch_draft (l : launch.Launch) (i : PatchLaunchInput)
    : M (launch.Launch * list domain.FieldChange) :=
  if negb (hasDraftFields i) then mret (l, [])
  else
    requireStatus launch.StatusDraft l ≫= λ _,
    let (l, changes) := applyDraftFields l i in
    (match launch.validateChainRecord (launch.l_Record l) with
     | Some e => throw [ErrBadRequest; e]
     | None => mret (l, changes)
     end).

Definition PatchLaunch (launchID : uuid) (input : PatchLaunchInput) (callerAddr : string)
    : M launch.Launch :=
  requireCommittee launchID callerAddr ≫= λ l,
  patch_monitor l input ≫= λ '(l, c1),
  patch_endpoint l input ≫= λ '(l, c2),
  patch_pubkey l input ≫= λ '(l, c3),
  patch_draft l input ≫= λ '(l, c4),
  run_st (saveLaunch l) ≫= λ _,
  let changes := c1 ++ c2 ++ c3 ++ c4 in
  (if bool_decide (changes = []) then mret tt
   else emit (uuid_String (launch.l_ID l))
          (domain.event (domain.Com (domain.LaunchPatched (launch.l_ID l) callerAddr changes))))
    ≫= λ _,
  mret l.

Definition maxMemberLabelLen : nat := 128.

Definition AddMember (launchID : uuid) (address label callerAddr : string) : M Member :=
  requireCommittee launchID callerAddr ≫= λ l,
  guard_err (maxMemberLabelLen <? String.length label)%nat [ErrBadRequest] ≫= λ _,
  badRequest (NewAccountID address) ≫= λ addr,
  Now ≫= λ now,
  let m := mkMember addr label callerAddr now in
  of_result (map_err mapLaunchDomainErr (launch.AddMember l m)) ≫= λ l,
  saveAndEmit l (domain.Com (domain.LaunchMemberAdded (launch.l_ID l) (account_String addr)
    label callerAddr)) ≫= λ _,
  mret m.

Definition RemoveMember (launchID : uuid) (address callerAddr : string) : M unit :=
  requireCommittee launchID callerAddr ≫= λ l,
  badRequest (NewAccountID address) ≫= λ addr,
  of_result (map_err mapLaunchDomainErr (launch.RemoveMember l addr)) ≫= λ l,
  saveAndEmit l (domain.Com (domain.LaunchMemberRemoved (launch.l_ID l) (account_String addr)
    callerAddr)).

Definition ListMembers (launchID : uuid) (callerAddr : string) : M (list Member) :=
  requireCommittee launchID callerAddr ≫= λ l, mret (al_Members (launch.l_Allowlist l)).

Definition SetCommittee (launchID : uuid) (committee : launch.Committee) (callerAddr : string)
    : M unit :=
  requireLead launchID callerAddr ≫= λ l,
  requireStatus launch.StatusDraft l ≫= λ _,
  guard_err ((launch.c_ThresholdM committee <? 1)
             || (launch.c_TotalN committee <? launch.c_ThresholdM committee)) [ErrBadRequest]
    ≫= λ _,
  guard_err (negb (len (launch.c_Members committee) =? launch.c_TotalN committee))
    [ErrBadRequest] ≫= λ _,
  of_option (head (launch.c_Members committee)) ≫= λ m0,
  guard_err (negb (account_Equal (launch.cm_Address m0) (launch.c_LeadAddress committee)))
    [ErrLeadNotFirstMember; ErrBadRequest] ≫= λ _,
  saveAndEmit (launch.set_Committee committee l)
    (domain.Com (domain.CommitteeSet (launch.l_ID l) (committeeMemberAddrs committee)
       (launch.c_ThresholdM committee) (launch.c_TotalN committee)
       (account_String (launch.c_LeadAddress committee)) callerAddr)).

Definition IsCommitteeMember (launchID : uuid) (callerAddr : string) : M bool :=
  run_st (findLaunch launchID) ≫= λ l, mret (is_committee l callerAddr).

Definition GetLaunch (id : uuid) (callerAddr : string) : M launch.Launch :=
  run_st (findLaunch id) ≫= λ l,
  guard_err (negb (launch.IsVisibleTo l callerAddr)) [ErrNotFound] ≫= λ _, mret l.

Definition GetCommittee (launchID : uuid) (callerAddr : string) : M launch.Committee :=
  GetLaunch launchID callerAddr ≫= λ l, mret (launch.l_Committee l).

Record ChainHintOutput : Type := mkHint {
  ch_ChainID : string; ch_ChainName : string; ch_Bech32Prefix : string; ch_Denom : string }.

Definition GetChainHint (id : uuid) (callerAddr : string) : M ChainHintOutput :=
  run_st (findLaunch id) ≫= λ l,
  guard_err (negb (launch.IsVisibleTo l callerAddr)) [ErrNotFound] ≫= λ _,
  let r := launch.l_Record l in
  mret (mkHint (launch.r_ChainID r) (launch.r_ChainName r) (launch.r_Bech32Prefix r)
          (launch.r_Denom r)).

Definition ListLaunches (callerAddr : string) (page perPage : Z) : M (list launch.Launch * Z) :=
  run_st (findAllLaunches callerAddr page perPage).

Definition OpenWindow (launchID : uuid) (callerAddr : string) : M unit :=
  requireCommittee launchID callerAddr ≫= λ l,
  (if bool_decide (launch.l_Status l = launch.StatusDraft) then
     guard_err (is_empty (launch.l_InitialGenesisSHA256 l)) [ErrConflict] ≫= λ _,
     Now ≫= λ now, conflict (launch.Publish l (launch.l_InitialGenesisSHA256 l) now)
   else mret l) ≫= λ l,
  Now ≫= λ now,
  conflict (launch.OpenWindow l now) ≫= λ l,
  saveAndEmit l (domain.Lch (domain.WindowOpened (launch.l_ID l))).

Record LaunchDashboard : Type := mkDashboard {
  ld_LaunchID : uuid; ld_ChainID : string; ld_Status : launch.Status;
  ld_GenesisTime : option time.Time; ld_Countdown : option time.Duration;
  ld_FinalGenesisSHA256 : string; ld_InitialGenesisSHA256 : string }.

Definition GetDashboard (launchID : uuid) (callerAddr : string) : M LaunchDashboard :=
  GetLaunch launchID callerAddr ≫= λ l,
  let gt := launch.r_GenesisTime (launch.l_Record l) in
  (match gt with
   | None => mret None
   | Some t => Now ≫= λ now, mret (Some (time.Sub t now))
   end) ≫= λ countdown,
  mret (mkDashboard (launch.l_ID l) (launch.r_ChainID (launch.l_Record l)) (launch.l_Status l) gt
          countdown (launch.l_FinalGenesisSHA256 l) (launch.l_InitialGenesisSHA256 l)).

Definition CancelLaunch (launchID : uuid) (callerAddr : string) : M unit :=
  requireLead launchID callerAddr ≫= λ l,
  (match launch.l_Status l with
   | launch.StatusDraft | launch.StatusPublished => mret tt
   | launch.StatusWindowOpen | launch.StatusWindowClosed | launch.StatusGenesisReady =>
       throw [ErrConflict]
   | launch.StatusLaunched | launch.StatusCancelled =>
       throw [ErrInvalidStatusTransition; ErrConflict]
   end) ≫= λ _,
  Now ≫= λ now,
  conflict (launch.Cancel l now) ≫= λ l,
  saveAndEmit l (domain.Gov (domain.LaunchCancelled (launch.l_ID l))).

End service.
End launches.
