(* ===== verification/JoinRequestService.v ===== *)
(** * JoinRequestService (src/internal/application/services/joinrequest.go)

    Submission of a validator's join request and the reads over join
    requests.  [Submit] runs without a transaction: each repository call is a
    statement of its own. *)

From S2P Require Import Prelude GoStd GoTime Values LaunchAgg Json Events Payload.
From S2P Require Import JoinRequest Store World ProposalService.
Import sqlite.
#[global] Open Scope Z_scope.

Module joinrequests.

(** [ports.GentxValidator] over gentxvalidate: the parameters of the invariant
    set, and its outcome: the name, verdict and reason of every invariant,
    whether [gentxvalidate.AllOK] holds of them, and the extracted keys. *)
Record Params : Type := mkParams {
  gp_ChainID : string;
  gp_BondDenom : string;
  gp_Bech32Prefix : string;
  gp_MaxCommissionRate : string;
  gp_MaxCommissionChangeRate : string;
  gp_MinSelfDelegation : string }.
Record Outcome : Type := mkOutcome {
  go_Results : list (string * bool * string);
  go_AllOK : bool;
  go_ConsensusPubKeyB64 : string;
  go_ValidatorAddress : string }.
Class GentxValidator : Type := { gentx_Validate : bytes → Params → Outcome }.

Definition maxJoinRequestsPerSubmitter : Z := 50.

Record SubmitInput : Type := mkSubmit {
  su_ChainID : string;
  su_OperatorAddress : string;
  su_PubKeyB64 : string;
  su_GentxJSON : option bytes;
  su_PeerAddress : string;
  su_RPCEndpoint : string;
  su_Memo : string;
  su_Timestamp : string;
  su_Nonce : string;
  su_Signature : string }.

Definition submit_doc (i : SubmitInput) : jdoc :=
  DObj [("chain_id", DStr (su_ChainID i)); ("operator_address", DStr (su_OperatorAddress i));
        ("pubkey_b64", DStr (su_PubKeyB64 i)); ("gentx", DRaw (su_GentxJSON i));
        ("peer_address", DStr (su_PeerAddress i)); ("rpc_endpoint", DStr (su_RPCEndpoint i));
        ("memo", DStr (su_Memo i)); ("timestamp", DStr (su_Timestamp i));
        ("nonce", DStr (su_Nonce i)); ("signature", DStr (su_Signature i))]%string.

Definition requiresSelfDelegationFloor (t : launch.LaunchType) : bool :=
  match t with
  | launch.LaunchTypeMainnet | launch.LaunchTypeIncentivizedTestnet
  | launch.LaunchTypePermissioned => true
  | launch.LaunchTypeTestnet | launch.LaunchTypeOther _ => false
  end.

Definition gentx_params (l : launch.Launch) : Params :=
  let r := launch.l_Record l in
  mkParams (launch.r_ChainID r) (launch.r_Denom r) (launch.r_Bech32Prefix r)
    (cr_value (launch.r_MaxCommissionRate r)) (cr_value (launch.r_MaxCommissionChangeRate r))
    (if requiresSelfDelegationFloor (launch.l_LaunchType l)
     then launch.r_MinSelfDelegation r else "").

Section service.
Context `{B32 : Bech32} `{NU : NetURL} `{UT : UUIDText} `{CJ : CanonicalJSON}
        `{SVr : SignatureVerifier} `{GV : GentxValidator} `{O : Oracle}.

(** [*ports.GentxInvalidError] unwraps to [ErrBadRequest]. *)
Definition validateGentx (l : launch.Launch) (gentxJSON : bytes) : result (string * string) :=
  let outcome := gentx_Validate gentxJSON (gentx_params l) in
  if negb (go_AllOK outcome) then Err [SGentxInvalid (go_Results outcome); ErrBadRequest]
  else Ok (go_ConsensusPubKeyB64 outcome, go_ValidatorAddress outcome).

Definition verifyRequestAuth (i : SubmitInput) : M unit :=
  ConsumeNonce (su_OperatorAddress i) (su_Nonce i) ≫= λ _,
  validateTimestamp (su_Timestamp i) ≫= λ _,
  of_result (canonical_MarshalForSigning (submit_doc i)) ≫= λ message,
  decodeBase64Sig (su_Signature i) ≫= λ sigBytes,
  of_result (map_err (λ e, e ++ [ErrUnauthorized])
    (verifier_Verify (su_OperatorAddress i) (su_PubKeyB64 i) message sigBytes)).

Definition parseConnectionFields (i : SubmitInput) : result (string * string * string) :=
  let bad {A} (r : result A) := map_err (λ e, e ++ [ErrBadRequest]) r in
  peerAddr ← bad (NewPeerAddress (su_PeerAddress i));
  rpcEndpoint ← (if is_empty (su_RPCEndpoint i) then Ok ""%string
                 else bad (NewRPCEndpoint (su_RPCEndpoint i)));
  sig ← bad (NewSignature (su_Signature i));
  Ok (peerAddr, rpcEndpoint, sig).

(** The active request of the validator, if there is one. *)
Definition activeRequest (launchID : uuid) (validatorAddr : AccountID)
    : M (option joinrequest.JoinRequest) := λ w,
  match run_st (findActiveByValidator launchID (account_String validatorAddr)) w with
  | (Ret jr, w1) => (Ret (Some jr), w1)
  | (Fail e, w1) => if errors_Is e ErrNotFound then (Ret None, w1) else (Fail e, w1)
  | (Panic, w1) => (Panic, w1)
  | (Exit, w1) => (Exit, w1)
  end.

Definition supersedePending (launchID : uuid) (validatorAddr : AccountID) : M unit :=
  activeRequest launchID validatorAddr ≫= λ o,
  match o with
  | None => mret tt
  | Some existing =>
      match joinrequest.j_Status existing with
      | joinrequest.StatusApproved => throw [SValidatorAlreadyApproved; ErrConflict]
      | joinrequest.StatusPending =>
          of_result (joinrequest.Expire existing) ≫= λ existing,
          run_st (saveJoinRequest existing)
      | joinrequest.StatusRejected | joinrequest.StatusExpired => throw errorf
      end
  end.

(** The checks before the first write to join requests: who submits, and
    whether the launch accepts submissions now. *)
Definition admit_submission (launchID : uuid) (i : SubmitInput)
    : M (AccountID * string * AccountID) :=
  verifyRequestAuth i ≫= λ _,
  run_st (findLaunch launchID) ≫= λ l,
  of_result (map_err (λ e, e ++ [ErrBadRequest]) (NewAccountID (su_OperatorAddress i)))
    ≫= λ submitterAddr,
  guard_err (negb (launch.IsVisibleToAddr l submitterAddr)) [ErrNotFound] ≫= λ _,
  of_result (validateGentx l (default ""%string (su_GentxJSON i)))
    ≫= λ '(consensusPubKey, validatorAddrStr),
  of_result (map_err (λ e, e ++ [ErrBadRequest]) (NewAccountID validatorAddrStr))
    ≫= λ validatorAddr,
  of_result (map_err (λ e, e ++ [ErrConflict]) (launch.EnsureOpenForApplications l)) ≫= λ _,
  Now ≫= λ now,
  guard_err (time.After now (launch.r_GentxDeadline (launch.l_Record l))) [ErrBadRequest] ≫= λ _,
  run_st (countBySubmitter launchID (su_OperatorAddress i)) ≫= λ count,
  guard_err (maxJoinRequestsPerSubmitter <=? count) [SSubmissionCapReached; ErrTooManyRequests]
    ≫= λ _,
  mret (submitterAddr, consensusPubKey, validatorAddr).

(** The rest: supersede, build, check the key, save, announce. *)
Definition store_submission (launchID : uuid) (i : SubmitInput)
    (submitterAddr : AccountID) (consensusPubKey : string) (validatorAddr : AccountID)
    : M joinrequest.JoinRequest :=
  supersedePending launchID validatorAddr ≫= λ _,
  of_result (parseConnectionFields i) ≫= λ '(peerAddr, rpcEndpoint, sig),
  NewUUID ≫= λ id,
  Now ≫= λ now,
  let jr := joinrequest.New id launchID validatorAddr submitterAddr
    (default ""%string (su_GentxJSON i)) peerAddr rpcEndpoint (su_Memo i) sig consensusPubKey now in
  run_st (countByConsensusPubKey launchID (joinrequest.j_ConsensusPubKey jr)) ≫= λ cpCount,
  guard_err (0 <? cpCount) [SConsensusKeyAlreadyUsed; ErrConflict] ≫= λ _,
  run_st (saveJoinRequest jr) ≫= λ _,
  emit (uuid_String launchID) (domain.event (domain.Sys (domain.JoinRequestSubmitted launchID
    (joinrequest.j_ID jr) (account_String (joinrequest.j_OperatorAddress jr))
    (account_String (joinrequest.j_SubmitterAddress jr))))) ≫= λ _,
  mret jr.

Definition Submit (launchID : uuid) (i : SubmitInput) : M joinrequest.JoinRequest :=
  admit_submission launchID i ≫= λ '(submitterAddr, consensusPubKey, validatorAddr),
  store_submission launchID i submitterAddr consensusPubKey validatorAddr.

(** ** Reads *)
Definition GetByID (id : uuid) (callerAddr : string) (isCommitteeMember : bool)
    : M joinrequest.JoinRequest :=
  run_st (findJoinRequest id) ≫= λ jr,
  if isCommitteeMember then mret jr
  else
    match NewAccountID callerAddr with
    | Err _ => throw [ErrForbidden]
    | Ok callerID =>
        guard_err (negb (account_Equal (joinrequest.j_OperatorAddress jr) callerID)
                   && negb (account_Equal (joinrequest.j_SubmitterAddress jr) callerID))
          [ErrForbidden] ≫= λ _,
        mret jr
    end.

Definition ListForLaunch (launchID : uuid) (status : option joinrequest.Status)
    (page perPage : Z) : M (list joinrequest.JoinRequest * Z) :=
  run_st (findJoinRequestsByLaunch launchID status page perPage).

Record SubmitterGroup : Type := mkGroup {
  sg_SubmitterAddress : AccountID;
  sg_Label : string;
  sg_Requests : list joinrequest.JoinRequest }.

(** The loop's map from submitter text to group, and the keys in order of
    first appearance. *)
Definition group_step (al : Allowlist) (acc : gmap string SubmitterGroup * list string)
    (jr : joinrequest.JoinRequest) : gmap string SubmitterGroup * list string :=
  let (groups, order) := acc in
  let sub := joinrequest.j_SubmitterAddress jr in
  let key := account_String sub in
  match groups !! key with
  | Some g => (<[key := mkGroup (sg_SubmitterAddress g) (sg_Label g) (sg_Requests g ++ [jr])]> groups,
               order)
  | None => (<[key := mkGroup sub (al_Label al sub) [jr]]> groups, order ++ [key])
  end.

Definition group_requests (al : Allowlist) (reqs : list joinrequest.JoinRequest)
    : list SubmitterGroup :=
  let (groups, order) := foldl (group_step al) (∅, []) reqs in
  omap (λ key, groups !! key) (order_by (λ k : string, k) order).

Definition ListGroupedBySubmitter (launchID : uuid) (callerAddr : string)
    : M (list SubmitterGroup) :=
  run_st (findLaunch launchID) ≫= λ l,
  match NewAccountID callerAddr with
  | Err _ => throw [ErrForbidden]
  | Ok callerOp =>
      guard_err (negb (launch.HasMember (launch.l_Committee l) callerOp)) [ErrForbidden] ≫= λ _,
      run_st (allByLaunch launchID) ≫= λ reqs,
      mret (group_requests (launch.l_Allowlist l) reqs)
  end.

End service.
End joinrequests.
