(* ===== verification/ReadinessService.v ===== *)
(** * ReadinessService (src/internal/application/services/readiness.go)

    A validator's signed confirmation that it runs the published genesis and
    the declared binary, the peer list, and the dashboard with its
    double-precision percentages.  [Confirm] runs without a transaction. *)

From S2P Require Import Prelude GoStd GoTime GoFloat Values LaunchAgg Events Payload.
From S2P Require Import JoinRequest Rehearsal Store World ProposalService.
Import sqlite.
#[global] Open Scope Z_scope.

Module readiness.

Record ConfirmInput : Type := mkConfirm {
  ci_OperatorAddress : string;
  ci_PubKeyB64 : string;
  ci_GenesisHashConfirmed : string;
  ci_BinaryHashConfirmed : string;
  ci_Nonce : string;
  ci_Timestamp : string;
  ci_Signature : string }.

Definition confirm_doc (i : ConfirmInput) : jdoc :=
  DObj [("operator_address", DStr (ci_OperatorAddress i)); ("pubkey_b64", DStr (ci_PubKeyB64 i));
        ("genesis_hash_confirmed", DStr (ci_GenesisHashConfirmed i));
        ("binary_hash_confirmed", DStr (ci_BinaryHashConfirmed i));
        ("nonce", DStr (ci_Nonce i)); ("timestamp", DStr (ci_Timestamp i));
        ("signature", DStr (ci_Signature i))]%string.

(** ** Double-precision percentages

    Every operand is a converted [int64] or a quotient of two, so no
    intermediate result overflows or is a NaN and a double is its rational
    value. *)
Definition f64_round (x : Q) : Q := round f64_prec f64_emin x.
Definition f64_int (z : Z) : Q := f64_round (inject_Z z).

(** [float64(stake) / float64(totalStake) * 100], 0 without a total *)
Definition stake_pct (stake totalStake : Z) : Q :=
  if 0 <? totalStake
  then f64_round (f64_round (f64_int stake / f64_int totalStake) * 100)
  else 0%Q.

(** The constants, converted to [float64] where they are compared. *)
Definition bftThreshold : Q := f64_round (200 # 3).
Definition atRiskBelow : Q := f64_round 50.

Inductive ThresholdStatus : Type := REACHABLE | CONFIRMED | AT_RISK.
#[global] Instance ThresholdStatus_eq_dec : EqDecision ThresholdStatus.
Proof. solve_decision. Defined.

Definition threshold_of (confirmedPct : Q) : ThresholdStatus :=
  if Qle_bool bftThreshold confirmedPct then CONFIRMED
  else if negb (Qle_bool atRiskBelow confirmedPct) then AT_RISK
  else REACHABLE.

Record ValidatorReadiness : Type := mkValidator {
  vr_JoinRequestID : uuid;
  vr_OperatorAddress : string;
  vr_Moniker : string;
  vr_VotingPowerPct : Q;
  vr_IsReady : bool;
  vr_LastConfirmedAt : option time.Time;
  vr_GenesisHashConfirmed : string;
  vr_BinaryHashConfirmed : string }.

Record ReadinessDashboard : Type := mkDashboard {
  db_TotalApproved : Z;
  db_ConfirmedReady : Z;
  db_VotingPowerConfirmed : Q;
  db_ThresholdStatus : ThresholdStatus;
  db_PerValidator : list ValidatorReadiness }.

(** The valid confirmations by account; a later one replaces an earlier. *)
Definition index_confirmed (confirmations : list rehearsal.ReadinessConfirmation)
    : gmap string rehearsal.ReadinessConfirmation :=
  foldl (λ m rc, if rehearsal.IsValid rc
                 then <[account_Hex (rehearsal.rd_OperatorAddress rc) := rc]> m else m)
    ∅ confirmations.

(** The two [int64] accumulators. *)
Definition sum_stake (jrs : list joinrequest.JoinRequest) : Z :=
  foldl (λ t jr, int64_wrap (t + joinrequest.SelfDelegationAmount jr)) 0 jrs.
Definition confirmed_by (confirmed : gmap string rehearsal.ReadinessConfirmation)
    (jr : joinrequest.JoinRequest) : option rehearsal.ReadinessConfirmation :=
  confirmed !! account_Hex (joinrequest.j_OperatorAddress jr).
Definition is_confirmed (confirmed : gmap string rehearsal.ReadinessConfirmation)
    (jr : joinrequest.JoinRequest) : bool :=
  bool_decide (is_Some (confirmed_by confirmed jr)).

Definition validator_row (totalStake : Z) (confirmed : gmap string rehearsal.ReadinessConfirmation)
    (jr : joinrequest.JoinRequest) : ValidatorReadiness :=
  let rc := confirmed_by confirmed jr in
  mkValidator (joinrequest.j_ID jr) (account_String (joinrequest.j_OperatorAddress jr))
    (joinrequest.Moniker jr) (stake_pct (joinrequest.SelfDelegationAmount jr) totalStake)
    (bool_decide (is_Some rc)) (rehearsal.rd_ConfirmedAt <$> rc)
    (default ""%string (rehearsal.rd_GenesisHashConfirmed <$> rc))
    (default ""%string (rehearsal.rd_BinaryHashConfirmed <$> rc)).

Definition dashboard_of (approved : list joinrequest.JoinRequest)
    (confirmations : list rehearsal.ReadinessConfirmation) : ReadinessDashboard :=
  let confirmed := index_confirmed confirmations in
  let totalStake := sum_stake approved in
  let confirmedStake := sum_stake (List.filter (is_confirmed confirmed) approved) in
  let confirmedPct := stake_pct confirmedStake totalStake in
  mkDashboard (len approved) (Z.of_nat (size confirmed)) confirmedPct
    (threshold_of confirmedPct) (validator_row totalStake confirmed <$> approved).

Section service.
Context `{B32 : Bech32} `{NU : NetURL} `{UT : UUIDText} `{CJ : CanonicalJSON}
        `{SVr : SignatureVerifier} `{O : Oracle}.

(** Who is confirming. *)
Definition authenticate (i : ConfirmInput) : M unit :=
  ConsumeNonce (ci_OperatorAddress i) (ci_Nonce i) ≫= λ _,
  validateTimestamp (ci_Timestamp i) ≫= λ _,
  of_result (canonical_MarshalForSigning (confirm_doc i)) ≫= λ message,
  decodeBase64Sig (ci_Signature i) ≫= λ sigBytes,
  of_result (map_err (λ e, e ++ [ErrUnauthorized])
    (verifier_Verify (ci_OperatorAddress i) (ci_PubKeyB64 i) message sigBytes)).

(** The checks against the launch and the join request; it returns the
    confirmation that is to be stored, without its identifier and time. *)
Definition check_confirmation (launchID : uuid) (i : ConfirmInput)
    : M (joinrequest.JoinRequest * AccountID * string) :=
  run_st (findLaunch launchID) ≫= λ l,
  guard_err (negb (bool_decide (launch.l_Status l = launch.StatusGenesisReady)))
    [SLaunchNotGenesisReady; ErrConflict] ≫= λ _,
  on_err (λ _, [ErrForbidden])
    (run_st (findJoinRequestByOperator launchID (ci_OperatorAddress i))) ≫= λ jr,
  guard_err (negb (bool_decide (joinrequest.j_Status jr = joinrequest.StatusApproved)))
    [SJoinRequestNotApproved; ErrForbidden] ≫= λ _,
  guard_err (negb (bool_decide (ci_GenesisHashConfirmed i = launch.l_FinalGenesisSHA256 l)))
    [ErrBadRequest] ≫= λ _,
  guard_err (negb (is_empty (launch.r_BinarySHA256 (launch.l_Record l)))
             && negb (bool_decide (ci_BinaryHashConfirmed i
                                   = launch.r_BinarySHA256 (launch.l_Record l))))
    [ErrBadRequest] ≫= λ _,
  of_result (NewAccountID (ci_OperatorAddress i)) ≫= λ operatorAddr,
  of_result (NewSignature (ci_Signature i)) ≫= λ sig,
  mret (jr, operatorAddr, sig).

(** The operator's latest confirmation, if it has one. *)
Definition existing_confirmation (launchID : uuid) (op : string)
    : M (option rehearsal.ReadinessConfirmation) := λ w,
  match run_st (findReadinessByOperator launchID op) w with
  | (Ret rc, w1) => (Ret (Some rc), w1)
  | (Fail e, w1) => if errors_Is e ErrNotFound then (Ret None, w1) else (Fail e, w1)
  | (Panic, w1) => (Panic, w1)
  | (Exit, w1) => (Exit, w1)
  end.

Definition store_confirmation (launchID : uuid) (i : ConfirmInput)
    (jr : joinrequest.JoinRequest) (operatorAddr : AccountID) (sig : string)
    : M rehearsal.ReadinessConfirmation :=
  existing_confirmation launchID (ci_OperatorAddress i) ≫= λ existing,
  guard_err (match existing with Some rc => rehearsal.IsValid rc | None => false end)
    [SReadinessAlreadyConfirmed; ErrConflict] ≫= λ _,
  NewUUID ≫= λ id,
  Now ≫= λ now,
  let rc := rehearsal.mkReadiness id launchID (joinrequest.j_ID jr) operatorAddr
    (ci_GenesisHashConfirmed i) (ci_BinaryHashConfirmed i) now sig None in
  run_st (saveReadiness rc) ≫= λ _,
  emit (uuid_String launchID) (domain.event (domain.Sys
    (domain.ReadinessConfirmed launchID (account_String operatorAddr)))) ≫= λ _,
  mret rc.

Definition Confirm (launchID : uuid) (i : ConfirmInput) : M rehearsal.ReadinessConfirmation :=
  authenticate i ≫= λ _,
  check_confirmation launchID i ≫= λ '(jr, operatorAddr, sig),
  store_confirmation launchID i jr operatorAddr sig.

Definition GetPeers (launchID : uuid) : M (list (string * string)) :=
  run_st (findApprovedByLaunch launchID) ≫= λ approved,
  mret ((λ jr, (account_String (joinrequest.j_OperatorAddress jr), joinrequest.j_PeerAddress jr))
          <$> approved).

Definition GetDashboard (launchID : uuid) : M ReadinessDashboard :=
  run_st (findApprovedByLaunch launchID) ≫= λ approved,
  run_st (findReadinessByLaunch launchID) ≫= λ confirmations,
  mret (dashboard_of approved confirmations).

End service.
End readiness.
