(* ===== verification/RehearsalService.v ===== *)
(** * The rehearsal bridge of LaunchService

    src/internal/application/services/rehearsal_bridge.go and
    rehearsal_results.go: serving the input of a rehearsal under a run lease,
    recording the signed result of one, and the committee's reads and reset.
    Every repository call is a statement of its own. *)

From S2P Require Import Prelude GoStd GoTime Values LaunchAgg Events Payload.
From S2P Require Import Rehearsal Store World AuditLog InputSet LaunchService.
Import sqlite.
#[global] Open Scope Z_scope.

Module bridge.

Definition defaultRehearsalLeaseTTL : time.Duration := 45 * time.Minute.

Record RehearsalResultFactStep : Type := mkFactStep {
  fs_Name : string; fs_Status : string; fs_Detail : string }.
Record RehearsalResultFactMeta : Type := mkFactMeta {
  fm_EngineVersion : string;
  fm_BinaryName : string;
  fm_BinaryVersion : string;
  fm_BinarySHA256 : string;
  fm_Validators : Z;
  fm_BlocksAdvanced : Z }.

(** Pointers and the nil slice are [None]. *)
Record RehearsalResultFact : Type := mkFact {
  f_SchemaVersion : Z;
  f_LaunchID : string;
  f_InputSetHash : string;
  f_AttemptID : option string;
  f_Outcome : string;
  f_FailedStep : option string;
  f_Summary : string;
  f_Steps : option (list RehearsalResultFactStep);
  f_Rehearsal : RehearsalResultFactMeta;
  f_StartedAt : string;
  f_FinishedAt : string;
  f_ServicePubkey : string;
  f_Signature : string }.

Definition opt_str (o : option string) : jdoc :=
  match o with Some s => DStr s | None => DNull end.
Definition step_doc (s : RehearsalResultFactStep) : jdoc :=
  DObj [("name", DStr (fs_Name s)); ("status", DStr (fs_Status s));
        ("detail", DStr (fs_Detail s))]%string.
Definition meta_doc (x : RehearsalResultFactMeta) : jdoc :=
  DObj [("engine_version", DStr (fm_EngineVersion x)); ("binary_name", DStr (fm_BinaryName x));
        ("binary_version", DStr (fm_BinaryVersion x)); ("binary_sha256", DStr (fm_BinarySHA256 x));
        ("validators", DInt (fm_Validators x)); ("blocks_advanced", DInt (fm_BlocksAdvanced x))]%string.
Definition fact_doc (f : RehearsalResultFact) : jdoc :=
  DObj [("schema_version", DInt (f_SchemaVersion f)); ("launch_id", DStr (f_LaunchID f));
        ("input_set_hash", DStr (f_InputSetHash f)); ("attempt_id", opt_str (f_AttemptID f));
        ("outcome", DStr (f_Outcome f)); ("failed_step", opt_str (f_FailedStep f));
        ("summary", DStr (f_Summary f));
        ("steps", match f_Steps f with Some l => DArr (step_doc <$> l) | None => DNull end);
        ("rehearsal", meta_doc (f_Rehearsal f)); ("started_at", DStr (f_StartedAt f));
        ("finished_at", DStr (f_FinishedAt f)); ("service_pubkey", DStr (f_ServicePubkey f));
        ("signature", DStr (f_Signature f))]%string.

(** [launch.RehearsalOutcome(s)] *)
Definition outcome_of_string (s : string) : rehearsal.RehearsalOutcome :=
  if bool_decide (s = "PASS"%string) then rehearsal.OutcomePass
  else if bool_decide (s = "FAIL"%string) then rehearsal.OutcomeFail
  else if bool_decide (s = "ERROR"%string) then rehearsal.OutcomeError
  else if bool_decide (s = "SKIPPED"%string) then rehearsal.OutcomeSkipped
  else rehearsal.OutcomeOther s.

Definition parseRFC3339OrZero (s : string) : time.Time :=
  match rfc3339.Parse s with Ok t => t | Err _ => time.zeroTime end.

(** [factToResult]; [id] is the identifier it draws. *)
Definition factToResult (id launchID attemptID : uuid) (f : RehearsalResultFact) (stale : bool)
    (recordedAt : time.Time) : rehearsal.RehearsalResult :=
  rehearsal.mkResult id attemptID launchID (f_InputSetHash f) (outcome_of_string (f_Outcome f))
    (default ""%string (f_FailedStep f)) (f_Summary f)
    ((λ s, rehearsal.mkResultStep (fs_Name s) (fs_Status s) (fs_Detail s))
       <$> default [] (f_Steps f))
    (fm_EngineVersion (f_Rehearsal f)) (fm_BinaryName (f_Rehearsal f))
    (fm_BinaryVersion (f_Rehearsal f)) (fm_BinarySHA256 (f_Rehearsal f))
    (fm_Validators (f_Rehearsal f)) (fm_BlocksAdvanced (f_Rehearsal f))
    (parseRFC3339OrZero (f_StartedAt f)) (parseRFC3339OrZero (f_FinishedAt f))
    (f_ServicePubkey f) (f_Signature f) stale recordedAt.

Section service.
Context `{B32 : Bech32} `{NU : NetURL} `{UT : UUIDText} `{CJ : CanonicalJSON}
        `{Ed : Ed25519} `{O : Oracle}.
Context (rehearsalLeaseTTL : time.Duration).

Definition PreviewRehearsalInput (launchID : uuid) : M inputset.RehearsalInput :=
  run_st (findLaunch launchID) ≫= λ l, inputset.Assemble l.

(** The input and the time of the request. *)
Definition claim_load (launchID : uuid)
    : M (launch.Launch * inputset.RehearsalInput * rehearsal.RehearsalAttempt * time.Time) :=
  run_st (findLaunch launchID) ≫= λ l,
  inputset.Assemble l ≫= λ in_,
  Now ≫= λ now,
  NewUUID ≫= λ fresh,
  run_st (getOrCreateAttempt fresh (launch.l_ID l) (inputset.ri_InputSetHash in_) now) ≫= λ attempt,
  mret (l, in_, attempt, now).

Definition derefTime (t : option time.Time) : time.Time := default time.zeroTime t.

(** The lease refusal is a [*RehearsalLeasedError], which unwraps to
    [ErrConflict]. *)
Definition claim_store (l : launch.Launch) (in_ : inputset.RehearsalInput)
    (attempt : rehearsal.RehearsalAttempt) (now : time.Time) (runnerID : string)
    : M (inputset.RehearsalInput * uuid) :=
  of_result (map_err (λ e, if errors_Is e ErrAttemptLeased 
      then [SRehearsalLeased (rehearsal.at_RunnerID attempt)
              (derefTime (rehearsal.at_ClaimedAt attempt))
              (derefTime (rehearsal.at_LeaseExpiresAt attempt)); ErrConflict] else e)
    (rehearsal.Claim attempt runnerID now (time.Add now rehearsalLeaseTTL))) ≫= λ attempt,
  run_st (saveAttempt attempt) ≫= λ _,
  emit (uuid_String (launch.l_ID l)) (domain.event (domain.Lch
    (domain.RehearsalRunClaimed (launch.l_ID l) (rehearsal.at_ID attempt) runnerID))) ≫= λ _,
  mret (in_, rehearsal.at_ID attempt).

(** The input with the identifier of the attempt that serves it. *)
Definition ClaimRehearsalRun (launchID : uuid) (runnerID : string)
    : M (inputset.RehearsalInput * uuid) :=
  claim_load launchID ≫= λ '(l, in_, attempt, now), claim_store l in_ attempt now runnerID.

(** ** Recording a result *)
Definition verifyFactSignature (l : launch.Launch) (f : RehearsalResultFact) : result unit :=
  if is_empty (launch.l_RehearsalServicePubKey l) then Err [ErrConflict]
  else
    match base64.DecodeString (launch.l_RehearsalServicePubKey l) with
    | Err _ => Err [ErrConflict]
    | Ok pub =>
        if negb (String.length pub =? 32)%nat then Err [ErrConflict]
        else
          match base64.DecodeString (f_Signature f) with
          | Err _ => Err [ErrUnauthorized]
          | Ok sig =>
              msg ← canonical_MarshalForSigning (fact_doc f);
              if ed25519_Verify pub msg sig then Ok tt else Err [ErrUnauthorized]
          end
    end.

Definition resolveAttempt (launchID : uuid) (f : RehearsalResultFact)
    : M rehearsal.RehearsalAttempt :=
  match f_AttemptID f with
  | None => throw [ErrBadRequest]
  | Some s =>
      guard_err (is_empty s) [ErrBadRequest] ≫= λ _,
      of_result (map_err (λ _, [ErrBadRequest]) (uuid_Parse s)) ≫= λ attemptID,
      on_err (λ e, if errors_Is e ErrNotFound then [ErrBadRequest] else e)
        (run_st (findAttempt attemptID)) ≫= λ attempt,
      guard_err (negb (bool_decide (rehearsal.at_LaunchID attempt = launchID))) [ErrBadRequest]
        ≫= λ _,
      guard_err (negb (bool_decide (rehearsal.at_InputSetHash attempt = f_InputSetHash f)))
        [ErrBadRequest] ≫= λ _,
      mret attempt
  end.

Definition findResultBySignature (launchID : uuid) (signature : string)
    : M (option rehearsal.RehearsalResult) :=
  run_st (findResultsByLaunch launchID) ≫= λ existing,
  mret (first (λ r, bool_decide (rehearsal.re_Signature r = signature)) existing).

(** [if existing, err := ...; err == nil && existing != nil]: a lookup that
    fails counts as "not recorded yet". *)
Definition already_recorded (launchID : uuid) (signature : string)
    : M (option rehearsal.RehearsalResult) := λ w,
  match findResultBySignature launchID signature w with
  | (Fail _, w1) => (Ret None, w1)
  | r => r
  end.

Definition store_result (l : launch.Launch) (launchID : uuid) (f : RehearsalResultFact)
    : M rehearsal.RehearsalResult :=
  guard_err (negb (rehearsal.IsValidRehearsalOutcome (outcome_of_string (f_Outcome f))))
    [ErrBadRequest] ≫= λ _,
  resolveAttempt launchID f ≫= λ attempt,
  inputset.Current l ≫= λ current,
  let stale := negb (bool_decide (rehearsal.at_InputSetHash attempt = current)) in
  Now ≫= λ now,
  NewUUID ≫= λ id,
  let res := factToResult id launchID (rehearsal.at_ID attempt) f stale now in
  run_st (saveResult res) ≫= λ _,
  run_st (saveAttempt (rehearsal.Release attempt)) ≫= λ _,
  emit (uuid_String launchID) (domain.WithTime (rehearsal.re_RecordedAt res)
    (domain.event (domain.Lch (domain.RehearsalResultRecorded launchID (rehearsal.at_ID attempt)
      (f_InputSetHash f) (f_Outcome f) stale)))) ≫= λ _,
  mret res.

Definition RecordRehearsalResult (launchID : uuid) (f : RehearsalResultFact)
    : M rehearsal.RehearsalResult :=
  run_st (findLaunch launchID) ≫= λ l,
  of_result (verifyFactSignature l f) ≫= λ _,
  already_recorded launchID (f_Signature f) ≫= λ existing,
  match existing with
  | Some r => mret r
  | None => store_result l launchID f
  end.

(** ** The committee's side *)
Definition ListRehearsalResults (launchID : uuid) (callerAddr : string)
    : M (list rehearsal.RehearsalResult) :=
  launches.requireCommittee launchID callerAddr ≫= λ _, run_st (findResultsByLaunch launchID).

Definition ResetRehearsalAttempt (launchID attemptID : uuid) (callerAddr : string) : M unit :=
  launches.requireCommittee launchID callerAddr ≫= λ l,
  run_st (findAttempt attemptID) ≫= λ attempt,
  guard_err (negb (bool_decide (rehearsal.at_LaunchID attempt = launch.l_ID l))) [ErrNotFound]
    ≫= λ _,
  run_st (saveAttempt (rehearsal.Reset attempt)) ≫= λ _,
  Now ≫= λ now,
  emit (uuid_String (launch.l_ID l)) (domain.WithTime now (domain.event (domain.Lch
    (domain.RehearsalAttemptReset (launch.l_ID l) attemptID callerAddr)))).

End service.
End bridge.
