(* ===== verification/AuthService.v ===== *)
(** * Authentication and the coordinator list

    src/internal/application/services/auth.go, coordinator.go, [auditAccount]
    of audit.go; application/ratelimit/challenge.go; the stores behind them
    (infrastructure/storage/sqlite/challenge.go, challenge_rate_limiter.go,
    coordinator_allowlist.go) and the session tokens
    (infrastructure/auth/jwt.go).

    The four tables these use are touched by nothing else, so they are a record
    of their own, [authdb]; a computation of this file threads it beside the
    [world] and keeps what it wrote when it fails. *)

From S2P Require Import Prelude GoStd GoTime Values Events Payload Store World AuditLog.
Import sqlite.
#[global] Open Scope Z_scope.

(** crypto/rand: thirty-two bytes, drawn in order. *)
Class Random : Type := { random_read : nat → result bytes }.

(** github.com/golang-jwt/jwt/v5 with the store's Ed25519 key: the signed text
    of a set of claims, and the claims of a text whose signature and expiry
    check out at a given time. *)
Record RegisteredClaims : Type := mkClaims {
  cl_Subject : string;
  cl_IssuedAt : option time.Time;
  cl_ExpiresAt : option time.Time;
  cl_ID : string }.
Class JWT : Type := {
  jwt_SignedString : RegisteredClaims → result string;
  jwt_ParseWithClaims : string → time.Time → result RegisteredClaims }.

(** ** Tables *)
Record rate_row : Type := mkRateRow { rl_operator_address : string; rl_requested_at : string }.
Record coordinator_row : Type := mkCoordinatorRow {
  co_address : string; co_added_by : string; co_added_at : string }.

(** Challenges (with their expiry) and fences are keyed by account. *)
Record authdb : Type := mkAuth {
  a_challenges : gmap string (string * string);
  a_rates : list rate_row;
  a_fences : gmap string string;
  a_coordinators : list coordinator_row }.

Definition set_challenges (c : gmap string (string * string)) (d : authdb) : authdb :=
  mkAuth c (a_rates d) (a_fences d) (a_coordinators d).
Definition set_rates (r : list rate_row) (d : authdb) : authdb :=
  mkAuth (a_challenges d) r (a_fences d) (a_coordinators d).
Definition set_fences (f : gmap string string) (d : authdb) : authdb :=
  mkAuth (a_challenges d) (a_rates d) f (a_coordinators d).
Definition set_coordinators (c : list coordinator_row) (d : authdb) : authdb :=
  mkAuth (a_challenges d) (a_rates d) (a_fences d) c.

(** ** Computations over both states *)
Definition AM (A : Type) : Type := authdb * world → outcome A * (authdb * world).

#[global] Instance AM_ret : MRet AM := λ A a s, (Ret a, s).
#[global] Instance AM_bind : MBind AM := λ A B f m s,
  match m s with
  | (Ret a, s1) => f a s1
  | (Fail e, s1) => (Fail e, s1)
  | (Panic, s1) => (Panic, s1)
  | (Exit, s1) => (Exit, s1)
  end.

Definition lift {A} (m : M A) : AM A := λ '(d, w), let (r, w1) := m w in (r, (d, w1)).
Definition get_auth : AM authdb := λ s, (Ret s.1, s).
Definition put_auth (d : authdb) : AM unit := λ s, (Ret tt, (d, s.2)).
Definition afail {A} (e : error) : AM A := lift (throw e).
Definition aguard (cond : bool) (e : error) : AM unit := lift (guard_err cond e).
Definition aresult {A} (r : result A) : AM A := lift (of_result r).

(** [ports.ChallengeStore] *)
Class ChallengeStore : Type := {
  store_Issue : string → AM string;
  store_Consume : string → AM string }.

(** ** The challenge store (sqlite/challenge.go) *)
Module challenges.

Definition challengeTTL : time.Duration := 5 * time.Minute.

Section store.
Context `{O : Oracle} `{R : Random}.

Definition randomHex : AM string := λ '(d, w),
  match random_read (w_tick w) with
  | Ok b => (Ret (hex.EncodeToString b), (d, tick w))
  | Err e => (Fail e, (d, tick w))
  end.

(** The upsert overwrites only a challenge whose expiry text is smaller than
    the text of the current time; otherwise the stored one is returned. *)
Definition Issue (acct : string) : AM string :=
  lift Now ≫= λ now,
  randomHex ≫= λ challenge,
  get_auth ≫= λ d,
  let new := (challenge, timeToStr (time.Add now challengeTTL)) in
  match a_challenges d !! acct with
  | Some (existing, expires_at) =>
      if strings.ltb expires_at (timeToStr now)
      then put_auth (set_challenges (<[acct := new]> (a_challenges d)) d) ≫= λ _, mret challenge
      else mret existing
  | None => put_auth (set_challenges (<[acct := new]> (a_challenges d)) d) ≫= λ _, mret challenge
  end.

(** The row is deleted before its expiry is looked at. *)
Definition Consume (acct : string) : AM string :=
  get_auth ≫= λ d,
  match a_challenges d !! acct with
  | None => afail [ErrNotFound]
  | Some (challenge, expires_at) =>
      put_auth (set_challenges (delete acct (a_challenges d)) d) ≫= λ _,
      aresult (strToTime expires_at) ≫= λ exp,
      lift Now ≫= λ now,
      aguard (time.After now exp) [ErrNotFound] ≫= λ _,
      mret challenge
  end.

Definition sqlite_store : ChallengeStore := {| store_Issue := Issue; store_Consume := Consume |}.
End store.
End challenges.

(** ** The rate limiter (sqlite/challenge_rate_limiter.go, ratelimit/challenge.go) *)
Module ratelimit.

Definition challengeRateWindow : time.Duration := 5 * time.Minute.
Definition challengeRateMaxReqs : Z := 5.

Definition is_operator (acct : string) (r : rate_row) : bool :=
  bool_decide (rl_operator_address r = acct).
Definition in_window (acct start : string) (r : rate_row) : bool :=
  is_operator acct r && negb (strings.ltb (rl_requested_at r) start).

Section limiter.
Context `{O : Oracle} `{R : Random}.

Definition Allow (acct : string) : AM unit :=
  lift Now ≫= λ now,
  let windowStart := timeToStr (time.Add now (- challengeRateWindow)) in
  get_auth ≫= λ d,
  let count := Z.of_nat (length (List.filter (in_window acct windowStart) (a_rates d))) in
  aguard (challengeRateMaxReqs <=? count) [ErrTooManyRequests] ≫= λ _,
  let rows := a_rates d ++ [mkRateRow acct (timeToStr now)] in
  put_auth (set_rates (remove (λ r, strings.ltb (rl_requested_at r) windowStart) rows) d).

(** [RateLimitedChallengeStore], over the store it wraps *)
Definition Issue (inner : ChallengeStore) (acct : string) : AM string :=
  Allow acct ≫= λ _, store_Issue acct.
Definition Consume (inner : ChallengeStore) (acct : string) : AM string := store_Consume acct.

Definition limited_store (inner : ChallengeStore) : ChallengeStore :=
  {| store_Issue := Issue inner; store_Consume := Consume inner |}.
End limiter.
End ratelimit.

(** ** Session tokens (infrastructure/auth/jwt.go) *)
Module sessions.

Definition jwtTTL : time.Duration := time.Hour.

(** [jwt.NewNumericDate] truncates to seconds. *)
Definition NewNumericDate (t : time.Time) : time.Time := t - t mod time.Second.

Section store.
Context `{B32 : Bech32} `{UT : UUIDText} `{O : Oracle} `{J : JWT}.

Definition Issue (operatorAddr : string) : AM string :=
  lift Now ≫= λ now,
  lift NewUUID ≫= λ id,
  aresult (jwt_SignedString (mkClaims operatorAddr (Some (NewNumericDate now))
             (Some (NewNumericDate (time.Add now jwtTTL))) (uuid_String id))).

Definition accountFenceKey (addr : string) : string :=
  match NewAccountID addr with Ok id => account_Hex id | Err _ => addr end.

(** Missing times are the zero time. *)
Definition parseClaims (raw : string) : AM (string * time.Time * time.Time) :=
  lift Now ≫= λ now,
  aresult (jwt_ParseWithClaims raw now) ≫= λ c,
  aguard (is_empty (cl_Subject c)) errorf ≫= λ _,
  mret (cl_Subject c, default time.zeroTime (cl_IssuedAt c),
        default time.zeroTime (cl_ExpiresAt c)).

Definition unauthorized {A} (m : AM A) : AM A := λ s,
  match m s with (Fail _, s1) => (Fail [ErrUnauthorized], s1) | r => r end.

Definition Validate (raw : string) : AM string :=
  unauthorized (parseClaims raw) ≫= λ '(operatorAddr, issuedAt, _),
  get_auth ≫= λ d,
  match a_fences d !! accountFenceKey operatorAddr with
  | None => mret operatorAddr
  | Some revokeBeforeStr =>
      aresult (rfc3339.Parse revokeBeforeStr) ≫= λ revokeBefore,
      aguard (negb (time.After issuedAt revokeBefore)) [ErrUnauthorized] ≫= λ _,
      mret operatorAddr
  end.

Definition Revoke (raw : string) : AM unit := mret tt.

Definition RevokeAllForOperator (operatorAddr : string) : AM unit :=
  lift Now ≫= λ now,
  get_auth ≫= λ d,
  put_auth (set_fences (<[accountFenceKey operatorAddr := rfc3339.Format now]> (a_fences d)) d).

Definition ParseClaims (raw : string) : AM (string * time.Time) :=
  unauthorized (parseClaims raw) ≫= λ '(operatorAddr, _, expiresAt),
  mret (operatorAddr, expiresAt).
End store.
End sessions.

(** ** AuthService (services/auth.go) *)
Module auth.

Record VerifyChallengeInput : Type := mkVerify {
  vi_OperatorAddress : string;
  vi_PubKeyB64 : string;
  vi_Challenge : string;
  vi_Nonce : string;
  vi_Timestamp : string;
  vi_Signature : string }.

Definition verify_doc (i : VerifyChallengeInput) : jdoc :=
  DObj [("operator_address", DStr (vi_OperatorAddress i)); ("pubkey_b64", DStr (vi_PubKeyB64 i));
        ("challenge", DStr (vi_Challenge i)); ("nonce", DStr (vi_Nonce i));
        ("timestamp", DStr (vi_Timestamp i)); ("signature", DStr (vi_Signature i))]%string.

Section service.
Context `{B32 : Bech32} `{UT : UUIDText} `{CJ : CanonicalJSON} `{SVr : SignatureVerifier}
        `{O : Oracle} `{J : JWT} `{CS : ChallengeStore}.

Definition accountKey (addr : string) : result string :=
  id ← map_err (λ e, e ++ [ErrBadRequest]) (NewAccountID addr);
  Ok (account_Hex id).

(** [auditAccount] (audit.go) *)
Definition auditAccount (addr : string) : string :=
  match accountKey addr with Ok acct => acct | Err _ => addr end.

Definition IssueChallenge (operatorAddr : string) : AM string :=
  aresult (accountKey operatorAddr) ≫= λ acct, store_Issue acct.

(** Everything up to the comparison of the challenge. *)
Definition consume_challenge (i : VerifyChallengeInput) : AM unit :=
  aresult (accountKey (vi_OperatorAddress i)) ≫= λ acct,
  lift (ConsumeNonce acct (vi_Nonce i)) ≫= λ _,
  lift (validateTimestamp (vi_Timestamp i)) ≫= λ _,
  store_Consume acct ≫= λ expected,
  aguard (negb (bool_decide (vi_Challenge i = expected))) [SChallengeMismatch; ErrUnauthorized].

Definition check_response (i : VerifyChallengeInput) : AM unit :=
  aresult (canonical_MarshalForSigning (verify_doc i)) ≫= λ message,
  lift (decodeBase64Sig (vi_Signature i)) ≫= λ sigBytes,
  aresult (map_err (λ e, e ++ [ErrUnauthorized])
    (verifier_Verify (vi_OperatorAddress i) (vi_PubKeyB64 i) message sigBytes)).

Definition VerifyChallenge (i : VerifyChallengeInput) : AM string :=
  consume_challenge i ≫= λ _,
  check_response i ≫= λ _,
  sessions.Issue (vi_OperatorAddress i).

Definition RevokeSession (token : string) : AM unit := sessions.Revoke token.

(** [WithTime(time.Now())] and the global scope. *)
Definition audit_global (b : domain.system_event) : AM unit :=
  lift (Now ≫= λ now,
        recordAudit ports.GlobalAuditScope (domain.WithTime now (domain.event (domain.Sys b)))).

Definition RevokeAllSessions (operatorAddr revokedBy : string) : AM unit :=
  sessions.RevokeAllForOperator operatorAddr ≫= λ _,
  audit_global (domain.SessionsRevoked (auditAccount operatorAddr) (auditAccount revokedBy)).

Definition GetSessionInfo (token : string) : AM (string * time.Time) :=
  sessions.Validate token ≫= λ _, sessions.ParseClaims token.

Definition ValidateSession (token : string) : AM string := sessions.Validate token.
End service.
End auth.

(** ** The coordinator list (sqlite/coordinator_allowlist.go, services/coordinator.go) *)
Module coordinators.

Section service.
Context `{B32 : Bech32} `{UT : UUIDText} `{O : Oracle}.

Definition is_coordinator (acct : string) (r : coordinator_row) : bool :=
  bool_decide (co_address r = acct).

Definition repo_Add (address addedBy : string) : AM unit :=
  match accountHex address with
  | None => afail [ErrBadRequest]
  | Some acct =>
      lift Now ≫= λ now,
      get_auth ≫= λ d,
      if existsb (is_coordinator acct) (a_coordinators d) then mret tt
      else put_auth (set_coordinators (a_coordinators d
                       ++ [mkCoordinatorRow acct addedBy (timeToStr now)]) d)
  end.

Definition repo_Remove (address : string) : AM unit :=
  match accountHex address with
  | None => afail [ErrNotFound]
  | Some acct =>
      get_auth ≫= λ d,
      put_auth (set_coordinators (remove (is_coordinator acct) (a_coordinators d)) d) ≫= λ _,
      aguard (negb (existsb (is_coordinator acct) (a_coordinators d))) [ErrNotFound]
  end.

Definition repo_Contains (address : string) : AM bool :=
  match accountHex address with
  | None => mret false
  | Some acct => get_auth ≫= λ d, mret (existsb (is_coordinator acct) (a_coordinators d))
  end.

Definition repo_List (page perPage : Z) : AM (list coordinator_row * Z) :=
  get_auth ≫= λ d,
  mret (limit_offset perPage (page_offset page perPage) (order_by co_added_at (a_coordinators d)),
        Z.of_nat (length (a_coordinators d))).

Definition Add (address addedBy : string) : AM unit :=
  repo_Add address addedBy ≫= λ _,
  auth.audit_global (domain.CoordinatorAdded (auth.auditAccount address)
                       (auth.auditAccount addedBy)).

Definition Remove (address removedBy : string) : AM unit :=
  repo_Remove address ≫= λ _,
  auth.audit_global (domain.CoordinatorRemoved (auth.auditAccount address)
                       (auth.auditAccount removedBy)).

Definition List (page perPage : Z) : AM (list coordinator_row * Z) := repo_List page perPage.
Definition Contains (address : string) : AM bool := repo_Contains address.
End service.
End coordinators.
