(* ===== verification/Backfill.v ===== *)
(** * Opening the database (src/internal/infrastructure/storage/sqlite/db.go,
    backfill.go)

    The migration runner and the conversion of address columns that [Open]
    runs at every start.  A migration's SQL is opaque: what executing it does
    to the tables is the parameter [SQL].  A [SELECT] without [ORDER BY] returns
    its rows in an order of SQLite's choosing, the parameter [RowOrder].
    Failures of the connection itself are not modelled. *)

From S2P Require Import Prelude GoStd GoTime Values LaunchAgg Payload JoinRequest Store AuthService.
Import sqlite.
#[global] Open Scope Z_scope.

(** What executing an SQL script does to the tables. *)
Class SQL : Type := { sql_exec : string → authdb * db → result (authdb * db) }.

Class RowOrder : Type := { row_order : ∀ {A : Type}, list A → list A }.
Class RowOrderOK (RO : RowOrder) : Prop := {
  row_order_perm {A : Type} (l : list A) : row_order l ≡ₚ l }.

(** The database file: [schema_migrations] and the data tables. *)
Record datafile : Type := mkDatafile {
  df_applied : list (Z * string);
  df_auth : authdb;
  df_db : db }.

Definition set_data (s : authdb * db) (f : datafile) : datafile :=
  mkDatafile (df_applied f) s.1 s.2.

Module migrations.

(** [fmt.Sscanf(base, "%d", &version)]: an optional sign and a run of decimal
    digits; the rest of the text is left unread. *)
Fixpoint digit_run (l : list ascii) : list ascii :=
  match l with
  | [] => []
  | c :: l => match strconv.digit_val c with Some _ => c :: digit_run l | None => [] end
  end.

Definition scan_int (l : list ascii) : result Z :=
  let '(sign, l) := match l with
    | c :: l1 => if (nat_of_ascii c =? 43)%nat then (1, l1)
                 else if (nat_of_ascii c =? 45)%nat then (-1, l1) else (1, l)
    | [] => (1, l)
    end in
  match strconv.digits (digit_run l) with
  | None => Err errorf
  | Some n => if bool_decide (in_int64 (sign * n)) then Ok (sign * n) else Err errorf
  end.

(** [path[strings.LastIndex(path, "/")+1:]] *)
Definition base_name (path : list ascii) : list ascii :=
  match net.last_index 47 path with None => path | Some i => drop (S i) path end.

Definition versionFromFilename (path : string) : result Z := scan_int (base_name (chars path)).

Section runner.
Context `{Q : SQL}.

Definition recorded (version : Z) (f : datafile) : bool :=
  existsb (λ r, r.1 =? version) (df_applied f).

(** One round of the loop: the script and its record are one transaction. *)
Definition apply_file (now : time.Time) (file : string * string) (f : datafile)
    : result unit * datafile :=
  match versionFromFilename file.1 with
  | Err e => (Err e, f)
  | Ok version =>
      if recorded version f then (Ok tt, f)
      else match sql_exec file.2 (df_auth f, df_db f) with
           | Err e => (Err e, f)
           | Ok s => (Ok tt, mkDatafile (df_applied f ++ [(version, rfc3339.Format now)]) s.1 s.2)
           end
  end.

Fixpoint apply_files (now : time.Time) (files : list (string * string)) (f : datafile)
    : result unit * datafile :=
  match files with
  | [] => (Ok tt, f)
  | file :: files =>
      match apply_file now file f with
      | (Ok _, f1) => apply_files now files f1
      | (Err e, f1) => (Err e, f1)
      end
  end.

(** [sort.Strings] on distinct names; the clock is read per migration, which
    only the unread [applied_at] column shows. *)
Definition runMigrations (now : time.Time) (files : list (string * string)) (f : datafile)
    : result unit * datafile :=
  apply_files now (order_by fst files) f.

End runner.
End migrations.

Module backfill.
Section conversions.
Context `{B32 : Bech32} `{RO : RowOrder}.

(** The rewriting of one coordinator row: both statements succeed. *)
Definition rewrite_coordinator (rows : list coordinator_row) (r : coordinator_row)
    : list coordinator_row :=
  match NewAccountID (co_address r) with
  | Err _ => rows
  | Ok id =>
      let acct := account_Hex id in
      if bool_decide (acct = co_address r) then rows
      else
        let rows1 := remove (λ x, bool_decide (co_address x = co_address r)) rows in
        if existsb (λ x, bool_decide (co_address x = acct)) rows1 then rows1
        else rows1 ++ [mkCoordinatorRow acct (co_added_by r) (co_added_at r)]
  end.

Definition backfillCoordinatorAccounts (rows : list coordinator_row) : list coordinator_row :=
  foldl rewrite_coordinator rows (row_order rows).

(** One launch: loaded, then its members list and (when it has one) its
    committee saved again. *)
Definition resave (id : uuid) : St unit :=
  findLaunch id ≫= λ l,
  saveAllowlist l ≫= λ _,
  if 0 <? launch.c_TotalN (launch.l_Committee l) then saveCommittee l else mret tt.

Definition backfillLaunchScopedAddresses : St unit := λ d,
  for_each (row_order (lr_id <$> db_launches d)) resave d.

(** The join of the requests with their launches, then one [UPDATE] per row
    whose text is not the canonical one. *)
Definition set_submitter (s : string) (r : jr_row) : jr_row :=
  mkJrRow (jw_id r) (jw_launch_id r) (jw_operator_address r) (jw_consensus_pubkey r)
    (jw_gentx_json r) (jw_peer_address r) (jw_rpc_endpoint r) (jw_memo r) (jw_submitted_at r)
    (jw_operator_signature r) (jw_status r) (jw_rejection_reason r)
    (jw_approved_by_proposal r) (jw_self_delegation_amount r) s.

Definition submitter_rows (d : db) : list (uuid * string * string) :=
  omap (λ r, match first (is_id lr_id (jw_launch_id r)) (db_launches d) with
             | Some l => Some (jw_id r, jw_submitter_address r, lr_bech32_prefix l)
             | None => None
             end) (db_jrs d).

Definition rewrite_submitter (row : uuid * string * string) : St unit :=
  let '(id, submitter, prefix) := row in
  match NewAccountID submitter with
  | Err _ => mret tt
  | Ok a =>
      let canonical := underPrefix a prefix in
      if bool_decide (canonical = submitter) then mret tt
      else exec (λ d, with_jrs (update (is_id jw_id id) (set_submitter canonical) (db_jrs d)) d)
  end.

Definition backfillJoinRequestSubmitters : St unit := λ d,
  for_each (row_order (submitter_rows d)) rewrite_submitter d.

Definition backfillAccountForms (s : authdb * db) : result unit * (authdb * db) :=
  let a := set_coordinators (backfillCoordinatorAccounts (a_coordinators s.1)) s.1 in
  let (r, d) := (backfillLaunchScopedAddresses ≫= λ _, backfillJoinRequestSubmitters) s.2 in
  (r, (a, d)).

(** [Open] on an existing database file. *)
Definition Open `{Q : SQL} (now : time.Time) (files : list (string * string)) (f : datafile)
    : result unit * datafile :=
  match migrations.runMigrations now files f with
  | (Err e, f1) => (Err e, f1)
  | (Ok _, f1) =>
      let (r, s) := backfillAccountForms (df_auth f1, df_db f1) in (r, set_data s f1)
  end.

End conversions.
End backfill.
