(* ===== verification/Signing.v ===== *)
(** * Account signatures (src/internal/infrastructure/crypto, src/cmd/smoke-signer/cmd)

    The server's verifiers (secp256k1.go, ed25519.go) and the signer the tests
    and the demo use (keys.go, privkey derivation, address derivation and ADR-036
    signing).  SHA-256 and base64 are executable; the curve, RIPEMD-160 and the
    address codec are third-party packages, the parameters of this file. *)

From S2P Require Import Prelude GoStd Values Sha256 Payload Store World AuditLog.
From stdpp Require Import pretty.
#[global] Open Scope Z_scope.

(** golang.org/x/crypto/ripemd160 *)
Class Ripemd160 : Type := { ripemd160_sum : bytes → bytes }.

(** github.com/decred/dcrd/dcrec/secp256k1/v4 and its ecdsa package.  A scalar
    is the result of [ModNScalar.SetByteSlice], which reduces modulo the group
    order. *)
Class Secp256k1 : Type := {
  secp_PrivateKey : Type;
  secp_PublicKey : Type;
  secp_Scalar : Type;
  secp_PrivKeyFromBytes : bytes → secp_PrivateKey;
  secp_Serialize : secp_PrivateKey → bytes;
  secp_PubKey : secp_PrivateKey → secp_PublicKey;
  secp_SerializeCompressed : secp_PublicKey → bytes;
  secp_ParsePubKey : bytes → result secp_PublicKey;
  secp_SetByteSlice : bytes → secp_Scalar;
  ecdsa_Verify : secp_Scalar → secp_Scalar → bytes → secp_PublicKey → bool;
  ecdsa_SignCompact : secp_PrivateKey → bytes → bool → bytes }.

(** [s[i:j]] *)
Definition slice (i j : nat) (s : bytes) : bytes := of_chars (take (j - i) (drop i (chars s))).

(** ** ADR-036 (BuildADR036AminoBytes; the signer's copy is the same text) *)

(** The JSON text, written here with single quotation marks. *)
Definition double_quotes (s : string) : list ascii :=
  (λ c, if (nat_of_ascii c =? 39)%nat then ascii_of_nat 34 else c) <$> chars s.

Definition adr036_head : list ascii :=
  double_quotes "{'account_number':'0','chain_id':'','fee':{'amount':[],'gas':'0'},'memo':''," ++
  double_quotes "'msgs':[{'type':'sign/MsgSignData','value':{'data':'".
Definition adr036_mid : list ascii := double_quotes "','signer':'".
Definition adr036_tail : list ascii := double_quotes "'}}],'sequence':'0'}".

Definition BuildADR036AminoBytes (operatorAddr : string) (payload : bytes) : bytes :=
  let data := base64.EncodeToString payload in
  of_chars (adr036_head ++ chars data ++ adr036_mid ++ chars operatorAddr ++ adr036_tail).

(** ** The verifiers *)
Section verifiers.
Context `{B32 : Bech32}.

(** The two address checks differ in the account bytes a key gives. *)
Definition assert_address (operatorAddr : string) (addrBytes : bytes) : result unit :=
  '(hrp, _) ← bech32_Decode operatorAddr 1023;
  converted ← bech32_ConvertBits addrBytes 8 5 true;
  derived ← bech32_Encode hrp converted;
  if bool_decide (derived = operatorAddr) then Ok tt else Err errorf.

(** secp256k1.go *)
Definition compressedPubKeySize : nat := 33.
Definition compactSigSize : nat := 64.

Definition assertSecp256k1AddressMatches `{RM : Ripemd160} (operatorAddr : string)
    (compressedPubKey : bytes) : result unit :=
  assert_address operatorAddr (ripemd160_sum (sha256.Sum256 compressedPubKey)).

Definition secp256k1_Verify `{RM : Ripemd160} `{SK : Secp256k1}
    (operatorAddr pubKeyB64 : string) (message sig : bytes) : result unit :=
  if is_empty operatorAddr then Err errorf
  else if is_empty pubKeyB64 then Err errorf
  else
    pubKeyBytes ← base64.DecodeString pubKeyB64;
    if negb (String.length pubKeyBytes =? compressedPubKeySize)%nat then Err errorf
    else
      pubKey ← secp_ParsePubKey pubKeyBytes;
      _ ← assertSecp256k1AddressMatches operatorAddr pubKeyBytes;
      if negb (String.length sig =? compactSigSize)%nat then Err errorf
      else
        let msgHash := sha256.Sum256 (BuildADR036AminoBytes operatorAddr message) in
        if ecdsa_Verify (secp_SetByteSlice (slice 0 32 sig)) (secp_SetByteSlice (slice 32 64 sig))
             msgHash pubKey
        then Ok tt else Err errorf.

(** ed25519.go: the first twenty bytes of the key's SHA-256 *)
Definition assertAddressMatchesPubKey (operatorAddr : string) (pubKey : bytes) : result unit :=
  assert_address operatorAddr (slice 0 20 (sha256.Sum256 pubKey)).

Definition ed25519_verifier_Verify `{ED : Ed25519}
    (operatorAddr pubKeyB64 : string) (message sig : bytes) : result unit :=
  if is_empty operatorAddr then Err errorf
  else if is_empty pubKeyB64 then Err errorf
  else
    pubKey ← base64.DecodeString pubKeyB64;
    if negb (String.length pubKey =? 32)%nat then Err errorf
    else
      _ ← assertAddressMatchesPubKey operatorAddr pubKey;
      if ed25519_Verify pubKey message sig then Ok tt else Err errorf.

(** The verifier the server is started with. *)
Definition Secp256k1Verifier `{RM : Ripemd160} `{SK : Secp256k1} : SignatureVerifier :=
  {| verifier_Verify := secp256k1_Verify |}.

End verifiers.

(** ** The signer (smoke-signer) *)
Module signer.
Section keys.
Context `{B32 : Bech32} `{RM : Ripemd160} `{SK : Secp256k1}.

Definition seedPrefix : string := "chaincoord-smoke-signer-v1:".
Definition secp256k1PrivKeyLen : nat := 32.

Definition privKeyFromIndex (index : Z) : secp_PrivateKey :=
  secp_PrivKeyFromBytes (sha256.Sum256 (seedPrefix ++ pretty index)%string).

Definition privKeyFromHex (h : string) : result secp_PrivateKey :=
  b ← hex.DecodeString (strings.TrimSpace h);
  if negb (String.length b =? secp256k1PrivKeyLen)%nat then Err errorf
  else Ok (secp_PrivKeyFromBytes b).

Definition compressedPubKey (priv : secp_PrivateKey) : bytes :=
  secp_SerializeCompressed (secp_PubKey priv).
Definition pubKeyB64 (priv : secp_PrivateKey) : string :=
  base64.EncodeToString (compressedPubKey priv).
Definition privKeyHex (priv : secp_PrivateKey) : string := hex.EncodeToString (secp_Serialize priv).

Definition deriveAddress (priv : secp_PrivateKey) (hrp : string) : result string :=
  converted ← bech32_ConvertBits (ripemd160_sum (sha256.Sum256 (compressedPubKey priv))) 8 5 true;
  bech32_Encode hrp converted.

Definition buildADR036AminoBytes : string → bytes → bytes := BuildADR036AminoBytes.

(** The recovery byte of the compact signature is dropped. *)
Definition signADR036 (priv : secp_PrivateKey) (signerAddr : string) (payload : bytes) : string :=
  let msgHash := sha256.Sum256 (buildADR036AminoBytes signerAddr payload) in
  let compactSig := ecdsa_SignCompact priv msgHash true in
  base64.EncodeToString (of_chars (drop 1 (chars compactSig))).

(** [resolvePrivKey], given the two flags *)
Definition resolvePrivKey (privkey_hex : option string) (index : Z) : result secp_PrivateKey :=
  match privkey_hex with
  | Some h => privKeyFromHex h
  | None => Ok (privKeyFromIndex index)
  end.

End keys.
End signer.
