(* ===== verification/Adapters.v ===== *)
(** * Adapters around third-party checks

    The gentx validator the join request service is given
    (src/internal/infrastructure/gentxvalidation/validator.go), and the [sign]
    command of the signer (src/cmd/smoke-signer/cmd/sign.go), which fills in the
    nonce, time and signature of a request. *)

From S2P Require Import Prelude GoStd GoTime Values Json Sha256 Payload Store World JsonPrint.
From S2P Require Import AuditLog JoinRequestService Signing.
#[global] Open Scope Z_scope.

(** github.com/ny4rl4th0t3p/seedward-libs/gentxvalidate: the invariants, and the
    decoded message with its key and account. *)
Class Gentxvalidate : Type := {
  gv_Gentx : Type;
  gv_RunAll : bytes → joinrequests.Params → list (string * bool * string);
  gv_AllOK : list (string * bool * string) → bool;
  gv_Decode : bytes → result gv_Gentx;
  gv_ConsensusPubKey : gv_Gentx → bytes;
  gv_AccountAddress : gv_Gentx → string → result string }.

Module gentxvalidation.
Import joinrequests.
Section validator.
Context `{GV : Gentxvalidate}.

Definition Validate (gentxJSON : bytes) (p : Params) : Outcome :=
  let results := gv_RunAll gentxJSON p in
  let out := mkOutcome results (gv_AllOK results) "" "" in
  if gv_AllOK results then
    match gv_Decode gentxJSON with
    | Ok g =>
        mkOutcome results true (base64.EncodeToString (gv_ConsensusPubKey g))
          (match gv_AccountAddress g (gp_Bech32Prefix p) with Ok addr => addr | Err _ => "" end)
    | Err _ => out
    end
  else out.

Definition Validator : GentxValidator := {| gentx_Validate := Validate |}.
End validator.
End gentxvalidation.

(** ** smoke-signer sign *)
Module signcmd.
Import json.

(** [json.Unmarshal] into a nil [map[string]json.RawMessage]: [null] leaves it
    nil. *)
Definition dec_object (v : value) : option (option (gmap string bytes)) :=
  match v with JNull => Some None | _ => Some <$> raw_map v end.

(** [json.Marshal] of a string cannot fail. *)
Definition raw_string (s : string) : bytes := of_chars (jsonenc.print (DStr s)).

(** A map is written with its keys in order. *)
Definition map_doc (m : gmap string bytes) : jdoc :=
  DObj ((λ kv, (kv.1, DRaw (Some kv.2))) <$> sqlite.order_by fst (map_to_list m)).

Definition stamp (nonce timestamp : string) (m : gmap string bytes) : gmap string bytes :=
  <["timestamp"%string := raw_string timestamp]> (<["nonce"%string := raw_string nonce]> m).

Section sign.
Context `{B32 : Bech32} `{UT : UUIDText} `{CJ : CanonicalJSON} `{RM : Ripemd160} `{SK : Secp256k1}.

(** The signing bytes, and the filled map. *)
Definition fill (priv : secp_PrivateKey) (signerAddr nonce timestamp : string)
    (m : gmap string bytes) : result (gmap string bytes) :=
  let has := bool_decide (is_Some (m !! "pubkey_b64"%string)) in
  let m := stamp nonce timestamp m in
  signingBytes ← canonical_MarshalForSigning (map_doc m);
  let m := <["signature"%string := raw_string (signer.signADR036 priv signerAddr signingBytes)]> m in
  Ok (if has then <["pubkey_b64"%string := raw_string (signer.pubKeyB64 priv)]> m else m).

(** Assigning to the nil map that [null] leaves panics: [None]. *)
Definition runSign (privkey_hex : option string) (index : Z) (stdin : result bytes)
    (nonce : uuid) (now : time.Time) : option (result bytes) :=
  match (priv ← signer.resolvePrivKey privkey_hex index;
         raw ← stdin;
         signerAddr ← signer.deriveAddress priv "cosmos";
         om ← unmarshal dec_object raw;
         Ok (priv, signerAddr, om)) with
  | Err e => Some (Err e)
  | Ok (_, _, None) => None
  | Ok (priv, signerAddr, Some m) =>
      let timestamp := rfc3339.Format (now - now mod time.Second) in
      Some (m ← fill priv signerAddr (uuid_String nonce) timestamp m; jsonenc.Marshal (map_doc m))
  end.

End sign.
End signcmd.

(** A gentx that fails an invariant exposes neither key nor account. *)
Lemma invalid_gentx_exposes_nothing `{GV : Gentxvalidate} gentxJSON p :
  joinrequests.go_AllOK (gentxvalidation.Validate gentxJSON p) = false →
  joinrequests.go_ConsensusPubKeyB64 (gentxvalidation.Validate gentxJSON p) = ""%string ∧
  joinrequests.go_ValidatorAddress (gentxvalidation.Validate gentxJSON p) = ""%string.
Proof.
  unfold gentxvalidation.Validate. destruct (gv_AllOK _) eqn:E; [|done].
  by destruct (gv_Decode gentxJSON).
Qed.
