(* ===== verification/SigningProps.v ===== *)
(** * What a verified account signature proves

    The server accepts exactly what the signer signs; a signature the secp256k1
    verifier accepts was checked, under a key whose account the address names,
    over a text that determines the address and the message. *)

From S2P Require Import Prelude GoStd GoTime Values Json Sha256 Store World JsonPrint AuditLog Codec.
From S2P Require Import Payload Signing Adapters.
From stdpp Require Import pretty.
Import sqlite.
#[global] Open Scope Z_scope.

(** ** The signed text *)

Definition quote : ascii := ascii_of_nat 34.

Lemma encode64_no_quote l : quote ∉ base64.encode_chars l.
Proof.
  assert (∀ v, 0 ≤ v < 64 → quote ≠ base64.char v) as Hc.
  { intros v Hv. replace v with (Z.of_nat (Z.to_nat v)) by lia.
    assert (Z.to_nat v < 64)%nat as Hn by lia. revert Hn. generalize (Z.to_nat v) as n. clear.
    intros n Hn. do 64 (destruct n as [|n]; [vm_compute; congruence|]). lia. }
  assert (quote ≠ base64.pad) as Hp by (vm_compute; congruence).
  induction l as [|a|a b|a b c l IH] using base64.list_ind3.
  - apply not_elem_of_nil.
  - destruct (base64.sextet_ranges a a a) as (H1 & _ & _ & _ & H5 & _). cbn [base64.encode_chars].
    repeat (apply not_elem_of_cons; split; [by auto|]). apply not_elem_of_nil.
  - destruct (base64.sextet_ranges a b b) as (H1 & H2 & _ & _ & _ & H6). cbn [base64.encode_chars].
    repeat (apply not_elem_of_cons; split; [by auto|]). apply not_elem_of_nil.
  - destruct (base64.sextet_ranges a b c) as (H1 & H2 & H3 & H4 & _). cbn [base64.encode_chars].
    repeat (apply not_elem_of_cons; split; [by auto|]). exact IH.
Qed.

(** Up to the first quotation mark two texts agree. *)
Lemma split_at_quote (a a' r r' : list ascii) :
  quote ∉ a → quote ∉ a' → a ++ quote :: r = a' ++ quote :: r' → a = a' ∧ r = r'.
Proof.
  revert a'. induction a as [|x a IH]; intros [|y a'] Ha Ha'; cbn.
  - by intros [= ->].
  - intros [= <- _]. by destruct Ha'; left.
  - intros [= -> _]. by destruct Ha; left.
  - intros [= -> H]. apply not_elem_of_cons in Ha as [_ Ha]. apply not_elem_of_cons in Ha' as [_ Ha'].
    by destruct (IH a' Ha Ha' H) as [-> ->].
Qed.

Lemma chars_of l : chars (of_chars l) = l.
Proof. apply String.list_ascii_of_string_of_list_ascii. Qed.

Lemma adr036_injective a a' m m' :
  BuildADR036AminoBytes a m = BuildADR036AminoBytes a' m' → a = a' ∧ m = m'.
Proof.
  unfold BuildADR036AminoBytes. intros H. apply (f_equal chars) in H. rewrite !chars_of in H.
  apply app_inv_head in H. unfold base64.EncodeToString in H. rewrite !chars_of in H.
  change adr036_mid with (quote :: drop 1 adr036_mid) in H. cbn [app] in H.
  apply split_at_quote in H as [H1 H2]; [|apply encode64_no_quote..].
  apply app_inv_head in H2. apply app_inv_tail in H2. split.
  - rewrite <- (String.string_of_list_ascii_of_string a), H2.
    apply String.string_of_list_ascii_of_string.
  - assert (base64.EncodeToString m = base64.EncodeToString m') as Hm
      by (unfold base64.EncodeToString; by rewrite H1).
    apply (f_equal base64.DecodeString) in Hm. rewrite !base64.DecodeString_Encode in Hm.
    by injection Hm.
Qed.

(** ** The curve and the hash, as far as signing relies on them *)
Class Secp256k1Correct `{SK : Secp256k1} : Prop := {
  secp_compressed k : String.length (secp_SerializeCompressed k) = compressedPubKeySize;
  secp_parse k : secp_ParsePubKey (secp_SerializeCompressed k) = Ok k;
  ecdsa_compact k h : String.length (ecdsa_SignCompact k h true) = 65%nat;
  ecdsa_sign_verify k h :
    ecdsa_Verify (secp_SetByteSlice (slice 1 33 (ecdsa_SignCompact k h true)))
      (secp_SetByteSlice (slice 33 65 (ecdsa_SignCompact k h true))) h (secp_PubKey k) = true }.

Class Ripemd160Correct `{RM : Ripemd160} : Prop := {
  ripemd160_size b : String.length (ripemd160_sum b) = 20%nat }.

Section signatures.
Context `{B32 : Bech32} {BC : Bech32Correct} `{RM : Ripemd160} {RC : Ripemd160Correct}.
Context `{SK : Secp256k1}.
#[local] Set Default Proof Using "Type*".

(** The account of a compressed key. *)
Definition key_account (key : bytes) : bytes := ripemd160_sum (sha256.Sum256 key).

Lemma assert_address_account addr b id :
  (String.length addr ≤ 900)%nat → String.length b = 20%nat →
  assert_address addr b = Ok tt → NewAccountID addr = Ok id →
  acct id = hex.EncodeToString b.
Proof using BC.
  intros Hlen Hb. unfold assert_address.
  destruct (bech32_Decode addr 1023) as [[p d0]|] eqn:Hd; [|done]. cbn [mbind result_bind].
  destruct (decode_lower _ _ _ _ Hd) as [Hp Hpl].
  destruct (encode_decode p b Hp) as (d & s & Hc & He & Hd' & Hc' & Ht & Hs).
  { unfold account_fits. lia. }
  rewrite Hc. cbn [mbind result_bind]. rewrite He. cbn [mbind result_bind].
  case_bool_decide as Heq; [|done]. subst s. intros _. unfold NewAccountID. rewrite Ht.
  destruct (is_empty addr); [done|]. rewrite Hd'. destruct (is_empty p); [done|].
  destruct (_ || _); [done|]. rewrite Hc'. by intros [= <-].
Qed.

Lemma assert_address_derived p b addr :
  lower_hrp p = true → account_fits p b →
  (d ← bech32_ConvertBits b 8 5 true; bech32_Encode p d) = Ok addr →
  assert_address addr b = Ok tt ∧ addr ≠ ""%string.
Proof using BC.
  intros Hp Hfit. destruct (encode_decode p b Hp Hfit) as (d & s & Hc & He & Hd & _ & _ & Hs).
  rewrite Hc. cbn [mbind result_bind]. rewrite He. intros [= <-]. split; [|done].
  unfold assert_address. rewrite Hd. cbn [mbind result_bind]. rewrite Hc. cbn [mbind result_bind].
  rewrite He. cbn [mbind result_bind]. by rewrite bool_decide_eq_true_2.
Qed.

(** C35. A signature the server accepts for an address and a message was
    verified under a key given in compressed form, over a text that no other
    address or message has; and the account the address names is the one of
    that key, so nobody signs for an account without a key of it. *)
Theorem verified_signature_binds addr pub msg sig :
  (String.length addr ≤ 900)%nat →
  secp256k1_Verify addr pub msg sig = Ok tt →
  ∃ key pk text,
    base64.DecodeString pub = Ok key ∧ String.length key = 33%nat ∧ secp_ParsePubKey key = Ok pk ∧
    String.length sig = 64%nat ∧ text = BuildADR036AminoBytes addr msg ∧
    ecdsa_Verify (secp_SetByteSlice (slice 0 32 sig)) (secp_SetByteSlice (slice 32 64 sig))
      (sha256.Sum256 text) pk = true ∧
    (∀ addr' msg', BuildADR036AminoBytes addr' msg' = text → addr' = addr ∧ msg' = msg) ∧
    (∀ id, NewAccountID addr = Ok id → acct id = hex.EncodeToString (key_account key)).
Proof.
  intros Hlen. unfold secp256k1_Verify. destruct (is_empty addr); [done|].
  destruct (is_empty pub); [done|].
  intros (key & Hkey & H)%result_bind_Ok.
  destruct (String.length key =? compressedPubKeySize)%nat eqn:Hkl; [|done]. cbn [negb] in H.
  apply result_bind_Ok in H as (pk & Hpk & H). apply result_bind_Ok in H as ([] & Haddr & H).
  destruct (String.length sig =? compactSigSize)%nat eqn:Hsl; [|done]. cbn [negb] in H.
  destruct (ecdsa_Verify _ _ _ _) eqn:Hv; [|done]. apply Nat.eqb_eq in Hkl, Hsl.
  exists key, pk, (BuildADR036AminoBytes addr msg). split_and!; [done..| |].
  - intros addr' msg' E. by apply adr036_injective in E.
  - intros id Hid. by eapply assert_address_account; [done|apply ripemd160_size| |].
Qed.

Lemma slice_drop i j l :
  (1 ≤ i)%nat → slice (i - 1) (j - 1) (of_chars (drop 1 l)) = slice i j (of_chars l).
Proof using Type.
  intros Hi. unfold slice. rewrite !chars_of, drop_drop.
  replace (j - 1 - (i - 1))%nat with (j - i)%nat by lia. by replace (1 + (i - 1))%nat with i by lia.
Qed.

(** What the signer signs for the address it derives from a key, under any
    lower-case prefix, the server accepts with the key it prints. *)
Lemma signer_accepted {SC : Secp256k1Correct} k hrp addr payload :
  lower_hrp hrp = true → (String.length hrp ≤ 900)%nat →
  signer.deriveAddress k hrp = Ok addr →
  ∃ sig, base64.DecodeString (signer.signADR036 k addr payload) = Ok sig ∧
    secp256k1_Verify addr (signer.pubKeyB64 k) payload sig = Ok tt.
Proof.
  intros Hp Hlen Hd. unfold signer.signADR036. set (h := sha256.Sum256 _).
  pose proof (ecdsa_compact k h) as Hcl. pose proof (ecdsa_sign_verify k h) as Hsv.
  set (cs := ecdsa_SignCompact k h true) in *.
  exists (of_chars (drop 1 (chars cs))). split; [apply base64.DecodeString_Encode|].
  assert (String.length (signer.compressedPubKey k) = 33%nat) as Hkl by apply secp_compressed.
  destruct (assert_address_derived hrp (key_account (signer.compressedPubKey k)) addr) as [Ha Hne];
    [done| |exact Hd|].
  { unfold account_fits, key_account. rewrite ripemd160_size. lia. }
  unfold secp256k1_Verify. destruct (is_empty addr) eqn:E; [by destruct addr|].
  unfold signer.pubKeyB64.
  destruct (is_empty (base64.EncodeToString _)) eqn:Epk.
  { exfalso. pose proof (base64.DecodeString_Encode (signer.compressedPubKey k)) as Hde.
    destruct (base64.EncodeToString _); [|done]. injection Hde as Hde. by rewrite <- Hde in Hkl. }
  rewrite base64.DecodeString_Encode. cbn [mbind result_bind]. rewrite Hkl. cbn [Nat.eqb negb compressedPubKeySize].
  assert (secp_ParsePubKey (signer.compressedPubKey k) = Ok (secp_PubKey k)) as -> by apply secp_parse.
  cbn [mbind result_bind].
  unfold assertSecp256k1AddressMatches. fold (key_account (signer.compressedPubKey k)).
  rewrite Ha. cbn [mbind result_bind].
  rewrite <- letters.chars_length in Hcl.
  assert (String.length (of_chars (drop 1 (chars cs))) = compactSigSize) as ->.
  { rewrite <- letters.chars_length, chars_of, length_drop, Hcl. done. }
  cbn [Nat.eqb negb compactSigSize].
  change (slice 0 32 (of_chars (drop 1 (chars cs)))) with (slice (1 - 1) (33 - 1) (of_chars (drop 1 (chars cs)))).
  change (slice 32 64 (of_chars (drop 1 (chars cs)))) with (slice (33 - 1) (65 - 1) (of_chars (drop 1 (chars cs)))).
  rewrite !slice_drop, String.string_of_list_ascii_of_string by lia.
  change (sha256.Sum256 (BuildADR036AminoBytes addr payload)) with h. by rewrite Hsv.
Qed.

(** ** The sign command *)
Lemma fill_signature `{CJ : CanonicalJSON} priv addr nonce ts m m' :
  signcmd.fill priv addr nonce ts m = Ok m' →
  ∃ msg, canonical_MarshalForSigning (signcmd.map_doc (signcmd.stamp nonce ts m)) = Ok msg ∧
    m' !! "signature"%string
      = Some (signcmd.raw_string (signer.signADR036 priv addr msg)) ∧
    (is_Some (m !! "pubkey_b64"%string) →
     m' !! "pubkey_b64"%string = Some (signcmd.raw_string (signer.pubKeyB64 priv))) ∧
    ∀ k, k ∉ ["signature"; "pubkey_b64"]%string → m' !! k = signcmd.stamp nonce ts m !! k.
Proof using Type.
  unfold signcmd.fill. intros (msg & Hmsg & [= <-])%result_bind_Ok. exists msg.
  split; [done|]. case_bool_decide as Hp.
  - split_and!.
    + by rewrite lookup_insert_ne, lookup_insert_eq.
    + intros _. by rewrite lookup_insert_eq.
    + intros k Hk. rewrite !not_elem_of_cons in Hk. destruct Hk as (Hs & Hb & _).
      by rewrite !lookup_insert_ne.
  - split_and!; [by rewrite lookup_insert_eq|done|].
    intros k Hk. rewrite !not_elem_of_cons in Hk. destruct Hk as (Hs & _).
    by rewrite lookup_insert_ne.
Qed.

(** Whatever object the sign command is given, what it prints carries its
    nonce and its time, keeps every other field but the signature and the key,
    and its signature is one the server's verifier accepts for the key's
    address over the canonical bytes of the printed fields. *)
Theorem signed_request_accepted {SC : Secp256k1Correct} `{CJ : CanonicalJSON} `{UT : UUIDText}
    hex index raw nonce now out :
  signcmd.runSign hex index (Ok raw) nonce now = Some (Ok out) →
  ∃ priv addr m m' msg sigB64 sig,
    signer.resolvePrivKey hex index = Ok priv ∧ signer.deriveAddress priv "cosmos" = Ok addr ∧
    json.unmarshal signcmd.dec_object raw = Ok (Some m) ∧
    jsonenc.Marshal (signcmd.map_doc m') = Ok out ∧
    m' !! "nonce"%string = Some (signcmd.raw_string (uuid_String nonce)) ∧
    m' !! "timestamp"%string
      = Some (signcmd.raw_string (rfc3339.Format (now - now mod time.Second))) ∧
    m' !! "signature"%string = Some (signcmd.raw_string sigB64) ∧
    (∀ k, k ∉ ["nonce"; "timestamp"; "signature"; "pubkey_b64"]%string → m' !! k = m !! k) ∧
    canonical_MarshalForSigning (signcmd.map_doc (signcmd.stamp (uuid_String nonce)
      (rfc3339.Format (now - now mod time.Second)) m)) = Ok msg ∧
    base64.DecodeString sigB64 = Ok sig ∧
    secp256k1_Verify addr (signer.pubKeyB64 priv) msg sig = Ok tt.
Proof.
  unfold signcmd.runSign.
  destruct (_ ← signer.resolvePrivKey hex index; _) as [[[priv addr] [m|]]|] eqn:H; [|done..].
  apply result_bind_Ok in H as (p & Hp & H). cbn [mbind result_bind] in H.
  apply result_bind_Ok in H as (a & Ha & H). apply result_bind_Ok in H as (om & Hm & [= -> -> ->]).
  intros [= (m' & Hf & Hout)%result_bind_Ok].
  apply fill_signature in Hf as (msg & Hmsg & Hsig & _ & Hother).
  destruct (signer_accepted priv "cosmos" addr msg) as (sig & Hs & Hv);
    [reflexivity|vm_compute; lia|done|].
  exists priv, addr, m, m', msg, (signer.signADR036 priv addr msg), sig.
  assert (∀ k, k ∉ ["signature"; "pubkey_b64"]%string → m' !! k = signcmd.stamp _ _ m !! k)
    as Hk by exact Hother. unfold signcmd.stamp in Hk.
  split_and!; [done..| | |done| |done|done|done].
  - rewrite Hk by (rewrite !not_elem_of_cons; split_and!; [done..|apply not_elem_of_nil]).
    by rewrite lookup_insert_ne, lookup_insert_eq.
  - rewrite Hk by (rewrite !not_elem_of_cons; split_and!; [done..|apply not_elem_of_nil]).
    by rewrite lookup_insert_eq.
  - intros k. rewrite !not_elem_of_cons. intros (H1 & H2 & H3 & H4 & H5).
    rewrite Hk by (rewrite !not_elem_of_cons; by split_and!). by rewrite !lookup_insert_ne.
Qed.

End signatures.

(** ** Samples: a signature scheme with two keys *)
Module signing_samples.

(** A key is a bit; a signature is the first 32 bytes of the hash, padded, and
    32 copies of the key's letter. *)
Definition mark (k : bool) : ascii := if k then "Y"%char else "X"%char.
Definition fit (n : nat) (h : bytes) : list ascii := take n (chars h ++ replicate n zero).
Definition marks (k : bool) : list ascii := replicate 32 (mark k).

#[export] Instance bit_secp : Secp256k1 := {|
  secp_PrivateKey := bool; secp_PublicKey := bool; secp_Scalar := bytes;
  secp_PrivKeyFromBytes := λ b, (String.length b =? 32)%nat;
  secp_Serialize := λ k, of_chars (marks k);
  secp_PubKey := λ k, k;
  secp_SerializeCompressed := λ k, of_chars (mark k :: marks k);
  secp_ParsePubKey := λ b, if bool_decide (chars b = mark true :: marks true) then Ok true
                           else if bool_decide (chars b = mark false :: marks false) then Ok false
                           else Err errorf;
  secp_SetByteSlice := λ b, b;
  ecdsa_Verify := λ r s h k, bool_decide (chars r = fit 32 h) && bool_decide (chars s = marks k);
  ecdsa_SignCompact := λ k h _, of_chars (zero :: fit 32 h ++ marks k) |}.

#[export] Instance twenty_bytes : Ripemd160 := {| ripemd160_sum := λ b, of_chars (fit 20 b) |}.

Lemma fit_length n h : length (fit n h) = n.
Proof. unfold fit. rewrite length_take, length_app, length_replicate. lia. Qed.

#[export] Instance twenty_bytes_ok : Ripemd160Correct.
Proof. split. intros b. cbn. by rewrite <- letters.chars_length, chars_of, fit_length. Qed.

#[export] Instance bit_secp_ok : Secp256k1Correct.
Proof.
  split.
  - by intros [].
  - by intros [].
  - intros k h. cbn [ecdsa_SignCompact bit_secp].
    rewrite <- letters.chars_length, chars_of. cbn [length]. by rewrite length_app, fit_length.
  - intros k h. cbn [ecdsa_SignCompact ecdsa_Verify secp_SetByteSlice secp_PubKey bit_secp].
    unfold slice. rewrite !chars_of. cbn [drop Nat.sub].
    assert (∀ n (l : list ascii), drop (S n) (zero :: l) = drop n l) as Hc by done.
    rewrite ?Hc, ?drop_0, take_app_length' by (by rewrite fit_length).
    rewrite drop_app_length' by (by rewrite fit_length).
    rewrite !bool_decide_eq_true_2; [done| |done]. by destruct k.
Qed.

Definition my_key : secp_PrivateKey := true.
Definition my_address : string :=
  match signer.deriveAddress (B32 := letters.codec) my_key "cosmos" with Ok a => a | Err _ => "" end.

Lemma sample_accepted :
  ∃ sig, secp256k1_Verify (B32 := letters.codec) my_address (signer.pubKeyB64 my_key)
           "challenge" sig = Ok tt.
Proof.
  destruct (signer_accepted (BC := letters.codec_correct) my_key "cosmos" my_address "challenge")
    as (sig & _ & H); [reflexivity|vm_compute; lia|vm_compute; reflexivity|].
  by exists sig.
Defined.

Definition my_signature : bytes :=
  match base64.DecodeString (signer.signADR036 my_key my_address "challenge") with
  | Ok s => s | Err _ => "" end.

Lemma verified_signature_binds_witness :
  ∃ key, base64.DecodeString (signer.pubKeyB64 my_key) = Ok key ∧
    ∀ id, NewAccountID (H := letters.codec) my_address = Ok id →
      acct id = hex.EncodeToString (key_account key).
Proof.
  destruct (verified_signature_binds (BC := letters.codec_correct) my_address
    (signer.pubKeyB64 my_key) "challenge" my_signature)
    as (key & pk & text & H1 & _ & _ & _ & _ & _ & _ & H2);
    [vm_compute; lia|vm_compute; reflexivity|]. by exists key.
Defined.

(** Signing what the smoke test sends for a login. *)
#[local] Instance printed_canonical : CanonicalJSON := {|
  canonical_MarshalForSigning := jsonenc.Marshal;
  canonical_Marshal := λ raw, Ok (default ""%string raw) |}.
#[local] Instance one_uuid : UUIDText := {|
  uuid_Parse := λ _, Ok 1%N; uuid_String := λ _, "1"%string |}.
Definition login : bytes :=
  of_chars (double_quotes "{'operator_address':'x','pubkey_b64':'','nonce':''}").
Definition signed : option (result bytes) :=
  signcmd.runSign (B32 := letters.codec) None 0 (Ok login) 1%N 0.
Definition signed_text : bytes := match signed with Some (Ok s) => s | _ => "" end.

Lemma signed_request_accepted_witness :
  ∃ addr pub msg sig, secp256k1_Verify (B32 := letters.codec) addr pub msg sig = Ok tt.
Proof.
  destruct (signed_request_accepted (BC := letters.codec_correct) None 0 login 1%N 0 signed_text)
    as (priv & addr & m & m' & msg & sb & sig & _ & _ & _ & _ & _ & _ & _ & _ & _ & _ & H);
    [vm_compute; reflexivity|]. by eexists _, _, _, _.
Defined.
Example null_panics : signcmd.runSign (B32 := letters.codec) None 0 (Ok "null"%string) 1%N 0 = None.
Proof. vm_compute. reflexivity. Qed.

(** The signer's key of index 0, and one given in hexadecimal. *)
Example index_key : signer.resolvePrivKey None 0 = Ok (true : secp_PrivateKey).
Proof. vm_compute. reflexivity. Qed.
Example short_hex_key : is_ok (signer.resolvePrivKey (Some "abcd"%string) 0) = false.
Proof. vm_compute. reflexivity. Qed.

End signing_samples.
