(* ===== verification/Jobs.v ===== *)
(** * Background jobs (src/internal/infrastructure/jobs/jobs.go)

    The bodies of the two periodic jobs: one poll of the launch monitor over
    the GENESIS_READY launches, and one run of the proposal expiry.  The
    tickers and the cancellation around them are not modelled; an error is
    logged and does not leave the job. *)

From S2P Require Import Prelude GoStd GoTime Values LaunchAgg Json Events Payload Store World.
From S2P Require Import ProposalService.
Import sqlite json.
#[global] Open Scope Z_scope.

(** net/http: the status and body of a GET, at a reading of the clock. *)
Class HTTPClient : Type := { http_Get : nat → string → result (Z * bytes) }.

Module jobs.

(** The anonymous struct of [pollBlock1]. *)
Record header : Type := mkHeader { h_ChainID : string; h_Height : string }.
Definition header_names : list string := ["chain_id"; "height"].
Definition dec_header (cur : header) (v : value) : option header :=
  i ← field header_names "chain_id" d_string (h_ChainID cur) v;
  h ← field header_names "height" d_string (h_Height cur) v;
  Some (mkHeader i h).
Definition dec_block (cur : header) (v : value) : option header :=
  field ["header"%string] "header" (d_struct dec_header) cur v.
Definition dec_result (cur : header) (v : value) : option header :=
  field ["block"%string] "block" (d_struct dec_block) cur v.
Definition dec_body (v : value) : option header :=
  field ["result"%string] "result" (d_struct dec_result) (mkHeader "" "") v.

Section jobs.
Context `{B32 : Bech32} `{NU : NetURL} `{UT : UUIDText} `{O : Oracle} `{HC : HTTPClient}.
Context (validateURL : option (string → result unit)).

Definition StatusOK : Z := 200.

Definition pollBlock1 (rpcURL expectedChainID : string) : M bool := λ w,
  match http_Get (w_tick w) (rpcURL +:+ "/block?height=1") with
  | Err e => (Fail e, tick w)
  | Ok (status, body) =>
      if negb (status =? StatusOK) then (Ret false, tick w)
      else
        match Decode dec_body body true with
        | Err e => (Fail e, tick w)
        | Ok h => (Ret (negb (is_empty expectedChainID)
                        && bool_decide (h_ChainID h = expectedChainID)
                        && bool_decide (h_Height h = "1"%string)), tick w)
        end
  end.

(** Run and log an error. *)
Definition logged (m : M unit) : M unit := λ w,
  match m w with (Fail _, w1) => (Ret tt, w1) | r => r end.

(** [LaunchDetected] is published; nothing is written to the audit log. *)
Definition markLaunched (l : launch.Launch) (sourceRPC : string) : M unit := logged (
  Now ≫= λ now,
  of_result (launch.MarkLaunched l now) ≫= λ l,
  run_st (saveLaunch l) ≫= λ _,
  Now ≫= λ now,
  Publish (domain.WithTime now (domain.event (domain.Lch
    (domain.LaunchDetected (launch.l_ID l) 0 sourceRPC))))).

Definition url_allowed (url : string) : bool :=
  match validateURL with
  | None => true
  | Some f => match f url with Ok _ => true | Err _ => false end
  end.

(** One turn of the loop. *)
Definition monitor_one (l : launch.Launch) : M unit :=
  let url := launch.l_MonitorRPCURL l in
  if is_empty url then mret tt
  else if negb (url_allowed url) then mret tt
  else logged (
    pollBlock1 url (launch.r_ChainID (launch.l_Record l)) ≫= λ detected,
    if detected : bool then markLaunched l url else mret tt).

Fixpoint monitor_all (candidates : list launch.Launch) : M unit :=
  match candidates with
  | [] => mret tt
  | l :: rest => monitor_one l ≫= λ _, monitor_all rest
  end.

Definition runMonitorTick : M unit := logged (
  run_st (findLaunchesByStatus launch.StatusGenesisReady) ≫= λ candidates,
  monitor_all candidates).

(** One run of [RunProposalExpiry]. *)
Definition runExpiry : M unit := logged proposals.ExpireStale.

End jobs.
End jobs.
