(* ===== verification/Wire.v ===== *)
(** * Wire types (src/internal/infrastructure/api)

    The structs the HTTP handlers decode from request bodies and encode into
    responses, with the conversions from the domain.  A response keeps the
    value that is handed to the JSON encoder: enumerations stand for their
    strings, instants for their RFC 3339 text where the code leaves the
    formatting to the encoder, a double for its rational value. *)

From S2P Require Import Prelude GoStd GoTime GoFloat Values LaunchAgg Json Events Payload.
From S2P Require Import Proposal JoinRequest Rehearsal Store World InputSet ProposalService.
From S2P Require Import LaunchService JoinRequestService ReadinessService RehearsalService.
From S2P Require Import AuthService.
#[global] Open Scope Z_scope.

Module wire.

(** ** Errors (respond.go) *)

(** The text of an error is its wrap chain; [prefix ++ err.Error()]. *)
Inductive message : Type := Text (s : string) | ErrorText (prefix : string) (e : error).

Record invariantResultJSON : Type := mkInvariant {
  iv_Invariant : string; iv_OK : bool; iv_Reason : string }.
Record errorBody : Type := mkErrorBody {
  eb_Code : string;
  eb_Message : message;
  eb_RequestID : string;
  eb_Invariants : list invariantResultJSON }.

(** [pageEnvelope] *)
Record pageEnvelope (A : Type) : Type := mkPage {
  pe_Items : list A; pe_Total : Z; pe_Page : Z; pe_PerPage : Z }.
Arguments mkPage {_} _ _ _ _.

(** ** Launches (launch.go, committee.go, members.go) *)
Record chainRecordJSON : Type := mkChainRecordJSON {
  cj_ChainID : string;
  cj_ChainName : string;
  cj_Bech32Prefix : string;
  cj_BinaryName : string;
  cj_BinaryVersion : string;
  cj_BinarySHA256 : string;
  cj_RepoURL : string;
  cj_RepoCommit : string;
  cj_GenesisTime : option time.Time;
  cj_Denom : string;
  cj_MinSelfDelegation : string;
  cj_TotalSupply : string;
  cj_MaxCommissionRate : string;
  cj_MaxCommissionChangeRate : string;
  cj_GentxDeadline : time.Time;
  cj_MinValidatorCount : Z }.

Record launchJSON : Type := mkLaunchJSON {
  lj_ID : string;
  lj_Record : chainRecordJSON;
  lj_LaunchType : launch.LaunchType;
  lj_Status : launch.Status;
  lj_InitialGenesisSHA256 : string;
  lj_FinalGenesisSHA256 : string;
  lj_MonitorRPCURL : string;
  lj_RehearsalServicePubKey : string;
  lj_RehearsalEndpoint : string;
  lj_CreatedAt : time.Time;
  lj_UpdatedAt : time.Time }.

Record committeeMemberJSON : Type := mkMemberJSON { mj_Address : string; mj_Moniker : string }.
Record committeeRequestJSON : Type := mkCommitteeRequest {
  cq_Members : list committeeMemberJSON;
  cq_ThresholdM : Z;
  cq_TotalN : Z;
  cq_LeadAddress : string }.
Record createLaunchRequest : Type := mkCreateLaunch {
  cl_Record : chainRecordJSON;
  cl_LaunchType : string;
  cl_Allowlist : list string;
  cl_Committee : committeeRequestJSON }.

Record committeeJSON : Type := mkCommitteeJSON {
  kj_ID : string;
  kj_Members : list committeeMemberJSON;
  kj_ThresholdM : Z;
  kj_TotalN : Z;
  kj_LeadAddress : string;
  kj_CreatedAt : time.Time }.

Record memberJSON : Type := mkListMemberJSON {
  bj_Address : string; bj_Label : string; bj_AddedBy : string; bj_AddedAt : string }.
Record addMemberRequest : Type := mkAddMember { am_Address : string; am_Label : string }.

(** ** Genesis and allocation files (genesis.go, allocation.go) *)
Record genesisRefRequest : Type := mkGenesisRef {
  gr_URL : string; gr_SHA256 : string; gr_GenesisTime : string }.
Record genesisHashResponse : Type := mkGenesisHash {
  gh_InitialSHA256 : string; gh_FinalSHA256 : string }.
Record allocationRefRequest : Type := mkAllocationRef { ar_URL : string; ar_SHA256 : string }.
Record allocationFileMeta : Type := mkAllocationMeta {
  fm_Type : launch.AllocationType;
  fm_SHA256 : string;
  fm_Status : launch.AllocationFileStatus;
  fm_ApprovedByProposal : option string;
  fm_UploadedAt : time.Time }.

(** ** Proposals (proposal.go) *)
Record signatureEntryJSON : Type := mkSignatureJSON {
  sj_MemberAddress : string; sj_Decision : proposal.Decision; sj_Timestamp : time.Time }.
Record proposalJSON : Type := mkProposalJSON {
  pj_ID : string;
  pj_LaunchID : string;
  pj_ActionType : payload.ActionType;
  pj_Payload : bytes;
  pj_ProposedBy : string;
  pj_ProposedAt : time.Time;
  pj_TTLExpires : time.Time;
  pj_Status : proposal.Status;
  pj_ExecutedAt : option time.Time;
  pj_Signatures : list signatureEntryJSON }.

(** ** Join requests (joinrequest.go) *)
Record joinRequestJSON : Type := mkJoinRequestJSON {
  jj_ID : string;
  jj_SubmitterAddress : string;
  jj_LaunchID : string;
  jj_OperatorAddress : string;
  jj_SelfDelegation : Z; (* in decimal *)
  jj_Moniker : string;
  jj_ConsensusPubKey : string;
  jj_GentxJSON : bytes;
  jj_PeerAddress : string;
  jj_RPCEndpoint : string;
  jj_Memo : string;
  jj_SubmittedAt : time.Time;
  jj_Status : joinrequest.Status;
  jj_RejectionReason : string;
  jj_ApprovedByProposal : option string }.
Record gentxEntry : Type := mkGentxEntry {
  ge_JoinRequestID : string;
  ge_OperatorAddress : string;
  ge_ConsensusPubKey : string;
  ge_Gentx : bytes }.
Record submitterGroupJSON : Type := mkGroupJSON {
  gj_SubmitterAddress : string;
  gj_Label : string;
  gj_RequestCount : Z;
  gj_TotalSelfDelegation : Z; (* in decimal *)
  gj_Requests : list joinRequestJSON }.

(** ** Readiness (readiness.go) *)
Record readinessConfirmJSON : Type := mkConfirmJSON {
  rj_ID : string; rj_LaunchID : string; rj_ConfirmedAt : string }.
Record validatorReadinessJSON : Type := mkValidatorJSON {
  vj_JoinRequestID : string;
  vj_OperatorAddress : string;
  vj_Moniker : string;
  vj_VotingPowerPct : Q;
  vj_IsReady : bool;
  vj_LastConfirmedAt : option time.Time;
  vj_GenesisHashConfirmed : string;
  vj_BinaryHashConfirmed : string }.
Record dashboardJSON : Type := mkDashboardJSON {
  dj_LaunchID : string;
  dj_ChainID : string;
  dj_Status : launch.Status;
  dj_GenesisTime : option time.Time;
  dj_FinalGenesisSHA256 : string;
  dj_TotalApproved : Z;
  dj_ConfirmedReady : Z;
  dj_VotingPowerConfirmed : Q;
  dj_ThresholdStatus : readiness.ThresholdStatus;
  dj_Validators : list validatorReadinessJSON }.
Record peerJSON : Type := mkPeerJSON { pp_OperatorAddress : string; pp_PeerAddress : string }.

(** ** Rehearsals (bridge.go, rehearsal_governance.go) *)
Record rehearsalGentxJSON : Type := mkRehearsalGentx {
  xg_OperatorAddress : string;
  xg_ConsensusPubkey : string;
  xg_Moniker : string;
  xg_SelfDelegation : string;
  xg_Gentx : bytes }.
Record rehearsalAllocJSON : Type := mkRehearsalAlloc {
  xa_SHA256 : string; xa_ApprovedByProposal : string; xa_URL : string }.
Record rehearsalBinaryJSON : Type := mkRehearsalBinary {
  xb_Name : string; xb_Version : string; xb_SHA256 : string; xb_RepoURL : string;
  xb_RepoCommit : string }.
Record rehearsalChainJSON : Type := mkRehearsalChain {
  xc_ChainID : string;
  xc_Bech32Prefix : string;
  xc_Denom : string;
  xc_TotalSupply : string;
  xc_MinSelfDelegation : string;
  xc_MaxCommissionRate : string;
  xc_MaxCommissionChangeRate : string;
  xc_MinValidatorCount : Z;
  xc_GenesisTime : option string;
  xc_Binary : rehearsalBinaryJSON }.
Record rehearsalInputJSON : Type := mkRehearsalInput {
  xi_SchemaVersion : Z;
  xi_LaunchID : string;
  xi_AttemptID : string;
  xi_GeneratedAt : string;
  xi_Status : launch.Status;
  xi_Chain : rehearsalChainJSON;
  xi_Gentxs : list rehearsalGentxJSON;
  xi_Allocations : gmap string rehearsalAllocJSON;
  xi_InputSetHash : string }.
Record rehearsalLeaseConflictJSON : Type := mkLeaseConflict {
  xl_ClaimedBy : string; xl_ClaimedAt : string; xl_LeaseExpiresAt : string }.
Record rehearsalResultAckJSON : Type := mkResultAck {
  xk_LaunchID : string;
  xk_AttemptID : string;
  xk_Outcome : rehearsal.RehearsalOutcome;
  xk_Stale : bool;
  xk_RecordedAt : string }.
Record rehearsalResultStepJSON : Type := mkStepJSON {
  xs_Name : string; xs_Status : string; xs_Detail : string }.
Record rehearsalResultJSON : Type := mkResultJSON {
  xr_AttemptID : string;
  xr_InputSetHash : string;
  xr_Outcome : rehearsal.RehearsalOutcome;
  xr_FailedStep : string;
  xr_Summary : string;
  xr_Steps : list rehearsalResultStepJSON;
  xr_EngineVersion : string;
  xr_BinaryName : string;
  xr_BinaryVersion : string;
  xr_BinarySHA256 : string;
  xr_Validators : Z;
  xr_BlocksAdvanced : Z;
  xr_StartedAt : string;
  xr_FinishedAt : string;
  xr_Stale : bool;
  xr_RecordedAt : string }.

(** ** Sessions and administration (auth.go, admin.go) *)
Record sessionInfoJSON : Type := mkSessionInfo {
  zi_OperatorAddress : string; zi_ExpiresAt : string; zi_IsCoordinator : bool }.
Record coordinatorAllowlistEntryJSON : Type := mkCoordinatorJSON {
  zc_Address : string; zc_AddedBy : string; zc_AddedAt : string }.

(** ** What [writeJSON] is given *)
Inductive payload_json : Type :=
  | VError (e : errorBody)
  | VLaunch (l : launchJSON)
  | VLaunchPage (p : pageEnvelope launchJSON)
  | VChainHint (h : launches.ChainHintOutput)
  | VCommittee (c : committeeJSON)
  | VMember (m : memberJSON)
  | VMembers (l : list memberJSON)
  | VGenesisUpload (sha256 : string)
  | VGenesisHash (h : genesisHashResponse)
  | VAllocationUpload (sha256 : string)
  | VAllocations (l : list allocationFileMeta)
  | VProposal (p : proposalJSON)
  | VProposalPage (p : pageEnvelope proposalJSON)
  | VJoinRequest (r : joinRequestJSON)
  | VJoinRequestPage (p : pageEnvelope joinRequestJSON)
  | VSubmitterGroups (l : list submitterGroupJSON)
  | VGentxs (l : list gentxEntry)
  | VReadinessConfirm (r : readinessConfirmJSON)
  | VDashboard (d : dashboardJSON)
  | VPeers (l : list peerJSON)
  | VRehearsalInput (i : rehearsalInputJSON)
  | VLeaseConflict (c : rehearsalLeaseConflictJSON)
  | VResultAck (a : rehearsalResultAckJSON)
  | VResults (l : list rehearsalResultJSON)
  | VAudit (entries : list AuditEvent)
  | VAuditPubKey (publicKey : string)
  | VChallenge (challenge : string)
  | VToken (token : string)
  | VSessionInfo (i : sessionInfoJSON)
  | VCoordinator (e : coordinatorAllowlistEntryJSON)
  | VCoordinatorPage (p : pageEnvelope coordinatorAllowlistEntryJSON)
  | VLogLevel (level : string)
  | VHealth (status : string).

(** ** Conversions *)
Section conversions.
Context `{UT : UUIDText}.

Definition launchToJSON (l : launch.Launch) : launchJSON :=
  let r := launch.l_Record l in
  mkLaunchJSON (uuid_String (launch.l_ID l))
    (mkChainRecordJSON (launch.r_ChainID r) (launch.r_ChainName r) (launch.r_Bech32Prefix r)
       (launch.r_BinaryName r) (launch.r_BinaryVersion r) (launch.r_BinarySHA256 r)
       (launch.r_RepoURL r) (launch.r_RepoCommit r) (launch.r_GenesisTime r) (launch.r_Denom r)
       (launch.r_MinSelfDelegation r) (launch.r_TotalSupply r)
       (cr_value (launch.r_MaxCommissionRate r)) (cr_value (launch.r_MaxCommissionChangeRate r))
       (launch.r_GentxDeadline r) (launch.r_MinValidatorCount r))
    (launch.l_LaunchType l) (launch.l_Status l) (launch.l_InitialGenesisSHA256 l)
    (launch.l_FinalGenesisSHA256 l) (launch.l_MonitorRPCURL l)
    (launch.l_RehearsalServicePubKey l) (launch.l_RehearsalEndpoint l)
    (launch.l_CreatedAt l) (launch.l_UpdatedAt l).

Definition committeeToJSON (c : launch.Committee) : committeeJSON :=
  mkCommitteeJSON (uuid_String (launch.c_ID c))
    ((λ m, mkMemberJSON (account_String (launch.cm_Address m)) (launch.cm_Moniker m))
       <$> launch.c_Members c)
    (launch.c_ThresholdM c) (launch.c_TotalN c) (account_String (launch.c_LeadAddress c))
    (launch.c_CreatedAt c).

Definition memberToJSON (m : Member) : memberJSON :=
  mkListMemberJSON (account_String (m_Address m)) (m_Label m) (m_AddedBy m)
    (if time.IsZero (m_AddedAt m) then "" else rfc3339.Format (m_AddedAt m)).

(** The loop body of [handleAllocationList]. *)
Definition allocationToJSON (f : launch.AllocationFile) : allocationFileMeta :=
  mkAllocationMeta (launch.af_Type f) (launch.af_SHA256 f) (launch.af_Status f)
    (uuid_String <$> launch.af_ApprovedByProposal f) (launch.af_UploadedAt f).

Definition proposalToJSON (p : proposal.Proposal) : proposalJSON :=
  mkProposalJSON (uuid_String (proposal.p_ID p)) (uuid_String (proposal.p_LaunchID p))
    (proposal.p_ActionType p) (proposal.p_Payload p) (account_String (proposal.p_ProposedBy p))
    (proposal.p_ProposedAt p) (proposal.p_TTLExpires p) (proposal.p_Status p)
    (proposal.p_ExecutedAt p)
    ((λ s, mkSignatureJSON (account_String (proposal.s_MemberAddress s))
             (proposal.s_Decision s) (proposal.s_Timestamp s)) <$> proposal.p_Signatures p).

Definition joinRequestToJSON (jr : joinrequest.JoinRequest) : joinRequestJSON :=
  mkJoinRequestJSON (uuid_String (joinrequest.j_ID jr))
    (account_String (joinrequest.j_SubmitterAddress jr)) (uuid_String (joinrequest.j_LaunchID jr))
    (account_String (joinrequest.j_OperatorAddress jr)) (joinrequest.SelfDelegationAmount jr)
    (joinrequest.Moniker jr) (joinrequest.j_ConsensusPubKey jr) (joinrequest.j_GentxJSON jr)
    (joinrequest.j_PeerAddress jr) (joinrequest.j_RPCEndpoint jr) (joinrequest.j_Memo jr)
    (joinrequest.j_SubmittedAt jr) (joinrequest.j_Status jr) (joinrequest.j_RejectionReason jr)
    (uuid_String <$> joinrequest.j_ApprovedByProposal jr).

(** The loop body of [handleJoinGrouped], with its [int64] total. *)
Definition groupToJSON (g : joinrequests.SubmitterGroup) : submitterGroupJSON :=
  let rs := joinrequests.sg_Requests g in
  mkGroupJSON (account_String (joinrequests.sg_SubmitterAddress g)) (joinrequests.sg_Label g)
    (len rs) (readiness.sum_stake rs) (joinRequestToJSON <$> rs).

(** The loop body of [handleGentxsGet]. *)
Definition gentxToJSON (jr : joinrequest.JoinRequest) : gentxEntry :=
  mkGentxEntry (uuid_String (joinrequest.j_ID jr))
    (account_String (joinrequest.j_OperatorAddress jr)) (joinrequest.j_ConsensusPubKey jr)
    (joinrequest.j_GentxJSON jr).

Definition confirmationToJSON (rc : rehearsal.ReadinessConfirmation) : readinessConfirmJSON :=
  mkConfirmJSON (uuid_String (rehearsal.rd_ID rc)) (uuid_String (rehearsal.rd_LaunchID rc))
    (rfc3339.Format (rehearsal.rd_ConfirmedAt rc)).

(** The two dashboards put together by [handleDashboard]. *)
Definition validatorToJSON (v : readiness.ValidatorReadiness) : validatorReadinessJSON :=
  mkValidatorJSON (uuid_String (readiness.vr_JoinRequestID v)) (readiness.vr_OperatorAddress v)
    (readiness.vr_Moniker v) (readiness.vr_VotingPowerPct v) (readiness.vr_IsReady v)
    (readiness.vr_LastConfirmedAt v) (readiness.vr_GenesisHashConfirmed v)
    (readiness.vr_BinaryHashConfirmed v).
Definition dashboardToJSON (l : launches.LaunchDashboard) (r : readiness.ReadinessDashboard)
    : dashboardJSON :=
  mkDashboardJSON (uuid_String (launches.ld_LaunchID l)) (launches.ld_ChainID l)
    (launches.ld_Status l) (launches.ld_GenesisTime l) (launches.ld_FinalGenesisSHA256 l)
    (readiness.db_TotalApproved r) (readiness.db_ConfirmedReady r)
    (readiness.db_VotingPowerConfirmed r) (readiness.db_ThresholdStatus r)
    (validatorToJSON <$> readiness.db_PerValidator r).

Definition bridgeAllocationURL (launchID allocType : string) : string :=
  ("/api/v1/bridge/launches/" +:+ launchID +:+ "/allocations/" +:+ allocType)%string.
Definition rehearsalInputSchemaVersion : Z := 1.

(** [attemptID] is the field [AttemptID] of the service's input: the claimed
    attempt, or the nil identifier of a preview. *)
Definition rehearsalInputToJSON (i : inputset.RehearsalInput) (attemptID : uuid)
    : rehearsalInputJSON :=
  let c := inputset.ri_Chain i in
  mkRehearsalInput rehearsalInputSchemaVersion (uuid_String (inputset.ri_LaunchID i))
    (uuid_String attemptID) (rfc3339.Format (inputset.ri_GeneratedAt i)) (inputset.ri_Status i)
    (mkRehearsalChain (inputset.rc_ChainID c) (inputset.rc_Bech32Prefix c) (inputset.rc_Denom c)
       (inputset.rc_TotalSupply c) (inputset.rc_MinSelfDelegation c)
       (inputset.rc_MaxCommissionRate c) (inputset.rc_MaxCommissionChangeRate c)
       (inputset.rc_MinValidatorCount c) (rfc3339.Format <$> inputset.rc_GenesisTime c)
       (mkRehearsalBinary (inputset.rc_BinaryName c) (inputset.rc_BinaryVersion c)
          (inputset.rc_BinarySHA256 c) (inputset.rc_RepoURL c) (inputset.rc_RepoCommit c)))
    ((λ g, mkRehearsalGentx (inputset.rg_OperatorAddress g) (inputset.rg_ConsensusPubKey g)
             (inputset.rg_Moniker g) (inputset.rg_SelfDelegation g) (inputset.rg_GentxJSON g))
       <$> inputset.ri_Gentxs i)
    (foldl (λ m a, <[inputset.ra_Type a := mkRehearsalAlloc (inputset.ra_SHA256 a)
                       (inputset.ra_ApprovedByProposal a)
                       (bridgeAllocationURL (uuid_String (inputset.ri_LaunchID i))
                          (inputset.ra_Type a))]> m)
       ∅ (inputset.ri_Allocations i))
    (inputset.ri_InputSetHash i).

Definition leaseToJSON (runner : string) (claimedAt leaseExpiresAt : time.Time)
    : rehearsalLeaseConflictJSON :=
  mkLeaseConflict runner (rfc3339.Format claimedAt) (rfc3339.Format leaseExpiresAt).
Definition ackToJSON (r : rehearsal.RehearsalResult) : rehearsalResultAckJSON :=
  mkResultAck (uuid_String (rehearsal.re_LaunchID r)) (uuid_String (rehearsal.re_AttemptID r))
    (rehearsal.re_Outcome r) (rehearsal.re_Stale r) (rfc3339.Format (rehearsal.re_RecordedAt r)).
Definition rehearsalResultToJSON (r : rehearsal.RehearsalResult) : rehearsalResultJSON :=
  mkResultJSON (uuid_String (rehearsal.re_AttemptID r)) (rehearsal.re_InputSetHash r)
    (rehearsal.re_Outcome r) (rehearsal.re_FailedStep r) (rehearsal.re_Summary r)
    ((λ s, mkStepJSON (rehearsal.st_Name s) (rehearsal.st_Status s) (rehearsal.st_Detail s))
       <$> rehearsal.re_Steps r)
    (rehearsal.re_EngineVersion r) (rehearsal.re_BinaryName r) (rehearsal.re_BinaryVersion r)
    (rehearsal.re_BinarySHA256 r) (rehearsal.re_Validators r) (rehearsal.re_BlocksAdvanced r)
    (rfc3339.Format (rehearsal.re_StartedAt r)) (rfc3339.Format (rehearsal.re_FinishedAt r))
    (rehearsal.re_Stale r) (rfc3339.Format (rehearsal.re_RecordedAt r)).

Definition coordinatorEntryToJSON (e : coordinator_row) : coordinatorAllowlistEntryJSON :=
  mkCoordinatorJSON (co_address e) (co_added_by e) (co_added_at e).
End conversions.

End wire.
