(* ===== verification/Requests.v ===== *)
(** * Decoding request bodies (src/internal/infrastructure/api)

    The [json.NewDecoder(r.Body).Decode] calls of the handlers, one decoder per
    struct, and the conversions that follow them: [parsePatchInput],
    [parseChainRecord], [parseCommittee], [parseOperatorAddresses].

    A slice is decoded into the elements it already has (a repeated key); that
    a slice cut short by one occurrence of the key keeps its old elements for a
    third is not modelled. *)

From S2P Require Import Prelude GoStd GoTime Values LaunchAgg Json Events Payload Proposal.
From S2P Require Import JoinRequest Store World ProposalService LaunchService JoinRequestService.
From S2P Require Import ReadinessService RehearsalService AuthService Wire.
Import json.
#[global] Open Scope Z_scope.

Module requests.
Import wire.

(** ** Field decoders *)
Definition d_int : decoder Z := λ cur rv,
  match rv.2 with
  | JNull => Some cur
  | JNum lit => match strconv.Atoi lit with Ok z => Some z | Err _ => None end
  | _ => None
  end.

(** A pointer: [null] makes it nil, anything else decodes into its target. *)
Definition d_ptr {A} (zero : A) (d : decoder A) : decoder (option A) := λ cur rv,
  match rv.2 with
  | JNull => Some None
  | _ => x ← d (default zero cur) rv; Some (Some x)
  end.

Fixpoint dec_elems {A} (d : decoder A) (zero : A) (cur : list A) (vs : list (string * value))
    : option (list A) :=
  match vs with
  | [] => Some []
  | v :: vs =>
      x ← d (default zero (head cur)) v;
      xs ← dec_elems d zero (tail cur) vs;
      Some (x :: xs)
  end.
Definition d_list {A} (d : decoder A) (zero : A) : decoder (list A) := λ cur rv,
  match rv.2 with
  | JNull => Some []
  | JArr vs => dec_elems d zero cur vs
  | _ => None
  end.
(** A slice whose nil value matters. *)
Definition d_slice {A} (d : decoder A) (zero : A) : decoder (option (list A)) := λ cur rv,
  match rv.2 with
  | JNull => Some None
  | _ => l ← d_list d zero (default [] cur) rv; Some (Some l)
  end.

(** [json.Unmarshal] of a raw value into a variable. *)
Definition Unmarshal {A} (d : decoder A) (zero : A) (raw : string) : option A :=
  v ← parse raw; d zero (raw, v).

(** ** auth.go, admin.go *)
Definition dec_challengeRequest (v : value) : option string :=
  field ["operator_address"%string] "operator_address" d_string "" v.

Definition verify_names : list string :=
  ["operator_address"; "pubkey_b64"; "challenge"; "nonce"; "timestamp"; "signature"].
Definition dec_verify (v : value) : option auth.VerifyChallengeInput :=
  let f n := field verify_names n d_string "" v in
  a ← f "operator_address"%string; k ← f "pubkey_b64"%string; c ← f "challenge"%string;
  n ← f "nonce"%string; t ← f "timestamp"%string; s ← f "signature"%string;
  Some (auth.mkVerify a k c n t s).

Definition dec_addCoordinator (v : value) : option string :=
  field ["address"%string] "address" d_string "" v.
Definition dec_logLevel (v : value) : option string :=
  field ["level"%string] "level" d_string "" v.

(** ** launch.go *)
Definition record_names : list string :=
  ["chain_id"; "chain_name"; "bech32_prefix"; "binary_name"; "binary_version"; "binary_sha256";
   "repo_url"; "repo_commit"; "genesis_time"; "denom"; "min_self_delegation"; "total_supply";
   "max_commission_rate"; "max_commission_change_rate"; "gentx_deadline"; "min_validator_count"].
Definition zero_record : chainRecordJSON :=
  mkChainRecordJSON "" "" "" "" "" "" "" "" None "" "" "" "" "" time.zeroTime 0.
Definition dec_record (cur : chainRecordJSON) (v : value) : option chainRecordJSON :=
  let f n x := field record_names n d_string x v in
  ci ← f "chain_id"%string (cj_ChainID cur);
  cn ← f "chain_name"%string (cj_ChainName cur);
  bp ← f "bech32_prefix"%string (cj_Bech32Prefix cur);
  bn ← f "binary_name"%string (cj_BinaryName cur);
  bv ← f "binary_version"%string (cj_BinaryVersion cur);
  bs ← f "binary_sha256"%string (cj_BinarySHA256 cur);
  ru ← f "repo_url"%string (cj_RepoURL cur);
  rc ← f "repo_commit"%string (cj_RepoCommit cur);
  gt ← field record_names "genesis_time" (d_ptr time.zeroTime payload.d_time)
         (cj_GenesisTime cur) v;
  dn ← f "denom"%string (cj_Denom cur);
  ms ← f "min_self_delegation"%string (cj_MinSelfDelegation cur);
  ts ← f "total_supply"%string (cj_TotalSupply cur);
  mr ← f "max_commission_rate"%string (cj_MaxCommissionRate cur);
  mc ← f "max_commission_change_rate"%string (cj_MaxCommissionChangeRate cur);
  gd ← field record_names "gentx_deadline" payload.d_time (cj_GentxDeadline cur) v;
  mv ← field record_names "min_validator_count" d_int (cj_MinValidatorCount cur) v;
  Some (mkChainRecordJSON ci cn bp bn bv bs ru rc gt dn ms ts mr mc gd mv).

Definition dec_member (cur : committeeMemberJSON) (v : value) : option committeeMemberJSON :=
  a ← field payload.spec_names "address" d_string (mj_Address cur) v;
  m ← field payload.spec_names "moniker" d_string (mj_Moniker cur) v;
  Some (mkMemberJSON a m).
Definition committee_names : list string := ["members"; "threshold_m"; "total_n"; "lead_address"].
Definition zero_committee : committeeRequestJSON := mkCommitteeRequest [] 0 0 "".
(** [committeeRequestJSON], and the struct of [handleCommitteeCreate]. *)
Definition dec_committee (cur : committeeRequestJSON) (v : value)
    : option committeeRequestJSON :=
  ms ← field committee_names "members" (d_list (d_struct dec_member) (mkMemberJSON "" ""))
         (cq_Members cur) v;
  m ← field committee_names "threshold_m" d_int (cq_ThresholdM cur) v;
  n ← field committee_names "total_n" d_int (cq_TotalN cur) v;
  l ← field committee_names "lead_address" d_string (cq_LeadAddress cur) v;
  Some (mkCommitteeRequest ms m n l).

Definition create_names : list string := ["record"; "launch_type"; "allowlist"; "committee"].
Definition dec_createLaunch (v : value) : option createLaunchRequest :=
  r ← field create_names "record" (d_struct dec_record) zero_record v;
  t ← field create_names "launch_type" d_string "" v;
  a ← field create_names "allowlist" (d_list d_string "") [] v;
  c ← field create_names "committee" (d_struct dec_committee) zero_committee v;
  Some (mkCreateLaunch r t a c).

(** ** members.go, genesis.go, allocation.go *)
Definition dec_addMember (v : value) : option addMemberRequest :=
  a ← field ["address"; "label"]%string "address" d_string "" v;
  l ← field ["address"; "label"]%string "label" d_string "" v;
  Some (mkAddMember a l).
Definition genesis_names : list string := ["url"; "sha256"; "genesis_time"].
Definition dec_genesisRef (v : value) : option genesisRefRequest :=
  u ← field genesis_names "url" d_string "" v;
  s ← field genesis_names "sha256" d_string "" v;
  t ← field genesis_names "genesis_time" d_string "" v;
  Some (mkGenesisRef u s t).
Definition dec_allocationRef (v : value) : option allocationRefRequest :=
  u ← field ["url"; "sha256"]%string "url" d_string "" v;
  s ← field ["url"; "sha256"]%string "sha256" d_string "" v;
  Some (mkAllocationRef u s).

(** ** Inputs of the services *)

(** [proposal.ActionType(s)], [proposal.Decision(s)], [launch.LaunchType(s)],
    [joinrequest.Status(s)]; a status the program does not know is [None]. *)
Definition known_actions : list payload.ActionType :=
  [payload.ActionApproveValidator; payload.ActionRejectValidator;
   payload.ActionRemoveApprovedValidator; payload.ActionApproveAllocationFile;
   payload.ActionPublishChainRecord; payload.ActionCloseApplicationWindow;
   payload.ActionPublishGenesis; payload.ActionUpdateGenesisTime;
   payload.ActionReplaceCommitteeMember; payload.ActionReviseGenesis;
   payload.ActionExpandCommittee; payload.ActionShrinkCommittee; payload.ActionCancelLaunch].
Definition ActionType_of_string (s : string) : payload.ActionType :=
  default (payload.ActionOther s)
    (List.find (λ a, bool_decide (payload.ActionType_String a = s)) known_actions).
Definition Decision_of_string (s : string) : proposal.Decision :=
  if bool_decide (s = "SIGN"%string) then proposal.DecisionSign
  else if bool_decide (s = "VETO"%string) then proposal.DecisionVeto
  else proposal.DecisionOther s.
Definition known_types : list launch.LaunchType :=
  [launch.LaunchTypeTestnet; launch.LaunchTypeIncentivizedTestnet; launch.LaunchTypeMainnet;
   launch.LaunchTypePermissioned].
Definition LaunchType_of_string (s : string) : launch.LaunchType :=
  default (launch.LaunchTypeOther s)
    (List.find (λ t, bool_decide (launches.LaunchType_String t = s)) known_types).
Definition Status_of_string (s : string) : option joinrequest.Status :=
  if bool_decide (s = "PENDING"%string) then Some joinrequest.StatusPending
  else if bool_decide (s = "APPROVED"%string) then Some joinrequest.StatusApproved
  else if bool_decide (s = "REJECTED"%string) then Some joinrequest.StatusRejected
  else if bool_decide (s = "EXPIRED"%string) then Some joinrequest.StatusExpired
  else None.

Definition raise_names : list string :=
  ["action_type"; "payload"; "member_address"; "nonce"; "timestamp"; "signature"; "pubkey_b64"].
Definition dec_raise (v : value) : option proposals.RaiseInput :=
  let f n := field raise_names n d_string "" v in
  a ← f "action_type"%string;
  p ← field raise_names "payload" d_raw None v;
  m ← f "member_address"%string; n ← f "nonce"%string; t ← f "timestamp"%string;
  s ← f "signature"%string; k ← f "pubkey_b64"%string;
  Some (proposals.mkRaise (ActionType_of_string a) p m n t s k).

Definition sign_names : list string :=
  ["member_address"; "decision"; "nonce"; "timestamp"; "signature"; "pubkey_b64"].
Definition dec_sign (v : value) : option proposals.SignInput :=
  let f n := field sign_names n d_string "" v in
  m ← f "member_address"%string; d ← f "decision"%string; n ← f "nonce"%string;
  t ← f "timestamp"%string; s ← f "signature"%string; k ← f "pubkey_b64"%string;
  Some (proposals.mkSignInput m (Decision_of_string d) n t s k).

Definition submit_names : list string :=
  ["chain_id"; "operator_address"; "pubkey_b64"; "gentx"; "peer_address"; "rpc_endpoint"; "memo";
   "timestamp"; "nonce"; "signature"].
Definition dec_submit (v : value) : option joinrequests.SubmitInput :=
  let f n := field submit_names n d_string "" v in
  c ← f "chain_id"%string; a ← f "operator_address"%string; k ← f "pubkey_b64"%string;
  g ← field submit_names "gentx" d_raw None v;
  p ← f "peer_address"%string; r ← f "rpc_endpoint"%string; m ← f "memo"%string;
  t ← f "timestamp"%string; n ← f "nonce"%string; s ← f "signature"%string;
  Some (joinrequests.mkSubmit c a k g p r m t n s).

Definition confirm_names : list string :=
  ["operator_address"; "pubkey_b64"; "genesis_hash_confirmed"; "binary_hash_confirmed"; "nonce";
   "timestamp"; "signature"].
Definition dec_confirm (v : value) : option readiness.ConfirmInput :=
  let f n := field confirm_names n d_string "" v in
  a ← f "operator_address"%string; k ← f "pubkey_b64"%string;
  g ← f "genesis_hash_confirmed"%string; b ← f "binary_hash_confirmed"%string;
  n ← f "nonce"%string; t ← f "timestamp"%string; s ← f "signature"%string;
  Some (readiness.mkConfirm a k g b n t s).

Definition dec_claim (v : value) : option string :=
  field ["runner_id"%string] "runner_id" d_string "" v.

Definition step_names : list string := ["name"; "status"; "detail"].
Definition dec_step (cur : bridge.RehearsalResultFactStep) (v : value)
    : option bridge.RehearsalResultFactStep :=
  n ← field step_names "name" d_string (bridge.fs_Name cur) v;
  s ← field step_names "status" d_string (bridge.fs_Status cur) v;
  d ← field step_names "detail" d_string (bridge.fs_Detail cur) v;
  Some (bridge.mkFactStep n s d).
Definition meta_names : list string :=
  ["engine_version"; "binary_name"; "binary_version"; "binary_sha256"; "validators";
   "blocks_advanced"].
Definition dec_meta (cur : bridge.RehearsalResultFactMeta) (v : value)
    : option bridge.RehearsalResultFactMeta :=
  let f n x := field meta_names n d_string x v in
  e ← f "engine_version"%string (bridge.fm_EngineVersion cur);
  b ← f "binary_name"%string (bridge.fm_BinaryName cur);
  w ← f "binary_version"%string (bridge.fm_BinaryVersion cur);
  s ← f "binary_sha256"%string (bridge.fm_BinarySHA256 cur);
  n ← field meta_names "validators" d_int (bridge.fm_Validators cur) v;
  a ← field meta_names "blocks_advanced" d_int (bridge.fm_BlocksAdvanced cur) v;
  Some (bridge.mkFactMeta e b w s n a).
Definition fact_names : list string :=
  ["schema_version"; "launch_id"; "input_set_hash"; "attempt_id"; "outcome"; "failed_step";
   "summary"; "steps"; "rehearsal"; "started_at"; "finished_at"; "service_pubkey"; "signature"].
Definition dec_fact (v : value) : option bridge.RehearsalResultFact :=
  let f n := field fact_names n d_string "" v in
  let ptr n := field fact_names n (d_ptr ""%string d_string) None v in
  sv ← field fact_names "schema_version" d_int 0 v;
  l ← f "launch_id"%string; h ← f "input_set_hash"%string; a ← ptr "attempt_id"%string;
  o ← f "outcome"%string; fs ← ptr "failed_step"%string; su ← f "summary"%string;
  st ← field fact_names "steps" (d_slice (d_struct dec_step) (bridge.mkFactStep "" "" "")) None v;
  m ← field fact_names "rehearsal" (d_struct dec_meta) (bridge.mkFactMeta "" "" "" "" 0 0) v;
  sa ← f "started_at"%string; fa ← f "finished_at"%string; pk ← f "service_pubkey"%string;
  sg ← f "signature"%string;
  Some (bridge.mkFact sv l h a o fs su st m sa fa pk sg).

(** ** Conversions *)
Section conversions.
Context `{B32 : Bech32}.

Fixpoint parseOperatorAddresses (addrs : list string) : result (list AccountID) :=
  match addrs with
  | [] => Ok []
  | a :: rest => addr ← NewAccountID a; out ← parseOperatorAddresses rest; Ok (addr :: out)
  end.

Fixpoint parseMembers (ms : list committeeMemberJSON) : result (list launch.CommitteeMember) :=
  match ms with
  | [] => Ok []
  | m :: rest =>
      addr ← NewAccountID (mj_Address m);
      out ← parseMembers rest;
      Ok (launch.mkCM addr (mj_Moniker m) :: out)
  end.

(** [id] and [now] are the fresh identifier and the clock reading it takes. *)
Definition parseCommittee (body : committeeRequestJSON) (id : uuid) (now : time.Time)
    : result launch.Committee :=
  leadAddr ← NewAccountID (cq_LeadAddress body);
  members ← parseMembers (cq_Members body);
  Ok (launch.mkCommittee id members (cq_ThresholdM body) (cq_TotalN body) leadAddr now).

Definition parseChainRecord (r : chainRecordJSON) : result launch.ChainRecord :=
  maxComm ← NewCommissionRate (cj_MaxCommissionRate r);
  maxCommChange ← NewCommissionRate (cj_MaxCommissionChangeRate r);
  Ok (launch.mkRecord (cj_ChainID r) (cj_ChainName r) (cj_Bech32Prefix r) (cj_BinaryName r)
        (cj_BinaryVersion r) (cj_BinarySHA256 r) (cj_RepoURL r) (cj_RepoCommit r)
        (cj_GenesisTime r) (cj_Denom r) (cj_MinSelfDelegation r) (cj_TotalSupply r)
        maxComm maxCommChange (cj_GentxDeadline r) (cj_MinValidatorCount r)).

(** A key of the raw body: absent, or decoded into a zero variable. *)
Definition raw_field {A} (d : decoder A) (zero : A) (raw : gmap string string) (key : string)
    : result (option A) :=
  match raw !! key with
  | None => Ok None
  | Some v => match Unmarshal d zero v with Some x => Ok (Some x) | None => Err errorf end
  end.
Definition parseStringField (raw : gmap string string) (key : string)
    : result (option string) := raw_field d_string "" raw key.

Definition parsePatchInput (raw : gmap string string) : result launches.PatchLaunchInput :=
  cn ← parseStringField raw "chain_name";
  bv ← parseStringField raw "binary_version";
  bs ← parseStringField raw "binary_sha256";
  ru ← parseStringField raw "repo_url";
  rc ← parseStringField raw "repo_commit";
  mu ← parseStringField raw "monitor_rpc_url";
  ts ← parseStringField raw "total_supply";
  pk ← parseStringField raw "rehearsal_service_pubkey";
  ep ← parseStringField raw "rehearsal_endpoint";
  gt ← raw_field payload.d_time time.zeroTime raw "genesis_time";
  mv ← raw_field d_int 0 raw "min_validator_count";
  al ← raw_field (d_list d_string "") [] raw "allowlist";
  al ← match al with
       | None => Ok None
       | Some addrs => parsed ← parseOperatorAddresses addrs; Ok (Some parsed)
       end;
  Ok (launches.mkPatch cn bv bs ru rc gt mv ts al mu pk ep).
End conversions.

End requests.
