(* ===== verification/Http.v ===== *)
(** * The HTTP layer (infrastructure/api: respond.go, middleware.go, server.go)

    Requests and responses, the monad of the handlers, the mapping of service
    errors to responses, pagination, and the middleware: sessions, the admin
    list, the operations token, JSON bodies, panics, security headers. *)

From S2P Require Import Prelude GoStd GoTime Values Json Payload Store World.
From S2P Require Import ProposalService AuthService Wire.
#[global] Open Scope Z_scope.

Module http.
Import wire.

(** ** Requests and responses *)

(** What the handlers read of an [http.Request]: [Header.Get], [URL.Query().Get],
    [chi.URLParam], the body (and whether reading it ends without an error), the
    request identifier of the logging middleware, and the context value
    [operatorAddrKey]. *)
Record request : Type := mkRequest {
  rq_Method : string;
  rq_Path : string;
  rq_Header : gmap string string;
  rq_Query : gmap string string;
  rq_Params : gmap string string;
  rq_Body : bytes;
  rq_BodyEOF : bool;
  rq_ID : string;
  rq_IP : string;
  rq_Operator : option string }.

Definition get (m : gmap string string) (k : string) : string := default ""%string (m !! k).
Definition URLParam (r : request) (k : string) : string := get (rq_Params r) k.
Definition Query (r : request) (k : string) : string := get (rq_Query r) k.
Definition Header (r : request) (k : string) : string := get (rq_Header r) k.

Definition set_params (m : gmap string string) (r : request) : request :=
  mkRequest (rq_Method r) (rq_Path r) (rq_Header r) (rq_Query r) m (rq_Body r) (rq_BodyEOF r)
    (rq_ID r) (rq_IP r) (rq_Operator r).
Definition set_body (b : bytes) (eof : bool) (r : request) : request :=
  mkRequest (rq_Method r) (rq_Path r) (rq_Header r) (rq_Query r) (rq_Params r) b eof
    (rq_ID r) (rq_IP r) (rq_Operator r).
Definition with_operator (addr : string) (r : request) : request :=
  mkRequest (rq_Method r) (rq_Path r) (rq_Header r) (rq_Query r) (rq_Params r) (rq_Body r)
    (rq_BodyEOF r) (rq_ID r) (rq_IP r) (Some addr).

(** A body is empty, a JSON value, text, a file, or the event stream of a
    launch. *)
Inductive body : Type :=
  | BNone
  | BJSON (v : payload_json)
  | BText (s : string)
  | BFile (data : bytes)
  | BEvents (launchID : string).
Record response : Type := mkResponse {
  rs_Status : Z; rs_Header : list (string * string); rs_Body : body }.

Definition StatusOK : Z := 200.
Definition StatusCreated : Z := 201.
Definition StatusNoContent : Z := 204.
Definition StatusFound : Z := 302.
Definition StatusBadRequest : Z := 400.
Definition StatusUnauthorized : Z := 401.
Definition StatusForbidden : Z := 403.
Definition StatusNotFound : Z := 404.
Definition StatusMethodNotAllowed : Z := 405.
Definition StatusConflict : Z := 409.
Definition StatusRequestEntityTooLarge : Z := 413.
Definition StatusUnsupportedMediaType : Z := 415.
Definition StatusTooManyRequests : Z := 429.
Definition StatusInternalServerError : Z := 500.
Definition StatusServiceUnavailable : Z := 503.

Definition writeJSON (status : Z) (v : payload_json) : response :=
  mkResponse status [("Content-Type", "application/json")]%string (BJSON v).
Definition writeMessage (status : Z) (code : string) (m : message) : response :=
  writeJSON status (VError (mkErrorBody code m "" [])).
Definition writeError (status : Z) (code msg : string) : response :=
  writeMessage status code (Text msg).
(** [w.WriteHeader(http.StatusNoContent)] *)
Definition noContent : response := mkResponse StatusNoContent [] BNone.
(** [http.Redirect(w, r, url, http.StatusFound)] *)
Definition Redirect (url : string) : response :=
  mkResponse StatusFound [("Location", url)]%string BNone.

(** [errors.As(err, &gentxErr)] *)
Fixpoint As_GentxInvalid (e : error) : option (list (string * bool * string)) :=
  match e with
  | SGentxInvalid results :: _ => Some results
  | _ :: e => As_GentxInvalid e
  | [] => None
  end.

Definition writeServiceError (r : request) (e : error) : response :=
  match As_GentxInvalid e with
  | Some results =>
      writeJSON StatusBadRequest (VError (mkErrorBody "gentx_invalid" (ErrorText "" e) ""
        ((λ '(name, ok, reason), mkInvariant name ok reason) <$> results)))
  | None =>
      if errors_Is e ErrNotFound then writeMessage StatusNotFound "not_found" (ErrorText "" e)
      else if errors_Is e ErrConflict then writeMessage StatusConflict "conflict" (ErrorText "" e)
      else if errors_Is e ErrUnauthorized then
        writeMessage StatusUnauthorized "unauthorized" (ErrorText "" e)
      else if errors_Is e ErrForbidden then
        writeMessage StatusForbidden "forbidden" (ErrorText "" e)
      else if errors_Is e ErrBadRequest then
        writeMessage StatusBadRequest "bad_request" (ErrorText "" e)
      else if errors_Is e ErrTooManyRequests then
        writeMessage StatusTooManyRequests "too_many_requests" (ErrorText "" e)
      else writeJSON StatusInternalServerError (VError (mkErrorBody "internal_error"
             (Text "an unexpected error occurred") (rq_ID r) []))
  end.

(** ** The monad of the handlers

    The process is the authentication tables, the world of the services and
    zerolog's global level.  A handler ends with a response, early or at its
    end, a panic, or the exit of the process. *)
Record proc : Type := mkProc { p_auth : authdb; p_world : world; p_level : string }.

Inductive hout (A : Type) : Type := HRet (a : A) | HReply (r : response) | HPanic | HExit.
Arguments HRet {_} _.
Arguments HReply {_} _.
Arguments HPanic {_}.
Arguments HExit {_}.

Definition H (A : Type) : Type := proc → hout A * proc.
#[global] Instance H_ret : MRet H := λ A a p, (HRet a, p).
#[global] Instance H_bind : MBind H := λ A B f m p,
  match m p with
  | (HRet a, p1) => f a p1
  | (HReply r, p1) => (HReply r, p1)
  | (HPanic, p1) => (HPanic, p1)
  | (HExit, p1) => (HExit, p1)
  end.

Definition reply {A} (resp : response) : H A := λ p, (HReply resp, p).
(** [if cond { writeError(...); return }] *)
Definition require (cond : bool) (resp : response) : H unit :=
  if cond then mret tt else reply resp.
Definition get_proc : H proc := λ p, (HRet p, p).
Definition set_level (lvl : string) : H unit := λ p, (HRet tt, mkProc (p_auth p) (p_world p) lvl).

(** A call whose error the handler looks at. *)
Definition attempt {A} (m : AM A) : H (result A) := λ p,
  match m (p_auth p, p_world p) with
  | (Ret a, (d, w)) => (HRet (Ok a), mkProc d w (p_level p))
  | (Fail e, (d, w)) => (HRet (Err e), mkProc d w (p_level p))
  | (Panic, (d, w)) => (HPanic, mkProc d w (p_level p))
  | (Exit, (d, w)) => (HExit, mkProc d w (p_level p))
  end.
(** A call whose error is [writeServiceError]. *)
Definition acall {A} (r : request) (m : AM A) : H A :=
  attempt m ≫= λ x, match x with Ok a => mret a | Err e => reply (writeServiceError r e) end.
Definition call {A} (r : request) (m : M A) : H A := acall r (lift m).

Definition handler : Type := request → H response.

(** ** Reading requests *)
Definition maxJSONBody : Z := 1048576.

(** [http.MaxBytesReader] *)
Definition MaxBytesReader (n : Z) (r : request) : request :=
  if Z.of_nat (String.length (rq_Body r)) <=? n then r
  else set_body (of_chars (take (Z.to_nat n) (chars (rq_Body r)))) false r.

(** [json.NewDecoder(r.Body).Decode(&v)], or 400. *)
Definition decode_or {A} (dec : json.value → option A) (r : request) (resp : response) : H A :=
  match json.Decode dec (rq_Body r) (rq_BodyEOF r) with
  | Ok a => mret a
  | Err _ => reply resp
  end.
Definition decode_body {A} (dec : json.value → option A) (r : request) : H A :=
  decode_or dec r (writeError StatusBadRequest "invalid_body" "request body must be valid JSON").

(** [io.ReadAll(io.LimitReader(r.Body, max+1))]: an error after the limit is
    not seen. *)
Definition read_limited (max : Z) (r : request) : option bytes :=
  if Z.of_nat (String.length (rq_Body r)) <=? max
  then if rq_BodyEOF r then Some (rq_Body r) else None
  else Some (of_chars (take (Z.to_nat (max + 1)) (chars (rq_Body r)))).

Section ids.
Context `{UT : UUIDText}.
(** [uuid.Parse(chi.URLParam(r, key))], or 400. *)
Definition parse_id (r : request) (key msg : string) : H uuid :=
  match uuid_Parse (URLParam r key) with
  | Ok id => mret id
  | Err _ => reply (writeError StatusBadRequest "invalid_id" msg)
  end.
Definition launch_id (r : request) : H uuid :=
  parse_id r "id" "launch id must be a valid UUID".
End ids.

(** ** Pagination *)
Definition defaultPage : Z := 1.
Definition defaultPerPage : Z := 20.
Definition maxPerPage : Z := 100.

Definition positive (r : request) (key msg : string) (dflt : Z) : H Z :=
  let s := Query r key in
  if is_empty s then mret dflt
  else match strconv.Atoi s with
       | Ok v => if v <? 1 then reply (writeError StatusBadRequest "invalid_param" msg)
                 else mret v
       | Err _ => reply (writeError StatusBadRequest "invalid_param" msg)
       end.

Definition parsePagination (r : request) : H (Z * Z) :=
  positive r "page" "page must be a positive integer" defaultPage ≫= λ page,
  positive r "per_page" "per_page must be a positive integer" defaultPerPage ≫= λ v,
  mret (page, if maxPerPage <? v then maxPerPage else v).

(** ** Middleware *)

(** [strings.CutPrefix(hdr, "Bearer ")] and [strings.TrimSpace] *)
Definition bearerToken (r : request) : string :=
  match strings.strip_prefix (chars "Bearer ") (chars (Header r "Authorization")) with
  | Some token => strings.TrimSpace (of_chars token)
  | None => ""
  end.

Definition operatorFromContext (r : request) : string := default ""%string (rq_Operator r).

Section middleware.
Context `{B32 : Bech32} `{O : Oracle} `{J : JWT}.

Definition accountLookupKey (addr : string) : string :=
  match NewAccountID addr with Ok id => account_Hex id | Err _ => addr end.

(** The part [requireAuth] and [requireAdmin] share: the operator of a valid
    session token. *)
Definition session_operator (r : request) : H string :=
  let token := bearerToken r in
  require (negb (is_empty token))
    (writeError StatusUnauthorized "missing_token" "Authorization header required") ≫= λ _,
  attempt (sessions.Validate token) ≫= λ v,
  match v with
  | Ok operatorAddr => mret operatorAddr
  | Err e =>
      if errors_Is e ErrUnauthorized
      then reply (writeError StatusUnauthorized "invalid_token"
                    "session token is invalid or expired")
      else reply (writeError StatusInternalServerError "internal_error"
                    "could not validate session")
  end.

Definition requireAuth (next : handler) : handler := λ r,
  session_operator r ≫= λ operatorAddr, next (with_operator operatorAddr r).

Definition optionalAuth (next : handler) : handler := λ r,
  let token := bearerToken r in
  if is_empty token then next r
  else
    attempt (sessions.Validate token) ≫= λ v,
    match v with
    | Ok operatorAddr => next (with_operator operatorAddr r)
    | Err _ => next r
    end.

Definition requireAdmin (adminAddresses : gset string) (next : handler) : handler := λ r,
  session_operator r ≫= λ operatorAddr,
  require (bool_decide (accountLookupKey operatorAddr ∈ adminAddresses))
    (writeError StatusForbidden "forbidden" "admin access required") ≫= λ _,
  next (with_operator operatorAddr r).

Definition requireOps (rehearsalOpsToken : string) (next : handler) : handler := λ r,
  require (negb (is_empty rehearsalOpsToken))
    (writeError StatusUnauthorized "ops_credential_required" "rehearsal bridge is not enabled")
    ≫= λ _,
  let token := bearerToken r in
  require (negb (is_empty token) && bool_decide (token = rehearsalOpsToken))
    (writeError StatusUnauthorized "invalid_ops_credential" "a valid ops credential is required")
    ≫= λ _,
  next r.

Definition requireJSONBody (next : handler) : handler := λ r,
  require (strings.HasPrefix (Header r "Content-Type") "application/json")
    (writeError StatusUnsupportedMediaType "unsupported_media_type"
       "Content-Type must be application/json") ≫= λ _,
  next (MaxBytesReader maxJSONBody r).

(** A panic becomes a response; a response already sent early is that of the
    request.  Only the exit of the process leaves it without one. *)
Definition recoveryMiddleware (next : handler) (r : request) (p : proc)
    : option response * proc :=
  match next r p with
  | (HRet resp, p1) | (HReply resp, p1) => (Some resp, p1)
  | (HPanic, p1) => (Some (writeError StatusInternalServerError "internal_error"
                             "an unexpected error occurred"), p1)
  | (HExit, p1) => (None, p1)
  end.

Definition securityHeaders (tlsEnabled : bool) : list (string * string) :=
  [("X-Content-Type-Options", "nosniff"); ("X-Frame-Options", "DENY")]%string
    ++ (if tlsEnabled
        then [("Strict-Transport-Security", "max-age=63072000; includeSubDomains")]%string
        else []).
Definition add_headers (h : list (string * string)) (resp : response) : response :=
  mkResponse (rs_Status resp) (h ++ rs_Header resp) (rs_Body resp).
End middleware.

End http.
