(* ===== verification/Handlers.v ===== *)
(** * The HTTP handlers (src/internal/infrastructure/api)

    One function per handler: it reads the request, calls the services and
    answers.  [handleLaunchCreate] draws the identifier and the creation time of
    the committee before it knows whether the committee parses. *)

From S2P Require Import Prelude GoStd GoTime Values LaunchAgg Json Events Payload Proposal.
From S2P Require Import JoinRequest Rehearsal Store World JsonPrint AuditLog FileStore InputSet.
From S2P Require Import ProposalService LaunchService JoinRequestService ReadinessService.
From S2P Require Import RehearsalService AuthService Wire Requests Http.
#[global] Open Scope Z_scope.

(** [ports.AuditLogReader]: the entries of a launch among those appended. *)
Class AuditLogReader : Type := {
  audit_ReadForLaunch : list AuditEvent → string → result (list AuditEvent) }.

Module api.
Import wire requests http.

(** The configuration of [Server], and of the services it holds. *)
Record Server : Type := mkServer {
  sv_corsOrigins : list string;
  sv_adminAddresses : gset string;
  sv_launchPolicy : string;
  sv_genesisHostMode : bool;
  sv_genesisMaxBytes : Z;
  sv_disableRateLimit : bool;
  sv_auditPubKey : option bytes;
  sv_rehearsalOpsToken : string;
  sv_tlsEnabled : bool;
  sv_healthCheck : option (nat → result unit);
  sv_proposals : proposals.Config;
  sv_rehearsalLeaseTTL : time.Duration }.

Definition LaunchPolicyRestricted : string := "restricted".

Section handlers.
Context `{B32 : Bech32} `{NU : NetURL} `{UT : UUIDText} `{CJ : CanonicalJSON}
        `{SVr : SignatureVerifier} `{GV : joinrequests.GentxValidator} `{Ed : Ed25519}
        `{UV : launches.URLValidator} `{O : Oracle} `{J : JWT} `{CS : ChallengeStore}
        `{AL : AuditLogReader}.
Context (s : Server).

Definition operator (r : request) : string := operatorFromContext r.
Definition bad (code msg : string) : response := writeError StatusBadRequest code msg.
Definition ok (v : payload_json) : H response := mret (writeJSON StatusOK v).

(** A failed conversion of the body: 400 with the error's text. *)
Definition field_or {A} (prefix : string) (x : result A) : H A :=
  match x with
  | Ok a => mret a
  | Err e => reply (writeMessage StatusBadRequest "invalid_field" (ErrorText prefix e))
  end.

(** ** launch.go *)
Definition handleLaunchCreate : handler := λ r,
  (if bool_decide (sv_launchPolicy s = LaunchPolicyRestricted) then
     acall r (coordinators.Contains (operator r)) ≫= λ allowed,
     require allowed (writeError StatusForbidden "forbidden"
       "launch creation requires coordinator allowlist membership")
   else mret tt) ≫= λ _,
  decode_body dec_createLaunch r ≫= λ body,
  field_or "" (parseChainRecord (cl_Record body)) ≫= λ record,
  call r NewUUID ≫= λ id,
  call r Now ≫= λ now,
  field_or "" (parseCommittee (cl_Committee body) id now) ≫= λ committee,
  field_or "allowlist: " (parseOperatorAddresses (cl_Allowlist body)) ≫= λ allowlist,
  call r (launches.CreateLaunch (launches.mkCreate record
    (LaunchType_of_string (cl_LaunchType body)) allowlist committee)) ≫= λ l,
  mret (writeJSON StatusCreated (VLaunch (launchToJSON l))).

Definition handleLaunchList : handler := λ r,
  parsePagination r ≫= λ '(page, perPage),
  call r (launches.ListLaunches (operator r) page perPage) ≫= λ '(items, total),
  ok (VLaunchPage (mkPage (launchToJSON <$> items) total page perPage)).

Definition handleLaunchGet : handler := λ r,
  launch_id r ≫= λ id,
  call r (launches.GetLaunch id (operator r)) ≫= λ l,
  ok (VLaunch (launchToJSON l)).

Definition handleLaunchPatch : handler := λ r,
  launch_id r ≫= λ id,
  decode_body json.raw_map r ≫= λ raw,
  field_or "" (parsePatchInput raw) ≫= λ input,
  call r (launches.PatchLaunch id input (operator r)) ≫= λ l,
  ok (VLaunch (launchToJSON l)).

Definition handleLaunchAction (action : uuid → string → M unit) : handler := λ r,
  launch_id r ≫= λ id,
  call r (action id (operator r)) ≫= λ _,
  call r (launches.GetLaunch id (operator r)) ≫= λ l,
  ok (VLaunch (launchToJSON l)).
Definition handleOpenWindow : handler := handleLaunchAction launches.OpenWindow.
Definition handleLaunchCancel : handler := handleLaunchAction launches.CancelLaunch.

Definition handleChainHint : handler := λ r,
  launch_id r ≫= λ id,
  call r (launches.GetChainHint id (operator r)) ≫= λ hint,
  ok (VChainHint hint).

(** ** committee.go *)
Fixpoint committee_members (i : Z) (ms : list committeeMemberJSON)
    : H (list launch.CommitteeMember) :=
  match ms with
  | [] => mret []
  | m :: rest =>
      field_or ("members[" +:+ of_chars (jsonenc.print_int i) +:+ "]: address: ")%string
        (NewAccountID (mj_Address m)) ≫= λ addr,
      committee_members (i + 1) rest ≫= λ members,
      mret (launch.mkCM addr (mj_Moniker m) :: members)
  end.

Definition handleCommitteeCreate : handler := λ r,
  launch_id r ≫= λ launchID,
  decode_body (dec_committee zero_committee) r ≫= λ body,
  field_or "lead_address: " (NewAccountID (cq_LeadAddress body)) ≫= λ leadAddr,
  committee_members 0 (cq_Members body) ≫= λ members,
  call r NewUUID ≫= λ id,
  call r Now ≫= λ now,
  let committee := launch.mkCommittee id members (cq_ThresholdM body) (cq_TotalN body)
                     leadAddr now in
  call r (launches.SetCommittee launchID committee (operator r)) ≫= λ _,
  ok (VCommittee (committeeToJSON committee)).

Definition handleCommitteeGet : handler := λ r,
  parse_id r "id" "id must be a valid launch UUID" ≫= λ launchID,
  call r (launches.GetCommittee launchID (operator r)) ≫= λ committee,
  ok (VCommittee (committeeToJSON committee)).

(** ** members.go *)
Definition handleMemberAdd : handler := λ r,
  launch_id r ≫= λ launchID,
  decode_body dec_addMember r ≫= λ body,
  require (negb (is_empty (am_Address body))) (bad "invalid_param" "address is required") ≫= λ _,
  call r (launches.AddMember launchID (am_Address body) (am_Label body) (operator r)) ≫= λ m,
  mret (writeJSON StatusCreated (VMember (memberToJSON m))).

Definition handleMemberRemove : handler := λ r,
  launch_id r ≫= λ launchID,
  let address := URLParam r "address" in
  require (negb (is_empty address))
    (bad "invalid_param" "address path parameter is required") ≫= λ _,
  call r (launches.RemoveMember launchID address (operator r)) ≫= λ _,
  mret noContent.

Definition handleMemberList : handler := λ r,
  launch_id r ≫= λ launchID,
  call r (launches.ListMembers launchID (operator r)) ≫= λ members,
  ok (VMembers (memberToJSON <$> members)).

(** ** genesis.go *)
Definition genesisTypeInitial : string := "initial".
Definition genesisTypeFinal : string := "final".
Definition is_json (r : request) : bool :=
  strings.HasPrefix (Header r "Content-Type") "application/json".

Definition handleGenesisUploadRef (id : uuid) (genesisType callerAddr : string) : handler := λ r,
  decode_body dec_genesisRef (MaxBytesReader maxJSONBody r) ≫= λ req,
  require (negb (is_empty (gr_URL req))) (bad "missing_url" "url is required") ≫= λ _,
  require (negb (is_empty (gr_SHA256 req))) (bad "missing_sha256" "sha256 is required") ≫= λ _,
  (if bool_decide (genesisType = genesisTypeFinal) then
     require (negb (is_empty (gr_GenesisTime req)))
       (bad "missing_genesis_time" "genesis_time is required for final genesis refs") ≫= λ _,
     match rfc3339.Parse (gr_GenesisTime req) with
     | Err _ => reply (bad "invalid_genesis_time"
         "genesis_time must be an RFC 3339 timestamp (e.g. 2026-06-01T12:00:00Z)")
     | Ok gt =>
         call r (launches.UploadFinalGenesisRef id (gr_URL req) (gr_SHA256 req) gt callerAddr)
     end
   else call r (launches.UploadInitialGenesisRef id (gr_URL req) (gr_SHA256 req) callerAddr))
    ≫= λ _,
  ok (VGenesisUpload (gr_SHA256 req)).

Definition quoted (t : string) : string :=
  String (ascii_of_nat 34) (t +:+ String (ascii_of_nat 34) "").
Definition ref_body : string :=
  "POST with Content-Type application/json and body {" +:+ quoted "url" +:+ ":" +:+ quoted "..."
    +:+ "," +:+ quoted "sha256" +:+ ":" +:+ quoted "..." +:+ "}".

(** The body of a raw upload: host mode on, within the limit, not empty. *)
Definition upload_body (disabled too_large empty : string) (r : request) : H bytes :=
  require (sv_genesisHostMode s) (bad "host_mode_disabled" disabled) ≫= λ _,
  match read_limited (sv_genesisMaxBytes s) r with
  | None => reply (bad "read_error" "could not read request body")
  | Some data =>
      require (Z.of_nat (String.length data) <=? sv_genesisMaxBytes s)
        (writeError StatusRequestEntityTooLarge "too_large" too_large) ≫= λ _,
      require (negb (is_empty data)) (bad "empty_body" empty) ≫= λ _,
      mret data
  end.

Definition handleGenesisUploadBytes (id : uuid) (genesisType callerAddr : string) : handler :=
  λ r,
  upload_body ("raw genesis file uploads are disabled; use attestor mode: " +:+ ref_body)
    "genesis file exceeds the maximum allowed size" "genesis file must not be empty" r
    ≫= λ data,
  (if bool_decide (genesisType = genesisTypeFinal)
   then call r (launches.UploadFinalGenesis id data callerAddr)
   else call r (launches.UploadInitialGenesis id data callerAddr)) ≫= λ hash,
  ok (VGenesisUpload hash).

Definition handleGenesisUpload : handler := λ r,
  launch_id r ≫= λ id,
  if is_json r then handleGenesisUploadRef id (Query r "type") (operator r) r
  else handleGenesisUploadBytes id (Query r "type") (operator r) r.

(** A stored file: the external address, or the bytes at the local path
    ([os.Open] finds bytes at every path a store hands out). *)
Definition serve_ref (contentType missing : string) (gr : fs.StoredFileRef) : handler := λ r,
  if negb (is_empty (fs.ExternalURL gr)) then mret (Redirect (fs.ExternalURL gr))
  else
    match fs.LocalPath gr with
    | Some path =>
        get_proc ≫= λ p,
        match w_files (p_world p) !! path with
        | Some (RawBytes data) =>
            mret (mkResponse StatusOK [("Content-Type"%string, contentType)] (BFile data))
        | _ => reply (writeError StatusNotFound "not_found" missing)
        end
    | None => reply (writeServiceError r errorf)
    end.

Definition genesis_ref (l : launch.Launch) (id : string) (r : request) : H fs.StoredFileRef :=
  let type := Query r "type" in
  let final := launch.l_FinalGenesisSHA256 l in
  if bool_decide (type = genesisTypeInitial) then call r (fs.GetInitialRef id)
  else if bool_decide (type = genesisTypeFinal) then
    require (negb (is_empty final)) (writeError StatusNotFound "not_found"
      "no final genesis has been published for this launch") ≫= λ _,
    call r (fs.GetFinalRef id)
  else if is_empty type then
    (if negb (is_empty final) then call r (fs.GetFinalRef id) else call r (fs.GetInitialRef id))
  else reply (bad "invalid_type" "type must be 'initial' or 'final'").

Definition handleGenesisGet : handler := λ r,
  launch_id r ≫= λ id,
  call r (launches.GetLaunch id (operator r)) ≫= λ l,
  require (negb (is_empty (launch.l_InitialGenesisSHA256 l)))
    (writeError StatusNotFound "not_found" "no genesis file has been uploaded for this launch")
    ≫= λ _,
  genesis_ref l (uuid_String id) r ≫= λ gr,
  serve_ref "application/json" "genesis file not found on disk" gr r.

Definition handleGenesisHashGet : handler := λ r,
  launch_id r ≫= λ id,
  call r (launches.GetLaunch id (operator r)) ≫= λ l,
  ok (VGenesisHash (mkGenesisHash (launch.l_InitialGenesisSHA256 l)
                      (launch.l_FinalGenesisSHA256 l))).

(** ** allocation.go *)
Definition handleAllocationUploadRef (id : uuid) (allocType callerAddr : string) : handler := λ r,
  decode_body dec_allocationRef (MaxBytesReader maxJSONBody r) ≫= λ req,
  require (negb (is_empty (ar_URL req))) (bad "missing_url" "url is required") ≫= λ _,
  require (negb (is_empty (ar_SHA256 req))) (bad "missing_sha256" "sha256 is required") ≫= λ _,
  call r (launches.UploadAllocationFileRef id allocType (ar_URL req) (ar_SHA256 req) callerAddr)
    ≫= λ _,
  ok (VAllocationUpload (ar_SHA256 req)).

Definition handleAllocationUploadBytes (id : uuid) (allocType callerAddr : string) : handler :=
  λ r,
  upload_body ("raw allocation file uploads are disabled; use attestor mode: " +:+ ref_body)
    "allocation file exceeds the maximum allowed size" "allocation file must not be empty" r
    ≫= λ data,
  call r (launches.UploadAllocationFileBytes id allocType data callerAddr) ≫= λ hash,
  ok (VAllocationUpload hash).

Definition handleAllocationUpload : handler := λ r,
  launch_id r ≫= λ id,
  if is_json r then handleAllocationUploadRef id (URLParam r "type") (operator r) r
  else handleAllocationUploadBytes id (URLParam r "type") (operator r) r.

Definition handleAllocationList : handler := λ r,
  launch_id r ≫= λ id,
  call r (launches.GetLaunch id (operator r)) ≫= λ l,
  ok (VAllocations (allocationToJSON <$> launch.l_AllocationFiles l)).

Definition serveAllocationRef (launchID allocType : string) : handler := λ r,
  call r (fs.AllocGetRef launchID allocType) ≫= λ ref,
  serve_ref "application/octet-stream" "allocation file not found on disk" ref r.

Definition handleAllocationGet : handler := λ r,
  launch_id r ≫= λ id,
  call r (launches.GetLaunch id (operator r)) ≫= λ _,
  serveAllocationRef (uuid_String id) (URLParam r "type") r.

(** ** proposal.go *)
Definition act_as_self (addr : string) (r : request) : H unit :=
  require (bool_decide (addr = operator r))
    (writeError StatusForbidden "forbidden"
       "member_address must match the authenticated session").

Definition handleProposalRaise : handler := λ r,
  launch_id r ≫= λ launchID,
  decode_body dec_raise r ≫= λ input,
  act_as_self (proposals.ra_MemberAddr input) r ≫= λ _,
  call r (proposals.Raise (sv_proposals s) launchID input) ≫= λ p,
  mret (writeJSON StatusCreated (VProposal (proposalToJSON p))).

Definition handleProposalList : handler := λ r,
  launch_id r ≫= λ launchID,
  parsePagination r ≫= λ '(page, perPage),
  call r (proposals.ListForLaunch launchID page perPage) ≫= λ '(items, total),
  ok (VProposalPage (mkPage (proposalToJSON <$> items) total page perPage)).

Definition prop_id (r : request) : H uuid :=
  parse_id r "prop_id" "prop_id must be a valid UUID".

Definition handleProposalGet : handler := λ r,
  launch_id r ≫= λ launchID,
  prop_id r ≫= λ propID,
  call r (proposals.GetByID launchID propID) ≫= λ p,
  ok (VProposal (proposalToJSON p)).

Definition handleProposalSign : handler := λ r,
  launch_id r ≫= λ launchID,
  prop_id r ≫= λ propID,
  decode_body dec_sign r ≫= λ input,
  act_as_self (proposals.si_MemberAddr input) r ≫= λ _,
  call r (proposals.Sign (sv_proposals s) launchID propID input) ≫= λ p,
  ok (VProposal (proposalToJSON p)).

(** ** joinrequest.go *)
Definition maxGentxDownloadCount : Z := 10000.

Definition committee_only (launchID : uuid) (msg : string) (r : request) : H unit :=
  call r (launches.IsCommitteeMember launchID (operator r)) ≫= λ isCommitteeMember,
  require isCommitteeMember (writeError StatusForbidden "forbidden" msg).

Definition handleJoinSubmit : handler := λ r,
  launch_id r ≫= λ launchID,
  decode_body dec_submit r ≫= λ input,
  call r (joinrequests.Submit launchID input) ≫= λ jr,
  mret (writeJSON StatusCreated (VJoinRequest (joinRequestToJSON jr))).

(** [WHERE status = ?] with a status no row has selects nothing. *)
Definition list_with_status (launchID : uuid) (status : string) (page perPage : Z)
    : M (list joinrequest.JoinRequest * Z) :=
  if is_empty status then joinrequests.ListForLaunch launchID None page perPage
  else
    match Status_of_string status with
    | Some st => joinrequests.ListForLaunch launchID (Some st) page perPage
    | None => mret ([], 0)
    end.

Definition handleJoinList : handler := λ r,
  launch_id r ≫= λ launchID,
  committee_only launchID "only committee members may list join requests" r ≫= λ _,
  parsePagination r ≫= λ '(page, perPage),
  call r (list_with_status launchID (Query r "status") page perPage) ≫= λ '(items, total),
  ok (VJoinRequestPage (mkPage (joinRequestToJSON <$> items) total page perPage)).

Definition handleJoinGrouped : handler := λ r,
  launch_id r ≫= λ launchID,
  call r (joinrequests.ListGroupedBySubmitter launchID (operator r)) ≫= λ groups,
  ok (VSubmitterGroups (groupToJSON <$> groups)).

Definition handleGentxsGet : handler := λ r,
  launch_id r ≫= λ launchID,
  committee_only launchID "only committee members may download gentxs" r ≫= λ _,
  call r (joinrequests.ListForLaunch launchID (Some joinrequest.StatusApproved) 1
            maxGentxDownloadCount) ≫= λ '(items, _),
  ok (VGentxs (gentxToJSON <$> items)).

Definition handleJoinGet : handler := λ r,
  launch_id r ≫= λ launchID,
  parse_id r "req_id" "req_id must be a valid UUID" ≫= λ reqID,
  call r (launches.IsCommitteeMember launchID (operator r)) ≫= λ isCommitteeMember,
  call r (joinrequests.GetByID reqID (operator r) isCommitteeMember) ≫= λ jr,
  ok (VJoinRequest (joinRequestToJSON jr)).

(** ** readiness.go *)
Definition handleReadinessConfirm : handler := λ r,
  launch_id r ≫= λ launchID,
  decode_body dec_confirm r ≫= λ input,
  call r (readiness.Confirm launchID input) ≫= λ rc,
  mret (writeJSON StatusCreated (VReadinessConfirm (confirmationToJSON rc))).

Definition handleDashboard : handler := λ r,
  launch_id r ≫= λ launchID,
  call r (launches.GetDashboard launchID (operator r)) ≫= λ launchDash,
  call r (readiness.GetDashboard launchID) ≫= λ readinessDash,
  ok (VDashboard (dashboardToJSON launchDash readinessDash)).

Fixpoint join_commas (l : list string) : string :=
  match l with
  | [] => ""
  | [a] => a
  | a :: l => a +:+ "," +:+ join_commas l
  end.

Definition handlePeers : handler := λ r,
  launch_id r ≫= λ launchID,
  call r (launches.GetLaunch launchID (operator r)) ≫= λ _,
  call r (readiness.GetPeers launchID) ≫= λ peers,
  if bool_decide (Query r "format" = "text"%string)
  then mret (mkResponse StatusOK [("Content-Type", "text/plain; charset=utf-8")]%string
               (BText (join_commas (peers.*2))))
  else ok (VPeers ((λ p, mkPeerJSON p.1 p.2) <$> peers)).

(** ** rehearsal_governance.go *)
Definition handleRehearsalResultsList : handler := λ r,
  launch_id r ≫= λ launchID,
  call r (bridge.ListRehearsalResults launchID (operator r)) ≫= λ results,
  ok (VResults (rehearsalResultToJSON <$> results)).

Definition handleRehearsalReset : handler := λ r,
  launch_id r ≫= λ launchID,
  parse_id r "attempt_id" "attempt id must be a valid UUID" ≫= λ attemptID,
  call r (bridge.ResetRehearsalAttempt launchID attemptID (operator r)) ≫= λ _,
  mret noContent.

(** ** bridge.go *)
Definition handleRehearsalInput : handler := λ r,
  launch_id r ≫= λ launchID,
  call r (bridge.PreviewRehearsalInput launchID) ≫= λ in_,
  ok (VRehearsalInput (rehearsalInputToJSON in_ uuid_Nil)).

(** [errors.As(err, &leased)] *)
Fixpoint As_RehearsalLeased (e : error) : option (string * time.Time * time.Time) :=
  match e with
  | SRehearsalLeased runner claimedAt expires :: _ => Some (runner, claimedAt, expires)
  | _ :: e => As_RehearsalLeased e
  | [] => None
  end.

Definition handleRehearsalClaim : handler := λ r,
  launch_id r ≫= λ launchID,
  decode_or dec_claim r (bad "invalid_body" "claim request must be valid JSON") ≫= λ runnerID,
  require (negb (is_empty runnerID)) (bad "invalid_body" "runner_id is required") ≫= λ _,
  attempt (lift (bridge.ClaimRehearsalRun (sv_rehearsalLeaseTTL s) launchID runnerID)) ≫= λ x,
  match x with
  | Ok (in_, attemptID) => ok (VRehearsalInput (rehearsalInputToJSON in_ attemptID))
  | Err e =>
      match As_RehearsalLeased e with
      | Some (runner, claimedAt, expires) =>
          reply (writeJSON StatusConflict (VLeaseConflict (leaseToJSON runner claimedAt expires)))
      | None => reply (writeServiceError r e)
      end
  end.

Definition handleBridgeAllocationGet : handler := λ r,
  launch_id r ≫= λ id, serveAllocationRef (uuid_String id) (URLParam r "type") r.

Definition handleRehearsalResults : handler := λ r,
  launch_id r ≫= λ launchID,
  decode_or dec_fact r (bad "invalid_body" "result fact must be valid JSON") ≫= λ fact,
  call r (bridge.RecordRehearsalResult launchID fact) ≫= λ res,
  ok (VResultAck (ackToJSON res)).

(** ** auth.go *)
Definition handleAuthChallenge : handler := λ r,
  decode_body dec_challengeRequest r ≫= λ operatorAddress,
  require (negb (is_empty operatorAddress))
    (bad "missing_field" "operator_address is required") ≫= λ _,
  acall r (auth.IssueChallenge operatorAddress) ≫= λ challenge,
  ok (VChallenge challenge).

Definition handleAuthVerify : handler := λ r,
  decode_body dec_verify r ≫= λ input,
  attempt (auth.VerifyChallenge input) ≫= λ x,
  match x with
  | Ok token => ok (VToken token)
  | Err e => reply (writeMessage StatusUnauthorized "auth_failed" (ErrorText "" e))
  end.

Definition missing_token : response :=
  writeError StatusUnauthorized "missing_token" "Authorization header required".

Definition handleAuthRevoke : handler := λ r,
  require (negb (is_empty (bearerToken r))) missing_token ≫= λ _,
  acall r (auth.RevokeSession (bearerToken r)) ≫= λ _,
  mret noContent.

(** The layout of [expires_at] is RFC 3339 in seconds, in UTC. *)
Definition handleAuthSessionInfo : handler := λ r,
  require (negb (is_empty (bearerToken r))) missing_token ≫= λ _,
  attempt (auth.GetSessionInfo (bearerToken r)) ≫= λ x,
  match x with
  | Err _ => reply (writeError StatusUnauthorized "invalid_token" "token is invalid or expired")
  | Ok (addr, expiresAt) =>
      attempt (coordinators.Contains addr) ≫= λ c,
      ok (VSessionInfo (mkSessionInfo addr (rfc3339.Format expiresAt)
            (match c with Ok isCoordinator => isCoordinator | Err _ => false end)))
  end.

Definition handleAuthRevokeAll : handler := λ r,
  acall r (auth.RevokeAllSessions (operator r) (operator r)) ≫= λ _,
  mret noContent.

Definition handleAdminRevokeAllSessions : handler := λ r,
  let address := URLParam r "address" in
  require (negb (is_empty address)) (bad "missing_param" "address is required") ≫= λ _,
  acall r (auth.RevokeAllSessions address (operator r)) ≫= λ _,
  mret noContent.

(** ** admin.go *)
Definition handleCoordinatorAdd : handler := λ r,
  decode_body dec_addCoordinator r ≫= λ address,
  require (negb (is_empty address)) (bad "invalid_param" "address is required") ≫= λ _,
  acall r (coordinators.Add address (operator r)) ≫= λ _,
  mret (writeJSON StatusCreated (VCoordinator
    (mkCoordinatorJSON (accountLookupKey address) (operator r) ""))).

Definition handleCoordinatorRemove : handler := λ r,
  let address := URLParam r "address" in
  require (negb (is_empty address))
    (bad "invalid_param" "address path parameter is required") ≫= λ _,
  acall r (coordinators.Remove address (operator r)) ≫= λ _,
  mret noContent.

Definition handleCoordinatorList : handler := λ r,
  parsePagination r ≫= λ '(page, perPage),
  acall r (coordinators.List page perPage) ≫= λ '(entries, total),
  ok (VCoordinatorPage (mkPage (coordinatorEntryToJSON <$> entries) total page perPage)).

Definition settableLogLevels : list string := ["trace"; "debug"; "info"; "warn"; "error"].

Definition handleLogLevelGet : handler := λ r,
  get_proc ≫= λ p, ok (VLogLevel (p_level p)).

Definition handleLogLevelSet : handler := λ r,
  decode_body dec_logLevel r ≫= λ lvl,
  let level := strings.ToLower (strings.TrimSpace lvl) in
  require (bool_decide (level ∈ settableLogLevels))
    (bad "invalid_param" "level must be one of: trace, debug, info, warn, error") ≫= λ _,
  set_level level ≫= λ _,
  ok (VLogLevel level).

(** ** audit.go, events.go, server.go *)
Definition handleAudit : handler := λ r,
  launch_id r ≫= λ launchID,
  call r (launches.GetLaunch launchID (operator r)) ≫= λ _,
  get_proc ≫= λ p,
  match audit_ReadForLaunch (w_audit (p_world p)) (uuid_String launchID) with
  | Ok entries => ok (VAudit entries)
  | Err e => reply (writeServiceError r e)
  end.

Definition handleAuditPubKey : handler := λ r,
  match sv_auditPubKey s with
  | None => reply (writeError StatusServiceUnavailable "no_audit_key"
              "server has no audit signing key configured")
  | Some key => ok (VAuditPubKey (base64.EncodeToString key))
  end.

(** Up to the subscription; the stream that follows is in [Broker].  The writers
    of net/http flush, so the [sse_unsupported] branch is dead. *)
Definition handleEvents : handler := λ r,
  launch_id r ≫= λ launchID,
  call r (launches.GetLaunch launchID (operator r)) ≫= λ _,
  mret (mkResponse StatusOK
    [("Content-Type", "text/event-stream"); ("Cache-Control", "no-cache");
     ("Connection", "keep-alive"); ("X-Accel-Buffering", "no")]%string
    (BEvents (uuid_String launchID))).

Definition handleHealthz : handler := λ r,
  get_proc ≫= λ p,
  match sv_healthCheck s with
  | Some check =>
      match check (w_tick (p_world p)) with
      | Ok _ => ok (VHealth "ok")
      | Err _ => reply (writeJSON StatusServiceUnavailable (VHealth "unavailable"))
      end
  | None => ok (VHealth "ok")
  end.
End handlers.
End api.
