(* ===== verification/Server.v ===== *)
(** * The server (src/internal/infrastructure/api/server.go)

    The routes with the middleware of each, as they are registered, and the
    outermost handler.  Matching a path against the patterns is go-chi's, and
    counting requests per address is httprate's: both are classes.  The CORS,
    logging and metrics handlers are third-party code around these routes and
    are left out. *)

From S2P Require Import Prelude GoStd GoTime Values LaunchAgg Payload JoinRequest Store World.
From S2P Require Import AuditLog LaunchService JoinRequestService AuthService.
From S2P Require Import ProposalService Wire Requests Http Handlers.
#[global] Open Scope Z_scope.

(** github.com/go-chi/chi: which of the (method, pattern) entries serves a
    request, and the values of its URL parameters. *)
Inductive route_match : Type :=
  | Matched (i : nat) (params : gmap string string)
  | NoRoute
  | NoMethod.
Class Router : Type := { chi_match : list (string * string) → string → string → route_match }.

(** github.com/go-chi/httprate: whether a request from an address is within the
    limit, at a reading of the clock. *)
Class HTTPRate : Type := { httprate_allows : Z → time.Duration → string → nat → bool }.

Module server.
Import wire requests http api.

Record route : Type := mkRoute {
  rt_Method : string; rt_Pattern : string; rt_Handler : handler }.
Definition Get : string → handler → route := mkRoute "GET".
Definition Post : string → handler → route := mkRoute "POST".
Definition Patch : string → handler → route := mkRoute "PATCH".
Definition Delete : string → handler → route := mkRoute "DELETE".

Definition challengeRatePerMin : Z := 10.
Definition validatorRatePerMin : Z := 60.

(** ** Construction *)

Definition cors_origins (csv : string) : list string :=
  if is_empty csv then []
  else List.filter (λ o, negb (is_empty o)) (strings.TrimSpace <$> strings.SplitCommas csv).

Definition NewServer `{B32 : Bech32} (corsOriginsCSV : string) (adminAddresses : list string)
    (auditPubKey : option bytes) (launchPolicy : string) (genesisHostMode : bool)
    (genesisMaxBytes : Z) (disableRateLimit : bool) (rehearsalOpsToken : string)
    (proposals : proposals.Config) (rehearsalLeaseTTL : time.Duration) : Server :=
  mkServer (cors_origins corsOriginsCSV) (list_to_set (accountLookupKey <$> adminAddresses))
    launchPolicy genesisHostMode genesisMaxBytes disableRateLimit auditPubKey rehearsalOpsToken
    false None proposals rehearsalLeaseTTL.

Definition WithTLS (s : Server) (enabled : bool) : Server :=
  mkServer (sv_corsOrigins s) (sv_adminAddresses s) (sv_launchPolicy s) (sv_genesisHostMode s)
    (sv_genesisMaxBytes s) (sv_disableRateLimit s) (sv_auditPubKey s) (sv_rehearsalOpsToken s)
    enabled (sv_healthCheck s) (sv_proposals s) (sv_rehearsalLeaseTTL s).
Definition WithHealthCheck (s : Server) (check : nat → result unit) : Server :=
  mkServer (sv_corsOrigins s) (sv_adminAddresses s) (sv_launchPolicy s) (sv_genesisHostMode s)
    (sv_genesisMaxBytes s) (sv_disableRateLimit s) (sv_auditPubKey s) (sv_rehearsalOpsToken s)
    (sv_tlsEnabled s) (Some check) (sv_proposals s) (sv_rehearsalLeaseTTL s).

Section server.
Context `{B32 : Bech32} `{NU : NetURL} `{UT : UUIDText} `{CJ : CanonicalJSON}
        `{SVr : SignatureVerifier} `{GV : joinrequests.GentxValidator} `{Ed : Ed25519}
        `{UV : launches.URLValidator} `{O : Oracle} `{J : JWT} `{CS : ChallengeStore}
        `{AL : AuditLogReader} `{Rt : Router} `{HR : HTTPRate}.
Context (s : Server).

Definition LimitByIP (n : Z) (next : handler) : handler := λ r,
  get_proc ≫= λ p,
  require (httprate_allows n time.Minute (rq_IP r) (w_tick (p_world p)))
    (mkResponse StatusTooManyRequests [] (BText "Too Many Requests")) ≫= λ _,
  next r.

Definition jsonPOST (h : handler) : handler := requireAuth (requireJSONBody h).
Definition jsonAdminPOST (h : handler) : handler :=
  requireAdmin (sv_adminAddresses s) (requireJSONBody h).
Definition requireJSONPOST (h : handler) : handler := requireJSONBody h.
Definition admin (h : handler) : handler := requireAdmin (sv_adminAddresses s) h.
Definition ops (h : handler) : handler := requireOps (sv_rehearsalOpsToken s) h.
Definition limited (n : Z) (h : handler) : handler :=
  if sv_disableRateLimit s then h else LimitByIP n h.

Definition registerAPIRoutes : list route :=
  [ Get "/audit/pubkey" (handleAuditPubKey s);
    Post "/admin/coordinators" (jsonAdminPOST handleCoordinatorAdd);
    Delete "/admin/coordinators/{address}" (admin handleCoordinatorRemove);
    Get "/admin/coordinators" (admin handleCoordinatorList);
    Delete "/admin/sessions/{address}" (admin handleAdminRevokeAllSessions);
    Get "/admin/log-level" (admin handleLogLevelGet);
    Post "/admin/log-level" (jsonAdminPOST handleLogLevelSet);
    Post "/auth/challenge" (limited challengeRatePerMin (requireJSONPOST handleAuthChallenge));
    Post "/auth/verify" (requireJSONPOST handleAuthVerify);
    Delete "/auth/session" handleAuthRevoke;
    Get "/auth/session" handleAuthSessionInfo;
    Delete "/auth/sessions/all" (requireAuth handleAuthRevokeAll);
    Post "/launch/{id}/committee" (jsonPOST handleCommitteeCreate);
    Get "/launch/{id}/committee" (optionalAuth handleCommitteeGet);
    Post "/launch" (jsonPOST (handleLaunchCreate s));
    Get "/launches" (optionalAuth handleLaunchList);
    Get "/launch/{id}" (optionalAuth handleLaunchGet);
    Patch "/launch/{id}" (jsonPOST handleLaunchPatch);
    Post "/launch/{id}/open-window" (requireAuth handleOpenWindow);
    Post "/launch/{id}/cancel" (requireAuth handleLaunchCancel);
    Post "/launch/{id}/members" (jsonPOST handleMemberAdd);
    Delete "/launch/{id}/members/{address}" (requireAuth handleMemberRemove);
    Post "/launch/{id}/rehearsal/{attempt_id}/reset" (requireAuth handleRehearsalReset);
    Get "/launch/{id}/members" (requireAuth handleMemberList);
    Get "/launch/{id}/chain-hint" (optionalAuth handleChainHint);
    Post "/launch/{id}/genesis" (requireAuth (handleGenesisUpload s));
    Get "/launch/{id}/genesis" (optionalAuth handleGenesisGet);
    Get "/launch/{id}/genesis/hash" (optionalAuth handleGenesisHashGet);
    Post "/launch/{id}/allocations/{type}" (requireAuth (handleAllocationUpload s));
    Get "/launch/{id}/allocations" (optionalAuth handleAllocationList);
    Get "/launch/{id}/allocations/{type}" (optionalAuth handleAllocationGet);
    Post "/launch/{id}/join" (limited validatorRatePerMin (jsonPOST handleJoinSubmit));
    Post "/launch/{id}/proposal" (limited validatorRatePerMin (jsonPOST (handleProposalRaise s)));
    Post "/launch/{id}/proposal/{prop_id}/sign"
      (limited validatorRatePerMin (jsonPOST (handleProposalSign s)));
    Post "/launch/{id}/ready" (limited validatorRatePerMin (jsonPOST handleReadinessConfirm)) ].

Definition registerBridgeRoutes : list route :=
  [ Get "/bridge/launches/{id}/rehearsal-input" (ops handleRehearsalInput);
    Post "/bridge/launches/{id}/rehearsal-claim" (ops (requireJSONBody (handleRehearsalClaim s)));
    Get "/bridge/launches/{id}/allocations/{type}" (ops handleBridgeAllocationGet);
    Post "/bridge/launches/{id}/rehearsal-results"
      (ops (requireJSONBody handleRehearsalResults)) ].

Definition registerLaunchReadRoutes : list route :=
  [ Get "/launch/{id}/join" (requireAuth handleJoinList);
    Get "/launch/{id}/join/grouped" (requireAuth handleJoinGrouped);
    Get "/launch/{id}/join/{req_id}" (requireAuth handleJoinGet);
    Get "/launch/{id}/gentxs" (requireAuth handleGentxsGet);
    Get "/launch/{id}/proposals" (requireAuth handleProposalList);
    Get "/launch/{id}/proposal/{prop_id}" (requireAuth handleProposalGet);
    Get "/launch/{id}/dashboard" (optionalAuth handleDashboard);
    Get "/launch/{id}/peers" (optionalAuth handlePeers);
    Get "/launch/{id}/audit" (optionalAuth handleAudit);
    Get "/launch/{id}/events" (optionalAuth handleEvents);
    Get "/launch/{id}/rehearsal" (requireAuth handleRehearsalResultsList) ].

(** [r.Route("/api/v1", ...)] *)
Definition mounted (rt : route) : route :=
  mkRoute (rt_Method rt) ("/api/v1" +:+ rt_Pattern rt) (rt_Handler rt).
Definition routes : list route :=
  Get "/healthz" (handleHealthz s)
    :: (mounted <$> registerAPIRoutes ++ registerBridgeRoutes ++ registerLaunchReadRoutes).

Definition dispatch : handler := λ r,
  match chi_match ((λ rt, (rt_Method rt, rt_Pattern rt)) <$> routes) (rq_Method r) (rq_Path r) with
  | Matched i params =>
      match routes !! i with
      | Some rt => rt_Handler rt (set_params params r)
      | None => reply (mkResponse StatusNotFound [] (BText "404 page not found"))
      end
  | NoRoute => reply (mkResponse StatusNotFound [] (BText "404 page not found"))
  | NoMethod => reply (mkResponse StatusMethodNotAllowed [] BNone)
  end.

(** [Handler]; [None] when the process exits before it answers. *)
Definition Handler (r : request) (p : proc) : option response * proc :=
  let (resp, p1) := recoveryMiddleware dispatch r p in
  (add_headers (securityHeaders (sv_tlsEnabled s)) <$> resp, p1).
End server.
End server.
