(* ===== verification/Config.v ===== *)
(** * Configuration (src/internal/config/config.go, [loadServeConfig] of
    src/cmd/coordd/cmd/serve.go)

    Viper merges flags, the environment, a file and defaults: a parameter,
    given everything the code sets up before it reads.  What the code itself
    does with the merged values - splitting the administrators, reading key
    files, and the checks - is executable. *)

From S2P Require Import Prelude GoStd.
#[global] Open Scope Z_scope.

(** Package os, as far as the commands use it. *)
Class OS : Type := {
  os_ReadFile : string → result bytes;
  os_Getenv : string → string;
  os_MkdirAll : string → result unit }.

Module config.

Definition LaunchPolicyOpen : string := "open".
Definition LaunchPolicyRestricted : string := "restricted".
Definition AuditStartupVerifyFull : string := "full".
Definition AuditStartupVerifyTail : string := "tail".
Definition genesisMaxMiB : Z := 700.
Definition mibShift : Z := 20.
Definition SeedSize : nat := 32.

Record Config : Type := mkConfig {
  ListenAddr : string;
  DBPath : string;
  AuditLogPath : string;
  AuditPrivKeyB64 : string;
  FilesPath : string;
  LogLevel : string;
  CORSOrigins : string;
  AdminAddresses : list string;
  LaunchPolicy : string;
  AuditStartupVerify : string;
  GenesisHostMode : bool;
  GenesisMaxBytes : Z;
  AuditPrivKeyFile : string;
  TLSCert : string;
  TLSKey : string;
  InsecureNoTLS : bool;
  InsecureNoSSRFCheck : bool;
  InsecureNoRateLimit : bool;
  JWTPrivKeyB64 : string;
  JWTPrivKeyFile : string;
  RehearsalOpsToken : string;
  RehearsalOpsTokenFile : string;
  RehearsalLeaseTTL : time.Duration;
  RehearsalGate : string }.

Definition with_admins (l : list string) (c : Config) : Config :=
  mkConfig (ListenAddr c) (DBPath c) (AuditLogPath c) (AuditPrivKeyB64 c) (FilesPath c)
    (LogLevel c) (CORSOrigins c) l (LaunchPolicy c) (AuditStartupVerify c) (GenesisHostMode c)
    (GenesisMaxBytes c) (AuditPrivKeyFile c) (TLSCert c) (TLSKey c) (InsecureNoTLS c)
    (InsecureNoSSRFCheck c) (InsecureNoRateLimit c) (JWTPrivKeyB64 c) (JWTPrivKeyFile c)
    (RehearsalOpsToken c) (RehearsalOpsTokenFile c) (RehearsalLeaseTTL c) (RehearsalGate c).

(** The three secrets that may come from a file. *)
Definition with_secrets (audit jwt token : string) (c : Config) : Config :=
  mkConfig (ListenAddr c) (DBPath c) (AuditLogPath c) audit (FilesPath c)
    (LogLevel c) (CORSOrigins c) (AdminAddresses c) (LaunchPolicy c) (AuditStartupVerify c)
    (GenesisHostMode c) (GenesisMaxBytes c) (AuditPrivKeyFile c) (TLSCert c) (TLSKey c)
    (InsecureNoTLS c) (InsecureNoSSRFCheck c) (InsecureNoRateLimit c) jwt (JWTPrivKeyFile c)
    token (RehearsalOpsTokenFile c) (RehearsalLeaseTTL c) (RehearsalGate c).

Definition with_NoRateLimit (b : bool) (c : Config) : Config :=
  mkConfig (ListenAddr c) (DBPath c) (AuditLogPath c) (AuditPrivKeyB64 c) (FilesPath c)
    (LogLevel c) (CORSOrigins c) (AdminAddresses c) (LaunchPolicy c) (AuditStartupVerify c)
    (GenesisHostMode c) (GenesisMaxBytes c) (AuditPrivKeyFile c) (TLSCert c) (TLSKey c)
    (InsecureNoTLS c) (InsecureNoSSRFCheck c) b (JWTPrivKeyB64 c) (JWTPrivKeyFile c)
    (RehearsalOpsToken c) (RehearsalOpsTokenFile c) (RehearsalLeaseTTL c) (RehearsalGate c).

(** ** What Viper is told (Load, up to ReadInConfig) *)
Inductive setting : Type := SString (s : string) | SInt64 (z : Z).

Inductive config_files : Type :=
  | ConfigFile (path : string)
  | ConfigSearch (name type : string) (paths : list string).

Record Viper_setup : Type := mkSetup {
  v_flags : list (string * string); (* configuration key, flag *)
  v_defaults : list (string * setting);
  v_files : config_files;
  v_envPrefix : string;
  v_envReplace : string * string;
  v_bindings : list (string * string) (* configuration key, variable *) }.

(** The outcome of [ReadInConfig]. *)
Inductive read_outcome : Type := ReadOK | ReadNotFound | ReadFailed.

Definition defaults : list (string * setting) :=
  [("listen_addr", SString ":8080"); ("log_level", SString "info");
   ("launch_policy", SString LaunchPolicyRestricted);
   ("genesis_max_bytes", SInt64 (Z.shiftl genesisMaxMiB mibShift));
   ("rehearsal_gate", SString "off");
   ("audit_startup_verify", SString AuditStartupVerifyFull)]%string.

Definition search_paths (cfgFile : string) : config_files :=
  if is_empty cfgFile then ConfigSearch "config" "yaml" ["."; "$HOME/.coordd"; "/etc/coordd"]
  else ConfigFile cfgFile.

Definition env_bindings : list (string * string) :=
  [("db_path", "COORD_DB_PATH"); ("audit_log_path", "COORD_AUDIT_LOG_PATH");
   ("audit_private_key", "COORD_AUDIT_PRIVATE_KEY");
   ("audit_private_key_file", "COORD_AUDIT_PRIVATE_KEY_FILE");
   ("files_path", "COORD_FILES_PATH"); ("listen_addr", "COORD_LISTEN_ADDR");
   ("log_level", "COORD_LOG_LEVEL"); ("cors_origins", "COORD_CORS_ORIGINS");
   ("admin_addresses", "COORD_ADMIN_ADDRESSES"); ("launch_policy", "COORD_LAUNCH_POLICY");
   ("tls_cert", "COORD_TLS_CERT"); ("tls_key", "COORD_TLS_KEY");
   ("insecure_no_tls", "COORD_INSECURE_NO_TLS");
   ("insecure_no_ssrf_check", "COORD_INSECURE_NO_SSRF_CHECK");
   ("insecure_no_rate_limit", "COORD_INSECURE_NO_RATE_LIMIT");
   ("genesis_host_mode", "COORD_GENESIS_HOST_MODE");
   ("genesis_max_bytes", "COORD_GENESIS_MAX_BYTES");
   ("jwt_private_key", "COORD_JWT_PRIVATE_KEY");
   ("jwt_private_key_file", "COORD_JWT_PRIVATE_KEY_FILE");
   ("rehearsal_ops_token", "COORD_REHEARSAL_OPS_TOKEN");
   ("rehearsal_ops_token_file", "COORD_REHEARSAL_OPS_TOKEN_FILE");
   ("rehearsal_lease_ttl", "COORD_REHEARSAL_LEASE_TTL");
   ("rehearsal_gate", "COORD_REHEARSAL_GATE");
   ("audit_startup_verify", "COORD_AUDIT_STARTUP_VERIFY")]%string.

Definition setup (flags : list (string * string)) (cfgFile : string) : Viper_setup :=
  mkSetup flags defaults (search_paths cfgFile) "COORD" ("."%string, "_"%string) env_bindings.

(** github.com/spf13/viper *)
Class Viper : Type := {
  viper_ReadInConfig : Viper_setup → read_outcome;
  viper_Unmarshal : Viper_setup → result Config;
  viper_GetString : Viper_setup → string → string }.

(** ** Key files *)
Section loading.
Context `{OP : OS}.

(** One block of [loadKeyFiles]. *)
Definition load_secret (inline file : string) : result string :=
  if is_empty inline && negb (is_empty file) then
    data ← os_ReadFile file; Ok (strings.TrimSpace data)
  else Ok inline.

Definition loadKeyFiles (c : Config) : result Config :=
  audit ← load_secret (AuditPrivKeyB64 c) (AuditPrivKeyFile c);
  jwt ← load_secret (JWTPrivKeyB64 c) (JWTPrivKeyFile c);
  token ← load_secret (RehearsalOpsToken c) (RehearsalOpsTokenFile c);
  Ok (with_secrets audit jwt token c).

(** ** The checks *)
Definition check (cond : bool) : result unit := if cond then Err errorf else Ok tt.

(** A seed, after [TrimSpace] and base64. *)
Definition seed (b64 : string) : result bytes :=
  key ← base64.DecodeString (strings.TrimSpace b64);
  if negb (String.length key =? SeedSize)%nat then Err errorf else Ok key.

Definition validate (c : Config) : result unit :=
  _ ← check (is_empty (DBPath c));
  _ ← check (is_empty (AuditLogPath c));
  _ ← check (is_empty (AuditPrivKeyB64 c));
  keyBytes ← seed (AuditPrivKeyB64 c);
  _ ← check (is_empty (FilesPath c));
  _ ← check (negb (bool_decide (LaunchPolicy c = LaunchPolicyOpen))
             && negb (bool_decide (LaunchPolicy c = LaunchPolicyRestricted)));
  _ ← check (negb (bool_decide (RehearsalGate c ∈ [""; "off"; "advisory"; "required"]%string)));
  _ ← check (negb (bool_decide (AuditStartupVerify c
               ∈ [""%string; AuditStartupVerifyFull; AuditStartupVerifyTail])));
  _ ← check (bool_decide (RehearsalGate c = "required"%string) && is_empty (RehearsalOpsToken c)
             && is_empty (RehearsalOpsTokenFile c));
  _ ← check (negb (Bool.eqb (is_empty (TLSCert c)) (is_empty (TLSKey c))));
  _ ← check (is_empty (JWTPrivKeyB64 c));
  jwtKeyBytes ← seed (JWTPrivKeyB64 c);
  check (bool_decide (keyBytes = jwtKeyBytes)).

(** ** Load *)
Definition admin_addresses (raw : string) : list string :=
  List.filter (λ a, negb (is_empty a)) (strings.TrimSpace <$> strings.SplitCommas raw).

Definition Load `{VP : Viper} (flags : list (string * string)) (cfgFile : string) : result Config :=
  let v := setup flags cfgFile in
  match viper_ReadInConfig v with
  | ReadFailed => Err errorf
  | ReadOK | ReadNotFound =>
      cfg ← viper_Unmarshal v;
      let cfg := with_admins (admin_addresses (viper_GetString v "admin_addresses")) cfg in
      cfg ← loadKeyFiles cfg;
      _ ← validate cfg;
      Ok cfg
  end.

(** ** The flags of [coordd serve] (newServeCmd, loadServeConfig) *)
Definition serve_flags : list string :=
  ["listen-addr"; "db-path"; "audit-log-path"; "files-path"; "log-level"; "cors-origins";
   "tls-cert"; "tls-key"; "insecure-no-tls"; "insecure-no-rate-limit"; "genesis-host-mode";
   "genesis-max-bytes"]%string.

Definition bound_flags : list (string * string) :=
  [("listen-addr", "listen_addr"); ("db-path", "db_path"); ("audit-log-path", "audit_log_path");
   ("files-path", "files_path"); ("log-level", "log_level"); ("cors-origins", "cors_origins");
   ("tls-cert", "tls_cert"); ("tls-key", "tls_key"); ("insecure-no-tls", "insecure_no_tls");
   ("insecure-no-rate-limit", "insecure_no_rate_limit");
   ("genesis-host-mode", "genesis_host_mode"); ("genesis-max-bytes", "genesis_max_bytes")]%string.

(** [BindPFlag] fails for a flag that is not registered. *)
Fixpoint bind_flags (l : list (string * string)) : result (list (string * string)) :=
  match l with
  | [] => Ok []
  | (flag, key) :: l =>
      if bool_decide (flag ∈ serve_flags) then r ← bind_flags l; Ok ((key, flag) :: r)
      else Err errorf
  end.

Definition loadServeConfig `{VP : Viper} (cfgFile : string) : result Config :=
  flags ← bind_flags bound_flags; Load flags cfgFile.

End loading.
End config.
