(* ===== verification/Startup.v ===== *)
(** * Starting the server (src/cmd/coordd/cmd: serve.go, audit.go, keygen.go)

    [runServe] up to the point where the server listens, as a function of the
    configuration and of the files on disk: it returns an error, panics, or
    yields the running server with everything it was built from.  The HTTP
    listener, signals and the graceful shutdown are not modelled.  The audit
    commands follow. *)

From S2P Require Import Prelude GoStd GoTime Values Json Payload Store World AuditLog Rehearsal.
From S2P Require Import ProposalService LaunchService RehearsalService AuthService Backfill Jobs.
From S2P Require Import Netutil Config Handlers Server.
#[global] Open Scope Z_scope.

(** github.com/rs/zerolog: the level a text names. *)
Class Zerolog : Type := { zerolog_ParseLevel : string → result string }.

(** ** base64 with its error ignored

    [DecodeString] returns the bytes before the first bad quantum beside the
    error; a quantum with padding ends the text, whatever follows it. *)
Fixpoint decoded_prefix (l : list ascii) : list ascii :=
  match l with
  | a :: b :: c :: d :: l =>
      match base64.value a, base64.value b with
      | Some x, Some y =>
          let b1 := base64.byte_of (x * 4 + y / 16) in
          if ascii_dec c base64.pad then
            if ascii_dec d base64.pad then [b1] else []
          else
            match base64.value c with
            | None => []
            | Some z =>
                let b2 := base64.byte_of (y * 16 + z / 4) in
                if ascii_dec d base64.pad then [b1; b2]
                else
                  match base64.value d with
                  | None => []
                  | Some w => b1 :: b2 :: base64.byte_of (z * 64 + w) :: decoded_prefix l
                  end
            end
      | _, _ => []
      end
  | _ => []
  end.
Definition DecodeString_ignored (s : string) : bytes :=
  of_chars (decoded_prefix (base64.skip_newlines (chars s))).

(** [ed25519.NewKeyFromSeed] panics on another length; the key is represented
    by its seed. *)
Definition NewKeyFromSeed (seed : bytes) : option bytes :=
  if (String.length seed =? config.SeedSize)%nat then Some seed else None.

(** [NewJWTSessionStore] (infrastructure/auth/jwt.go): the key it signs with. *)
Definition NewJWTSessionStore (privKeyB64 : string) : result bytes :=
  seed ← base64.DecodeString privKeyB64;
  if negb (String.length seed =? config.SeedSize)%nat then Err errorf else Ok seed.

(** [isLoopback]: 127.0.0.0/8 and ::1. *)
Definition ip_IsLoopback (a : list Z) : bool :=
  match ip.To4 a with
  | Some ip4 => bool_decide (head ip4 = Some 127)
  | None => bool_decide (a = replicate 15 0 ++ [1])
  end.
Definition isLoopback (addr : string) : bool :=
  match net.SplitHostPort addr with
  | Err _ => false
  | Ok (host, _) =>
      if is_empty host then false
      else match ip.ParseIP host with Some a => ip_IsLoopback a | None => false end
  end.

Module startup.
Import config.

(** What [runServe] finds and leaves on disk. *)
Record machine : Type := mkMachine { m_data : datafile; m_audit : auditlog.disk }.

(** The server that listens, with what it was built from. *)
Record running : Type := mkRunning {
  r_server : api.Server;
  r_level : string;
  r_jwtKey : bytes;
  r_challenges : ChallengeStore;
  r_auditLog : auditlog.JSONLWriter;
  r_urlValidator : launches.URLValidator;
  r_monitorURL : string → result unit;
  r_listenAddr : string;
  r_tls : option (string * string) }.

Inductive boot : Type :=
  | Refused (* [runServe] returns an error *)
  | Panicked
  | Running (r : running).

Section boot.
Context `{B32 : Bech32} `{NU : NetURL} `{RES : Resolver} `{UT : UUIDText} `{CJ : CanonicalJSON}
        `{ED : Ed25519} `{O : Oracle} `{R : Random} `{Q : SQL} `{RO : RowOrder} `{OP : OS}
        `{VP : Viper} `{ZL : Zerolog}.

Definition buildLogger (level : string) : string :=
  match zerolog_ParseLevel (strings.ToLower level) with Ok l => l | Err _ => "info" end.

(** The warning of [serveAndWait] about unencrypted traffic. *)
Definition warns_unencrypted (c : Config) : bool :=
  is_empty (TLSCert c) && negb (InsecureNoTLS c) && negb (isLoopback (ListenAddr c)).

Definition monitorURLValidatorFor (insecureNoSSRFCheck : bool) : string → result unit :=
  if insecureNoSSRFCheck then netutil.ValidateRPCURLFormat else netutil.ValidateRPCURL.

(** The URL check and the lease of the launch service. *)
Definition NewLaunchService : launches.URLValidator * time.Duration :=
  ({| launches.urlValidator := netutil.ValidateRPCURL |}, bridge.defaultRehearsalLeaseTTL).
Definition configureLaunchService (svc : launches.URLValidator * time.Duration) (c : Config)
    : launches.URLValidator * time.Duration :=
  let svc := if InsecureNoSSRFCheck c
             then ({| launches.urlValidator := netutil.ValidateRPCURLFormat |}, svc.2) else svc in
  if 0 <? RehearsalLeaseTTL c then (svc.1, RehearsalLeaseTTL c) else svc.

(** [WithRehearsalGate] ignores the error of an unrecognized mode. *)
Definition WithRehearsalGate (mode : string) : proposals.Config :=
  proposals.mkConfig (rehearsal.ParseRehearsalGateMode mode).1 true.

Definition openFileStores (path : string) : result unit :=
  _ ← os_MkdirAll path; os_MkdirAll path.

Definition newHealthCheck (select1 stat : nat → bool) : nat → result unit := λ n,
  if negb (select1 n) then Err errorf else if negb (stat n) then Err errorf else Ok tt.

Definition challenge_store (c : Config) : ChallengeStore :=
  if negb (InsecureNoRateLimit c) then ratelimit.limited_store challenges.sqlite_store
  else challenges.sqlite_store.

(** The API server [runServe] builds. *)
Definition apiServer (c : Config) (auditLog : auditlog.JSONLWriter) (health : nat → result unit)
    : api.Server :=
  server.WithTLS (server.WithHealthCheck
    (server.NewServer (CORSOrigins c) (AdminAddresses c) (auditlog.PubKey auditLog)
       (LaunchPolicy c) (GenesisHostMode c) (GenesisMaxBytes c) (InsecureNoRateLimit c)
       (RehearsalOpsToken c) (WithRehearsalGate (RehearsalGate c))
       (configureLaunchService NewLaunchService c).2) health)
    (negb (is_empty (TLSCert c))).

(** From the loaded configuration on.  [io] is what becomes of the reads and
    writes of the audit log, [health] the check built by [newHealthCheck]. *)
Definition start (c : Config) (now : time.Time) (files : list (string * string))
    (io : auditlog.io) (health : nat → result unit) (m : machine) : boot * machine :=
  let level := buildLogger (LogLevel c) in
  match backfill.Open now files (m_data m) with
  | (Err _, data) => (Refused, mkMachine data (m_audit m))
  | (Ok _, data) =>
      let m := mkMachine data (m_audit m) in
      match NewJWTSessionStore (JWTPrivKeyB64 c) with
      | Err _ => (Refused, m)
      | Ok jwtKey =>
          let auditSeed := DecodeString_ignored (AuditPrivKeyB64 c) in
          match NewKeyFromSeed auditSeed with
          | None => (Panicked, m)
          | Some auditPrivKey =>
              let full := negb (bool_decide (AuditStartupVerify c = AuditStartupVerifyTail)) in
              match auditlog.openAuditLog (Some auditPrivKey) full (m_audit m) io with
              | (Err _, d) => (Refused, mkMachine data d)
              | (Ok auditLog, d) =>
                  let m := mkMachine data d in
                  match openFileStores (FilesPath c) with
                  | Err _ => (Refused, m)
                  | Ok _ =>
                      (Running (mkRunning (apiServer c auditLog health) level jwtKey
                         (challenge_store c) auditLog (configureLaunchService NewLaunchService c).1
                         (monitorURLValidatorFor (InsecureNoSSRFCheck c)) (ListenAddr c)
                         (if is_empty (TLSCert c) then None else Some (TLSCert c, TLSKey c))), m)
                  end
              end
          end
      end
  end.

Definition runServe (cfgFile : string) (now : time.Time) (files : list (string * string))
    (io : auditlog.io) (health : nat → result unit) (m : machine) : boot * machine :=
  match loadServeConfig cfgFile with
  | Err _ => (Refused, m)
  | Ok c =>
      let c := if bool_decide (os_Getenv "COORD_INSECURE_NO_RATE_LIMIT" = "true"%string)
               then with_NoRateLimit true c else c in
      start c now files io health m
  end.

End boot.
End startup.

(** ** The audit commands (audit.go, keygen.go) *)
Module auditcmd.
Import json.

Definition PublicKeySize : nat := 32.

Section commands.
Context `{CJ : CanonicalJSON} `{ED : Ed25519} `{HC : HTTPClient}.

Definition public_key (b64 : string) : result bytes :=
  raw ← base64.DecodeString b64;
  if negb (String.length raw =? PublicKeySize)%nat then Err errorf else Ok raw.

Definition dec_pubkey (v : value) : option string :=
  field ["pub_key_b64"%string] "pub_key_b64" d_string ""%string v.

Definition fetchAuditPubKey (serverURL : string) : result bytes :=
  '(status, body) ← http_Get 0%nat (serverURL +:+ "/api/v1/audit/pubkey");
  if negb (status =? jobs.StatusOK) then Err errorf
  else b64 ← Decode dec_pubkey body true; public_key b64.

(** No key, no signature checks: so it is when the server cannot be asked. *)
Definition resolveAuditPubKey (pubKeyB64 serverURL : string) : result (option bytes) :=
  if negb (is_empty pubKeyB64) then Some <$> public_key pubKeyB64
  else if negb (is_empty serverURL) then
    match fetchAuditPubKey serverURL with Ok pub => Ok (Some pub) | Err _ => Ok None end
  else Ok None.

(** The report, and the error the command ends with when there are anomalies.
    [file] is the content of the file, if it can be opened. *)
Record report : Type := mkReport {
  rp_scan : auditlog.ScanResult;
  rp_signatures : bool (* verified *);
  rp_chain : bool (* verified *) }.
Definition runAuditVerify (pubKeyB64 serverURL : string) (file : option (list ascii))
    : result report * option error :=
  match resolveAuditPubKey pubKeyB64 serverURL with
  | Err e => (Err e, Some e)
  | Ok pubKey =>
      match file with
      | None => (Err errorf, Some errorf)
      | Some data =>
          let (res, e) := auditlog.Scan data pubKey in
          if e then (Err errorf, Some errorf)
          else
            (Ok (mkReport res (if pubKey is Some _ then true else false)
                   (auditlog.ChainChecked res)),
             match auditlog.Anomalies res with [] => None | _ => Some errorf end)
      end
  end.

(** [coordd keygen]: the seed drawn, printed in base64. *)
Definition runKeygen `{R : Random} (n : nat) : result string :=
  seed ← random_read n; Ok (base64.EncodeToString seed).

End commands.
End auditcmd.
