(* ===== verification/ServiceSamples.v ===== *)
(** * A small concrete installation

    Instances of the parameters (codec, canonical JSON, signature verifier,
    environment) and a database with launches, committees and join requests,
    used to run the services in witnesses and in the theorems that exhibit an
    execution. *)

From S2P Require Import Prelude GoStd GoTime GoFloat Values LaunchAgg Fixtures Json Events.
From S2P Require Import Payload Proposal ProposalProps JoinRequest Rehearsal Store World.
From S2P Require Import InputSet ProposalService.
Import sqlite.
#[global] Open Scope Z_scope.

Module samples.
Import fixtures proposal_samples.

#[global] Existing Instance toy_bech32.
#[global] Existing Instance toy_url.
#[global] Existing Instance toy_uuid.

(** The verifier accepts the public key ["ok"]. *)
#[export] Instance toy_canonical : CanonicalJSON := {|
  canonical_MarshalForSigning := λ _, Ok "message"%string;
  canonical_Marshal := λ raw, Ok (default "" raw) |}.
#[export] Instance toy_verifier : SignatureVerifier := {|
  verifier_Verify := λ _ pub _ _, if bool_decide (pub = "ok"%string) then Ok tt else Err errorf |}.
(** A clock that advances one second per reading; nothing fails. *)
#[export] Instance toy_oracle : Oracle := {|
  oracle_Now := λ n, t0 + Z.of_nat n * time.Second;
  oracle_uuid := λ n, (1000 + N.of_nat n)%N;
  oracle_audit_fails := λ _, false;
  oracle_commit_fails := λ _, false;
  oracle_file_fails := λ _, false |}.

(** Base64 of 64 zero bytes. *)
Definition sig64 : string := of_chars (repeat (ascii_of_nat 65) 86 ++ repeat (ascii_of_nat 61) 2).

Definition rate_of (s : string) : CommissionRate :=
  match NewCommissionRate s with Ok r => r | Err _ => rate 0%Q end.
Definition rec (chain : string) : launch.ChainRecord :=
  launch.mkRecord chain "Chain" "cosmos" "chaind" "v1" "" "" "" None "utok" "1" ""
    (rate_of "0.2") (rate_of "0.01") (t0 + 10 * day) 1.

Definition some_launch (id : uuid) (chain : string) (s : launch.Status)
    (members : list AccountID) (M : Z) : launch.Launch :=
  launch.mkLaunch id (rec chain) launch.LaunchTypeTestnet ∅ s
    (launch.mkCommittee (id + 100)%N (member <$> members) M (len members)
       (default alice (head members)) t0)
    hash64 "" "" [] "" "" "" t0 t0 0 ∅.

Definition peer : string :=
  of_chars (repeat (ascii_of_nat 97) 40 ++ chars "@host:26656").
Definition request (id launchID : uuid) (op : AccountID) (key : string) (gentx : string)
    : joinrequest.JoinRequest :=
  joinrequest.New id launchID op op gentx peer "" "" sig64 key t0.

(** Launch 1 (committee alice, bob, carol, threshold M) and launch 2
    (committee dave alone), both with an open window; dave's validator has a
    pending request in launch 2. *)
Definition install (M : Z) (s : launch.Status) : db :=
  let d := (saveLaunch (some_launch 1%N "chain-1" s [alice; bob; carol] M) empty_db).2 in
  let d := (saveLaunch (some_launch 2%N "chain-2" launch.StatusWindowOpen [dave] 1) d).2 in
  (saveJoinRequest (request 50%N 2%N dave "key" "{}") d).2.

Definition world_of (d : db) : world := mkWorld d ∅ [] [] 0.

Definition cfg_off : proposals.Config :=
  proposals.mkConfig rehearsal.RehearsalGateOff true.

(** Signed requests; the timestamp is the moment of the first clock readings. *)
Definition raise_by (addr nonce : string) (a : payload.ActionType) (pl : bytes)
    : proposals.RaiseInput :=
  proposals.mkRaise a (Some pl) addr nonce (rfc3339.Format t0) sig64 "ok".
Definition sign_by (addr nonce : string) (dec : proposal.Decision) : proposals.SignInput :=
  proposals.mkSignInput addr dec nonce (rfc3339.Format t0) sig64 "ok".

Definition result_of {A} (r : outcome A * world) : outcome A := r.1.

(** The stored status of a proposal and of a launch. *)
Definition proposal_status (d : db) (id : uuid) : option proposal.Status :=
  pw_status <$> first (is_id pw_id id) (db_proposals d).
Definition launch_status (d : db) (id : uuid) : option launch.Status :=
  lr_status <$> first (is_id lr_id id) (db_launches d).
Definition request_status (d : db) (id : uuid) : option joinrequest.Status :=
  jw_status <$> first (is_id jw_id id) (db_jrs d).

End samples.
