(* ===== verification/ProposalServiceProps.v ===== *)
(** * Correctness of the proposal service

    Execution is atomic and written ahead to the audit log; only verified
    committee members act; what an execution writes to a launch is one step
    of the aggregate; a genesis is published only while it matches the
    approved set. *)

From S2P Require Import Prelude GoStd GoTime Sha256 Values LaunchAgg LaunchProps Fixtures Json.
From S2P Require Import Events Payload Proposal ProposalProps JoinRequest Rehearsal Store.
From S2P Require Import StoreProps World WorldProps InputSet ProposalService ServiceSamples.
From stdpp Require Import relations.
Import sqlite proposals.
#[global] Open Scope Z_scope.

Section service_props.
Context `{B32 : Bech32} `{NU : NetURL} `{UT : UUIDText} `{CJ : CanonicalJSON}
        `{SV : SignatureVerifier} `{O : Oracle}.
Variable cfg : Config.

(** ** The transaction writes nothing to the log *)
Lemma trail_Current l : keeps trail (inputset.Current l).
Proof. unfold inputset.Current, inputset.Assemble. keeps_tac. Qed.

Lemma trail_fresh l : keeps trail (checkGenesisFresh l).
Proof. unfold checkGenesisFresh. pose proof (trail_Current l). keeps_tac. Qed.

Lemma trail_gate l :
  rehearsalGate cfg = rehearsal.RehearsalGateRequired → keeps trail (gateRehearsal cfg l).
Proof.
  intros E. unfold gateRehearsal, latestRehearsal. rewrite E.
  rewrite bool_decide_eq_true_2 by done. pose proof (trail_Current l). keeps_tac.
Qed.

Lemma trail_recheck l :
  keeps trail (if bool_decide (rehearsalGate cfg = rehearsal.RehearsalGateRequired)
               then gateRehearsal cfg l else mret tt).
Proof. case_bool_decide; [by apply trail_gate|apply keeps_ret]. Qed.

Lemma trail_saveBoth l p : keeps trail (saveLaunchAndProposal l p).
Proof. unfold saveLaunchAndProposal. keeps_tac. Qed.

Lemma trail_invalidate id : keeps trail (InvalidateByLaunch id).
Proof. unfold InvalidateByLaunch. keeps_tac. Qed.

Lemma trail_expire_all l : keeps trail (expire_all l).
Proof. induction l as [|jr l IH]; cbn; keeps_tac; apply IH. Qed.

#[local] Hint Resolve trail_Current trail_fresh trail_recheck trail_saveBoth trail_invalidate
  trail_expire_all : coord.

Lemma trail_applyProposal l p : keeps trail (applyProposal cfg l p).
Proof.
  unfold applyProposal. destruct (proposal.p_ActionType p).
  all: unfold applyApproveValidator, applyRejectValidator, applyRemoveValidator,
    applyPublishChainRecord, applyCloseWindow, applyUpdateGenesisTime,
    applyApproveAllocationFile, applyReplaceCommitteeMember, applyReviseGenesis,
    applyCancelLaunch, applyExpandCommittee, applyShrinkCommittee; keeps_tac.
Qed.

(** ** Execution *)
Definition audited (w : world) : list domain.DomainEvent := ae_Event <$> w_audit w.

(** Dispatch broadcasts and audits the events in order, or stops the process
    at the first one it cannot audit. *)
Lemma dispatch_all_spec scope evs w r w' :
  dispatch_all scope evs w = (r, w') →
  w_db w' = w_db w ∧
  ((r = Ret tt ∧ audited w' = audited w ++ evs ∧ w_published w' = w_published w ++ evs) ∨
   (r = Exit ∧ ∃ done ev rest, evs = done ++ ev :: rest ∧
      audited w' = audited w ++ done ∧ w_published w' = w_published w ++ done ++ [ev])).
Proof.
  revert w. induction evs as [|ev evs IH]; intros w H.
  - injection H as <- <-. split; [done|]. left. by rewrite !app_nil_r.
  - cbn [dispatch_all] in H. unfold mbind, M_bind in H. cbn [Publish] in H.
    unfold or_exit in H. destruct (writeAuditEvent _ _ _) as [x w1] eqn:E.
    apply writeAuditEvent_spec in E as (Hdb & Hpub & [[-> Hau]|[-> [t Hau]]]); cbn in *.
    + injection H as <- <-. split; [done|]. right. split; [done|].
      exists [], ev, evs. unfold audited. rewrite Hau, Hpub, app_nil_r. done.
    + apply IH in H as (Hdb' & H). split; [congruence|]. unfold audited in *.
      rewrite Hau, Hpub, fmap_app in H. cbn in H. rewrite <- !app_assoc in H. cbn in H.
      destruct H as [(-> & H1 & H2)|(-> & done & e & rest & -> & H1 & H2)]; [by left|].
      right. split; [done|]. exists (ev :: done), e, rest.
      rewrite H1, H2, <- !app_assoc. done.
Qed.

Lemma InTransaction_spec {A} (fn : M A) w r w' :
  InTransaction fn w = (r, w') →
  (∃ a w1, r = Ret a ∧ fn w = (Ret a, w1) ∧ w' = tick w1) ∨
  ((∀ a, r ≠ Ret a) ∧ w_db w' = w_db w).
Proof.
  unfold InTransaction. destruct (fn w) as [[] w1] eqn:E; [destruct (oracle_commit_fails _)|..];
    intros [= <- <-]; try (right; by split).
  left. eauto.
Qed.

(** C1. Execution of a proposal is all-or-nothing and never unaudited.  If
    [applyAndSave] fails, the database is unchanged; if the database changed,
    a ProposalExecuting entry was written first; and if it succeeds, the
    database is exactly what the action's transaction wrote, and the log and
    the broadcasts gained exactly the completion events, the log after the
    intent. *)
Theorem execution_atomic_and_audited l p w r w' :
  applyAndSave cfg l p w = (r, w') →
  (∀ e, r = Fail e → w_db w' = w_db w) ∧
  (w_db w' ≠ w_db w → ∃ rest, audited w' = audited w ++ intent_event p :: rest) ∧
  (∀ p', r = Ret p' → ∃ p1 w1 w2,
     w_db w1 = w_db w ∧ applyProposal cfg l p w1 = (Ret p1, w2) ∧ w_db w' = w_db w2 ∧
     p' = proposal.set_events [] p1 ∧
     audited w' = audited w ++ intent_event p :: proposal.p_events p1 ∧
     w_published w' = w_published w ++ proposal.p_events p1).
Proof.
  intros H. unfold applyAndSave in H. unfold mbind at 1, M_bind at 1 in H.
  destruct (writeAuditEvent _ _ w) as [x w1] eqn:E.
  apply writeAuditEvent_spec in E as (Hdb & Hpub & [[-> Hau]|[-> [t Hau]]]).
  { injection H as <- <-. split_and!; [congruence|congruence|discriminate]. }
  assert (audited w1 = audited w ++ [intent_event p]) as Hin
    by (unfold audited; rewrite Hau, fmap_app; done).
  unfold mbind, M_bind, on_failure in H.
  destruct (InTransaction _ w1) as [x w2] eqn:E.
  apply InTransaction_spec in E as [(p1 & w3 & -> & E & ->)|(Hno & Hdb2)].
  - pose proof (trail_applyProposal l p w1) as Htr. rewrite E in Htr. cbn in Htr.
    unfold trail in Htr. injection Htr as Ha Hp.
    unfold dispatchEvents, proposal.PopEvents, mbind, M_bind in H.
    destruct (dispatch_all _ _ (tick w3)) as [y w4] eqn:E4.
    apply dispatch_all_spec in E4 as (Hdb4 & [(-> & Hau4 & Hp4)|(-> & dn & ev & rest & _ & Hau4 & _)]).
    + injection H as <- <-. unfold audited in Hau4, Hin. cbn in Hau4, Hp4. rewrite Ha, Hin in Hau4.
      rewrite Hp, Hpub in Hp4. rewrite <- app_assoc in Hau4.
      split_and!; [discriminate|eauto|]. intros p' [= <-]. exists p1, w1, w3.
      split_and!; auto.
    + injection H as <- <-. unfold audited in Hau4, Hin. cbn in Hau4. rewrite Ha, Hin in Hau4.
      rewrite <- app_assoc in Hau4. split_and!; [discriminate|eauto|discriminate].
  - destruct x as [a|e| |]; [by destruct (Hno a)| | |].
    + pose proof (db_emit (uuid_String (proposal.p_LaunchID p)) (abort_event p e) w2) as Hem.
      destruct (emit _ _ w2) as [y w3]. injection H as <- <-. cbn in Hem.
      split_and!; [congruence|congruence|discriminate].
    + injection H as <- <-. split_and!; [discriminate|congruence|discriminate].
    + injection H as <- <-. split_and!; [discriminate|congruence|discriminate].
Qed.

(** ** What an execution writes *)

(** [p1] is [p] up to recorded events, and the final writes are the launch
    [l'], one step of the aggregate away from [l], and the proposal. *)
Definition wrote (l : launch.Launch) (p p1 : proposal.Proposal) (w w' : world) : Prop :=
  ∃ l' d1, launch_step l l' ∧ launch.l_ID l' = launch.l_ID l ∧
    launch.l_Version l' = launch.l_Version l ∧
    launch_tables d1 = launch_tables (w_db w) ∧ (saveLaunch l' d1).1 = Ok tt ∧
    saveProposal p1 (saveLaunch l' d1).2 = (Ok tt, w_db w') ∧
    ∃ es, p1 = proposal.set_events es p.

Lemma saveBoth_Ret l p w p1 w' :
  saveLaunchAndProposal l p w = (Ret p1, w') →
  p1 = p ∧ (saveLaunch l (w_db w)).1 = Ok tt ∧
  saveProposal p (saveLaunch l (w_db w)).2 = (Ok tt, w_db w').
Proof.
  unfold saveLaunchAndProposal. intros H. minv.
  apply run_st_Ret in E as (d & E & ->). apply run_st_Ret in E0 as (d' & E0 & ->).
  cbn in *. destruct a, a0. rewrite E in *. done.
Qed.

Lemma launches_jr jr d : launch_tables (saveJoinRequest jr d).2 = launch_tables d.
Proof. unfold saveJoinRequest. destruct d; cbn. by repeat case_match. Qed.

Lemma launches_expire_all jrs : keeps (λ w, launch_tables (w_db w)) (expire_all jrs).
Proof.
  induction jrs as [|jr jrs IH]; cbn; [apply keeps_ret|].
  destruct (joinrequest.Expire jr); [|done]. apply keeps_bind; [|intros; apply IH].
  intros w0. unfold run_st. pose proof (launches_jr a (w_db w0)) as H.
  by destruct (saveJoinRequest a (w_db w0)).
Qed.

Lemma set_events_same p : proposal.set_events (proposal.p_events p) p = p.
Proof. by destruct p. Qed.

(** The identity and the loaded version survive every governed step. *)
Definition same_lock (l l' : launch.Launch) : Prop :=
  launch.l_ID l' = launch.l_ID l ∧ launch.l_Version l' = launch.l_Version l.

Ltac same_lock_tac :=
  unfold same_lock; repeat (case_match; simplify_eq/=); try done;
  match goal with l : launch.Launch |- _ => by destruct l end.

Lemma lock_Publish l h now l' : launch.Publish l h now = Ok l' → same_lock l l'.
Proof. unfold launch.Publish. intros. same_lock_tac. Qed.
Lemma lock_CloseWindow l n now l' : launch.CloseWindow l n now = Ok l' → same_lock l l'.
Proof. unfold launch.CloseWindow. intros. same_lock_tac. Qed.
Lemma lock_PublishGenesis l h now l' : launch.PublishGenesis l h now = Ok l' → same_lock l l'.
Proof. unfold launch.PublishGenesis. intros. same_lock_tac. Qed.
Lemma lock_Cancel l now l' : launch.Cancel l now = Ok l' → same_lock l l'.
Proof. unfold launch.Cancel. intros. same_lock_tac. Qed.
Lemma lock_Reopen l now l' : launch.ReopenForRevision l now = Ok l' → same_lock l l'.
Proof. unfold launch.ReopenForRevision. intros. same_lock_tac. Qed.
Lemma lock_Approve l t h i now l' :
  launch.ApproveAllocationFile l t h i now = Ok l' → same_lock l l'.
Proof. unfold launch.ApproveAllocationFile. intros. same_lock_tac. Qed.
Lemma lock_Replace l o m now l' :
  launch.ReplaceCommitteeMember l o m now = Ok l' → same_lock l l'.
Proof. unfold launch.ReplaceCommitteeMember. intros. same_lock_tac. Qed.
Lemma lock_Expand l m t now l' : launch.ExpandCommittee l m t now = Ok l' → same_lock l l'.
Proof. unfold launch.ExpandCommittee. intros. same_lock_tac. Qed.
Lemma lock_Shrink l m t now l' : launch.ShrinkCommittee l m t now = Ok l' → same_lock l l'.
Proof. unfold launch.ShrinkCommittee. intros. same_lock_tac. Qed.
Lemma lock_Record l a sd : same_lock l (launch.RecordValidatorApproval l a sd).1.
Proof. unfold launch.RecordValidatorApproval. case_match. by destruct l. Qed.

Lemma wrote_intro l l' p es w w1 p1 w' :
  launch_step l l' → same_lock l l' → launch_tables (w_db w1) = launch_tables (w_db w) →
  saveLaunchAndProposal l' (proposal.set_events es p) w1 = (Ret p1, w') →
  wrote l p p1 w w'.
Proof.
  intros Hs [Hi Hv] Hd (-> & Hok & Hp)%saveBoth_Ret.
  exists l', (w_db w1). split_and!; eauto.
Qed.

Lemma wrote_intro_same l l' p w w1 p1 w' :
  launch_step l l' → same_lock l l' → launch_tables (w_db w1) = launch_tables (w_db w) →
  saveLaunchAndProposal l' p w1 = (Ret p1, w') → wrote l p p1 w w'.
Proof. rewrite <- (set_events_same p) at 1. apply wrote_intro. Qed.

(** *** Branch by branch *)
Definition launches (w : world) := launch_tables (w_db w).

Lemma keeps_Ret {X A} (proj : world → X) (m : M A) w a w' :
  keeps proj m → m w = (Ret a, w') → proj w' = proj w.
Proof. intros H E. specialize (H w). by rewrite E in H. Qed.

Lemma launches_of_db {A} (m : M A) : keeps w_db m → keeps launches m.
Proof. intros H w. unfold launches. by rewrite H. Qed.

Lemma launches_saveJR jr : keeps launches (run_st (saveJoinRequest jr)).
Proof.
  intros w. unfold run_st, launches. pose proof (launches_jr jr (w_db w)).
  by destruct (saveJoinRequest jr (w_db w)).
Qed.
Lemma launches_expirePending id : keeps launches (run_st (expireAllPending id)).
Proof. intros w. unfold run_st, launches. cbn. by destruct (w_db w). Qed.
Lemma launches_invalidate id : keeps launches (InvalidateByLaunch id).
Proof.
  unfold InvalidateByLaunch. apply keeps_bind; [done|]. intros now w.
  unfold run_st, launches. cbn. by destruct (w_db w).
Qed.

Lemma db_Current l : keeps w_db (inputset.Current l).
Proof. unfold inputset.Current, inputset.Assemble, findApprovedByLaunch. keeps_tac. Qed.
Lemma db_fresh l : keeps w_db (checkGenesisFresh l).
Proof. unfold checkGenesisFresh. pose proof (db_Current l). keeps_tac. Qed.
Lemma db_gate l : keeps w_db (gateRehearsal cfg l).
Proof.
  unfold gateRehearsal, latestRehearsal, findResultsByLaunch. pose proof (db_Current l).
  destruct (rehearsalGate cfg); keeps_tac.
Qed.

(** The launch tables are untouched between two points of a run. *)
Ltac launches_kept :=
  repeat match goal with
  | E : run_st (saveJoinRequest _) _ = (Ret _, _) |- _ =>
      apply (keeps_Ret launches) in E; [|apply launches_saveJR]
  | E : run_st (expireAllPending _) _ = (Ret _, _) |- _ =>
      apply (keeps_Ret launches) in E; [|apply launches_expirePending]
  | E : InvalidateByLaunch _ _ = (Ret _, _) |- _ =>
      apply (keeps_Ret launches) in E; [|apply launches_invalidate]
  | E : expire_all _ _ = (Ret _, _) |- _ =>
      apply (keeps_Ret launches) in E; [|apply launches_expire_all]
  | E : checkGenesisFresh _ _ = (Ret _, _) |- _ =>
      apply (keeps_Ret launches) in E; [|apply launches_of_db, db_fresh]
  | E : gateRehearsal _ _ _ = (Ret _, _) |- _ =>
      apply (keeps_Ret launches) in E; [|apply launches_of_db, db_gate]
  end; unfold launches in *; cbn [w_db tick] in *; congruence.

Lemma apply_wrote l p w p1 w' :
  proposal.p_ActionType p ≠ payload.ActionRejectValidator →
  applyProposal cfg l p w = (Ret p1, w') → wrote l p p1 w w'.
Proof.
  intros Hr H. unfold applyProposal in H. destruct (proposal.p_ActionType p); try done.
  - unfold applyApproveValidator, findJoinRequest in H. minv.
    destruct (launch.RecordValidatorApproval l _ _) as [l1 wn] eqn:ER. minv.
    pose proof (f_equal fst ER) as Hl1. cbn [fst] in Hl1. subst l1.
    eapply wrote_intro_same; [apply step_record_power|apply lock_Record| |exact H].
    launches_kept.
  - unfold applyRemoveValidator, findJoinRequest in H. minv.
    eapply wrote_intro_same; [apply step_remove_power|by destruct l| |exact H]. launches_kept.
  - unfold applyApproveAllocationFile in H. minv.
    eapply wrote_intro_same; [by eapply step_approve_alloc|by eapply lock_Approve| |exact H].
    done.
  - unfold applyPublishChainRecord in H. minv.
    eapply wrote_intro_same; [by eapply step_publish|by eapply lock_Publish| |exact H]. done.
  - unfold applyCloseWindow, findApprovedByLaunch, findJoinRequestsByLaunch in H. minv.
    eapply wrote_intro_same; [by eapply step_close|by eapply lock_CloseWindow| |exact H].
    launches_kept.
  - unfold applyPublishGenesis in H. minv.
    eapply wrote_intro_same; [by eapply step_genesis|by eapply lock_PublishGenesis| |exact H].
    destruct (bool_decide (rehearsalGate cfg = _)); minv; launches_kept.
  - unfold applyUpdateGenesisTime in H. minv. apply orb_false_elim in E as [? ?]. guards.
    eapply wrote_intro_same; [by apply step_genesis_time|by destruct l| |exact H]. launches_kept.
  - unfold applyReplaceCommitteeMember in H. minv.
    eapply wrote_intro; [by eapply step_replace|by eapply lock_Replace| |exact H]. done.
  - unfold applyReviseGenesis in H. minv.
    eapply wrote_intro_same; [by eapply step_reopen|by eapply lock_Reopen| |exact H].
    launches_kept.
  - unfold applyExpandCommittee in H. minv.
    eapply wrote_intro; [by eapply step_expand|by eapply lock_Expand| |exact H]. launches_kept.
  - unfold applyShrinkCommittee in H. minv.
    eapply wrote_intro; [by eapply step_shrink|by eapply lock_Shrink| |exact H]. launches_kept.
  - unfold applyCancelLaunch in H. minv.
    eapply wrote_intro_same; [by eapply step_cancel|by eapply lock_Cancel| |exact H].
    destruct (bool_decide (launch.l_Status l = _)); minv; launches_kept.
Qed.

Lemma saveProposal_launches p d : launch_tables (saveProposal p d).2 = launch_tables d.
Proof.
  assert (frames launch_tables (upsert_proposal (proposal_cols p))) as Hf
    by (unfold upsert_proposal; frame_tac).
  rewrite saveProposal_spec. specialize (Hf d).
  destruct (upsert_proposal _ d) as [[[]|e] d1]; cbn in *; [|done]. by destruct d1.
Qed.

Lemma reject_launches p w p1 w' :
  applyRejectValidator p w = (Ret p1, w') → launches w' = launches w.
Proof.
  unfold applyRejectValidator, findJoinRequest. intros H. minv.
  apply (keeps_Ret launches) in E2; [|apply launches_saveJR]. rewrite <- E2.
  apply run_st_Ret in E3 as (d & E3 & ->). unfold launches. cbn.
  match type of E3 with saveProposal _ ?d0 = _ =>
    pose proof (saveProposal_launches p1 d0) as Hs end. by rewrite E3 in Hs.
Qed.

(** The stored row after a write by [wrote]. *)
Lemma wrote_row l p p1 w w' r :
  unique_launches (w_db w) → row_of (w_db w) (launch.l_ID l) = Some r → wrote l p p1 w w' →
  lr_version r = launch.l_Version l ∧
  (∃ l', launch_step l l' ∧ (saveLaunch l' (w_db w)).1 = Ok tt ∧
     launch_tables (w_db w') = launch_tables (saveLaunch l' (w_db w)).2 ∧
     row_of (w_db w') (launch.l_ID l)
     = Some (launch_cols l' (lr_created_at r) (launch.l_Version l + 1))) ∧
  ∀ id, id ≠ launch.l_ID l → row_of (w_db w') id = row_of (w_db w) id.
Proof.
  intros Hu Hr (l' & d1 & Hs & Hid & Hv & Htab & Hok & Hp & _).
  destruct (saveLaunch_tables l' _ _ Htab) as [Hok' Htab'].
  assert (db_launches d1 = db_launches (w_db w)) as Hd by (unfold launch_tables in Htab; congruence).
  pose proof (saveProposal_launches p1 (saveLaunch l' d1).2) as Hps.
  rewrite Hp in Hps. cbn [snd] in Hps.
  assert (∀ id, row_of d1 id = row_of (w_db w) id) as Hrow
    by (intros; unfold row_of; by rewrite Hd).
  assert (unique_launches d1) as Hu1 by (unfold unique_launches; by rewrite Hd).
  assert (∀ id, row_of (w_db w') id = row_of (saveLaunch l' d1).2 id) as Hrow'.
  { intros id. unfold row_of, launch_tables in Hps |- *. by injection Hps as -> _ _ _ _. }
  assert (row_of d1 (launch.l_ID l') = Some r) as Hr1 by (by rewrite Hid, Hrow).
  destruct (saveLaunch_rows l' d1 Hu1) as [[e E]|(_ & Hver & _ & Hother)];
    [rewrite E in Hok; done|].
  split_and!.
  - unfold version_at in Hver. rewrite Hr1 in Hver. cbn in Hver.
    destruct Hver as [[=]|[=]]. congruence.
  - exists l'. split_and!; [done|congruence|congruence|]. rewrite Hrow', <- Hid.
    rewrite (saveLaunch_row l' d1 r) by done. by rewrite Hv.
  - intros id Hne. rewrite Hrow', Hother by congruence. apply Hrow.
Qed.

(** C6. Refinement: what an executed proposal stores for its launch - the row,
    the committee with its members, the members list and the allocation files -
    is exactly what saving one step of the launch aggregate from the launch it
    was given writes to these tables, under the next version, provided the
    stored version was still the loaded one; the row of no other launch changes.
    A rejected validator changes none of these tables.  (Join requests are other
    tables, and may be another launch's: [cross_launch_approval].) *)
Theorem execution_refines_aggregate l p w p1 w' r :
  unique_launches (w_db w) → row_of (w_db w) (launch.l_ID l) = Some r →
  applyProposal cfg l p w = (Ret p1, w') →
  (proposal.p_ActionType p = payload.ActionRejectValidator ∧
   launch_tables (w_db w') = launch_tables (w_db w)) ∨
  (lr_version r = launch.l_Version l ∧
   (∃ l', launch_step l l' ∧ (saveLaunch l' (w_db w)).1 = Ok tt ∧
      launch_tables (w_db w') = launch_tables (saveLaunch l' (w_db w)).2 ∧
      row_of (w_db w') (launch.l_ID l)
      = Some (launch_cols l' (lr_created_at r) (launch.l_Version l + 1))) ∧
   ∀ id, id ≠ launch.l_ID l → row_of (w_db w') id = row_of (w_db w) id).
Proof.
  intros Hu Hr H.
  destruct (decide (proposal.p_ActionType p = payload.ActionRejectValidator)) as [E|E].
  - left. split; [done|]. unfold applyProposal in H. rewrite E in H.
    by apply reject_launches in H.
  - right. eapply wrote_row; [done|done|]. by apply apply_wrote.
Qed.

(** ** Publication of the genesis *)

(** The digest of the launch's current approved input set. *)
Definition current_hash (l : launch.Launch) (d : db) : result string :=
  match (findApprovedByLaunch (launch.l_ID l) d).1 with
  | Err e => Err e
  | Ok jrs => inputset.computeInputSetHash (inputset.chain_of (launch.l_Record l))
                (inputset.gentxs_of jrs) (inputset.allocs_of l)
  end.

Lemma Current_Ret l w h w' :
  inputset.Current l w = (Ret h, w') → current_hash l (w_db w) = Ok h ∧ w_db w' = w_db w.
Proof.
  unfold inputset.Current, inputset.Assemble, findApprovedByLaunch, current_hash.
  intros H. minv. cbn. by rewrite E0.
Qed.

Lemma fresh_Ret l w u w' :
  checkGenesisFresh l w = (Ret u, w') →
  current_hash l (w_db w) = Ok (launch.l_FinalGenesisInputSetHash l) ∧
  launch.l_FinalGenesisInputSetHash l ≠ ""%string ∧ w_db w' = w_db w.
Proof.
  unfold checkGenesisFresh. intros H. minv. apply Current_Ret in E0 as [Hc Hd].
  guards. subst. split_and!; [done|by apply is_empty_false|done].
Qed.

(** The newest stored rehearsal fact is a PASS for the given set. *)
Definition rehearsed (l : launch.Launch) (d : db) (h : string) : Prop :=
  launch.l_RehearsalServicePubKey l ≠ ""%string ∧
  ∃ res rest, (findResultsByLaunch (launch.l_ID l) d).1 = Ok (res :: rest) ∧
    rehearsal.re_Outcome res = rehearsal.OutcomePass ∧ rehearsal.re_InputSetHash res = h.

Lemma gate_Ret l w u w' :
  rehearsalGate cfg = rehearsal.RehearsalGateRequired →
  gateRehearsal cfg l w = (Ret u, w') →
  ∃ h, current_hash l (w_db w) = Ok h ∧ rehearsed l (w_db w) h.
Proof.
  unfold gateRehearsal. intros ->. rewrite bool_decide_eq_true_2 by done.
  intros H. minv. unfold latestRehearsal, findResultsByLaunch in E0.
  destruct (rehearsal.EvaluateRehearsalReady a0 a1) eqn:Ev; [done|].
  apply ready_iff in Ev as (res & -> & Hpass & Hh).
  destruct (has_results cfg); cbn [negb] in E0; minv; [|done].
  match goal with H : head ?rs = Some res |- _ => destruct rs as [|? rest]; [done|] end.
  simplify_eq/=.
  apply Current_Ret in E1 as [Hc _]. exists (rehearsal.re_InputSetHash res). split; [done|].
  split; [by apply is_empty_false|]. exists res, rest. cbn. split_and!; congruence.
Qed.

(** C2. A genesis is published only while it is current: the executed proposal
    names the uploaded file, the digest recorded at upload equals the digest of
    the chain record, approved gentxs and approved files of this moment, and
    under the required gate the newest rehearsal passed on exactly this set.
    The stored launch is then GENESIS_READY with that file. *)
Theorem published_genesis_is_current l p w p1 w' r :
  unique_launches (w_db w) → row_of (w_db w) (launch.l_ID l) = Some r →
  proposal.p_ActionType p = payload.ActionPublishGenesis →
  applyProposal cfg l p w = (Ret p1, w') →
  ∃ pl, json.unmarshal payload.dec_publish_genesis (proposal.p_Payload p) = Ok pl ∧
    payload.pg_GenesisHash pl = launch.l_FinalGenesisSHA256 l ∧
    current_hash l (w_db w) = Ok (launch.l_FinalGenesisInputSetHash l) ∧
    (rehearsalGate cfg = rehearsal.RehearsalGateRequired →
     rehearsed l (w_db w) (launch.l_FinalGenesisInputSetHash l)) ∧
    ∃ r', row_of (w_db w') (launch.l_ID l) = Some r' ∧
      lr_status r' = launch.StatusGenesisReady ∧
      lr_final_genesis_sha256 r' = launch.l_FinalGenesisSHA256 l.
Proof.
  intros Hu Hr Ha H. unfold applyProposal in H. rewrite Ha in H.
  unfold applyPublishGenesis in H. minv.
  apply fresh_Ret in E1 as (Hcur & _ & Hd1). guards.
  exists a. split_and!; [done|done|done| |].
  - intros Hreq. rewrite bool_decide_eq_true_2 in E2 by done.
    apply gate_Ret in E2 as (h & Hh & Hres); [|done]. rewrite Hd1 in *.
    rewrite Hcur in Hh. by simplify_eq.
  - apply (keeps_Ret w_db) in E2; [|apply keeps_if; [apply db_gate|apply keeps_ret]].
    rewrite Hd1 in E2.
    pose proof (lock_PublishGenesis _ _ _ _ E4) as [Hid Hv].
    apply saveBoth_Ret in H as (-> & Hok & Hsave). cbn in Hok, Hsave. rewrite E2 in Hok, Hsave.
    exists (launch_cols a4 (lr_created_at r) (launch.l_Version a4 + 1)).
    rewrite <- Hid in Hr |- *.
    split_and!.
    + unfold row_of. pose proof (saveProposal_launches p (saveLaunch a4 (w_db w)).2) as Hl.
      rewrite Hsave in Hl. injection Hl as -> _ _ _ _. by apply saveLaunch_row.
    + unfold launch.PublishGenesis in E4. crush_ok. by destruct l.
    + unfold launch.PublishGenesis in E4. crush_ok. by destruct l.
Qed.

(** ** Authentication *)

(** Everything a client can observe; a consumed nonce is not. *)
Definition visible (w : world) :=
  (with_nonces [] (w_db w), w_files w, w_audit w, w_published w).

(** The request is by a member of the launch's stored committee, signed with a
    key the verifier accepts for that address, over this document, with an
    unused nonce and a timestamp in the window. *)
Record authentic (lid : uuid) (doc : jdoc) (addr nonce ts sig pub : string) (w : world)
    (l : launch.Launch) (m : AccountID) : Prop := {
  au_launch : (findLaunch lid (w_db w)).1 = Ok l;
  au_addr : NewAccountID addr = Ok m;
  au_member : launch.HasMember (launch.l_Committee l) m = true;
  au_nonce : existsb (nonce_is addr nonce) (db_nonces (w_db w)) = false;
  au_time : ∃ t n, rfc3339.Parse ts = Ok t ∧ timestamp_ok (oracle_Now n) t = true;
  au_sig : ∃ msg sb, canonical_MarshalForSigning doc = Ok msg ∧
             base64.DecodeString sig = Ok sb ∧ pub ≠ ""%string ∧
             verifier_Verify addr pub msg sb = Ok tt }.

Lemma visible_Now : keeps visible Now.
Proof. by intros w. Qed.
Lemma visible_consume addr nonce : keeps visible (ConsumeNonce addr nonce).
Proof.
  unfold ConsumeNonce. apply keeps_bind; [apply visible_Now|intros now].
  apply keeps_bind; [apply visible_Now|intros now'].
  intros [d fl au pu t]. unfold run_st, consumeNonce, visible. cbn.
  destruct (existsb _ _); cbn; [done|by destruct d].
Qed.
Lemma visible_timestamp ts : keeps visible (validateTimestamp ts).
Proof.
  unfold validateTimestamp. pose proof visible_Now. keeps_tac.
Qed.
#[local] Hint Resolve visible_Now visible_consume visible_timestamp : coord.

Lemma visible_authenticate lid doc addr nonce ts sig pub :
  keeps visible (authenticate lid doc addr nonce ts sig pub).
Proof.
  unfold authenticate, decodeBase64Sig, verifyMemberSig. unfold findLaunch. keeps_tac.
Qed.

Lemma load_first_nonces p x d : load_first p (with_nonces x d) = load_first p d.
Proof. by destruct d. Qed.

Lemma consume_Ret addr nonce w u w' :
  ConsumeNonce addr nonce w = (Ret u, w') →
  existsb (nonce_is addr nonce) (db_nonces (w_db w)) = false ∧
  ∃ x, w_db w' = with_nonces x (w_db w).
Proof.
  unfold ConsumeNonce. intros H. minv. apply run_st_Ret in H as (d & H & ->).
  unfold consumeNonce in H. cbn in H. destruct (existsb _ _); [done|].
  injection H as _ <-. split; [done|]. eauto.
Qed.

Lemma timestamp_Ret ts w u w' :
  validateTimestamp ts w = (Ret u, w') →
  w_db w' = w_db w ∧ ∃ t n, rfc3339.Parse ts = Ok t ∧ timestamp_ok (oracle_Now n) t = true.
Proof.
  unfold validateTimestamp. intros H. destruct (is_empty ts); [done|].
  destruct (rfc3339.Parse ts) as [t|]; [|done]. minv. guards. eauto.
Qed.

Lemma authenticate_Ret lid doc addr nonce ts sig pub w l m w' :
  authenticate lid doc addr nonce ts sig pub w = (Ret (l, m), w') →
  authentic lid doc addr nonce ts sig pub w l m ∧ ∃ x, w_db w' = with_nonces x (w_db w).
Proof.
  unfold authenticate, decodeBase64Sig, verifyMemberSig. intros H. minv.
  apply consume_Ret in E as [Hn [x Hx]]. apply timestamp_Ret in E0 as [Ht Hts].
  unfold findLaunch in *. minv. simplify_eq. guards.
  split; [|exists x; congruence].
  rewrite Ht, Hx, load_first_nonces in E3.
  split; [done|done|done|done|done|].
  destruct a6. eexists _, _. split_and!; [done..| |done]. by apply is_empty_false.
Qed.

Lemma bind_visible {A B} (m : M A) (f : A → M B) w (P : Prop) :
  keeps visible m → (∀ a w1, m w = (Ret a, w1) → P) →
  visible ((m ≫= f) w).2 = visible w ∨ P.
Proof.
  intros Hm HP. specialize (Hm w). unfold mbind, M_bind.
  destruct (m w) as [[a|e| |] w1]; eauto.
Qed.

Lemma bind_assoc {A B C} (m : M A) (f : A → M B) (g : B → M C) w :
  ((m ≫= f) ≫= g) w = (m ≫= λ a, f a ≫= g) w.
Proof. unfold mbind, M_bind. by destruct (m w) as [[] w1]. Qed.

(** C5. Only committee members act: a [Raise] or [Sign] request either changes
    nothing a client can observe, or it is authentic: sent by a member of the
    launch's committee, with a signature the verifier accepts for that address
    over the request, an unused nonce and a timestamp in the window. *)
Theorem only_members_act lid pid (ri : RaiseInput) (si : SignInput) w :
  (visible (Raise cfg lid ri w).2 = visible w ∨
   ∃ l m, authentic lid (raise_doc ri) (ra_MemberAddr ri) (ra_Nonce ri) (ra_Timestamp ri)
            (ra_Signature ri) (ra_PubKeyB64 ri) w l m) ∧
  (visible (Sign cfg lid pid si w).2 = visible w ∨
   ∃ l m, authentic lid (sign_doc si) (si_MemberAddr si) (si_Nonce si) (si_Timestamp si)
            (si_Signature si) (si_PubKeyB64 si) w l m).
Proof.
  split.
  - unfold Raise. apply bind_visible; [apply visible_authenticate|].
    intros [l m] w1 E. exists l, m. by apply authenticate_Ret in E as [].
  - unfold Sign, sign_load. rewrite bind_assoc.
    apply bind_visible; [apply visible_authenticate|].
    intros [l m] w1 E. exists l, m. by apply authenticate_Ret in E as [].
Qed.

End service_props.

(** ** Concrete executions *)
Module service_samples.
Import samples fixtures proposal_samples.

(** Launch 1 after its window closed, with an uploaded genesis recorded for
    the current input set and a passing rehearsal of that set. *)
Definition current_digest : string := sha256.hex_sum "message".
Definition closed : launch.Launch :=
  let l := some_launch 1%N "chain-1" launch.StatusWindowClosed [alice; bob; carol] 1 in
  launch.mkLaunch (launch.l_ID l) (launch.l_Record l) (launch.l_LaunchType l)
    (launch.l_Allowlist l) (launch.l_Status l) (launch.l_Committee l)
    hash64 hash64' current_digest [] "" "service-key" "" t0 t0 0 ∅.
Definition passed : rehearsal.RehearsalResult :=
  rehearsal.mkResult 70%N 71%N 1%N current_digest rehearsal.OutcomePass "" "" [] "" "" "" ""
    4 10 t0 t0 "service-key" "sig" false t0.
Definition closed_db : db :=
  (saveResult passed (saveLaunch closed empty_db).2).2.
Definition closed_world : world := world_of closed_db.
Definition cfg_required : Config := mkConfig rehearsal.RehearsalGateRequired true.

Definition publication : proposal.Proposal :=
  proposal.mkProposal 9%N 1%N payload.ActionPublishGenesis (obj "genesis_hash" hash64') alice t0
    (t0 + day) proposal.StatusExecuted (Some t0) [] [].
Definition cancellation : proposal.Proposal :=
  proposal.mkProposal 9%N 1%N payload.ActionCancelLaunch "{}" alice t0 (t0 + day)
    proposal.StatusExecuted (Some t0) [] [].

Lemma execution_atomic_and_audited_witness :
  ∃ rest, audited (applyAndSave cfg_off closed cancellation closed_world).2
          = [] ++ intent_event cancellation :: rest.
Proof.
  destruct (execution_atomic_and_audited cfg_off closed cancellation closed_world _ _
    (surjective_pairing _)) as (_ & H & _).
  apply H. intros E. apply (f_equal (λ d, length (db_proposals d))) in E.
  vm_compute in E. discriminate E.
Defined.

Lemma execution_refines_aggregate_witness :
  ∃ l', launch_step closed l' ∧
    row_of (w_db (applyProposal cfg_off closed cancellation closed_world).2) 1%N
    = Some (launch_cols l' (timeToStr t0) 1).
Proof.
  edestruct (execution_refines_aggregate cfg_off closed cancellation closed_world) as [[H _]|H].
  - apply (bool_decide_eq_true_1 (NoDup _)). vm_compute. reflexivity.
  - vm_compute. reflexivity.
  - vm_compute. reflexivity.
  - discriminate H.
  - destruct H as (_ & (l' & Hs & _ & _ & Hr) & _). exists l'. split; [exact Hs|].
    etransitivity; [|exact Hr]. reflexivity.
Defined.

Lemma pair_Ret {A} (x : outcome A * world) a : x.1 = Ret a → x = (Ret a, x.2).
Proof. destruct x; cbn. by intros ->. Qed.

Lemma published_genesis_is_current_witness :
  rehearsed closed closed_db current_digest ∧
  ∃ r', row_of (w_db (applyProposal cfg_required closed publication closed_world).2) 1%N
          = Some r' ∧
    lr_status r' = launch.StatusGenesisReady ∧ lr_final_genesis_sha256 r' = hash64'.
Proof.
  edestruct (published_genesis_is_current cfg_required closed publication closed_world)
    as (pl & _ & _ & _ & Hg & Hr).
  - apply (bool_decide_eq_true_1 (NoDup _)). vm_compute. reflexivity.
  - vm_compute. reflexivity.
  - reflexivity.
  - apply pair_Ret. vm_compute. reflexivity.
  - split; [apply Hg; reflexivity|exact Hr].
Defined.
End service_samples.
