(* ===== verification/JoinRequestProps.v ===== *)
(** * Correctness of join request submission *)

From S2P Require Import Prelude GoStd GoTime Values LaunchAgg Fixtures Json Events Payload.
From S2P Require Import Proposal ProposalProps JoinRequest Store StoreProps World WorldProps.
From S2P Require Import ProposalService ServiceSamples ProposalServiceProps JoinRequestService.
Import sqlite joinrequests.
#[global] Open Scope Z_scope.

Section submit.
Context `{B32 : Bech32} `{NU : NetURL} `{UT : UUIDText} `{CJ : CanonicalJSON}
        `{SVr : SignatureVerifier} `{GV : GentxValidator} `{O : Oracle}.

#[local] Hint Resolve visible_Now visible_consume visible_timestamp : coord.

(** What a request must be to have an effect: authentic, from somebody who
    may see the launch, with a gentx that passes the invariants, while the
    launch takes applications. *)
Record admissible (lid : uuid) (i : SubmitInput) (w : world) (l : launch.Launch)
    (m : AccountID) (key : string) (v : AccountID) : Prop := {
  ad_launch : (findLaunch lid (w_db w)).1 = Ok l;
  ad_addr : NewAccountID (su_OperatorAddress i) = Ok m;
  ad_visible : launch.IsVisibleToAddr l m = true;
  ad_nonce : existsb (nonce_is (su_OperatorAddress i) (su_Nonce i)) (db_nonces (w_db w)) = false;
  ad_time : ∃ t n, rfc3339.Parse (su_Timestamp i) = Ok t ∧ timestamp_ok (oracle_Now n) t = true;
  ad_sig : ∃ msg sb, canonical_MarshalForSigning (submit_doc i) = Ok msg ∧
             base64.DecodeString (su_Signature i) = Ok sb ∧
             verifier_Verify (su_OperatorAddress i) (su_PubKeyB64 i) msg sb = Ok tt;
  ad_gentx : ∃ rs va, gentx_Validate (default ""%string (su_GentxJSON i)) (gentx_params l)
                   = mkOutcome rs true key va ∧ NewAccountID va = Ok v;
  ad_open : launch.l_Status l = launch.StatusWindowOpen;
  ad_deadline : ∃ n, oracle_Now n ≤ launch.r_GentxDeadline (launch.l_Record l);
  ad_cap : ∃ n, (countBySubmitter lid (su_OperatorAddress i) (w_db w)).1 = Ok n ∧ n < 50 }.

Lemma visible_auth i : keeps visible (verifyRequestAuth i).
Proof. unfold verifyRequestAuth, decodeBase64Sig. keeps_tac. Qed.
#[local] Hint Resolve visible_auth : coord.

Lemma visible_admit lid i : keeps visible (admit_submission lid i).
Proof. unfold admit_submission, findLaunch, countBySubmitter. keeps_tac. Qed.

Lemma auth_Ret i w u w' :
  verifyRequestAuth i w = (Ret u, w') →
  existsb (nonce_is (su_OperatorAddress i) (su_Nonce i)) (db_nonces (w_db w)) = false ∧
  (∃ t n, rfc3339.Parse (su_Timestamp i) = Ok t ∧ timestamp_ok (oracle_Now n) t = true) ∧
  (∃ msg sb, canonical_MarshalForSigning (submit_doc i) = Ok msg ∧
     base64.DecodeString (su_Signature i) = Ok sb ∧
     verifier_Verify (su_OperatorAddress i) (su_PubKeyB64 i) msg sb = Ok tt) ∧
  ∃ x, w_db w' = with_nonces x (w_db w).
Proof.
  unfold verifyRequestAuth, decodeBase64Sig. intros H. minv.
  apply consume_Ret in E as [Hn [x Hx]]. apply timestamp_Ret in E0 as [Ht Hts].
  destruct u. split_and!; [done|done|eauto 10|]. exists x. congruence.
Qed.

Lemma admit_Ret lid i w m key v w' :
  admit_submission lid i w = (Ret (m, key, v), w') →
  ∃ l, admissible lid i w l m key v ∧ ∃ x, w_db w' = with_nonces x (w_db w).
Proof.
  unfold admit_submission, findLaunch, countBySubmitter. intros H. minv.
  apply auth_Ret in E as (Hn & Ht & Hs & x & Hx).
  destruct a3 as [key' va]. minv. simplify_eq. guards.
  unfold validateGentx in E3. destruct (negb _) eqn:Eg; [done|]. guards.
  injection E3 as E3 E3'.
  unfold launch.EnsureOpenForApplications in E4. destruct (negb _) eqn:Eo in E4; [done|]. guards.
  exists a0. split; [|exists x; exact Hx].
  constructor; try done.
  - unfold findLaunch, query. cbn. by rewrite <- E0, Hx, load_first_nonces.
  - destruct (gentx_Validate _ _) as [rs ok ck cv] eqn:Ego; cbn in *. subst. exists rs, va. by split.
  - unfold time.After in *. eexists. by apply Z.ltb_ge.
  - eexists. split; [|done]. rewrite <- E7. cbn. rewrite Hx. by destruct (w_db w).
Qed.

(** ** What a submission writes *)

(** The row marked EXPIRED, and the rows of a launch after the pending request
    of a validator is superseded. *)
Definition expire_row (r : jr_row) : jr_row :=
  mkJrRow (jw_id r) (jw_launch_id r) (jw_operator_address r) (jw_consensus_pubkey r)
    (jw_gentx_json r) (jw_peer_address r) (jw_rpc_endpoint r) (jw_memo r)
    (jw_submitted_at r) (jw_operator_signature r) joinrequest.StatusExpired
    (jw_rejection_reason r) (jw_approved_by_proposal r) (jw_self_delegation_amount r)
    (jw_submitter_address r).
Definition pending_of (lid : uuid) (op : string) (r : jr_row) : bool :=
  is_id jw_launch_id lid r && is_str jw_operator_address op r
  && bool_decide (jw_status r = joinrequest.StatusPending).
Definition superseded (lid : uuid) (op : string) (rows : list jr_row) : list jr_row :=
  (λ r, if pending_of lid op r then expire_row r else r) <$> rows.

Lemma superseded_ids lid op rows : jw_id <$> superseded lid op rows = jw_id <$> rows.
Proof.
  unfold superseded. rewrite <- list_fmap_compose. apply map_ext. intros r. unfold compose.
  by destruct (pending_of lid op r).
Qed.

Lemma activeRequest_Ret lid v w o w' :
  activeRequest lid v w = (Ret o, w') →
  w' = w ∧ ∀ jr, o = Some jr → ∃ r, r ∈ db_jrs (w_db w) ∧ scanJoinRequest r = Ok jr ∧
    jw_launch_id r = lid ∧ jw_operator_address r = account_String v.
Proof.
  unfold activeRequest. intros H.
  destruct (run_st _ w) as [[jr|e| |] w1] eqn:E; try done.
  - injection H as <- <-. unfold findActiveByValidator in E. apply query_Ret in E as [E ->].
    split; [done|]. intros jr' [= <-].
    destruct (order_by_desc jw_submitted_at _) as [|r l] eqn:Er in E; [done|].
    exists r. assert (r ∈ r :: l) as Hin by apply list_elem_of_here.
    rewrite <- Er in Hin. unfold order_by_desc in Hin.
    rewrite merge_sort_Permutation in Hin.
    apply list_elem_of_In, filter_In in Hin as [Hin Hf]. split; [by apply list_elem_of_In|].
    split; [exact E|]. apply andb_true_iff in Hf as [[Hl Ho]%andb_true_iff _].
    by apply bool_decide_eq_true in Hl, Ho.
  - destruct (errors_Is e ErrNotFound); [|done]. injection H as <- <-.
    assert (w1 = w) as ->; [|by split].
    unfold findActiveByValidator, run_st, query in E. cbn in E. destruct (scan_first _ _); [done|].
    injection E as _ <-. by destruct w.
Qed.

Lemma scan_fields r jr : scanJoinRequest r = Ok jr →
  joinrequest.j_ID jr = jw_id r ∧ joinrequest.j_Status jr = jw_status r ∧
  joinrequest.j_RejectionReason jr = jw_rejection_reason r ∧
  joinrequest.j_ApprovedByProposal jr = jw_approved_by_proposal r.
Proof.
  unfold scanJoinRequest. intros H.
  repeat (apply result_bind_Ok in H as (? & _ & H)). by injection H as <-.
Qed.

Lemma db_jrs_with x d : db_jrs (with_jrs x d) = x.
Proof. by destruct d. Qed.

(** Superseding expires one pending row, or nothing. *)
Lemma supersede_Ret lid v w u w' :
  NoDup (jw_id <$> db_jrs (w_db w)) →
  supersedePending lid v w = (Ret u, w') →
  w_db w' = w_db w ∨
  ∃ r0, r0 ∈ db_jrs (w_db w) ∧ pending_of lid (account_String v) r0 = true ∧
    w_db w' = with_jrs ((λ r, if bool_decide (jw_id r = jw_id r0) then expire_row r else r)
                          <$> db_jrs (w_db w)) (w_db w).
Proof.
  intros Hnd H. unfold supersedePending in H.
  apply bind_Ret in H as (o & w1 & E & H). apply activeRequest_Ret in E as [-> Ho].
  destruct o as [jr|]; [|minv; by left].
  destruct (Ho jr eq_refl) as (r & Hr & Hscan & Hl & Hop). right.
  destruct (scan_fields r jr Hscan) as (Hid & Hst & Hrr & Hap).
  destruct (joinrequest.j_Status jr) eqn:Es; [|done|done|done].
  minv. unfold joinrequest.Expire in E. rewrite Es in E. cbn in E. injection E as <-.
  apply run_st_Ret in H as (d & H & ->). cbn [w_db set_db].
  unfold saveJoinRequest in H. cbn [jw_id jr_cols joinrequest.j_ID joinrequest.set_state] in H.
  rewrite Hid in H. rewrite (unique_first jw_id _ r Hnd Hr) in H.
  destruct (existsb _ _); [done|]. injection H as _ <-.
  exists r. split; [done|]. split.
  { unfold pending_of, is_id, is_str. rewrite <- Hst.
    by rewrite !bool_decide_true by done. }
  cbn [w_db]. f_equal. unfold update. apply map_ext_in. intros r' Hr'%list_elem_of_In.
  unfold is_id. case_bool_decide as Heq; [|done].
  assert (r' = r) as ->.
  { pose proof (unique_first jw_id _ r' Hnd Hr') as H1. rewrite Heq in H1.
    rewrite (unique_first jw_id _ r Hnd Hr) in H1. by injection H1. }
  unfold jr_set, expire_row. cbn. by rewrite Hrr, Hap.
Qed.

(** A saved new request clashes with no row, and is appended. *)
Lemma save_new_Ret jr w u w' :
  existsb (is_id jw_id (joinrequest.j_ID jr)) (db_jrs (w_db w)) = false →
  run_st (saveJoinRequest jr) w = (Ret u, w') →
  existsb (clashes (jr_cols (w_db w) jr)) (db_jrs (w_db w)) = false ∧
  w' = set_db (with_jrs (db_jrs (w_db w) ++ [jr_cols (w_db w) jr]) (w_db w)) w.
Proof.
  intros Hf H. apply run_st_Ret in H as (d & H & ->). unfold saveJoinRequest in H.
  destruct (first _ _) as [old|] eqn:E.
  - exfalso. unfold first in E. apply find_some in E as [Hin Hp].
    assert (existsb (is_id jw_id (joinrequest.j_ID jr)) (db_jrs (w_db w)) = true); [|congruence].
    apply existsb_exists. eauto.
  - destruct (existsb (clashes _) _) eqn:Hc; [done|]. cbn [orb] in H.
    destruct (negb _); [done|]. injection H as _ <-. done.
Qed.

Lemma existsb_false_In {A} (f : A → bool) l x : existsb f l = false → x ∈ l → f x = false.
Proof. apply existsb_false. Qed.

(** The rows before the insert are the old rows with the validator's pending
    request expired, whichever way superseding went. *)
Lemma superseded_rows lid op new rows rows1 :
  NoDup (jw_id <$> rows) →
  existsb (is_id jw_id (jw_id new)) rows = false →
  jw_launch_id new = lid → jw_operator_address new = op → active new = true →
  existsb (clashes new) rows1 = false →
  (rows1 = rows ∨ ∃ r0, r0 ∈ rows ∧ pending_of lid op r0 = true ∧
     rows1 = (λ r, if bool_decide (jw_id r = jw_id r0) then expire_row r else r) <$> rows) →
  rows1 = superseded lid op rows.
Proof.
  intros Hnd Hfresh Hl Ho Ha Hc Hrows.
  assert (Hno : ∀ r, r ∈ rows → r ∈ rows1 → pending_of lid op r = false).
  { intros r Hr Hr1. destruct (pending_of lid op r) eqn:Hp; [exfalso|done].
    unfold pending_of in Hp. apply andb_true_iff in Hp as [[H1 H2]%andb_true_iff H3].
    pose proof (existsb_false _ _ _ Hc Hr1) as Hcl. unfold clashes in Hcl.
    pose proof (existsb_false _ _ _ Hfresh Hr) as Hid.
    rewrite Hl, Ho, Ha, H1, H2 in Hcl. unfold active in Hcl. rewrite H3 in Hcl.
    rewrite Hid in Hcl. cbn in Hcl. rewrite orb_true_r in Hcl. done. }
  destruct Hrows as [-> |(r0 & Hr0 & Hp0 & ->)]; unfold superseded; symmetry.
  - rewrite <- (list_fmap_id rows) at 2. apply map_ext_in. intros r Hr%list_elem_of_In.
    by rewrite Hno.
  - apply map_ext_in. intros r Hr%list_elem_of_In. case_bool_decide as Heq.
    + assert (r = r0) as ->; [|by rewrite Hp0].
      pose proof (unique_first jw_id _ r Hnd Hr) as H1. rewrite Heq in H1.
      rewrite (unique_first jw_id _ r0 Hnd Hr0) in H1. by injection H1.
    + rewrite Hno; [done|done|]. apply list_elem_of_fmap. exists r.
      by rewrite bool_decide_false.
Qed.

Lemma countKey_keeps lid k : keeps w_db (run_st (countByConsensusPubKey lid k)).
Proof. apply keeps_query. Qed.

Lemma w_db_emit scope ev w : w_db (emit scope ev w).2 = w_db w.
Proof. apply db_emit. Qed.

Lemma jr_cols_with rows d jr : jr_cols (with_jrs rows d) jr = jr_cols d jr.
Proof. by destruct d. Qed.

Lemma store_Ret lid i m key v w jr w' :
  NoDup (jw_id <$> db_jrs (w_db w)) →
  (∀ n, existsb (is_id jw_id (oracle_uuid n)) (db_jrs (w_db w)) = false) →
  store_submission lid i m key v w = (Ret jr, w') →
  (∃ n t peer rpc sig, jr = joinrequest.New (oracle_uuid n) lid v m (default ""%string (su_GentxJSON i))
     peer rpc (su_Memo i) sig key t) ∧
  let new := jr_cols (w_db w) jr in
  let rows := superseded lid (account_String v) (db_jrs (w_db w)) in
  w_db w' = with_jrs (rows ++ [new]) (w_db w) ∧ existsb (clashes new) rows = false.
Proof.
  intros Hnd Hfresh H. unfold store_submission, countByConsensusPubKey in H. minv.
  rename E into Hsup.
  destruct a0 as [[peer rpc] sig]. minv.
  split; [by eexists _, _, _, _, _|]. cbn zeta.
  set (jr := joinrequest.New _ _ _ _ _ _ _ _ _ _ _) in *.
  apply (supersede_Ret _ _ _ _ _ Hnd) in Hsup.
  pose proof (w_db_emit (uuid_String lid) (domain.event (domain.Sys
    (domain.JoinRequestSubmitted lid (joinrequest.j_ID jr)
      (account_String (joinrequest.j_OperatorAddress jr))
      (account_String (joinrequest.j_SubmitterAddress jr))))) w5) as Hdb.
  rewrite E5 in Hdb. cbn [snd] in Hdb. rewrite Hdb. clear E5 Hdb E2 E3.
  set (rows1 := db_jrs (w_db w0)).
  assert (Hrows : rows1 = db_jrs (w_db w) ∨ ∃ r0, r0 ∈ db_jrs (w_db w) ∧
    pending_of lid (account_String v) r0 = true ∧
    rows1 = (λ r, if bool_decide (jw_id r = jw_id r0) then expire_row r else r)
              <$> db_jrs (w_db w)).
  { destruct Hsup as [Hs|(r0 & H1 & H2 & Hs)]; unfold rows1; rewrite Hs; [by left|right].
    exists r0. by rewrite db_jrs_with. }
  assert (Hd0 : w_db w0 = with_jrs rows1 (w_db w)).
  { destruct Hsup as [Hs|(r0 & H1 & H2 & Hs)]; unfold rows1; rewrite Hs.
    - by destruct (w_db w).
    - by rewrite db_jrs_with. }
  assert (Hfresh1 : existsb (is_id jw_id (joinrequest.j_ID jr)) rows1 = false).
  { assert (jw_id <$> rows1 = jw_id <$> db_jrs (w_db w)) as Hids.
    { destruct Hrows as [-> |(r0 & _ & _ & ->)]; [done|]. rewrite <- list_fmap_compose.
      apply map_ext. intros r. unfold compose. by case_bool_decide. }
    apply not_true_iff_false. rewrite existsb_id, Hids, <- existsb_id.
    apply not_true_iff_false, Hfresh. }
  apply save_new_Ret in E4 as [Hc ->]; [|exact Hfresh1].
  cbn [w_db set_db tick] in Hc |- *. fold rows1 in Hc |- *.
  rewrite Hd0 in Hc |- *. rewrite jr_cols_with in Hc |- *.
  assert (Hs : rows1 = superseded lid (account_String v) (db_jrs (w_db w))).
  { apply (superseded_rows _ _ (jr_cols (w_db w) jr)); try done. apply Hfresh. }
  rewrite <- Hs. split; [by destruct (w_db w)|done].
Qed.

(** C10. Submission of a join request.  A request that changes anything a client
    can observe is admissible: signed by an account that may see the launch,
    with an unused nonce and a fresh timestamp, carrying a gentx that passes
    the invariants for this launch, while the window is open, before the
    deadline and under the submitter's cap.  A submission that succeeds writes
    exactly one row: the request for the validator and consensus key of the
    verified gentx, PENDING; the validator's earlier pending request becomes
    EXPIRED, every other row stays, and the new request is the only active one
    of its launch with that validator or that key. *)
Theorem submission_admitted lid i w :
  (visible (Submit lid i w).2 = visible w ∨ ∃ l m key v, admissible lid i w l m key v) ∧
  ∀ jr w', wf_db (w_db w) →
    (∀ n, existsb (is_id jw_id (oracle_uuid n)) (db_jrs (w_db w)) = false) →
    Submit lid i w = (Ret jr, w') →
    ∃ l m key v n t peer rpc sig x,
      admissible lid i w l m key v ∧
      jr = joinrequest.New (oracle_uuid n) lid v m (default ""%string (su_GentxJSON i)) peer rpc
             (su_Memo i) sig key t ∧
      w_db w' = with_nonces x (with_jrs
        (superseded lid (account_String v) (db_jrs (w_db w)) ++ [jr_cols (w_db w) jr]) (w_db w)) ∧
      ∀ r, r ∈ db_jrs (w_db w') → active r = true → jw_launch_id r = lid →
        jw_operator_address r = account_String v ∨ jw_consensus_pubkey r = key →
        r = jr_cols (w_db w) jr.
Proof.
  split.
  { unfold Submit. apply bind_visible; [apply visible_admit|].
    intros [[m key] v] w1 E. apply admit_Ret in E as (l & Ha & _). eauto. }
  intros jr w' Hwf Hfresh H. unfold Submit in H.
  apply bind_Ret in H as ([[m key] v] & w1 & E & H).
  apply admit_Ret in E as (l & Ha & x & Hx).
  assert (Hj : db_jrs (w_db w1) = db_jrs (w_db w)) by (rewrite Hx; by destruct (w_db w)).
  assert (Hc : ∀ j, jr_cols (w_db w1) j = jr_cols (w_db w) j)
    by (intros j; rewrite Hx; by destruct (w_db w)).
  apply store_Ret in H; [|rewrite Hj; apply Hwf|by rewrite Hj].
  cbn zeta in H. rewrite Hj, Hc in H.
  destruct H as ((n & t & peer & rpc & sig & Hjr) & Hdb & Hcl).
  exists l, m, key, v, n, t, peer, rpc, sig, x. split; [done|]. split; [done|].
  split; [rewrite Hdb, Hx; by destruct (w_db w)|].
  intros r Hr Hact Hl Hor. rewrite Hdb, db_jrs_with in Hr.
  apply elem_of_app in Hr as [Hr|Hr%list_elem_of_singleton]; [exfalso|done].
  pose proof (existsb_false _ _ _ Hcl Hr) as Hf. unfold clashes in Hf.
  assert (is_id jw_id (jw_id (jr_cols (w_db w) jr)) r = false) as Hid.
  { subst jr. cbn [jr_cols jw_id joinrequest.j_ID joinrequest.New].
    apply not_true_iff_false. intros E%bool_decide_eq_true. specialize (Hfresh n).
    apply not_true_iff_false in Hfresh. apply Hfresh. rewrite existsb_id.
    rewrite <- (superseded_ids lid (account_String v)), <- E. by apply list_elem_of_fmap_2. }
  rewrite Hid, Hact in Hf. subst jr. unfold is_id, is_str in Hf. cbn in Hf.
  rewrite Hl, bool_decide_true in Hf by done. cbn in Hf.
  apply orb_false_iff in Hf as [H1%bool_decide_eq_false H2%bool_decide_eq_false].
  by destruct Hor.
Qed.
End submit.

(** ** Concrete submissions *)
Module submit_samples.
Import samples fixtures proposal_samples.

(** Every gentx passes; it is dave's, with consensus key ["key2"]. *)
#[local] Instance toy_gentx : GentxValidator := {|
  gentx_Validate := λ _ _, mkOutcome [] true "key2" (account_String dave) |}.

Definition submit_by_dave (peer_addr : string) : SubmitInput :=
  mkSubmit "chain-2" (account_String dave) "ok" (Some "{}"%string) peer_addr "" "memo"
    (rfc3339.Format t0) "n1" sig64.

Definition open_world : world := world_of (install 2 launch.StatusWindowOpen).

Lemma open_wf : wf_db (w_db open_world).
Proof.
  unfold open_world, world_of, install. cbn [w_db].
  apply wf_saveJoinRequest, wf_saveLaunch, wf_saveLaunch, wf_empty.
Qed.

Definition resubmitted : outcome joinrequest.JoinRequest * world :=
  Submit 2%N (submit_by_dave peer) open_world.

Lemma submission_admitted_witness :
  ∃ jr, resubmitted.1 = Ret jr ∧
    ∀ r, r ∈ db_jrs (w_db resubmitted.2) → active r = true → jw_launch_id r = 2%N →
      jw_consensus_pubkey r = "key2"%string → r = jr_cols (w_db open_world) jr.
Proof.
  destruct resubmitted as [[jr|e| |] w'] eqn:E;
    try (exfalso; apply (f_equal fst) in E; vm_compute in E; discriminate E).
  exists jr. split; [reflexivity|]. cbn [snd].
  destruct (submission_admitted 2%N (submit_by_dave peer) open_world) as [_ H].
  destruct (H jr w' open_wf) as (l & m & key & v & n & t & p & rpc & sig & x & Ha & _ & _ & Hr).
  - intros n. apply not_true_iff_false. rewrite existsb_id. intros Hin.
    assert (jw_id <$> db_jrs (w_db open_world) = [50%N]) as Hids by (vm_compute; reflexivity).
    rewrite Hids in Hin. apply list_elem_of_singleton in Hin.
    change (1000 + N.of_nat n = 50)%N in Hin. lia.
  - exact E.
  - intros r H1 H2 H3 H4. apply (Hr r H1 H2 H3). right. rewrite H4.
    destruct (ad_gentx _ _ _ _ _ _ _ Ha) as (rs & va & Hg & _). vm_compute in Hg. congruence.
Defined.

(** The peer address is checked after the earlier request was expired, and
    nothing undoes that: the refused resubmission withdraws the validator. *)
Definition refused : outcome joinrequest.JoinRequest * world :=
  Submit 2%N (submit_by_dave "nowhere") open_world.

Lemma refused_resubmission_withdraws :
  refused.1 = Fail [ErrBadRequest] ∧
  request_status (w_db open_world) 50%N = Some joinrequest.StatusPending ∧
  request_status (w_db refused.2) 50%N = Some joinrequest.StatusExpired ∧
  length (db_jrs (w_db refused.2)) = length (db_jrs (w_db open_world)).
Proof. vm_compute. auto. Qed.

End submit_samples.
