(* ===== verification/ReadinessProps.v ===== *)
(** * Correctness of readiness confirmation and of the dashboard

    The dashboard decides the BFT threshold in double precision: the two
    roundings of [confirmed/total * 100] never change the verdict of the exact
    rational comparison while the stakes add up to at most 2^53. *)

From S2P Require Import Prelude GoStd GoTime GoFloat Values LaunchAgg Fixtures VotingPower.
From S2P Require Import Events Payload Proposal ProposalProps JoinRequest Rehearsal Store StoreProps World WorldProps.
From S2P Require Import ProposalService ServiceSamples ProposalServiceProps ReadinessService.
Import sqlite readiness.
#[global] Open Scope Z_scope.

(** ** Rounding to the neighbouring double *)

Lemma nearest_even_below_half s (k : Z) :
  (s < inject_Z k + (1 # 2))%Q → (nearest_even s ≤ k)%Z.
Proof.
  intros H. destruct (nearest_even_bounds s) as [[_ H2] _].
  pose proof (Qfloor_le s) as Hf.
  assert (Qfloor s < k + 1) as Hk.
  { rewrite Zlt_Qlt, inject_Z_plus. eapply Qle_lt_trans; [exact Hf|].
    eapply Qlt_trans; [exact H|]. apply Qplus_lt_r. reflexivity. }
  destruct (Z.eq_dec (Qfloor s) k) as [E|]; [|lia].
  unfold nearest_even. rewrite E.
  destruct (Qcompare_spec (s - inject_Z k) (1 # 2)) as [C|C|C]; [| lia |]; exfalso;
    (apply (Qlt_not_le _ _ H); apply (Qle_trans _ (inject_Z k + (s - inject_Z k))));
    [apply Qplus_le_r; rewrite C; apply Qle_refl|apply Qle_lteq; right; ring
    |apply Qplus_le_r, Qlt_le_weak, C|apply Qle_lteq; right; ring].
Qed.

(** The double [m * 2^f], with a full 53-bit mantissa. *)
Definition double (m f : Z) : Q := (inject_Z m * pow2 f)%Q.

Lemma double_representable m f :
  0 ≤ m ≤ 2 ^ 53 → f64_emin ≤ f → representable f64_prec f64_emin (double m f).
Proof. intros Hm Hf. by exists m, f. Qed.

Lemma double_scale x m f :
  (x * pow2 (- f) < inject_Z m)%Q ↔ (x < double m f)%Q.
Proof.
  unfold double. rewrite <- (Qmult_lt_r _ _ (pow2 f)) by apply pow2_pos.
  rewrite <- Qmult_assoc, <- pow2_add, Z.add_opp_diag_l.
  change (pow2 0) with 1%Q. by rewrite Qmult_1_r.
Qed.

(** The rounding exponent between two neighbours. *)
Lemma neighbour_expo x m f :
  2 ^ 52 ≤ m < 2 ^ 53 → (double m f < x)%Q → (x < double (m + 1) f)%Q → expo x = f + 52.
Proof.
  intros Hm Hlo Hhi.
  assert (pow2 (f + 52) <= double m f)%Q as H1.
  { rewrite (pow2_multiple f 52) by lia. apply Qmult_le_r; [apply pow2_pos|].
    rewrite <- Zle_Qle. lia. }
  assert (double (m + 1) f <= pow2 (f + 53))%Q as H2.
  { rewrite (pow2_multiple f 53) by lia. apply Qmult_le_r; [apply pow2_pos|].
    rewrite <- Zle_Qle. lia. }
  assert (0 < x)%Q as Hx.
  { eapply Qlt_trans; [|exact Hlo]. eapply Qlt_le_trans; [apply pow2_pos|exact H1]. }
  destruct (expo_spec x Hx) as [He1 He2].
  assert (pow2 (f + 52) < pow2 (expo x + 1))%Q as L1.
  { eapply Qle_lt_trans; [exact H1|]. eapply Qlt_trans; [exact Hlo|exact He2]. }
  assert (pow2 (expo x) < pow2 (f + 53))%Q as L2.
  { eapply Qle_lt_trans; [exact He1|]. eapply Qlt_le_trans; [exact Hhi|exact H2]. }
  apply pow2_lt_inv in L1, L2. lia.
Qed.

(** Above the midpoint below a double, rounding reaches it; below the
    midpoint above it, rounding does not exceed it. *)
Lemma round53_up x m f :
  2 ^ 52 ≤ m < 2 ^ 53 → f64_emin ≤ f → (double (2 * m + 1) (f - 1) < x)%Q →
  (double (m + 1) f <= round_pos f64_prec f64_emin x)%Q.
Proof.
  intros Hm Hf Hx.
  assert (double m f < double (2 * m + 1) (f - 1))%Q as Hmid.
  { unfold double. replace f with (1 + (f - 1)) at 1 by lia. rewrite pow2_add, Qmult_assoc.
    apply Qmult_lt_r; [apply pow2_pos|]. change (pow2 1) with (inject_Z 2).
    rewrite <- inject_Z_mult, <- Zlt_Qlt. lia. }
  pose proof (Qlt_trans _ _ _ Hmid Hx) as Hlo.
  assert (0 < x)%Q as Hpos.
  { eapply Qle_lt_trans; [|exact Hlo]. unfold double.
    apply Qmult_le_0_compat; [|apply Qlt_le_weak, pow2_pos].
    change 0%Q with (inject_Z 0). rewrite <- Zle_Qle. lia. }
  destruct (Qlt_le_dec x (double (m + 1) f)) as [Hlt|Hge].
  2: { apply round_pos_ge; [done|done|apply double_representable; lia|done]. }
  unfold round_pos. rewrite (neighbour_expo x m f Hm Hlo Hlt).
  replace (Z.max (f + 52 - f64_prec + 1) f64_emin) with f
    by (unfold f64_prec in *; lia).
  unfold double. apply Qmult_le_r; [apply pow2_pos|]. rewrite <- Zle_Qle.
  apply nearest_even_above_half.
  apply Qmult_lt_r with (pow2 f); [apply pow2_pos|].
  rewrite <- (Qmult_assoc x), <- pow2_add, Z.add_opp_diag_l.
  change (pow2 0) with 1%Q. rewrite Qmult_1_r.
  eapply Qle_lt_trans; [|exact Hx]. unfold double.
  replace f with (1 + (f - 1)) at 1 by lia. rewrite pow2_add, Qmult_assoc.
  apply Qle_lteq. right. f_equiv. change (pow2 1) with (inject_Z 2).
  rewrite !inject_Z_plus, inject_Z_mult. change (1 # 2)%Q with (/ inject_Z 2)%Q.
  change (inject_Z 2) with (2#1)%Q. field.
Qed.

Lemma round53_down x m f :
  2 ^ 52 ≤ m < 2 ^ 53 → f64_emin ≤ f → (0 < x)%Q → (x < double (2 * m + 1) (f - 1))%Q →
  (round_pos f64_prec f64_emin x <= double m f)%Q.
Proof.
  intros Hm Hf Hpos Hx.
  assert (double (2 * m + 1) (f - 1) == (inject_Z m + (1 # 2)) * pow2 f)%Q as E.
  { unfold double. replace f with (1 + (f - 1)) at 2 by lia. rewrite pow2_add, Qmult_assoc.
    f_equiv. change (pow2 1) with (inject_Z 2).
    rewrite !inject_Z_plus, inject_Z_mult. change (inject_Z 2) with (2#1)%Q. field. }
  rewrite E in Hx.
  destruct (Qlt_le_dec (double m f) x) as [Hlt|Hge].
  2: { apply round_pos_le; [done|done|apply double_representable; lia|done]. }
  assert (x < double (m + 1) f)%Q as Hhi.
  { eapply Qlt_trans; [exact Hx|]. apply Qmult_lt_r; [apply pow2_pos|].
    rewrite inject_Z_plus. apply Qplus_lt_r. reflexivity. }
  unfold round_pos. rewrite (neighbour_expo x m f Hm Hlt Hhi).
  replace (Z.max (f + 52 - f64_prec + 1) f64_emin) with f
    by (unfold f64_prec in *; lia).
  unfold double. apply Qmult_le_r; [apply pow2_pos|]. rewrite <- Zle_Qle.
  apply nearest_even_below_half.
  apply Qmult_lt_r with (pow2 f); [apply pow2_pos|].
  rewrite <- (Qmult_assoc x), <- pow2_add, Z.add_opp_diag_l.
  change (pow2 0) with 1%Q. by rewrite Qmult_1_r.
Qed.

(** ** The percentage *)

Lemma f64_int_exact z : 0 < z ≤ 2 ^ 53 → (f64_int z == inject_Z z)%Q.
Proof.
  intros Hz. unfold f64_int, f64_round.
  assert (0 < inject_Z z)%Q as Hp by (apply inject_pos; lia).
  assert (representable f64_prec f64_emin (inject_Z z)) as Hr.
  { exists z, 0. unfold f64_prec, f64_emin. change (pow2 0) with 1%Q. rewrite Qmult_1_r.
    split_and!; [lia..|done]. }
  rewrite round_positive by done. apply Qle_antisym.
  - apply round_pos_le; [done|done|done|apply Qle_refl].
  - apply round_pos_ge; [done|done|done|apply Qle_refl].
Qed.

#[global] Instance f64_round_proper : Proper (Qeq ==> Qeq) f64_round.
Proof.
  intros x y E. unfold f64_round, round.
  assert (Hs : Z.sgn (Qnum x) = Z.sgn (Qnum y)).
  { unfold Qeq in E. rewrite <- (Z.mul_1_r (Z.sgn (Qnum x))), <- (Z.mul_1_r (Z.sgn (Qnum y))).
    change 1 with (Z.sgn (Zpos (Qden y))) at 1. change 1 with (Z.sgn (Zpos (Qden x))).
    by rewrite <- !Z.sgn_mul, E. }
  assert (Hpos : ∀ a b, (0 < a)%Q → (0 < b)%Q → (a == b)%Q →
    (round_pos f64_prec f64_emin a == round_pos f64_prec f64_emin b)%Q).
  { clear. intros a b Ha Hb E.
    assert (expo a = expo b) as He.
    { destruct (expo_spec a Ha) as [A1 A2], (expo_spec b Hb) as [B1 B2].
      assert (a <= b)%Q as Hab by (rewrite E; apply Qle_refl).
      assert (b <= a)%Q as Hba by (rewrite E; apply Qle_refl).
      pose proof (Qle_lt_trans _ _ _ (Qle_trans _ _ _ A1 Hab) B2) as H1.
      pose proof (Qle_lt_trans _ _ _ (Qle_trans _ _ _ B1 Hba) A2) as H2.
      apply pow2_lt_inv in H1, H2. lia. }
    unfold round_pos. rewrite He. set (e := Z.max _ _).
    assert (a * pow2 (- e) == b * pow2 (- e))%Q as Es by (by rewrite E).
    remember (a * pow2 (- e))%Q as s. remember (b * pow2 (- e))%Q as t. clear - Es.
    assert (nearest_even s = nearest_even t) as ->; [|done].
    unfold nearest_even. rewrite (Qfloor_comp _ _ Es).
    assert (s - inject_Z (Qfloor t) == t - inject_Z (Qfloor t))%Q as Ed by (by rewrite Es).
    by rewrite (Qcompare_comp _ _ Ed _ _ (Qeq_refl (1 # 2))). }
  destruct x as [[|n|n] d], y as [[|n'|n'] d']; cbn in Hs |- *; try lia; try done.
  - apply Hpos; done.
  - f_equiv. apply Hpos; [done..|]. by rewrite E.
Qed.

(** [c/t] for stakes in range, and the quotient's double. *)
Definition ratio (c t : Z) : Q := (inject_Z c / inject_Z t)%Q.

Lemma ratio_lt c t m f :
  0 < t → (inject_Z c < double m f * inject_Z t)%Q ↔ (ratio c t < double m f)%Q.
Proof.
  intros Ht. pose proof (inject_pos t Ht) as Hq. unfold ratio. split; intros H.
  - by apply Qlt_shift_div_r.
  - rewrite <- (Qmult_lt_r _ _ (inject_Z t)) in H by done. unfold Qdiv in H.
    rewrite <- Qmult_assoc, (Qmult_comm (/ _)), Qmult_inv_r, Qmult_1_r in H; [done|].
    intros E. rewrite E in Hq. discriminate Hq.
Qed.

Lemma double_lt_ratio c t m f :
  0 < t → (double m f * inject_Z t < inject_Z c)%Q → (double m f < ratio c t)%Q.
Proof. intros Ht H. apply Qlt_shift_div_l; [by apply inject_pos|done]. Qed.

Lemma ratio_pos c t : 0 < c → 0 < t → (0 < ratio c t)%Q.
Proof.
  intros Hc Ht. apply Qlt_shift_div_l; [by apply inject_pos|].
  rewrite Qmult_0_l. by apply inject_pos.
Qed.

Lemma stake_pct_ratio c t :
  0 < c ≤ 2 ^ 53 → 0 < t ≤ 2 ^ 53 →
  (stake_pct c t == f64_round (round_pos f64_prec f64_emin (ratio c t) * 100))%Q.
Proof.
  intros Hc Ht. unfold stake_pct. rewrite (proj2 (Z.ltb_lt _ _)) by lia.
  assert (f64_int c / f64_int t == ratio c t)%Q as E
    by (unfold ratio; by rewrite !f64_int_exact by done).
  rewrite E. unfold f64_round at 2. rewrite round_positive; [done|]. apply ratio_pos; lia.
Qed.

Lemma stake_pct_0 t : stake_pct 0 t = 0%Q.
Proof.
  unfold stake_pct. destruct (0 <? t); [|done].
  assert (f64_int 0 / f64_int t == 0)%Q as E by (unfold Qdiv; by rewrite Qmult_0_l).
  unfold f64_round at 2. by rewrite round_zero by exact E.
Qed.

Lemma times_100 x y : (x <= y)%Q → (x * 100 <= y * 100)%Q.
Proof. intros H. by apply Qmult_le_r. Qed.

(** The doubles next to 2/3, 200/3 and 1/2, 50. *)
Definition two_thirds : Z := 6004799503160661.   (* floor of 2^54 / 3 *)
Definition threshold_m : Z := 4691249611844266.  (* floor of 2^47 * 100 / 3 *)

Lemma bftThreshold_value : bftThreshold = f64_round (200 # 3) ∧
  (bftThreshold == double (threshold_m + 1) (- 46))%Q.
Proof. split; [done|]. vm_compute. reflexivity. Qed.

Lemma atRiskBelow_value : (atRiskBelow == 50)%Q.
Proof. vm_compute. reflexivity. Qed.

(** A rational statement about [double]s with constants, over the integers. *)
Ltac clear_doubles :=
  unfold double, two_thirds, threshold_m in *;
  repeat match goal with
  | |- context [pow2 ?e] =>
      let v := eval vm_compute in (pow2 e) in change (pow2 e) with v
  end;
  unfold Qlt, Qle, Qmult, inject_Z; cbn [Qnum Qden];
  rewrite ?Pos.mul_1_l, ?Pos.mul_1_r.

Lemma pct_confirmed c t :
  0 < c ≤ t → t ≤ 2 ^ 53 → 2 * t < 3 * c → (bftThreshold <= stake_pct c t)%Q.
Proof.
  intros Hc Ht H. rewrite stake_pct_ratio, (proj2 bftThreshold_value) by lia.
  assert (double (two_thirds + 1) (- 53) <= round_pos f64_prec f64_emin (ratio c t))%Q as Hr.
  { apply round53_up; [unfold two_thirds; lia|unfold f64_emin; lia|].
    apply double_lt_ratio; [lia|]. clear_doubles. lia. }
  apply times_100 in Hr. unfold f64_round.
  assert (double (threshold_m + 1) (- 46) <= double (two_thirds + 1) (- 53) * 100)%Q as Hb
    by (clear; clear_doubles; lia).
  pose proof (Qle_trans _ _ _ Hb Hr) as Hall.
  assert (0 < round_pos f64_prec f64_emin (ratio c t) * 100)%Q as Hp
    by (eapply Qlt_le_trans; [|exact Hall]; reflexivity).
  rewrite round_positive by done.
  apply round_pos_ge; [done|done| |done].
  apply double_representable; unfold threshold_m, f64_emin; lia.
Qed.

(** Below a bound on the quotient, the percentage is at most a double. *)
Lemma pct_at_most c t (L : Q) m f :
  0 < c ≤ t → t ≤ 2 ^ 53 → 2 ^ 52 ≤ m < 2 ^ 53 → f64_emin ≤ f →
  (round_pos f64_prec f64_emin (ratio c t) <= L)%Q →
  (L * 100 < double (2 * m + 1) (f - 1))%Q →
  (stake_pct c t <= double m f)%Q.
Proof.
  intros Hc Ht Hm Hf HL Hlt. rewrite stake_pct_ratio by lia. unfold f64_round.
  set (r := round_pos _ _ (ratio c t)) in *.
  destruct (Qlt_le_dec 0 (r * 100)) as [Hpos|Hz].
  - rewrite round_positive by done. apply round53_down; [done..|].
    eapply Qle_lt_trans; [by apply times_100|exact Hlt].
  - assert (0 <= r)%Q as H0.
    { apply round_pos_ge; [done|apply ratio_pos; lia| |apply Qlt_le_weak, ratio_pos; lia].
      exists 0, 0. unfold f64_prec, f64_emin. split_and!; [lia..|reflexivity]. }
    assert (r * 100 == 0)%Q as E.
    { apply Qle_antisym; [done|]. change 0%Q with (0 * 100)%Q. by apply times_100. }
    rewrite round_zero by exact E.
    apply Qmult_le_0_compat; [|apply Qlt_le_weak, pow2_pos].
    change 0%Q with (inject_Z 0). rewrite <- Zle_Qle. lia.
Qed.

Lemma pct_not_confirmed c t :
  0 < c ≤ t → t ≤ 2 ^ 53 → 3 * c ≤ 2 * t → (stake_pct c t < bftThreshold)%Q.
Proof.
  intros Hc Ht H. rewrite (proj2 bftThreshold_value).
  apply (Qle_lt_trans _ (double threshold_m (- 46))); [|reflexivity].
  apply (pct_at_most c t (double two_thirds (- 53))); [done|done|unfold threshold_m; lia
    |unfold f64_emin; lia| |clear; clear_doubles; lia].
  apply round53_down; [unfold two_thirds; lia|unfold f64_emin; lia|apply ratio_pos; lia|].
  apply ratio_lt; [lia|]. clear_doubles. lia.
Qed.

Lemma pct_at_risk c t :
  0 < c ≤ t → t ≤ 2 ^ 53 → 2 * c < t → (stake_pct c t < 50)%Q.
Proof.
  intros Hc Ht H.
  apply (Qle_lt_trans _ (double (50 * 2 ^ 47 - 1) (- 47))); [|reflexivity].
  apply (pct_at_most c t (double (2 ^ 53 - 1) (- 54))); [done|done|lia
    |unfold f64_emin; lia| |clear; clear_doubles; lia].
  apply round_pos_le; [done|apply ratio_pos; lia
    |apply double_representable; unfold f64_emin; lia|].
  unfold ratio. apply Qle_shift_div_r; [apply inject_pos; lia|]. clear_doubles. lia.
Qed.

Lemma pct_reachable c t :
  0 < c ≤ t → t ≤ 2 ^ 53 → t ≤ 2 * c → (50 <= stake_pct c t)%Q.
Proof.
  intros Hc Ht H. rewrite stake_pct_ratio by lia.
  assert (double 1 (- 1) <= round_pos f64_prec f64_emin (ratio c t))%Q as Hr.
  { apply round_pos_ge; [done|apply ratio_pos; lia
      |apply double_representable; unfold f64_emin; lia|].
    apply Qle_shift_div_l; [apply inject_pos; lia|]. clear_doubles. lia. }
  apply times_100 in Hr. change (double 1 (- 1) * 100)%Q with (double 1 (-1) * 100)%Q in Hr.
  assert (50 <= double 1 (- 1) * 100)%Q as Hb by discriminate.
  pose proof (Qle_trans _ _ _ Hb Hr) as Hall.
  unfold f64_round. rewrite round_positive by (eapply Qlt_le_trans; [|exact Hall]; reflexivity).
  apply round_pos_ge; [done|eapply Qlt_le_trans; [|exact Hall]; reflexivity| |done].
  exists 50, 0. unfold f64_prec, f64_emin. split_and!; [lia..|reflexivity].
Qed.

(** The reference: the comparison the comment in the code describes, over the
    integers. *)
Definition threshold_spec (c t : Z) : ThresholdStatus :=
  if decide (2 * t < 3 * c) then CONFIRMED
  else if decide (2 * c < t) then AT_RISK else REACHABLE.

Lemma Qle_bool_false x y : (y < x)%Q → Qle_bool x y = false.
Proof.
  intros H. apply not_true_iff_false. rewrite Qle_bool_iff. by apply Qlt_not_le.
Qed.

Lemma threshold_exact c t :
  0 ≤ c ≤ t → 0 < t ≤ 2 ^ 53 → threshold_of (stake_pct c t) = threshold_spec c t.
Proof.
  intros Hc Ht. unfold threshold_spec. destruct (Z.eq_dec c 0) as [->|Hc0].
  { rewrite stake_pct_0, decide_False, decide_True by lia. vm_compute. reflexivity. }
  unfold threshold_of. destruct (decide (2 * t < 3 * c)) as [H3|H3].
  { by rewrite (proj2 (Qle_bool_iff _ _)) by (apply pct_confirmed; lia). }
  rewrite (Qle_bool_false bftThreshold) by (apply pct_not_confirmed; lia).
  destruct (decide (2 * c < t)) as [H2|H2].
  - rewrite Qle_bool_false; [done|]. rewrite atRiskBelow_value. apply pct_at_risk; lia.
  - rewrite (proj2 (Qle_bool_iff _ _)); [done|].
    rewrite atRiskBelow_value. apply pct_reachable; lia.
Qed.

(** ** The dashboard *)
Definition stake_of (jrs : list joinrequest.JoinRequest) : Z :=
  foldr (λ jr t, joinrequest.SelfDelegationAmount jr + t) 0 jrs.

Definition stakes_nonneg (jrs : list joinrequest.JoinRequest) : Prop :=
  Forall (λ jr, 0 ≤ joinrequest.SelfDelegationAmount jr) jrs.

(** The validator has a standing confirmation, under whichever prefix. *)
Definition has_confirmed (confirmations : list rehearsal.ReadinessConfirmation)
    (jr : joinrequest.JoinRequest) : bool :=
  existsb (λ rc, rehearsal.IsValid rc
    && bool_decide (account_Hex (rehearsal.rd_OperatorAddress rc)
                    = account_Hex (joinrequest.j_OperatorAddress jr))) confirmations.

Lemma stake_of_cons jr jrs :
  stake_of (jr :: jrs) = joinrequest.SelfDelegationAmount jr + stake_of jrs.
Proof. done. Qed.

Lemma stake_of_nonneg jrs : stakes_nonneg jrs → 0 ≤ stake_of jrs.
Proof. induction 1; rewrite ?stake_of_cons; [done|lia]. Qed.

Lemma sum_stake_exact jrs :
  stakes_nonneg jrs → stake_of jrs < 2 ^ 63 → sum_stake jrs = stake_of jrs.
Proof.
  intros Hn. unfold sum_stake.
  assert (∀ z, 0 ≤ z → z + stake_of jrs < 2 ^ 63 →
    foldl (λ t jr, int64_wrap (t + joinrequest.SelfDelegationAmount jr)) z jrs
    = z + stake_of jrs) as Hgen; [|intros; rewrite Hgen; lia].
  induction Hn as [|jr jrs Hj Hn IH]; intros z Hz Hlt; cbn [foldl]; [cbn; lia|].
  rewrite stake_of_cons in *. pose proof (stake_of_nonneg _ Hn).
  rewrite int64_wrap_id by (unfold in_int64, int64_min, int64_max; lia). rewrite IH; lia.
Qed.

Lemma stake_of_filter f jrs :
  stakes_nonneg jrs →
  stakes_nonneg (List.filter f jrs) ∧ 0 ≤ stake_of (List.filter f jrs) ≤ stake_of jrs.
Proof.
  induction 1 as [|jr jrs Hj Hn [IH1 IH2]]; [split; [constructor|done]|].
  cbn [List.filter]. destruct (f jr); rewrite !stake_of_cons; split; try lia;
    [by constructor|done].
Qed.

Lemma index_lookup confirmations hex :
  is_Some (index_confirmed confirmations !! hex) ↔
  ∃ rc, rc ∈ confirmations ∧ rehearsal.IsValid rc = true ∧
        account_Hex (rehearsal.rd_OperatorAddress rc) = hex.
Proof.
  unfold index_confirmed.
  assert (∀ m : gmap string rehearsal.ReadinessConfirmation, is_Some (foldl (λ m rc, if rehearsal.IsValid rc
      then <[account_Hex (rehearsal.rd_OperatorAddress rc) := rc]> m else m) m confirmations !! hex)
    ↔ is_Some (m !! hex) ∨ ∃ rc, rc ∈ confirmations ∧ rehearsal.IsValid rc = true ∧
        account_Hex (rehearsal.rd_OperatorAddress rc) = hex) as Hgen.
  { induction confirmations as [|rc rcs IH]; intros m; cbn [foldl].
    - split; [by left|]. intros [|(? & []%elem_of_nil & _)]; done.
    - rewrite IH. setoid_rewrite elem_of_cons. destruct (rehearsal.IsValid rc) eqn:Ev.
      + destruct (decide (account_Hex (rehearsal.rd_OperatorAddress rc) = hex)) as [<-|Hne].
        * rewrite lookup_insert_eq. naive_solver.
        * rewrite lookup_insert_ne by done. naive_solver congruence.
      + naive_solver congruence. }
  rewrite Hgen. rewrite lookup_empty. split; [intros [[? ?]|]|]; naive_solver.
Qed.

Lemma is_confirmed_spec confirmations jr :
  is_confirmed (index_confirmed confirmations) jr = has_confirmed confirmations jr.
Proof.
  unfold is_confirmed, confirmed_by. apply Bool.eq_iff_eq_true.
  rewrite bool_decide_eq_true, index_lookup. unfold has_confirmed. rewrite existsb_exists.
  setoid_rewrite andb_true_iff. setoid_rewrite bool_decide_eq_true.
  setoid_rewrite list_elem_of_In. done.
Qed.

(** C12. The readiness verdict of the dashboard, computed in double precision,
    is the exact one: for non-negative stakes adding up to at most 2^53,
    CONFIRMED is shown exactly when the approved validators with a standing
    confirmation hold more than two thirds of the approved stake (two thirds
    itself is not enough), AT_RISK exactly when they hold less than a half, and
    each validator's row is marked ready exactly when its account has a
    standing confirmation. *)
Theorem dashboard_threshold_exact approved confirmations :
  stakes_nonneg approved → 0 < stake_of approved ≤ 2 ^ 53 →
  let d := dashboard_of approved confirmations in
  let confirmed := stake_of (List.filter (has_confirmed confirmations) approved) in
  db_ThresholdStatus d =
    (if decide (2 * stake_of approved < 3 * confirmed) then CONFIRMED
     else if decide (2 * confirmed < stake_of approved) then AT_RISK else REACHABLE) ∧
  vr_IsReady <$> db_PerValidator d = has_confirmed confirmations <$> approved.
Proof.
  intros Hn Ht d confirmed. unfold d, dashboard_of. cbn [db_ThresholdStatus db_PerValidator].
  split.
  - rewrite (List.filter_ext _ _ (is_confirmed_spec confirmations)).
    destruct (stake_of_filter (has_confirmed confirmations) approved Hn) as [Hf Hb].
    rewrite !sum_stake_exact by (try done; lia). by apply threshold_exact.
  - rewrite <- list_fmap_compose. apply map_ext. intros jr. unfold compose, validator_row.
    cbn [vr_IsReady]. apply is_confirmed_spec.
Qed.

Module readiness_samples.
Import fixtures proposal_samples.

(** Two validators with stakes 2 and 1; the first has confirmed. *)
Definition gentx_of (amount : string) : bytes :=
  of_chars (chars "{" ++ chars (dq "body") ++ chars ":{" ++ chars (dq "messages") ++ chars ":[{"
    ++ chars (dq "value") ++ chars ":{" ++ chars (dq "amount") ++ chars ":"
    ++ chars (dq amount) ++ chars "}}]}}").
Definition staked (id : uuid) (a : AccountID) (amount : string) : joinrequest.JoinRequest :=
  joinrequest.New id 1%N a a (gentx_of amount) "" "" "" "" "" t0.
Definition confirmed (a : AccountID) : rehearsal.ReadinessConfirmation :=
  rehearsal.mkReadiness 9%N 1%N 1%N a "" "" t0 "" None.

Definition two_to_one : list joinrequest.JoinRequest :=
  [staked 1%N alice "2"; staked 2%N bob "1"].

(** Exactly two thirds is not more than two thirds. *)
Lemma dashboard_threshold_exact_witness :
  db_ThresholdStatus (dashboard_of two_to_one [confirmed alice]) = REACHABLE ∧
  db_ThresholdStatus (dashboard_of two_to_one [confirmed bob]) = AT_RISK.
Proof.
  assert (Hn : stakes_nonneg two_to_one) by (repeat constructor; vm_compute; discriminate).
  assert (Ht : 0 < stake_of two_to_one ≤ 2 ^ 53) by (vm_compute; split; [done|discriminate]).
  split; [destruct (dashboard_threshold_exact two_to_one [confirmed alice] Hn Ht) as [H _]
         |destruct (dashboard_threshold_exact two_to_one [confirmed bob] Hn Ht) as [H _]];
    rewrite H; vm_compute; reflexivity.
Defined.
End readiness_samples.

(** ** Confirmation *)
Section confirm.
Context `{B32 : Bech32} `{NU : NetURL} `{UT : UUIDText} `{CJ : CanonicalJSON}
        `{SVr : SignatureVerifier} `{O : Oracle}.

#[local] Hint Resolve visible_Now visible_consume visible_timestamp : coord.

(** Who may confirm, and what: the signed statement of an approved validator
    about the genesis that is published and the binary that is declared. *)
Record confirmable (lid : uuid) (i : ConfirmInput) (w : world)
    (jr : joinrequest.JoinRequest) (op : AccountID) (sig : string) : Prop := {
  cf_nonce : existsb (nonce_is (ci_OperatorAddress i) (ci_Nonce i)) (db_nonces (w_db w)) = false;
  cf_time : ∃ t n, rfc3339.Parse (ci_Timestamp i) = Ok t ∧ timestamp_ok (oracle_Now n) t = true;
  cf_sig : ∃ msg sb, canonical_MarshalForSigning (confirm_doc i) = Ok msg ∧
             base64.DecodeString (ci_Signature i) = Ok sb ∧
             verifier_Verify (ci_OperatorAddress i) (ci_PubKeyB64 i) msg sb = Ok tt;
  cf_launch : ∃ l, (findLaunch lid (w_db w)).1 = Ok l ∧
    launch.l_Status l = launch.StatusGenesisReady ∧
    ci_GenesisHashConfirmed i = launch.l_FinalGenesisSHA256 l ∧
    (launch.r_BinarySHA256 (launch.l_Record l) = ""%string ∨
     ci_BinaryHashConfirmed i = launch.r_BinarySHA256 (launch.l_Record l));
  cf_request : (findJoinRequestByOperator lid (ci_OperatorAddress i) (w_db w)).1 = Ok jr;
  cf_approved : joinrequest.j_Status jr = joinrequest.StatusApproved;
  cf_addr : NewAccountID (ci_OperatorAddress i) = Ok op;
  cf_sigval : NewSignature (ci_Signature i) = Ok sig }.

Lemma visible_confirm_auth i : keeps visible (authenticate i).
Proof. unfold authenticate, decodeBase64Sig. keeps_tac. Qed.
#[local] Hint Resolve visible_confirm_auth : coord.

Lemma visible_check lid i : keeps visible (check_confirmation lid i).
Proof. unfold check_confirmation, findLaunch, findJoinRequestByOperator. keeps_tac. Qed.
#[local] Hint Resolve visible_check : coord.

Lemma confirm_auth_Ret i w u w' :
  authenticate i w = (Ret u, w') →
  existsb (nonce_is (ci_OperatorAddress i) (ci_Nonce i)) (db_nonces (w_db w)) = false ∧
  (∃ t n, rfc3339.Parse (ci_Timestamp i) = Ok t ∧ timestamp_ok (oracle_Now n) t = true) ∧
  (∃ msg sb, canonical_MarshalForSigning (confirm_doc i) = Ok msg ∧
     base64.DecodeString (ci_Signature i) = Ok sb ∧
     verifier_Verify (ci_OperatorAddress i) (ci_PubKeyB64 i) msg sb = Ok tt) ∧
  ∃ x, w_db w' = with_nonces x (w_db w).
Proof.
  unfold authenticate, decodeBase64Sig. intros H. minv.
  apply consume_Ret in E as [Hn [x Hx]]. apply timestamp_Ret in E0 as [Ht Hts].
  destruct u. split_and!; [done|done|eauto 10|]. exists x. congruence.
Qed.

Lemma check_Ret lid i w jr op sig w' :
  check_confirmation lid i w = (Ret (jr, op, sig), w') →
  w' = w ∧
  (∃ l, (findLaunch lid (w_db w)).1 = Ok l ∧ launch.l_Status l = launch.StatusGenesisReady ∧
    ci_GenesisHashConfirmed i = launch.l_FinalGenesisSHA256 l ∧
    (launch.r_BinarySHA256 (launch.l_Record l) = ""%string ∨
     ci_BinaryHashConfirmed i = launch.r_BinarySHA256 (launch.l_Record l))) ∧
  (findJoinRequestByOperator lid (ci_OperatorAddress i) (w_db w)).1 = Ok jr ∧
  joinrequest.j_Status jr = joinrequest.StatusApproved ∧
  NewAccountID (ci_OperatorAddress i) = Ok op ∧ NewSignature (ci_Signature i) = Ok sig.
Proof.
  unfold check_confirmation, findLaunch, findJoinRequestByOperator. intros H. minv. simplify_eq.
  guards. split; [done|]. split_and!; try done.
  eexists. split_and!; [done..|]. destruct (launch.r_BinarySHA256 _); [by left|right].
  cbn in *. by guards.
Qed.

Lemma existing_Ret lid op w o w' :
  existing_confirmation lid op w = (Ret o, w') →
  w' = w ∧ match (findReadinessByOperator lid op (w_db w)).1 with
           | Ok rc => o = Some rc
           | Err e => o = None ∧ errors_Is e ErrNotFound = true
           end.
Proof.
  unfold existing_confirmation, findReadinessByOperator, run_st, query. cbn.
  destruct (scan_first _ _) as [rc|e]; [intros [= <- <-]; by destruct w|].
  destruct (errors_Is e ErrNotFound); [|done]. intros [= <- <-]. by destruct w.
Qed.

Lemma request_nonces lid op x d :
  (findJoinRequestByOperator lid op (with_nonces x d)).1
  = (findJoinRequestByOperator lid op d).1.
Proof. by destruct d. Qed.
Lemma readiness_nonces lid op x d :
  (findReadinessByOperator lid op (with_nonces x d)).1 = (findReadinessByOperator lid op d).1.
Proof. by destruct d. Qed.

Lemma emit_db scope ev w r w' : emit scope ev w = (r, w') → w_db w' = w_db w.
Proof. intros H. pose proof (db_emit scope ev w) as Hd. by rewrite H in Hd. Qed.

(** A new confirmation is appended. *)
Lemma save_readiness_Ret rc w u w' :
  existsb (is_id dw_id (rehearsal.rd_ID rc)) (db_readiness (w_db w)) = false →
  run_st (saveReadiness rc) w = (Ret u, w') →
  w_db w' = with_readiness (db_readiness (w_db w) ++ [readiness_cols rc]) (w_db w).
Proof.
  intros Hf H. apply run_st_Ret in H as (d & H & ->). unfold saveReadiness in H.
  cbn [readiness_cols dw_id] in H. rewrite Hf in H.
  destruct (negb _); [done|]. by injection H as _ <-.
Qed.

(** C11. Readiness confirmation.  A request that changes anything a client can
    observe is the authentic statement of a validator whose latest join
    request in the launch is approved, made while the launch is GENESIS_READY,
    about exactly the published genesis hash and, when the chain record
    declares one, the declared binary hash; and a confirmation that succeeds
    stores exactly one row, that statement, standing, for an operator whose
    latest confirmation (if it has any) was invalidated. *)
Theorem confirmation_admitted lid i w :
  (visible (Confirm lid i w).2 = visible w ∨ ∃ jr op sig, confirmable lid i w jr op sig) ∧
  ∀ rc w',
    (∀ n, existsb (is_id dw_id (oracle_uuid n)) (db_readiness (w_db w)) = false) →
    Confirm lid i w = (Ret rc, w') →
    ∃ jr op sig n t x,
      confirmable lid i w jr op sig ∧
      rc = rehearsal.mkReadiness (oracle_uuid n) lid (joinrequest.j_ID jr) op
             (ci_GenesisHashConfirmed i) (ci_BinaryHashConfirmed i) t sig None ∧
      w_db w' = with_nonces x (with_readiness
        (db_readiness (w_db w) ++ [readiness_cols rc]) (w_db w)) ∧
      ∀ old, (findReadinessByOperator lid (ci_OperatorAddress i) (w_db w)).1 = Ok old →
        rehearsal.IsValid old = false.
Proof.
  assert (Hconf : ∀ u w1 jr op sig w2, authenticate i w = (Ret u, w1) →
    check_confirmation lid i w1 = (Ret (jr, op, sig), w2) → confirmable lid i w jr op sig).
  { intros u w1 jr op sig w2 Ha Hc.
    apply confirm_auth_Ret in Ha as (Hn & Ht & Hs & x & Hx).
    apply check_Ret in Hc as (-> & Hl & Hj & Hst & Hop & Hsig).
    assert (Hn1 : (findLaunch lid (w_db w1)).1 = (findLaunch lid (w_db w)).1)
      by (rewrite Hx; apply load_first_nonces).
    rewrite Hn1 in Hl. rewrite Hx, request_nonces in Hj. by constructor. }
  split.
  { unfold Confirm. rewrite <- (bind_assoc (authenticate i) (λ _, check_confirmation lid i)).
    apply bind_visible; [keeps_tac|]. intros [[jr op] sig] w1 E.
    apply bind_Ret in E as (u & w2 & Ea & Ec). exists jr, op, sig. by eapply Hconf. }
  intros rc w' Hfresh H. unfold Confirm in H.
  apply bind_Ret in H as (u & w1 & Ea & H). apply bind_Ret in H as ([[jr op] sig] & w2 & Ec & H).
  pose proof (Hconf _ _ _ _ _ _ Ea Ec) as Hok. clear Hconf.
  apply confirm_auth_Ret in Ea as (_ & _ & _ & x & Hx). apply check_Ret in Ec as (-> & _).
  unfold store_confirmation in H. minv. apply existing_Ret in E as [-> Hex]. guards.
  match goal with H : emit _ _ _ = _ |- _ => apply emit_db in H as Hdb end.
  apply save_readiness_Ret in E3.
  2: { cbn [tick w_db rehearsal.rd_ID]. rewrite Hx.
       assert (Hr : db_readiness (with_nonces x (w_db w)) = db_readiness (w_db w))
         by (by destruct (w_db w)). rewrite Hr. apply Hfresh. }
  cbn [tick w_db] in E3. rewrite Hx in E3.
  exists jr, op, sig. do 2 eexists. exists x. split_and!; [done|reflexivity| |].
  - rewrite Hdb, E3. by destruct (w_db w).
  - intros old Hold. rewrite Hx, readiness_nonces, Hold in Hex. by subst a.
Qed.
End confirm.

(** ** Concrete confirmations *)
Module confirm_samples.
Import samples fixtures proposal_samples proposals.

(** Launch 2 published [hash64]; dave's request 50 is approved there. *)
Definition published_launch : launch.Launch :=
  launch.mkLaunch 2%N (rec "chain-2") launch.LaunchTypeTestnet ∅ launch.StatusGenesisReady
    (launch.mkCommittee 102%N [member dave] 1 1 dave t0)
    hash64 hash64 "" [] "" "" "" t0 t0 0 ∅.
Definition approved_request : joinrequest.JoinRequest :=
  joinrequest.set_state joinrequest.StatusApproved "" (Some 7%N)
    (request 50%N 2%N dave "key" "{}").
Definition published_world : world :=
  world_of (saveJoinRequest approved_request (saveLaunch published_launch empty_db).2).2.

Definition confirm_by_dave : ConfirmInput :=
  mkConfirm (account_String dave) "ok" hash64 "" "n1" (rfc3339.Format t0) sig64.

Definition dave_confirms : outcome rehearsal.ReadinessConfirmation * world :=
  Confirm 2%N confirm_by_dave published_world.

Lemma confirmation_admitted_witness :
  ∃ rc, dave_confirms.1 = Ret rc ∧ rehearsal.IsValid rc = true ∧
    rehearsal.rd_GenesisHashConfirmed rc = hash64 ∧
    length (db_readiness (w_db dave_confirms.2)) = 1%nat.
Proof.
  destruct dave_confirms as [[rc|e| |] w'] eqn:E;
    try (exfalso; apply (f_equal fst) in E; vm_compute in E; discriminate E).
  exists rc. split; [reflexivity|]. cbn [snd].
  destruct (confirmation_admitted 2%N confirm_by_dave published_world) as [_ H].
  assert (Hr : db_readiness (w_db published_world) = []) by (vm_compute; reflexivity).
  destruct (H rc w') as (jr & op & sig & n & t & x & Hc & Hrc & Hdb & _).
  - intros n. rewrite Hr. reflexivity.
  - exact E.
  - subst rc. split; [reflexivity|]. split; [reflexivity|]. rewrite Hdb, Hr.
    destruct (w_db published_world). reflexivity.
Defined.

(** Nothing ties the checks of [Confirm] to its insert.  Dave's statement about
    [hash64] is checked, the committee then revises the genesis (which
    invalidates every standing confirmation), and the insert leaves a standing
    confirmation of the withdrawn genesis. *)
Definition revise : M proposal.Proposal :=
  Raise cfg_off 2%N (raise_by (account_String dave) "n2" payload.ActionReviseGenesis "{}").

Definition overtaken_confirm : M rehearsal.ReadinessConfirmation :=
  readiness.authenticate confirm_by_dave ≫= λ _,
  check_confirmation 2%N confirm_by_dave ≫= λ '(jr, op, sig),
  revise ≫= λ _,
  store_confirmation 2%N confirm_by_dave jr op sig.

Definition after_overtaken : outcome rehearsal.ReadinessConfirmation * world :=
  overtaken_confirm published_world.

Lemma revision_misses_confirmation :
  (∃ rc, after_overtaken.1 = Ret rc) ∧
  launch_status (w_db after_overtaken.2) 2%N = Some launch.StatusWindowClosed ∧
  ((λ r, (dw_genesis_hash r, standing r)) <$> db_readiness (w_db after_overtaken.2))
    = [(hash64, true)].
Proof. vm_compute. split; [by eexists|done]. Qed.
End confirm_samples.
