(* ===== verification/RehearsalProps.v ===== *)
(** * Correctness of the rehearsal bridge

    What a recorded rehearsal result vouches for: a signature under the
    launch's trusted key, and an input set this server served. *)

From S2P Require Import Prelude GoStd GoTime Values LaunchAgg Fixtures Events Payload Proposal.
From S2P Require Import ProposalProps JoinRequest Rehearsal Store StoreProps World WorldProps.
From S2P Require Import AuditLog InputSet ProposalService LaunchService RehearsalService.
From S2P Require Import JsonPrint ServiceSamples ProposalServiceProps.
Import sqlite bridge.
#[global] Open Scope Z_scope.

Section bridge_props.
Context `{B32 : Bech32} `{NU : NetURL} `{UT : UUIDText} `{CJ : CanonicalJSON}
        `{Ed : Ed25519} `{O : Oracle}.

(** Reason about the database after a run, whether it succeeds or not. *)
Lemma bind_db {A B} (m : M A) (f : A → M B) (P : db → Prop) w :
  keeps w_db m → P (w_db w) →
  (∀ a w1, m w = (Ret a, w1) → w_db w1 = w_db w → P (w_db (f a w1).2)) →
  P (w_db ((m ≫= f) w).2).
Proof.
  intros Hm Hw Hf. specialize (Hm w). unfold mbind, M_bind.
  destruct (m w) as [[a|e| |] w1]; cbn in *; try by rewrite Hm. by apply Hf.
Qed.

Lemma db_lookup lid s : keeps w_db (already_recorded lid s).
Proof.
  assert (H : keeps w_db (findResultBySignature lid s))
    by (unfold findResultBySignature, findResultsByLaunch; keeps_tac).
  intros w. specialize (H w). unfold already_recorded.
  by destruct (findResultBySignature lid s w) as [[] w1].
Qed.

Lemma db_resolve lid f : keeps w_db (resolveAttempt lid f).
Proof. unfold resolveAttempt, findAttempt. keeps_tac. Qed.

Lemma db_Assemble l : keeps w_db (inputset.Assemble l).
Proof. unfold inputset.Assemble, findApprovedByLaunch. keeps_tac. Qed.

Lemma db_committee lid addr : keeps w_db (launches.requireCommittee lid addr).
Proof. unfold launches.requireCommittee, findLaunch. keeps_tac. Qed.
#[local] Hint Resolve db_lookup db_resolve db_Assemble db_committee db_Current : coord.

(** The two writes of a recording. *)
Definition record_writes (res : rehearsal.RehearsalResult) (a : rehearsal.RehearsalAttempt)
    (d : db) : db :=
  (saveAttempt (rehearsal.Release a) (saveResult res d).2).2.

Lemma store_tail res a scope ev (P : db → Prop) w :
  P (w_db w) → P (record_writes res a (w_db w)) →
  P (w_db ((run_st (saveResult res) ≫= λ _, run_st (saveAttempt (rehearsal.Release a)) ≫= λ _,
            emit scope ev ≫= λ _, mret res) w).2).
Proof.
  intros Hw Hd. unfold record_writes in Hd. unfold mbind at 1, M_bind at 1, run_st at 1.
  destruct (saveResult res (w_db w)) as [[[]|e] d] eqn:E; cbn [snd] in *.
  - unfold mbind at 1, M_bind at 1, run_st at 1. cbn [set_db w_db saveAttempt exec].
    match goal with |- context [emit scope ev ≫= ?k] =>
      assert (Hk : keeps w_db (emit scope ev ≫= k)) by keeps_tac end.
    rewrite Hk. exact Hd.
  - cbn [snd w_db set_db]. unfold saveResult in E.
    destruct (existsb _ _); [done|]. destruct (existsb _ _); [|done]. by injection E as _ <-.
Qed.

(** What a fact needs in order to be recorded. *)
Record genuine (lid : uuid) (f : RehearsalResultFact) (w : world) (l : launch.Launch)
    (a : rehearsal.RehearsalAttempt) (current : string) : Prop := {
  ge_launch : (findLaunch lid (w_db w)).1 = Ok l;
  ge_sig : ∃ pub sig msg,
    base64.DecodeString (launch.l_RehearsalServicePubKey l) = Ok pub ∧
    String.length pub = 32%nat ∧ base64.DecodeString (f_Signature f) = Ok sig ∧
    canonical_MarshalForSigning (fact_doc f) = Ok msg ∧ ed25519_Verify pub msg sig = true;
  ge_outcome : rehearsal.IsValidRehearsalOutcome (outcome_of_string (f_Outcome f)) = true;
  ge_attempt : ∃ s id, f_AttemptID f = Some s ∧ uuid_Parse s = Ok id ∧
    (findAttempt id (w_db w)).1 = Ok a;
  ge_this_launch : rehearsal.at_LaunchID a = lid;
  ge_served : rehearsal.at_InputSetHash a = f_InputSetHash f;
  ge_current : ∃ w1 w2, w_db w1 = w_db w ∧ inputset.Current l w1 = (Ret current, w2) }.

Lemma verify_Ok l f u : verifyFactSignature l f = Ok u →
  ∃ pub sig msg,
    base64.DecodeString (launch.l_RehearsalServicePubKey l) = Ok pub ∧
    String.length pub = 32%nat ∧ base64.DecodeString (f_Signature f) = Ok sig ∧
    canonical_MarshalForSigning (fact_doc f) = Ok msg ∧ ed25519_Verify pub msg sig = true.
Proof.
  unfold verifyFactSignature. destruct (is_empty _); [done|].
  destruct (base64.DecodeString (launch.l_RehearsalServicePubKey l)) as [pub|]; [|done].
  destruct (String.length pub =? 32)%nat eqn:El; [|done]. cbn [negb].
  destruct (base64.DecodeString (f_Signature f)) as [sig|]; [|done].
  intros H. apply result_bind_Ok in H as (msg & Hm & H).
  destruct (ed25519_Verify pub msg sig) eqn:Ev; [|done].
  exists pub, sig, msg. apply Nat.eqb_eq in El. done.
Qed.

Lemma resolve_Ret lid f w a w' : resolveAttempt lid f w = (Ret a, w') →
  w' = w ∧ (∃ s id, f_AttemptID f = Some s ∧ uuid_Parse s = Ok id ∧
    (findAttempt id (w_db w)).1 = Ok a) ∧
  rehearsal.at_LaunchID a = lid ∧ rehearsal.at_InputSetHash a = f_InputSetHash f.
Proof.
  unfold resolveAttempt, findAttempt. destruct (f_AttemptID f) as [s|]; [|done].
  intros H. minv. guards. subst. split; [done|]. split_and!; [|done|done].
  eexists _, _. split_and!; done.
Qed.

Lemma record_outcome lid f w :
  w_db (RecordRehearsalResult lid f w).2 = w_db w ∨
  ∃ l a current id t, genuine lid f w l a current ∧
    w_db (RecordRehearsalResult lid f w).2 =
      record_writes (factToResult id lid (rehearsal.at_ID a) f
        (negb (bool_decide (f_InputSetHash f = current))) t) a (w_db w).
Proof.
  unfold RecordRehearsalResult.
  set (P d := d = w_db w ∨ ∃ l a current id t, genuine lid f w l a current ∧
    d = record_writes (factToResult id lid (rehearsal.at_ID a) f
        (negb (bool_decide (f_InputSetHash f = current))) t) a (w_db w)).
  assert (H0 : P (w_db w)) by by left.
  change (P (w_db ((run_st (findLaunch lid) ≫= λ l, of_result (verifyFactSignature l f) ≫= λ _,
    already_recorded lid (f_Signature f) ≫= λ existing,
    match existing with Some r => mret r | None => store_result l lid f end) w).2)).
  apply bind_db; [unfold findLaunch; apply keeps_query|done|]. intros l w1 El Hw1.
  unfold findLaunch in El. apply query_Ret in El as [El ->].
  apply bind_db; [auto with coord|exact H0|]. intros u w1 Ev Hw2.
  apply of_result_Ret in Ev as [Ev ->]. apply verify_Ok in Ev.
  apply bind_db; [auto with coord|exact H0|]. intros existing w1 _ Hw3.
  destruct existing as [r|]; [cbn; by rewrite Hw3|]. unfold store_result.
  apply bind_db; [auto with coord|by rewrite Hw3|]. intros [] w2 Eg Hw4.
  apply guard_err_Ret in Eg as [Eg ->]. guards.
  apply bind_db; [auto with coord|by rewrite Hw3|]. intros a w2 Er Hw5.
  apply resolve_Ret in Er as (-> & Ha & Hl & Hh). rewrite Hw3 in Ha.
  apply bind_db; [auto with coord|by rewrite Hw3|]. intros current w2 Ec Hw6.
  apply bind_db; [auto with coord|by rewrite Hw6, Hw3|]. intros t w3 Et Hw7.
  apply bind_db; [auto with coord|by rewrite Hw7, Hw6, Hw3|]. intros id w4 Ei Hw8.
  assert (Hdb : w_db w4 = w_db w) by congruence.
  apply store_tail; rewrite Hdb; [done|]. right. exists l, a, current, id, t.
  rewrite Hh. split; [|done]. constructor; try done. by exists w1, w2.
Qed.

(** C13. Rehearsal results are genuine.  Recording a fact either leaves the
    database as it was, or the fact is signed under the launch's trusted key,
    names an attempt that this server minted for this launch with exactly the
    fact's input set digest, and has a known outcome; then exactly two things
    are written: the result, marked stale exactly when the input set is no
    longer the current one, and the release of the attempt's lease. *)
Theorem recorded_result_genuine lid f w :
  w_db (RecordRehearsalResult lid f w).2 = w_db w ∨
  ∃ l a current id t, genuine lid f w l a current ∧
    w_db (RecordRehearsalResult lid f w).2 =
      record_writes (factToResult id lid (rehearsal.at_ID a) f
        (negb (bool_decide (f_InputSetHash f = current))) t) a (w_db w).
Proof. apply record_outcome. Qed.

(** ** Provenance of the stored results *)

(** Every stored result refers to an attempt minted for its launch and its
    input set. *)
Definition minted (d : db) : Prop := ∀ r, r ∈ db_results d →
  ∃ a, a ∈ db_attempts d ∧ atw_id a = tw_attempt_id r ∧ atw_launch_id a = tw_launch_id r ∧
       atw_input_set_hash a = tw_input_set_hash r.

Definition attempt_key (r : attempt_row) : uuid * uuid * string :=
  (atw_id r, atw_launch_id r, atw_input_set_hash r).

(** What a request may do to the two tables: results and the identities of the
    attempts are only ever appended to. *)
Record grows (d d' : db) : Prop := {
  gr_results : db_results d `prefix_of` db_results d';
  gr_attempts : attempt_key <$> db_attempts d `prefix_of` attempt_key <$> db_attempts d' }.

#[global] Instance grows_preorder : PreOrder grows.
Proof.
  split; [by split|]. intros d1 d2 d3 [H1 H2] [H3 H4]. split; by etrans.
Qed.

Lemma minted_grows d d' :
  minted d → grows d d' →
  (∀ r, r ∈ db_results d' → r ∈ db_results d ∨
     (tw_attempt_id r, tw_launch_id r, tw_input_set_hash r) ∈ attempt_key <$> db_attempts d) →
  minted d'.
Proof.
  intros Hm [_ Ha] Hnew r Hr.
  assert (Hk : (tw_attempt_id r, tw_launch_id r, tw_input_set_hash r)
               ∈ attempt_key <$> db_attempts d').
  { eapply elem_of_prefix; [|exact Ha]. destruct (Hnew r Hr) as [Hold|]; [|done].
    destruct (Hm r Hold) as (a & Hin & <- & <- & <-). by apply (list_elem_of_fmap_2 attempt_key). }
  apply list_elem_of_fmap in Hk as (a & E & Hin). exists a. by injection E as -> -> ->.
Qed.

Lemma saveAttempt_db a d :
  db_results (saveAttempt a d).2 = db_results d ∧
  attempt_key <$> db_attempts (saveAttempt a d).2 = attempt_key <$> db_attempts d.
Proof.
  unfold saveAttempt, exec, update. destruct d; cbn. split; [done|].
  rewrite <- list_fmap_compose. apply map_ext. intros r. unfold compose.
  by destruct (is_id atw_id _ r).
Qed.

Lemma getOrCreate_db id lid h t d :
  let d' := (getOrCreateAttempt id lid h t d).2 in
  db_results d' = db_results d ∧ grows d d'.
Proof.
  unfold getOrCreateAttempt. cbn zeta.
  destruct (existsb _ _); [split; [done|reflexivity]|].
  destruct (existsb _ _); [split; [done|reflexivity]|].
  destruct d; cbn. split; [done|]. split; cbn; [done|]. rewrite fmap_app. by apply prefix_app_r.
Qed.

(** The requests of the bridge, with the claim in its two halves (anything may
    happen between them), and everything that leaves the two tables alone. *)
Inductive bridge_step : world → world → Prop :=
  | bs_claim_load lid w : bridge_step w (claim_load lid w).2
  | bs_claim_store ttl l in_ a now runner w :
      bridge_step w (claim_store ttl l in_ a now runner w).2
  | bs_record lid f w : bridge_step w (RecordRehearsalResult lid f w).2
  | bs_reset lid id addr w : bridge_step w (ResetRehearsalAttempt lid id addr w).2
  | bs_other w w' :
      db_results (w_db w') = db_results (w_db w) →
      db_attempts (w_db w') = db_attempts (w_db w) → bridge_step w w'.

(** A run that writes nothing but one attempt. *)
Definition attempt_write (d d' : db) : Prop := d' = d ∨ ∃ a, d' = (saveAttempt a d).2.

Lemma tail_attempt {A} a (m : M A) w :
  keeps w_db m →
  attempt_write (w_db w) (w_db ((run_st (saveAttempt a) ≫= λ _, m) w).2).
Proof.
  intros Hm. right. exists a. unfold mbind, M_bind, run_st. cbn [saveAttempt exec].
  by rewrite Hm.
Qed.

Lemma claim_store_db ttl l in_ a now runner w :
  attempt_write (w_db w) (w_db (claim_store ttl l in_ a now runner w).2).
Proof.
  unfold claim_store. apply bind_db; [auto with coord|by left|].
  intros a' w1 _ <-. apply tail_attempt. keeps_tac.
Qed.

Lemma reset_db lid id addr w :
  attempt_write (w_db w) (w_db (ResetRehearsalAttempt lid id addr w).2).
Proof.
  unfold ResetRehearsalAttempt, findAttempt. apply bind_db; [auto with coord|by left|].
  intros l w1 _ H1. apply bind_db; [auto with coord|rewrite H1; by left|].
  intros a w2 _ H2. apply bind_db; [auto with coord|rewrite H2, H1; by left|].
  intros u w3 _ H3. rewrite <- H1, <- H2, <- H3. apply tail_attempt. keeps_tac.
Qed.

Lemma claim_load_db lid w :
  let d' := w_db (claim_load lid w).2 in
  db_results d' = db_results (w_db w) ∧ grows (w_db w) d'.
Proof.
  unfold claim_load, findLaunch.
  set (P d' := db_results d' = db_results (w_db w) ∧ grows (w_db w) d').
  assert (P0 : P (w_db w)) by (split; [done|reflexivity]). cbn zeta. fold (P).
  match goal with |- context [(?m w).2] => change (P (w_db (m w).2)) end.
  apply bind_db; [auto with coord|done|]. intros l w1 _ H1.
  apply bind_db; [auto with coord|by rewrite H1|]. intros in_ w2 _ H2.
  apply bind_db; [auto with coord|by rewrite H2, H1|]. intros now w3 _ H3.
  apply bind_db; [auto with coord|by rewrite H3, H2, H1|]. intros id w4 _ H4.
  assert (Hd : w_db w4 = w_db w) by congruence.
  unfold mbind, M_bind, run_st. rewrite Hd.
  pose proof (getOrCreate_db id (launch.l_ID l) (inputset.ri_InputSetHash in_) now (w_db w)) as Hg.
  by destruct (getOrCreateAttempt _ _ _ _ (w_db w)) as [[a|e] d'].
Qed.

Lemma attempt_write_ok d d' :
  attempt_write d d' → minted d → minted d' ∧ grows d d'.
Proof.
  intros [-> |[a ->]] Hm; [done|].
  destruct (saveAttempt_db a d) as [Hr Ha].
  assert (Hg : grows d (saveAttempt a d).2) by (split; by rewrite ?Hr, ?Ha).
  split; [|done]. apply (minted_grows d); [done|done|]. intros r. rewrite Hr. by left.
Qed.

Lemma findAttempt_row id d a : (findAttempt id d).1 = Ok a →
  (rehearsal.at_ID a, rehearsal.at_LaunchID a, rehearsal.at_InputSetHash a)
    ∈ attempt_key <$> db_attempts d.
Proof.
  unfold findAttempt, query, scan_first. cbn.
  destruct (List.filter _ (db_attempts d)) as [|r l] eqn:E; [done|].
  intros H. assert (r ∈ r :: l) as Hin by apply list_elem_of_here.
  rewrite <- E in Hin. apply list_elem_of_In, filter_In in Hin as [Hin _].
  apply list_elem_of_In, (list_elem_of_fmap_2 attempt_key) in Hin.
  unfold scanAttempt in H. repeat (apply result_bind_Ok in H as (? & _ & H)).
  by injection H as <-.
Qed.

Lemma record_writes_ok lid f w l a current id t stale :
  genuine lid f w l a current → minted (w_db w) →
  let d' := record_writes (factToResult id lid (rehearsal.at_ID a) f stale t) a (w_db w) in
  minted d' ∧ grows (w_db w) d'.
Proof.
  intros Hg Hm. cbn zeta. unfold record_writes. set (res := factToResult _ _ _ _ _ _).
  destruct (saveAttempt_db (rehearsal.Release a) (saveResult res (w_db w)).2) as [Hr Ha].
  destruct (ge_attempt _ _ _ _ _ _ Hg) as (s & aid & _ & _ & Hf).
  apply findAttempt_row in Hf. rewrite (ge_this_launch _ _ _ _ _ _ Hg),
    (ge_served _ _ _ _ _ _ Hg) in Hf.
  assert (Hs : db_attempts (saveResult res (w_db w)).2 = db_attempts (w_db w) ∧
    (db_results (saveResult res (w_db w)).2 = db_results (w_db w) ∨
     db_results (saveResult res (w_db w)).2 = db_results (w_db w) ++ [result_cols res])).
  { unfold saveResult. destruct (existsb _ _); [by auto|].
    destruct (existsb _ _); [by auto|]. destruct (w_db w); cbn; auto. }
  destruct Hs as [Hsa Hsr].
  assert (grows (w_db w) (saveAttempt (rehearsal.Release a) (saveResult res (w_db w)).2).2) as Hgr.
  { split; [rewrite Hr; destruct Hsr as [-> | ->]; [done|by apply prefix_app_r]|].
    by rewrite Ha, Hsa. }
  split; [|done]. apply (minted_grows (w_db w)); [done|done|].
  intros r. rewrite Hr. destruct Hsr as [-> | ->]; [by left|].
  intros [Hin|Hin%list_elem_of_singleton]%elem_of_app; [by left|right]. by subst r.
Qed.

Lemma bridge_step_ok w w' :
  bridge_step w w' → minted (w_db w) → minted (w_db w') ∧ grows (w_db w) (w_db w').
Proof.
  intros [] Hm.
  - destruct (claim_load_db lid w0) as [Hr Hg]. split; [|done].
    apply (minted_grows (w_db w0)); [done|done|]. intros r. rewrite Hr. by left.
  - eapply attempt_write_ok; [apply claim_store_db|done].
  - destruct (record_outcome lid f w0) as [->|(l & a & cur & id & t & Hg & ->)];
      [done|]. by eapply record_writes_ok.
  - eapply attempt_write_ok; [apply reset_db|done].
  - split; [|split; by rewrite ?H, ?H0]. intros r. rewrite H, H0. apply Hm.
Qed.

(** A whole claim. *)
Lemma claim_steps ttl lid runner w :
  rtc bridge_step w (ClaimRehearsalRun ttl lid runner w).2.
Proof.
  eapply rtc_l; [apply (bs_claim_load lid)|]. unfold ClaimRehearsalRun, mbind, M_bind.
  destruct (claim_load lid w) as [[[[[l in_] a] now]| | |] w1]; cbn [snd]; try apply rtc_refl.
  apply rtc_once, bs_claim_store.
Qed.

(** C14. The anti-fabrication lock holds over every interleaving of claims
    (each in its two halves), recordings, resets and requests that do not touch
    the bridge's tables: every stored result refers to an attempt minted by a
    claim for the same launch and the same input set digest, no stored result
    is ever changed or removed, and an attempt never changes its identifier,
    launch or digest. *)
Theorem results_are_minted w w' :
  rtc bridge_step w w' → minted (w_db w) →
  minted (w_db w') ∧ db_results (w_db w) `prefix_of` db_results (w_db w') ∧
  attempt_key <$> db_attempts (w_db w) `prefix_of` attempt_key <$> db_attempts (w_db w').
Proof.
  intros H Hm. assert (minted (w_db w') ∧ grows (w_db w) (w_db w')) as [? [? ?]]; [|done].
  induction H as [w|w w1 w' Hs _ IH]; [done|].
  destruct (bridge_step_ok _ _ Hs Hm) as [Hm1 Hg]. destruct (IH Hm1) as [? ?].
  split; [done|by etrans].
Qed.
End bridge_props.

(** ** Concrete rehearsals *)
Module rehearsal_samples.
Import samples fixtures proposal_samples proposals.

(** Signing bytes: the JSON without the signature field.  A signature is the
    message itself behind a tag. *)
Definition unsigned (d : jdoc) : jdoc :=
  match d with
  | DObj fields => DObj (List.filter (λ kv, negb (bool_decide (kv.1 = "signature"%string))) fields)
  | d => d
  end.
#[local] Instance json_canonical : CanonicalJSON := {|
  canonical_MarshalForSigning := λ d, jsonenc.Marshal (unsigned d);
  canonical_Marshal := λ raw, Ok (default "" raw) |}.
#[local] Instance toy_ed25519 : Ed25519 := {|
  ed25519_Public := λ priv, priv;
  ed25519_Sign := λ priv msg, ("signed:" +:+ msg)%string;
  ed25519_Verify := λ pub msg sig, bool_decide (sig = ("signed:" +:+ msg)%string) |}.

Definition service_key : string :=
  base64.EncodeToString (of_chars (repeat (ascii_of_nat 97) 32)).
Definition rehearsed_launch : launch.Launch :=
  launch.set_Monitoring "" service_key ""
    (some_launch 1%N "chain-1" launch.StatusWindowClosed [alice; bob; carol] 2).
Definition closed_world : world := world_of (saveLaunch rehearsed_launch empty_db).2.

Definition claimed : outcome (inputset.RehearsalInput * uuid) * world :=
  ClaimRehearsalRun defaultRehearsalLeaseTTL 1%N "runner" closed_world.

(** A fact about the claimed input; [sign_fact] adds its signature. *)
Definition fact_of (h : string) (attempt : uuid) (verdict summary : string)
    : RehearsalResultFact :=
  mkFact 1 "1" h (Some (uuid_String attempt)) verdict None summary (Some [])
    (mkFactMeta "v1" "chaind" "v1" "" 1 10) "" "" "" "".
Definition with_signature (s : string) (f : RehearsalResultFact) : RehearsalResultFact :=
  mkFact (f_SchemaVersion f) (f_LaunchID f) (f_InputSetHash f) (f_AttemptID f) (f_Outcome f)
    (f_FailedStep f) (f_Summary f) (f_Steps f) (f_Rehearsal f) (f_StartedAt f) (f_FinishedAt f)
    (f_ServicePubkey f) s.
Definition signature_of (f : RehearsalResultFact) : string :=
  match canonical_MarshalForSigning (fact_doc f) with
  | Ok msg => base64.EncodeToString (ed25519_Sign "" msg)
  | Err _ => ""
  end.
Definition newline : string := of_chars [ascii_of_nat 10].

(** The run: claim, a passing rehearsal, a failing one on the same input, and
    then the first fact again with a line feed behind its signature. *)
Definition fact (verdict : string) : RehearsalResultFact :=
  match claimed.1 with
  | Ret (in_, id) =>
      let f := fact_of (inputset.ri_InputSetHash in_) id verdict "" in
      with_signature (signature_of f) f
  | _ => fact_of "" 0%N verdict ""
  end.
Definition passed : outcome rehearsal.RehearsalResult * world :=
  RecordRehearsalResult 1%N (fact "PASS") claimed.2.
Definition failed : outcome rehearsal.RehearsalResult * world :=
  RecordRehearsalResult 1%N (fact "FAIL") passed.2.
Definition replayed (suffix : string) : outcome rehearsal.RehearsalResult * world :=
  RecordRehearsalResult 1%N (with_signature (f_Signature (fact "PASS") +:+ suffix) (fact "PASS"))
    failed.2.

Definition cfg_required : Config := mkConfig rehearsal.RehearsalGateRequired true.
Definition gate (w : world) : outcome unit := (gateRehearsal cfg_required rehearsed_launch w).1.

Lemma results_are_minted_witness :
  minted (w_db failed.2) ∧ length (db_results (w_db failed.2)) = 2%nat.
Proof.
  split; [|vm_compute; reflexivity].
  apply (results_are_minted closed_world failed.2).
  - assert (H1 : rtc bridge_step closed_world claimed.2)
      by exact (claim_steps defaultRehearsalLeaseTTL 1%N "runner" closed_world).
    assert (H2 : bridge_step claimed.2 passed.2) by exact (bs_record 1%N (fact "PASS") claimed.2).
    assert (H3 : bridge_step passed.2 failed.2) by exact (bs_record 1%N (fact "FAIL") passed.2).
    exact (rtc_r _ _ _ (rtc_r _ _ _ H1 H2) H3).
  - intros r Hr. assert (db_results (w_db closed_world) = []) as E by (vm_compute; reflexivity).
    rewrite E in Hr. by apply elem_of_nil in Hr.
Defined.

Definition two_claims : M (uuid * uuid) :=
  claim_load 1%N ≫= λ '(l1, i1, a1, t1), claim_load 1%N ≫= λ '(l2, i2, a2, t2),
  claim_store defaultRehearsalLeaseTTL l1 i1 a1 t1 "runner-1" ≫= λ '(_, id1),
  claim_store defaultRehearsalLeaseTTL l2 i2 a2 t2 "runner-2" ≫= λ '(_, id2), mret (id1, id2).

(** Two weaknesses of the bridge.  The result's identity is the text of its
    signature, not its bytes: after a PASS and then a FAIL on the same input
    set, the required gate refuses; the old PASS fact posted again as it was is
    recognised and changes nothing, but posted with a line feed behind the
    base64 signature it is recorded as a new result and opens the gate.  And
    the run lease is checked on a loaded copy: of two simultaneous claims by
    different runners both succeed, for the same attempt. *)
Theorem rehearsal_bridge_races :
  gate passed.2 = Ret tt ∧
  gate failed.2 = Fail [ErrRehearsalGateUnsatisfied; ErrConflict] ∧
  w_db (replayed "").2 = w_db failed.2 ∧
  (length (db_results (w_db (replayed newline).2)) = 3%nat ∧
   gate (replayed newline).2 = Ret tt) ∧
  ∃ id, (two_claims closed_world).1 = Ret (id, id).
Proof. vm_compute. repeat split. by eexists. Qed.
End rehearsal_samples.
