(* ===== verification/AuthProps.v ===== *)
(** * Correctness of authentication *)

From S2P Require Import Prelude GoStd GoTime Values LaunchAgg Fixtures Events Payload TimeProps.
From S2P Require Import Proposal ProposalProps Store StoreProps World WorldProps AuditLog.
From S2P Require Import ProposalService ServiceSamples ProposalServiceProps AuthService.
Import sqlite.
#[global] Open Scope Z_scope.

(** ** Runs *)
Section runs.

Lemma abind_Ret {A B} (m : AM A) (f : A → AM B) s b s' :
  (m ≫= f) s = (Ret b, s') ↔ ∃ a s1, m s = (Ret a, s1) ∧ f a s1 = (Ret b, s').
Proof. unfold mbind, AM_bind. destruct (m s) as [[] s1]; naive_solver. Qed.

Lemma aret_Ret {A} (a b : A) s s' : (mret a : AM A) s = (Ret b, s') ↔ a = b ∧ s' = s.
Proof. unfold mret, AM_ret. split; [by intros [= -> ->]|by intros [-> ->]]. Qed.

Lemma lift_Ret {A} (m : M A) s a s' :
  lift m s = (Ret a, s') ↔ ∃ w1, m s.2 = (Ret a, w1) ∧ s' = (s.1, w1).
Proof.
  destruct s as [d w]. unfold lift. cbn [fst snd]. destruct (m w) as [o w1]. split.
  - intros [= -> <-]. by exists w1.
  - by intros (? & [= -> ->] & ->).
Qed.

Lemma get_Ret s d s' : get_auth s = (Ret d, s') ↔ d = s.1 ∧ s' = s.
Proof. unfold get_auth. split; [by intros [= <- <-]|by intros [-> ->]]. Qed.

Lemma put_Ret d s u s' : put_auth d s = (Ret u, s') ↔ s' = (d, s.2).
Proof. unfold put_auth. destruct u. split; [by intros [= <-]|by intros ->]. Qed.

Lemma aresult_Ret {A} (r : result A) s a s' :
  aresult r s = (Ret a, s') ↔ r = Ok a ∧ s' = s.
Proof. destruct s as [d w]. unfold aresult, lift, of_result. destruct r; split;
  [by intros [= -> ->]|by intros [[= ->] ->]|done|by intros [? _]]. Qed.

Lemma aguard_Ret c e s u s' : aguard c e s = (Ret u, s') ↔ c = false ∧ s' = s.
Proof.
  destruct s as [d w], u. unfold aguard, lift, guard_err. destruct c; cbn.
  - split; [done|by intros [[=] _]].
  - split; [by intros [= ->]|by intros [_ ->]].
Qed.

Lemma afail_Ret {A} e s (a : A) s' : ¬ afail e s = (Ret a, s').
Proof. by destruct s. Qed.

(** ** What every run preserves *)
Definition preserves {A} (P : authdb * world → Prop) (m : AM A) : Prop :=
  ∀ s, P s → P (m s).2.

Lemma preserves_bind {A B} P (m : AM A) (f : A → AM B) :
  preserves P m → (∀ a, preserves P (f a)) → preserves P (m ≫= f).
Proof.
  intros Hm Hf s Hs. specialize (Hm s Hs). unfold mbind, AM_bind.
  destruct (m s) as [[a|e| |] s1]; cbn in *; try done. by apply Hf.
Qed.
Lemma preserves_ret {A} P (a : A) : preserves P (mret a : AM A).
Proof. by intros s. Qed.
Lemma preserves_get P : preserves P get_auth.
Proof. by intros s. Qed.
Lemma preserves_result {A} P (r : result A) : preserves P (aresult r).
Proof. intros [d w]. unfold aresult, lift, of_result. by destruct r. Qed.
Lemma preserves_guard P c e : preserves P (aguard c e).
Proof. intros [d w]. unfold aguard, lift, guard_err. by destruct c. Qed.
Lemma preserves_fail {A} P e : preserves P (afail e : AM A).
Proof. by intros [d w]. Qed.

Lemma preserves_read {A} P (f : authdb → AM A) :
  (∀ s, P s → P (f s.1 s).2) → preserves P (get_auth ≫= f).
Proof. intros Hf s Hs. by apply Hf. Qed.
Lemma put_then {A} P d' (f : unit → AM A) s :
  P (d', s.2) → preserves P (f tt) → P ((put_auth d' ≫= f) s).2.
Proof. intros Hd Hf. by apply Hf. Qed.

(** The clock only moves on. *)
Definition ticks {A} (m : M A) : Prop := ∀ w, (w_tick w ≤ w_tick (m w).2)%nat.

Context `{B32 : Bech32} `{UT : UUIDText} `{O : Oracle}.

Lemma ticks_bind {A B} (m : M A) (f : A → M B) :
  ticks m → (∀ a, ticks (f a)) → ticks (m ≫= f).
Proof.
  intros Hm Hf w. specialize (Hm w). unfold mbind, M_bind.
  destruct (m w) as [[a|e| |] w1]; cbn in *; try done. etrans; [done|apply Hf].
Qed.
Lemma ticks_ret {A} (a : A) : ticks (mret a : M A).
Proof. intros w. cbn. lia. Qed.
Lemma ticks_throw {A} e : ticks (throw e : M A).
Proof. intros w. cbn. lia. Qed.
Lemma ticks_of_result {A} (r : result A) : ticks (of_result r).
Proof. intros w. cbn. lia. Qed.
Lemma ticks_guard c e : ticks (guard_err c e).
Proof. intros w. unfold guard_err. destruct c; cbn; lia. Qed.
Lemma ticks_run {A} (m : St A) : ticks (run_st m).
Proof. intros w. unfold run_st. destruct (m (w_db w)); cbn; lia. Qed.
Lemma ticks_Now : ticks Now.
Proof. intros w. cbn. lia. Qed.
Lemma ticks_NewUUID : ticks NewUUID.
Proof. intros w. cbn. lia. Qed.
Lemma ticks_Append e : ticks (Append e).
Proof. intros w. unfold Append. destruct (oracle_audit_fails _); cbn; lia. Qed.
Lemma ticks_recordAudit scope ev : ticks (recordAudit scope ev).
Proof.
  assert (H : ticks (writeAuditEvent scope ev)).
  { unfold writeAuditEvent. apply ticks_bind; [|intros; apply ticks_Append].
    destruct (time.IsZero _); [apply ticks_Now|apply ticks_ret]. }
  intros w. specialize (H w). unfold recordAudit.
  by destruct (writeAuditEvent scope ev w) as [[] w1].
Qed.
Lemma ticks_ConsumeNonce a n : ticks (ConsumeNonce a n).
Proof.
  unfold ConsumeNonce. apply ticks_bind; [apply ticks_Now|intros].
  apply ticks_bind; [apply ticks_Now|intros; apply ticks_run].
Qed.
Lemma ticks_timestamp ts : ticks (validateTimestamp ts).
Proof.
  unfold validateTimestamp. destruct (is_empty ts); [apply ticks_throw|].
  destruct (rfc3339.Parse ts); [|apply ticks_throw].
  apply ticks_bind; [apply ticks_Now|intros; apply ticks_guard].
Qed.
Lemma ticks_base64 s : ticks (decodeBase64Sig s).
Proof. apply ticks_of_result. Qed.

(** Predicates on the tables that survive the passing of time. *)
Definition timeless (P : authdb * world → Prop) : Prop :=
  ∀ d w w', P (d, w) → (w_tick w ≤ w_tick w')%nat → P (d, w').

Lemma preserves_lift {A} P (m : M A) : timeless P → ticks m → preserves P (lift m).
Proof.
  intros HP Hm [d w] Hs. unfold lift. specialize (Hm w). destruct (m w) as [o w1].
  by apply (HP d w).
Qed.
End runs.

#[export] Hint Resolve preserves_ret preserves_get preserves_result preserves_guard
  preserves_fail ticks_Now ticks_NewUUID ticks_recordAudit ticks_ConsumeNonce ticks_timestamp
  ticks_base64 ticks_guard ticks_of_result : coord.

(** Invert a successful run. *)
Ltac ainv_step :=
  match goal with
  | H : (_ ≫= _) _ = (Ret _, _) |- _ =>
      let a := fresh "a" in let s1 := fresh "s" in let E := fresh "E" in
      apply abind_Ret in H as (a & s1 & E & H)
  | H : (mret _) _ = (Ret _, _) |- _ => apply aret_Ret in H as [? ?]; subst
  | H : get_auth _ = (Ret _, _) |- _ => apply get_Ret in H as [? ?]; subst
  | H : put_auth _ _ = (Ret _, _) |- _ => apply put_Ret in H; subst
  | H : aresult _ _ = (Ret _, _) |- _ => apply aresult_Ret in H as [H ?]; subst
  | H : aguard _ _ _ = (Ret _, _) |- _ => apply aguard_Ret in H as [H ?]; subst
  | H : afail _ _ = (Ret _, _) |- _ => by apply afail_Ret in H
  | H : lift Now _ = (Ret _, _) |- _ =>
      apply lift_Ret in H as (? & H & ?); apply Now_Ret in H as [? ?]; subst
  | H : lift NewUUID _ = (Ret _, _) |- _ =>
      apply lift_Ret in H as (? & H & ?); apply NewUUID_Ret in H as [? ?]; subst
  | H : map_err _ _ = Ok _ |- _ => apply map_err_Ok in H
  end.
Ltac ainv := repeat (ainv_step; cbn [fst snd] in * ).

(** ** Computations that leave something alone *)
Definition akeeps {X A} (proj : authdb * world → X) (m : AM A) : Prop :=
  ∀ s, proj (m s).2 = proj s.
(** What a client can observe of the services' world. *)
Definition aworld (s : authdb * world) := visible s.2.

Section akeeps.
Context {X : Type} (proj : authdb * world → X).
Lemma akeeps_bind {A B} (m : AM A) (f : A → AM B) :
  akeeps proj m → (∀ a, akeeps proj (f a)) → akeeps proj (m ≫= f).
Proof.
  intros Hm Hf s. specialize (Hm s). unfold mbind, AM_bind.
  destruct (m s) as [[] s1]; cbn in *; try done. by rewrite Hf.
Qed.
Lemma akeeps_ret {A} (a : A) : akeeps proj (mret a : AM A).
Proof. by intros s. Qed.
Lemma akeeps_get : akeeps proj get_auth.
Proof. by intros s. Qed.
Lemma akeeps_result {A} (r : result A) : akeeps proj (aresult r).
Proof. by intros [d w]. Qed.
Lemma akeeps_guard c e : akeeps proj (aguard c e).
Proof. intros [d w]. by destruct c. Qed.
Lemma akeeps_fail {A} e : akeeps proj (afail e : AM A).
Proof. by intros [d w]. Qed.
End akeeps.

Lemma aworld_lift {A} (m : M A) : keeps visible m → akeeps aworld (lift m).
Proof. intros H [d w]. specialize (H w). unfold lift, aworld. by destruct (m w). Qed.
Lemma aworld_put d : akeeps aworld (put_auth d).
Proof. by intros s. Qed.

#[export] Hint Resolve akeeps_ret akeeps_get akeeps_result akeeps_guard akeeps_fail
  aworld_lift aworld_put : coord.
#[export] Hint Extern 1 (keeps visible Now) => by intros : coord.
#[export] Hint Extern 1 (keeps visible NewUUID) => by intros : coord.

Ltac akeeps_tac :=
  repeat first
    [ progress cbv beta | solve [auto with coord]
    | match goal with
      | |- akeeps _ (if ?x then _ else _) => destruct x
      | |- akeeps _ (match ?x with _ => _ end) => destruct x
      end
    | apply akeeps_bind; [|intros ?] ].

(** ** Computations that do not end the process *)
Definition astays {A} (m : AM A) : Prop := ∀ s, (m s).1 ≠ Exit.

Section astays.
Lemma astays_bind {A B} (m : AM A) (f : A → AM B) :
  astays m → (∀ a, astays (f a)) → astays (m ≫= f).
Proof.
  intros Hm Hf s. specialize (Hm s). unfold mbind, AM_bind.
  destruct (m s) as [[] s1]; cbn in *; try done. apply Hf.
Qed.
Lemma astays_ret {A} (a : A) : astays (mret a : AM A).
Proof. by intros s. Qed.
Lemma astays_get : astays get_auth.
Proof. by intros s. Qed.
Lemma astays_put d : astays (put_auth d).
Proof. by intros s. Qed.
Lemma astays_result {A} (r : result A) : astays (aresult r).
Proof. intros [d w]. by destruct r. Qed.
Lemma astays_guard c e : astays (aguard c e).
Proof. intros [d w]. by destruct c. Qed.
Lemma astays_fail {A} e : astays (afail e : AM A).
Proof. by intros [d w]. Qed.
Lemma astays_lift {A} (m : M A) : (∀ w, (m w).1 ≠ Exit) → astays (lift m).
Proof. intros H [d w]. specialize (H w). unfold lift. by destruct (m w). Qed.
Lemma astays_unauthorized {A} (m : AM A) : astays m → astays (sessions.unauthorized m).
Proof. intros H s. specialize (H s). unfold sessions.unauthorized. by destruct (m s) as [[] s1]. Qed.
End astays.

#[export] Hint Resolve astays_ret astays_get astays_put astays_result astays_guard astays_fail
  : coord.
#[export] Hint Extern 1 (astays (lift Now)) => apply astays_lift; by intros : coord.
#[export] Hint Extern 1 (astays (lift NewUUID)) => apply astays_lift; by intros : coord.

Ltac astays_tac :=
  repeat first
    [ progress cbv beta | solve [auto with coord]
    | match goal with
      | |- astays (if ?x then _ else _) => destruct x
      | |- astays (match ?x with _ => _ end) => destruct x
      end
    | apply astays_bind; [|intros ?] | apply astays_unauthorized ].

(** ** The contract of a challenge store *)
Section contract.
Context `{O : Oracle}.

(** A consumed challenge was stored for the account, had not expired, and is
    gone; and nothing but challenges and rate rows is written. *)
Class StoreOK (CS : ChallengeStore) : Prop := {
  consume_once acct s c s' : store_Consume acct s = (Ret c, s') →
    (∃ exp t n, a_challenges s.1 !! acct = Some (c, exp) ∧ strToTime exp = Ok t ∧
       oracle_Now n ≤ t ∧ (w_tick s.2 ≤ n)%nat) ∧
    s'.1 = set_challenges (delete acct (a_challenges s.1)) s.1 ∧ w_db s'.2 = w_db s.2;
  consume_absent acct s : a_challenges s.1 !! acct = None →
    store_Consume acct s = (Fail [ErrNotFound], s);
  issue_fences P acct : timeless P →
    (∀ d w c r, P (d, w) → P (mkAuth c r (a_fences d) (a_coordinators d), w)) →
    preserves P (store_Issue acct);
  consume_fences P acct : timeless P →
    (∀ d w c r, P (d, w) → P (mkAuth c r (a_fences d) (a_coordinators d), w)) →
    preserves P (store_Consume acct);
  issue_world acct : akeeps aworld (store_Issue acct);
  consume_world acct : akeeps aworld (store_Consume acct);
  issue_stays acct : astays (store_Issue acct);
  consume_stays acct : astays (store_Consume acct) }.

#[export] Instance sqlite_store_ok `{R : Random} : StoreOK challenges.sqlite_store.
Proof.
  split.
  - intros acct s c s' H. cbn in H. unfold challenges.Consume in H. ainv.
    destruct (a_challenges s.1 !! acct) as [[c0 exp]|] eqn:E; [|by apply afail_Ret in H].
    ainv. guards. split; [|by destruct s].
    eexists _, _, _. split_and!; [done|done|by apply Z.ltb_ge|cbn; lia].
  - intros acct [d w] H. cbn in *. unfold challenges.Consume, mbind, AM_bind, get_auth. cbn.
    by rewrite H.
  - intros P acct Ht Hc. cbn. unfold challenges.Issue.
    apply preserves_bind; [apply preserves_lift; [done|apply ticks_Now]|intros now].
    apply preserves_bind.
    { intros [d w] Hs. unfold challenges.randomHex.
      destruct (random_read (w_tick w)); apply (Ht d w); cbn; try done; lia. }
    intros ch. apply preserves_read. intros [d w] Hs. cbn [fst].
    destruct (a_challenges d !! acct) as [[c e]|]; [destruct (strings.ltb _ _); [|done]|];
      apply put_then; auto with coord; by apply Hc.
  - intros P acct Ht Hc. cbn. unfold challenges.Consume.
    apply preserves_read. intros [d w] Hs. cbn [fst].
    destruct (a_challenges d !! acct) as [[c e]|]; [|by apply preserves_fail].
    apply put_then; [by apply Hc|].
    apply preserves_bind; [auto with coord|intros].
    apply preserves_bind; [apply preserves_lift; [done|apply ticks_Now]|intros].
    apply preserves_bind; auto with coord.
  - intros acct. cbn. unfold challenges.Issue.
    apply akeeps_bind; [auto with coord|intros now].
    apply akeeps_bind; [|intros c; akeeps_tac].
    intros [d w]. unfold challenges.randomHex. by destruct (random_read _).
  - intros acct. cbn. unfold challenges.Consume. akeeps_tac.
  - intros acct. cbn. unfold challenges.Issue.
    apply astays_bind; [auto with coord|intros now].
    apply astays_bind; [|intros c; astays_tac].
    intros [d w]. unfold challenges.randomHex. by destruct (random_read _).
  - intros acct. cbn. unfold challenges.Consume. astays_tac.
Qed.

#[export] Instance limited_store_ok (inner : ChallengeStore) :
  StoreOK inner → StoreOK (ratelimit.limited_store inner).
Proof.
  intros Hok. split.
  - exact (consume_once (CS := inner)).
  - exact (consume_absent (CS := inner)).
  - intros P acct Ht Hc. cbn. unfold ratelimit.Issue.
    apply preserves_bind; [|intros; by apply (issue_fences (CS := inner))]. unfold ratelimit.Allow.
    apply preserves_bind; [apply preserves_lift; [done|apply ticks_Now]|intros now].
    apply preserves_read. intros [d w] Hs. cbn [fst].
    destruct (ratelimit.challengeRateMaxReqs <=? _); unfold mbind, AM_bind; cbn; [done|].
    by apply Hc.
  - exact (consume_fences (CS := inner)).
  - intros acct. cbn. unfold ratelimit.Issue, ratelimit.Allow.
    apply akeeps_bind; [akeeps_tac|intros; apply (issue_world (CS := inner))].
  - exact (consume_world (CS := inner)).
  - intros acct. cbn. unfold ratelimit.Issue, ratelimit.Allow.
    apply astays_bind; [astays_tac|intros; apply (issue_stays (CS := inner))].
  - exact (consume_stays (CS := inner)).
Qed.
End contract.

(** ** Answering a challenge *)
Section service.
#[local] Set Default Proof Using "Type*".
Context `{B32 : Bech32} `{UT : UUIDText} `{CJ : CanonicalJSON} `{SVr : SignatureVerifier}
        `{O : Oracle} `{J : JWT} `{CS : ChallengeStore} {OK : StoreOK CS}.
Import auth.

(** What a response must be to open a session. *)
Record responded (i : VerifyChallengeInput) (s : authdb * world) (acct : string) : Prop := {
  rs_account : accountKey (vi_OperatorAddress i) = Ok acct;
  rs_nonce : existsb (nonce_is acct (vi_Nonce i)) (db_nonces (w_db s.2)) = false;
  rs_time : ∃ t n, rfc3339.Parse (vi_Timestamp i) = Ok t ∧ timestamp_ok (oracle_Now n) t = true;
  rs_challenge : ∃ exp t n, a_challenges s.1 !! acct = Some (vi_Challenge i, exp) ∧
    strToTime exp = Ok t ∧ oracle_Now n ≤ t ∧ (w_tick s.2 ≤ n)%nat;
  rs_sig : ∃ msg sb, canonical_MarshalForSigning (verify_doc i) = Ok msg ∧
    base64.DecodeString (vi_Signature i) = Ok sb ∧
    verifier_Verify (vi_OperatorAddress i) (vi_PubKeyB64 i) msg sb = Ok tt }.

Lemma consume_challenge_Ret i s u s' :
  consume_challenge i s = (Ret u, s') →
  ∃ acct, accountKey (vi_OperatorAddress i) = Ok acct ∧
    existsb (nonce_is acct (vi_Nonce i)) (db_nonces (w_db s.2)) = false ∧
    (∃ t n, rfc3339.Parse (vi_Timestamp i) = Ok t ∧ timestamp_ok (oracle_Now n) t = true) ∧
    (∃ exp t n, a_challenges s.1 !! acct = Some (vi_Challenge i, exp) ∧
       strToTime exp = Ok t ∧ oracle_Now n ≤ t ∧ (w_tick s.2 ≤ n)%nat) ∧
    s'.1 = set_challenges (delete acct (a_challenges s.1)) s.1.
Proof.
  unfold consume_challenge. intros H. ainv. guards. subst.
  apply lift_Ret in E0 as (w1 & E0 & ->). apply lift_Ret in E1 as (w2 & E1 & ->).
  cbn [fst snd] in *.
  pose proof (ticks_ConsumeNonce a (vi_Nonce i) s.2) as T0. rewrite E0 in T0.
  pose proof (ticks_timestamp (vi_Timestamp i) w1) as T1. rewrite E1 in T1. cbn [snd] in *.
  apply consume_Ret in E0 as [Hn _]. apply timestamp_Ret in E1 as [_ Ht].
  apply consume_once in E2 as ((exp & t & n & He & Hp & Hle & Htick) & Hs & _).
  cbn [fst snd] in *. exists a. split_and!; try done. exists exp, t, n. split_and!; [done..|lia].
Qed.

Lemma check_response_Ret i s u s' :
  check_response i s = (Ret u, s') →
  s'.1 = s.1 ∧ ∃ msg sb, canonical_MarshalForSigning (verify_doc i) = Ok msg ∧
    base64.DecodeString (vi_Signature i) = Ok sb ∧
    verifier_Verify (vi_OperatorAddress i) (vi_PubKeyB64 i) msg sb = Ok tt.
Proof.
  unfold check_response, decodeBase64Sig. intros H. ainv. destruct u.
  apply lift_Ret in E0 as (w1 & E0 & ->). minv. split; [done|]. eauto.
Qed.

(** Without a stored challenge no response is accepted. *)
Lemma no_challenge_no_session i acct s token s' :
  accountKey (vi_OperatorAddress i) = Ok acct → a_challenges s.1 !! acct = None →
  ¬ VerifyChallenge i s = (Ret token, s').
Proof.
  intros Ha Hc H. unfold VerifyChallenge in H. apply abind_Ret in H as (u & s1 & E & _).
  apply consume_challenge_Ret in E as (acct' & Ha' & _ & _ & (exp & t & n & He & _) & _).
  rewrite Ha in Ha'. injection Ha' as <-. congruence.
Qed.

(** C15. A session token proves an answered challenge, once.  A token is issued
    only for an account with a stored, unexpired challenge equal to the one in
    the request, signed with a key the verifier accepts for the address, with
    an unused nonce and a fresh timestamp; it names the address of the request
    and expires an hour after it was issued; and the challenge is gone, so that
    no other response of that account, under any address prefix, is accepted
    before a new challenge was stored. *)
Theorem session_proves_challenge i s token s' :
  VerifyChallenge i s = (Ret token, s') →
  ∃ acct n id, responded i s acct ∧
    jwt_SignedString (mkClaims (vi_OperatorAddress i)
      (Some (sessions.NewNumericDate (oracle_Now n)))
      (Some (sessions.NewNumericDate (time.Add (oracle_Now n) sessions.jwtTTL)))
      (uuid_String id)) = Ok token ∧
    s'.1 = set_challenges (delete acct (a_challenges s.1)) s.1 ∧
    ∀ j w' token' s'', accountKey (vi_OperatorAddress j) = Ok acct →
      ¬ VerifyChallenge j (s'.1, w') = (Ret token', s'').
Proof.
  unfold VerifyChallenge at 1. intros H. ainv.
  apply consume_challenge_Ret in E as (acct & Ha & Hn & Ht & Hc & Hd).
  apply check_response_Ret in E0 as [Hd' Hs]. unfold sessions.Issue in H. ainv.
  exists acct, (w_tick s1.2). eexists. split; [by constructor|]. split; [exact H|].
  cbn [fst]. rewrite Hd', Hd. split; [done|].
  intros j w' token' s'' Hj. apply (no_challenge_no_session _ acct); [done|].
  cbn. apply lookup_delete_eq.
Qed.
End service.

(** ** Revocation *)
Section revocation.
#[local] Set Default Proof Using "Type*".
Context `{B32 : Bech32} `{UT : UUIDText} `{CJ : CanonicalJSON} `{SVr : SignatureVerifier}
        `{O : Oracle} `{J : JWT} `{CS : ChallengeStore} {OK : StoreOK CS}.
Import auth.

(** Seconds of storable instants are stored and read back exactly. *)
Lemma trunc_storable t : timetext.storable t → timetext.storable (t - t mod time.Second).
Proof.
  unfold timetext.storable. change time.Second with 1000000000. intros Ht.
  pose proof (Z.div_mod t 1000000000 ltac:(lia)). pose proof (Z.mod_pos_bound t 1000000000).
  split; [|lia].
  assert (-62167219200 ≤ t / 1000000000) by (apply Z.div_le_lower_bound; lia). lia.
Qed.

Lemma parse_Format t : timetext.storable t →
  rfc3339.Parse (rfc3339.Format t) = Ok (t - t mod time.Second).
Proof.
  intros Ht. unfold rfc3339.Parse, rfc3339.Format.
  by rewrite timetext.parse_format by (by apply trunc_storable).
Qed.

Lemma trunc_mono t u : t ≤ u → t - t mod time.Second ≤ u - u mod time.Second.
Proof.
  intros H. change time.Second with 1000000000.
  pose proof (Z.div_mod t 1000000000 ltac:(lia)). pose proof (Z.div_mod u 1000000000 ltac:(lia)).
  pose proof (Z.div_le_mono t u 1000000000 ltac:(lia) H). lia.
Qed.

(** The account is fenced by a revocation at reading [n0] of the clock or
    later. *)
Definition fenced (key : string) (n0 : nat) (s : authdb * world) : Prop :=
  (n0 ≤ w_tick s.2)%nat ∧
  ∃ n, (n0 ≤ n)%nat ∧ a_fences s.1 !! key = Some (rfc3339.Format (oracle_Now n)).
Definition past (n0 : nat) (s : authdb * world) : Prop := (n0 ≤ w_tick s.2)%nat.

Lemma fenced_timeless key n0 : timeless (fenced key n0).
Proof. intros d w w' [H1 H2] Hle. split; [cbn in *; lia|done]. Qed.
Lemma past_timeless n0 : timeless (past n0).
Proof. intros d w w' H Hle. unfold past in *. cbn in *. lia. Qed.

(** A predicate that time, challenges, rate rows, coordinators and further
    revocations all respect is kept by every operation. *)
Definition respected (P : authdb * world → Prop) : Prop :=
  timeless P ∧
  (∀ d w c r, P (d, w) → P (mkAuth c r (a_fences d) (a_coordinators d), w)) ∧
  (∀ d w c, P (d, w) → P (set_coordinators c d, w)) ∧
  (∀ d w key, P (d, w) →
     P (set_fences (<[key := rfc3339.Format (oracle_Now (w_tick w))]> (a_fences d)) d, tick w)).

Lemma fenced_respected key n0 : respected (fenced key n0).
Proof.
  split_and!; [apply fenced_timeless|done|done|].
  intros d w key' [H1 (n & Hn & Hf)]. split; [cbn in *; lia|]. cbn.
  destruct (decide (key' = key)) as [->|Hne].
  - exists (w_tick w). by rewrite lookup_insert_eq.
  - exists n. by rewrite lookup_insert_ne.
Qed.
Lemma past_respected n0 : respected (past n0).
Proof. split_and!; [apply past_timeless|done|done|]. unfold past. cbn. lia. Qed.

Lemma preserves_revoke P addr : respected P → preserves P (sessions.RevokeAllForOperator addr).
Proof. intros (_ & _ & _ & H) [d w] Hs. cbn. by apply H. Qed.

Lemma preserves_audit P b : respected P → preserves P (audit_global b).
Proof.
  intros (H & _). apply preserves_lift; [done|].
  apply ticks_bind; [apply ticks_Now|intros; apply ticks_recordAudit].
Qed.

Lemma preserves_Verify P i : respected P → preserves P (VerifyChallenge i).
Proof.
  intros (Ht & Hc & _). unfold VerifyChallenge, consume_challenge, check_response, sessions.Issue.
  repeat first [apply preserves_bind; [|intros] | apply consume_fences; done
    | apply preserves_lift; [done|] | solve [auto with coord]].
Qed.

Lemma preserves_IssueChallenge P a : respected P → preserves P (IssueChallenge a).
Proof.
  intros (Ht & Hc & _). unfold IssueChallenge.
  apply preserves_bind; [auto with coord|intros; by apply issue_fences].
Qed.

Lemma preserves_Add P a b : respected P → preserves P (coordinators.Add a b).
Proof.
  intros HP. apply preserves_bind; [|intros; by apply preserves_audit].
  destruct HP as (Ht & _ & Hc & _). unfold coordinators.repo_Add.
  destruct (accountHex a); [|auto with coord].
  apply preserves_bind; [apply preserves_lift; [done|apply ticks_Now]|intros now].
  apply preserves_read. intros [d w] Hs. destruct (existsb _ _); [done|]. by apply Hc.
Qed.

Lemma preserves_Remove P a b : respected P → preserves P (coordinators.Remove a b).
Proof.
  intros HP. apply preserves_bind; [|intros; by apply preserves_audit].
  destruct HP as (Ht & _ & Hc & _). unfold coordinators.repo_Remove.
  destruct (accountHex a); [|auto with coord].
  apply preserves_read. intros [d w] Hs. apply put_then; [by apply Hc|auto with coord].
Qed.

Lemma preserves_RevokeAll P a b : respected P → preserves P (RevokeAllSessions a b).
Proof.
  intros HP. apply preserves_bind; [by apply preserves_revoke|intros; by apply preserves_audit].
Qed.

(** The requests that touch the authentication tables, and everything else. *)
Inductive auth_step : authdb * world → authdb * world → Prop :=
  | as_issue a s : auth_step s (IssueChallenge a s).2
  | as_verify i s : auth_step s (VerifyChallenge i s).2
  | as_revoke a b s : auth_step s (RevokeAllSessions a b s).2
  | as_add a b s : auth_step s (coordinators.Add a b s).2
  | as_remove a b s : auth_step s (coordinators.Remove a b s).2
  | as_other d w w' : (w_tick w ≤ w_tick w')%nat → auth_step (d, w) (d, w').

Lemma steps_respect P s s' : respected P → rtc auth_step s s' → P s → P s'.
Proof.
  intros HP. induction 1 as [|s s1 s' Hs _ IH]; [done|]. intros H. apply IH. clear IH.
  destruct Hs; [by apply preserves_IssueChallenge|by apply preserves_Verify
    |by apply preserves_RevokeAll|by apply preserves_Add|by apply preserves_Remove
    |by eapply (proj1 HP)].
Qed.

(** A token whose claims are fenced is refused, and so is one that does not
    parse. *)
Lemma Validate_fenced raw d w key text t addr :
  a_fences d !! key = Some text → rfc3339.Parse text = Ok t →
  (∀ c, jwt_ParseWithClaims raw (oracle_Now (w_tick w)) = Ok c →
     cl_Subject c = addr ∧ time.After (default time.zeroTime (cl_IssuedAt c)) t = false) →
  sessions.accountFenceKey addr = key →
  (sessions.Validate raw (d, w)).1 = Fail [ErrUnauthorized].
Proof.
  intros Hf Ht Hc Hk. unfold sessions.Validate, sessions.unauthorized, sessions.parseClaims, mbind,
    AM_bind, lift, Now, aresult, of_result. cbn.
  destruct (jwt_ParseWithClaims raw (oracle_Now (w_tick w))) as [c|e]; [|done].
  destruct (Hc c eq_refl) as [Hs Ha]. cbn. rewrite Hs.
  unfold aguard at 1, lift, guard_err. destruct (is_empty addr); cbn; [done|].
  rewrite Hk, Hf, Ht. cbn. by rewrite Ha.
Qed.

(** C16. Revocation is final.  Let the clock not run backwards and the token
    library return from a token it signed the claims it signed.  Once all
    sessions of an account are revoked, every token issued to that account
    before, under any address prefix, is refused, whatever authentication
    requests, further revocations and other work happen in between and after. *)
Theorem revocation_final addr1 addr2 by_ raw s0 s1 s2 s4
    (clock_mono : ∀ n m, (n ≤ m)%nat → oracle_Now n ≤ oracle_Now m)
    (clock_storable : ∀ n, timetext.storable (oracle_Now n))
    (jwt_faithful : ∀ c raw now c', jwt_SignedString c = Ok raw →
       jwt_ParseWithClaims raw now = Ok c' → c' = c) :
  sessions.accountFenceKey addr1 = sessions.accountFenceKey addr2 →
  sessions.Issue addr1 s0 = (Ret raw, s1) →
  rtc auth_step s1 s2 →
  rtc auth_step (RevokeAllSessions addr2 by_ s2).2 s4 →
  (ValidateSession raw s4).1 = Fail [ErrUnauthorized].
Proof.
  intros Hkey Hi H12 H34. unfold sessions.Issue in Hi. ainv. rename Hi into Hsign.
  assert (Hpast : past (w_tick s0.2) s2).
  { eapply (steps_respect _ _ _ (past_respected _) H12). unfold past. cbn. lia. }
  assert (Hf : fenced (sessions.accountFenceKey addr1) (w_tick s0.2) s4).
  { eapply (steps_respect _ _ _ (fenced_respected _ _) H34).
    destruct s2 as [d2 w2]. unfold past in Hpast. cbn [snd] in Hpast.
    apply (preserves_audit (fenced _ _) _ (fenced_respected _ _)). split; cbn; [lia|].
    exists (w_tick w2). split; [done|]. by rewrite Hkey, lookup_insert_eq. }
  destruct Hf as [_ (n & Hn & Hf)]. destruct s4 as [d4 w4]. cbn [fst] in Hf.
  apply (Validate_fenced raw d4 w4 _ _ _ addr1 Hf (parse_Format _ (clock_storable n))); [|done].
  intros c Hc. rewrite (jwt_faithful _ _ _ _ Hsign Hc). split; [done|].
  cbn. apply Z.ltb_ge, trunc_mono. by apply clock_mono.
Qed.
End revocation.

(** ** The rate limit *)
Section rate.
#[local] Set Default Proof Using "Type*".
Context `{O : Oracle}.
Import ratelimit.

Lemma sublist_filter_all {A} (f : A → bool) l1 l2 :
  l1 `sublist_of` l2 → (∀ x, x ∈ l1 → f x = true) → l1 `sublist_of` List.filter f l2.
Proof.
  induction 1 as [|x l1 l2 H IH|x l1 l2 H IH]; intros Hall; cbn; [done| |].
  - rewrite (Hall x) by (by left). apply sublist_skip, IH. intros y Hy. apply Hall. by right.
  - destruct (f x); [apply sublist_cons|]; by apply IH.
Qed.

Definition grant_row (acct : string) (t : time.Time) : rate_row := mkRateRow acct (timeToStr t).

(** The clock's second of [t] is less than 300 before that of [now]. *)
Definition recent (now t : time.Time) : bool :=
  now / time.Second - challengeRateWindow / time.Second <? t / time.Second.

(** The grants of an account, oldest first, along a run in which other
    accounts ask too and anything else happens. *)
Inductive granted (acct : string) : list time.Time → authdb * world → Prop :=
  | gr_start s : granted acct [] s
  | gr_granted G s s' :
      granted acct G s → Allow acct s = (Ret tt, s') →
      granted acct (G ++ [oracle_Now (w_tick s.2)]) s'
  | gr_refused G s e s' : granted acct G s → Allow acct s = (Fail e, s') → granted acct G s'
  | gr_account G s acct' : granted acct G s → acct' ≠ acct → granted acct G (Allow acct' s).2
  | gr_other G s s' :
      granted acct G s → a_rates s'.1 = a_rates s.1 → (w_tick s.2 ≤ w_tick s'.2)%nat →
      granted acct G s'.

Lemma Allow_spec acct d w :
  let now := oracle_Now (w_tick w) in
  let start := timeToStr (time.Add now (- challengeRateWindow)) in
  if challengeRateMaxReqs <=? Z.of_nat (length (List.filter (in_window acct start) (a_rates d)))
  then Allow acct (d, w) = (Fail [ErrTooManyRequests], (d, tick w))
  else Allow acct (d, w) = (Ret tt, (set_rates (remove (λ r, strings.ltb (rl_requested_at r) start)
         (a_rates d ++ [grant_row acct now])) d, tick w)).
Proof.
  cbn zeta. unfold Allow, mbind, AM_bind, lift, Now, get_auth. cbn [fst snd].
  by destruct (challengeRateMaxReqs <=? _).
Qed.

Context (clock_mono : ∀ n m, (n ≤ m)%nat → oracle_Now n ≤ oracle_Now m).
Context (clock_storable : ∀ n, timetext.storable (oracle_Now n) ∧
  timetext.storable (time.Add (oracle_Now n) (- challengeRateWindow))).

(** A recent grant is inside the window the limiter counts and is not cleaned. *)
Lemma recent_kept now n t :
  now = oracle_Now n → timetext.storable t → recent now t = true →
  strings.ltb (timeToStr t) (timeToStr (time.Add now (- challengeRateWindow))) = false.
Proof.
  intros -> Ht Hr. apply not_true_iff_false. intros Hlt.
  apply timetext.text_lt_second in Hlt; [|done|apply clock_storable].
  unfold recent in Hr. apply Z.ltb_lt in Hr.
  assert (time.Add (oracle_Now n) (- challengeRateWindow) / time.Second
          = oracle_Now n / time.Second - challengeRateWindow / time.Second) as E; [|lia].
  change (challengeRateWindow / time.Second) with 300.
  change (time.Add (oracle_Now n) (- challengeRateWindow))
    with (oracle_Now n + (- 300) * time.Second).
  rewrite Z.div_add by done. lia.
Qed.

Lemma recent_299 now t : now - t ≤ 299 * time.Second → recent now t = true.
Proof using Type.
  unfold recent. intros H. apply Z.ltb_lt.
  change (challengeRateWindow / time.Second) with 300. unfold time.Second in *.
  Z.div_mod_to_equations. lia.
Qed.

Lemma recent_later n m t : (n ≤ m)%nat → recent (oracle_Now m) t = true →
  recent (oracle_Now n) t = true.
Proof.
  intros Hle. unfold recent. rewrite !Z.ltb_lt. pose proof (clock_mono _ _ Hle) as H.
  apply (Z.div_le_mono _ _ time.Second) in H; [|done]. lia.
Qed.

(** Every grant that may still count has its row. *)
Definition tracked (acct : string) (G : list time.Time) (s : authdb * world) : Prop :=
  Forall timetext.storable G ∧
  ∀ n, (w_tick s.2 ≤ n)%nat →
    grant_row acct <$> List.filter (recent (oracle_Now n)) G `sublist_of` a_rates s.1.

Lemma tracked_clean acct G rows n :
  Forall timetext.storable G →
  (∀ m, (n < m)%nat →
    grant_row acct <$> List.filter (recent (oracle_Now m)) G `sublist_of` rows) →
  ∀ m, (n < m)%nat → grant_row acct <$> List.filter (recent (oracle_Now m)) G `sublist_of`
    remove (λ r, strings.ltb (rl_requested_at r)
      (timeToStr (time.Add (oracle_Now n) (- challengeRateWindow)))) rows.
Proof.
  intros HG H m Hm. apply sublist_filter_all; [by apply H|].
  intros r (t & -> & [Ht Hr]%list_elem_of_In%filter_In)%list_elem_of_fmap.
  cbn [grant_row rl_requested_at]. apply negb_true_iff, (recent_kept _ n); [done| |].
  - rewrite Forall_forall in HG. by apply HG, list_elem_of_In.
  - apply (recent_later n m); [lia|done].
Qed.

Lemma granted_tracked acct G s : granted acct G s → tracked acct G s.
Proof.
  induction 1 as [s|G s s' _ [HG IH] H|G s e s' _ [HG IH] H|G s acct' _ [HG IH] Hne
                 |G s s' _ [HG IH] Hr Ht].
  - split; [done|]. intros. apply sublist_nil_l.
  - destruct s as [d w]. pose proof (Allow_spec acct d w) as Ha. cbn zeta in Ha. cbn [snd] in *.
    destruct (challengeRateMaxReqs <=? _); rewrite H in Ha; [done|]. injection Ha as ->.
    split; [apply Forall_app; split; [done|constructor; [apply clock_storable|done]]|].
    intros n Hn. cbn [fst snd tick w_tick set_rates a_rates] in *.
    apply tracked_clean; [apply Forall_app; split; [done|constructor; [apply clock_storable|done]]
      | |lia].
    intros m Hm. rewrite List.filter_app, fmap_app. apply sublist_app; [apply IH; lia|].
    cbn. destruct (recent _ _); [done|apply sublist_nil_l].
  - destruct s as [d w]. pose proof (Allow_spec acct d w) as Ha. cbn zeta in Ha. cbn [snd] in *.
    destruct (challengeRateMaxReqs <=? _); rewrite H in Ha; [|done]. injection Ha as _ ->.
    split; [done|]. intros n Hn. apply IH. cbn in *. lia.
  - destruct s as [d w]. pose proof (Allow_spec acct' d w) as Ha. cbn zeta in Ha. cbn [snd] in *.
    destruct (challengeRateMaxReqs <=? _); rewrite Ha; split; try done; intros n Hn;
      cbn [fst snd tick w_tick set_rates a_rates] in *.
    + apply IH. lia.
    + apply tracked_clean; [done| |lia]. intros m Hm.
      apply sublist_inserts_r, IH. lia.
  - split; [done|]. intros n Hn. rewrite Hr. apply IH. lia.
Qed.

(** C33. The challenge rate limit.  With a clock that does not run backwards,
    whenever a request of an account is granted, fewer than five requests of
    that account were granted in a clock second less than 300 before the
    present one, although the store compares instants as text and deletes rows
    of all accounts as it goes; so none of them is missed in the last 299
    seconds.  Within the one second more to five minutes the comparison of
    texts may miss them ([sixth_in_five_minutes]). *)
Theorem rate_limit_holds acct G s s' :
  granted acct G s → Allow acct s = (Ret tt, s') →
  let now := oracle_Now (w_tick s.2) in
  Z.of_nat (length (List.filter (recent now) G)) < challengeRateMaxReqs ∧
  ∀ t, now - t ≤ 299 * time.Second → recent now t = true.
Proof.
  intros HG H now. split; [|apply recent_299].
  apply granted_tracked in HG as [Hst Ht]. specialize (Ht _ (le_n _)). subst now.
  destruct s as [d w]. cbn [fst snd] in *.
  pose proof (Allow_spec acct d w) as Ha. cbn zeta in Ha.
  destruct (Z.leb_spec challengeRateMaxReqs (Z.of_nat (length (List.filter
    (in_window acct (timeToStr (time.Add (oracle_Now (w_tick w)) (- challengeRateWindow))))
    (a_rates d))))) as [_|Hlt]; rewrite H in Ha; [done|].
  eapply Z.le_lt_trans; [|exact Hlt]. apply inj_le.
  rewrite <- (length_fmap (grant_row acct)).
  apply sublist_length, sublist_filter_all; [done|].
  intros r (t & -> & [Hin Hr]%list_elem_of_In%filter_In)%list_elem_of_fmap.
  unfold in_window, is_operator. cbn [grant_row rl_operator_address rl_requested_at].
  rewrite bool_decide_true by done. cbn. apply negb_true_iff, (recent_kept _ (w_tick w)); try done.
  rewrite Forall_forall in Hst. by apply Hst, list_elem_of_In.
Qed.
End rate.

(** ** A concrete login *)
Module auth_samples.
Import samples fixtures proposal_samples auth.

(** A clock that stops after an hour. *)
#[local] Instance hour_oracle : Oracle := {|
  oracle_Now := λ n, t0 + Z.of_nat (n `min` 3600) * time.Second;
  oracle_uuid := λ n, (1000 + N.of_nat n)%N;
  oracle_audit_fails := λ _, false;
  oracle_commit_fails := λ _, false;
  oracle_file_fails := λ _, false |}.
#[local] Instance toy_random : Random := {| random_read := λ n, Ok "random"%string |}.

(** A token library that knows one token: dave's session. *)
Definition dave_claims : RegisteredClaims :=
  mkClaims "osmo1dave" (Some t0) (Some (t0 + time.Hour)) (uuid_String 1001%N).
#[local] Instance one_token : JWT := {|
  jwt_SignedString := λ c,
    if bool_decide ((cl_Subject c, cl_IssuedAt c, cl_ExpiresAt c, cl_ID c)
         = (cl_Subject dave_claims, cl_IssuedAt dave_claims, cl_ExpiresAt dave_claims,
            cl_ID dave_claims))
    then Ok "token"%string else Err errorf;
  jwt_ParseWithClaims := λ raw now,
    if bool_decide (raw = "token"%string) && (now <? t0 + time.Hour)
    then Ok dave_claims else Err errorf |}.
#[local] Existing Instance challenges.sqlite_store.

Definition start : authdb * world := (mkAuth ∅ [] ∅ [], world_of empty_db).

Lemma clock_mono n m : (n ≤ m)%nat → oracle_Now n ≤ oracle_Now m.
Proof. cbn [oracle_Now hour_oracle]. change time.Second with 1000000000. lia. Qed.

Lemma hour_storable n d : -time.Hour ≤ d ≤ time.Hour →
  timetext.storable (oracle_Now n + d).
Proof.
  unfold timetext.storable. cbn [oracle_Now hour_oracle].
  change time.Second with 1000000000. change time.Hour with 3600000000000.
  change t0 with 1728000000000000000. lia.
Qed.

Lemma token_faithful c raw now c' :
  jwt_SignedString c = Ok raw → jwt_ParseWithClaims raw now = Ok c' → c' = c.
Proof.
  cbn. case_bool_decide as E; [|done]. intros _. destruct (_ && _); [|done].
  intros [= <-]. destruct c. cbn in E. by injection E as -> -> -> ->.
Qed.

(** The session of "osmo1dave" is refused after the sessions of
    "cosmos1dave", the same account, were revoked. *)
Lemma revocation_final_witness :
  ∃ s1, sessions.Issue "osmo1dave" start = (Ret "token"%string, s1) ∧
    (ValidateSession "token" s1).1 = Ret "osmo1dave"%string ∧
    (ValidateSession "token" (RevokeAllSessions "cosmos1dave" "cosmos1dave" s1).2).1
      = Fail [ErrUnauthorized].
Proof.
  destruct (sessions.Issue "osmo1dave" start) as [[tok|e| |] s1] eqn:E;
    try (exfalso; apply (f_equal fst) in E; vm_compute in E; discriminate E).
  assert (tok = "token"%string) as ->.
  { apply (f_equal fst) in E. vm_compute in E. congruence. }
  exists s1. split; [reflexivity|]. split.
  - assert (s1 = (sessions.Issue "osmo1dave" start).2) as -> by (rewrite E; reflexivity).
    vm_compute. reflexivity.
  - apply (revocation_final "osmo1dave" "cosmos1dave" "cosmos1dave" "token" start s1 s1).
    + exact clock_mono.
    + intros n. rewrite <- (Z.add_0_r (oracle_Now n)). apply hour_storable.
      split; vm_compute; discriminate.
    + exact token_faithful.
    + vm_compute. reflexivity.
    + exact E.
    + apply rtc_refl.
    + apply rtc_refl.
Defined.

(** Dave asks for a challenge and answers it at the next readings. *)
Definition asked : outcome string * (authdb * world) := IssueChallenge "osmo1dave" start.
Definition answer (challenge nonce : string) (pub : string) : VerifyChallengeInput :=
  mkVerify "osmo1dave" pub challenge nonce (rfc3339.Format t0) sig64.
Definition challenge_of (r : outcome string * (authdb * world)) : string :=
  match r.1 with Ret c => c | _ => ""%string end.

(** Nobody needs a key to end dave's login: a request with a wrong challenge
    and any signature consumes the stored challenge, and dave's own response
    to it is then refused. *)
Definition attacked : outcome string * (authdb * world) :=
  VerifyChallenge (answer "wrong" "n0" "no key") asked.2.

Lemma stranger_burns_challenge :
  asked.1 = Ret (challenge_of asked) ∧
  attacked.1 = Fail [SChallengeMismatch; ErrUnauthorized] ∧
  (VerifyChallenge (answer (challenge_of asked) "n1" "ok") attacked.2).1 = Fail [ErrNotFound].
Proof. vm_compute. auto. Qed.
End auth_samples.

(** ** A login that succeeds, and a refused sixth request *)
Module login_samples.
Import samples fixtures proposal_samples auth.

#[local] Instance any_random : Random := {| random_read := λ n, Ok "random"%string |}.
(** A token library that writes the subject into the token. *)
#[local] Instance subject_token : JWT := {|
  jwt_SignedString := λ c, Ok (cl_Subject c);
  jwt_ParseWithClaims := λ raw now, Ok (mkClaims raw None None "") |}.
#[local] Instance store : ChallengeStore := ratelimit.limited_store challenges.sqlite_store.
#[local] Instance store_ok : StoreOK store :=
  limited_store_ok challenges.sqlite_store sqlite_store_ok.

Definition asked : outcome string * (authdb * world) :=
  IssueChallenge "osmo1dave" auth_samples.start.
Definition response : VerifyChallengeInput :=
  mkVerify "osmo1dave" "ok" (auth_samples.challenge_of asked) "n1" (rfc3339.Format t0) sig64.
Definition logged_in : outcome string * (authdb * world) := VerifyChallenge response asked.2.

Lemma session_proves_challenge_witness :
  logged_in.1 = Ret "osmo1dave"%string ∧
  ∀ w' token s'', ¬ VerifyChallenge response (logged_in.2.1, w') = (Ret token, s'').
Proof.
  assert (Hr : logged_in.1 = Ret "osmo1dave"%string) by (vm_compute; reflexivity).
  split; [exact Hr|]. intros w' token s''.
  destruct (session_proves_challenge response asked.2 "osmo1dave" logged_in.2) as
    (acct & n & id & Hresp & _ & _ & H).
  - change (VerifyChallenge response asked.2) with logged_in. rewrite <- Hr.
    by destruct logged_in.
  - apply H. apply (rs_account _ _ _ Hresp).
Defined.
End login_samples.

Module rate_samples.
Import fixtures samples auth_samples.
#[local] Existing Instance hour_oracle.

(** Five requests are granted in a row. *)
Fixpoint asks (k : nat) (s : authdb * world) : authdb * world :=
  match k with O => s | S k => asks k (ratelimit.Allow "dave" s).2 end.
Definition four : authdb * world := asks 4 start.

Lemma asks_granted k G s :
  granted "dave" G s →
  (∀ j, (j < k)%nat → (ratelimit.Allow "dave" (asks j s)).1 = Ret tt) →
  ∃ G', granted "dave" G' (asks k s) ∧ length G' = (length G + k)%nat.
Proof.
  revert G s. induction k as [|k IH]; intros G s HG Hj; [exists G; split; [done|lia]|].
  pose proof (Hj 0%nat ltac:(lia)) as H0. cbn in H0.
  destruct (ratelimit.Allow "dave" s) as [r s'] eqn:E. cbn in H0. subst r.
  destruct (IH (G ++ [oracle_Now (w_tick s.2)]) s') as (G' & HG' & Hl).
  - by eapply gr_granted.
  - intros j Hlt. specialize (Hj (S j) ltac:(lia)). cbn in Hj. by rewrite E in Hj.
  - exists G'. cbn. rewrite E. split; [done|]. rewrite Hl, length_app. cbn. lia.
Qed.

Lemma rate_limit_holds_witness :
  ∃ G, length G = 4%nat ∧
    Z.of_nat (length (List.filter (recent (oracle_Now (w_tick four.2))) G)) < 5 ∧
    (ratelimit.Allow "dave" (asks 5 start)).1 = Fail [ErrTooManyRequests].
Proof.
  destruct (asks_granted 4 [] start) as (G & HG & Hl).
  - apply gr_start.
  - intros j Hj. do 4 (destruct j as [|j]; [vm_compute; reflexivity|]). lia.
  - exists G. split; [exact Hl|]. split; [|vm_compute; reflexivity].
    refine (proj1 (rate_limit_holds clock_mono _ "dave" G four
      (ratelimit.Allow "dave" four).2 _ _)).
    + intros n. split; [rewrite <- (Z.add_0_r (oracle_Now n))|]; apply hour_storable;
        split; vm_compute; discriminate.
    + exact HG.
    + vm_compute. reflexivity.
Defined.

(** Five grants within the first half of a second, and a sixth less than 300
    seconds after each of them. *)
Definition bursts : Oracle := {|
  oracle_Now := λ n, if (n <? 5)%nat then t0 + (1 + Z.of_nat n) * (time.Second / 10)
                     else t0 + 300 * time.Second;
  oracle_uuid := λ n, N.of_nat n; oracle_audit_fails := λ _, false;
  oracle_commit_fails := λ _, false; oracle_file_fails := λ _, false |}.
Definition burst : authdb * world := (mkAuth ∅ [] ∅ [], world_of empty_db).
Example sixth_in_five_minutes :
  (λ k, (ratelimit.Allow (O := bursts) "dave" (Nat.iter k (λ s, (ratelimit.Allow (O := bursts)
     "dave" s).2) burst)).1) <$> seq 0 6 = replicate 6 (Ret tt).
Proof. vm_compute. reflexivity. Qed.
End rate_samples.
