(* ===== verification/PendingProps.v ===== *)
(** * Which proposals may be pending together

    [Raise] refuses a proposal that conflicts with a pending one, and freezes
    the validator set while a genesis publication is pending (and the other
    way round).  The rules are stated on the proposal table and shown to be an
    invariant of the service's requests, run one after the other. *)

From S2P Require Import Prelude GoStd GoTime Values LaunchAgg Fixtures Json Events Payload.
From S2P Require Import Proposal ProposalProps JoinRequest Rehearsal Store StoreProps World.
From S2P Require Import WorldProps InputSet ProposalService ServiceSamples ProposalServiceProps.
Import sqlite proposals.
#[global] Open Scope Z_scope.

(** The columns of a proposal that never change. *)
Definition core_of (r : proposal_row) : uuid * uuid * payload.ActionType * bytes :=
  (pw_id r, pw_launch_id r, pw_action_type r, pw_payload r).
Definition pending_cores (d : db) := core_of <$> List.filter is_pending (db_proposals d).
Definition fresh_id (id : uuid) (d : db) : Prop := id ∉ pw_id <$> db_proposals d.

Lemma pending_cores_elem x d :
  x ∈ pending_cores d ↔
  ∃ r, r ∈ db_proposals d ∧ pw_status r = proposal.StatusPendingSignatures ∧ x = core_of r.
Proof.
  unfold pending_cores. rewrite list_elem_of_fmap. split.
  - intros (r & -> & Hr%list_elem_of_In). apply filter_In in Hr as [Hr Hp].
    apply bool_decide_eq_true in Hp. exists r. by rewrite list_elem_of_In.
  - intros (r & Hr & Hp & ->). exists r. split; [done|]. apply list_elem_of_In, filter_In.
    split; [by apply list_elem_of_In|by apply bool_decide_eq_true_2].
Qed.

(** ** Saving a proposal *)
Lemma saveProposal_rows p d :
  db_proposals (saveProposal p d).2 = db_proposals (upsert_proposal (proposal_cols p) d).2.
Proof.
  rewrite saveProposal_spec. destruct (upsert_proposal _ d) as [[[]|e] d1]; [|done].
  by destruct d1.
Qed.

(** A proposal that is not pending adds nothing to the pending ones. *)
Lemma save_decided p d :
  proposal.p_Status p ≠ proposal.StatusPendingSignatures →
  pending_cores (saveProposal p d).2 ⊆ pending_cores d.
Proof.
  intros Hp x. rewrite !pending_cores_elem, saveProposal_rows. unfold upsert_proposal.
  intros (r & Hr & Hs & ->). destruct (existsb _ _); [|destruct (negb _); [by eauto|]];
    cbn [snd] in Hr; rewrite db_proposals_with in Hr.
  - unfold update in Hr. apply list_elem_of_fmap in Hr as (r0 & -> & Hr0).
    destruct (is_id _ _ r0); [done|]. eauto.
  - apply elem_of_app in Hr as [Hr| ->%list_elem_of_singleton]; [eauto|done].
Qed.

(** Saving again a proposal whose row is pending changes nothing in that set. *)
Lemma save_loaded p d r :
  NoDup (pw_id <$> db_proposals d) → r ∈ db_proposals d → pw_id r = proposal.p_ID p →
  pw_status r = proposal.StatusPendingSignatures →
  pending_cores (saveProposal p d).2 ⊆ pending_cores d.
Proof.
  intros Hnd Hin Hid Hpend x. rewrite !pending_cores_elem, saveProposal_rows.
  unfold upsert_proposal. cbn [pw_id proposal_cols].
  rewrite (proj2 (existsb_id pw_id _ _)) by (rewrite <- Hid; by apply list_elem_of_fmap_2).
  cbn [snd]. rewrite db_proposals_with. intros (r' & Hr' & Hs & ->).
  unfold update in Hr'. apply list_elem_of_fmap in Hr' as (r0 & -> & Hr0).
  destruct (is_id pw_id (proposal.p_ID p) r0) eqn:E; [|eauto].
  apply bool_decide_eq_true in E.
  assert (r0 = r) as ->; [|by exists r].
  pose proof (unique_first pw_id _ r0 Hnd Hr0) as E1.
  pose proof (unique_first pw_id _ r Hnd Hin) as E2. congruence.
Qed.

(** A new proposal adds at most itself. *)
Lemma save_new p d x :
  fresh_id (proposal.p_ID p) d → x ∈ pending_cores (saveProposal p d).2 →
  x ∈ pending_cores d ∨ x = core_of (proposal_cols p).
Proof.
  intros Hf. rewrite !pending_cores_elem, saveProposal_rows. unfold upsert_proposal.
  intros (r & Hr & Hs & ->). destruct (existsb _ _) eqn:E.
  { exfalso. apply Hf. by apply existsb_id in E. }
  destruct (negb _); cbn [snd] in Hr; [by eauto|]. rewrite db_proposals_with in Hr.
  apply elem_of_app in Hr as [Hr| ->%list_elem_of_singleton]; [eauto|by right].
Qed.

Lemma expire_pending id d : pending_cores (expireAllPending id d).2 ⊆ pending_cores d.
Proof.
  intros x. rewrite !pending_cores_elem. unfold expireAllPending, exec. cbn [snd].
  rewrite db_proposals_with. intros (r & Hr & Hs & ->). unfold update in Hr.
  apply list_elem_of_fmap in Hr as (r0 & -> & Hr0).
  destruct (is_id pw_launch_id id r0 && is_pending r0); [done|]. eauto.
Qed.

(** ** Computations that add no pending proposal *)
Definition shrinks {A} (m : M A) : Prop :=
  ∀ w, pending_cores (w_db (m w).2) ⊆ pending_cores (w_db w).

Lemma shrinks_keeps {A} (m : M A) : keeps (λ w, db_proposals (w_db w)) m → shrinks m.
Proof. intros H w. unfold pending_cores. by rewrite H. Qed.

Lemma shrinks_bind {A B} (m : M A) (f : A → M B) :
  shrinks m → (∀ a, shrinks (f a)) → shrinks (m ≫= f).
Proof.
  intros Hm Hf w. unfold mbind, M_bind. specialize (Hm w).
  destruct (m w) as [[] w1]; cbn in *; try done. etrans; [apply Hf|done].
Qed.

Lemma shrinks_run {A} (m : St A) :
  (∀ d, pending_cores (m d).2 ⊆ pending_cores d) → shrinks (run_st m).
Proof. intros H w. unfold run_st. specialize (H (w_db w)). by destruct (m (w_db w)). Qed.

Lemma shrinks_InTransaction `{Oracle} {A} (fn : M A) : shrinks fn → shrinks (InTransaction fn).
Proof.
  intros Hs w. specialize (Hs w). unfold InTransaction.
  destruct (fn w) as [[] w1]; cbn in *; try done. by destruct (oracle_commit_fails _).
Qed.

Section pending.
Context `{B32 : Bech32} `{NU : NetURL} `{UT : UUIDText} `{CJ : CanonicalJSON}
        `{SV : SignatureVerifier} `{O : Oracle}.
Variable cfg : Config.

Definition proposals_of (w : world) : list proposal_row := db_proposals (w_db w).

Lemma proposals_of_db {A} (m : M A) : keeps w_db m → keeps proposals_of m.
Proof. intros H w. unfold proposals_of. by rewrite H. Qed.

Lemma proposals_run {A} (m : St A) : frames db_proposals m → keeps proposals_of (run_st m).
Proof.
  intros H w. unfold run_st, proposals_of. specialize (H (w_db w)).
  by destruct (m (w_db w)).
Qed.

Lemma proposals_saveLaunch l : keeps proposals_of (run_st (saveLaunch l)).
Proof.
  apply proposals_run. intros d. pose proof (saveLaunch_frames l d) as H.
  unfold other_tables in H. congruence.
Qed.
Lemma proposals_saveJR jr : keeps proposals_of (run_st (saveJoinRequest jr)).
Proof.
  apply proposals_run. intros d. unfold saveJoinRequest. destruct d; cbn.
  by repeat case_match.
Qed.
Lemma proposals_Now : keeps proposals_of Now.
Proof. by intros w. Qed.
Lemma proposals_invalidate id : keeps proposals_of (InvalidateByLaunch id).
Proof.
  unfold InvalidateByLaunch. apply keeps_bind; [apply proposals_Now|]. intros now.
  apply proposals_run. intros d. by destruct d.
Qed.
Lemma proposals_Current l : keeps proposals_of (inputset.Current l).
Proof.
  unfold inputset.Current, inputset.Assemble, findApprovedByLaunch.
  pose proof proposals_Now. keeps_tac.
Qed.
Lemma proposals_fresh l : keeps proposals_of (checkGenesisFresh l).
Proof. unfold checkGenesisFresh. pose proof (proposals_Current l). keeps_tac. Qed.
Lemma proposals_emit scope ev : keeps proposals_of (emit scope ev).
Proof. apply proposals_of_db, db_emit. Qed.
Lemma proposals_gate l : keeps proposals_of (gateRehearsal cfg l).
Proof.
  unfold gateRehearsal, latestRehearsal, findResultsByLaunch.
  pose proof (proposals_Current l). pose proof proposals_emit.
  destruct (rehearsalGate cfg); keeps_tac.
Qed.
Lemma proposals_expire_all jrs : keeps proposals_of (expire_all jrs).
Proof.
  induction jrs as [|jr jrs IH]; cbn; [apply keeps_ret|].
  destruct (joinrequest.Expire jr); [|done].
  apply keeps_bind; [apply proposals_saveJR|intros; apply IH].
Qed.

#[local] Hint Resolve proposals_saveLaunch proposals_saveJR proposals_Now
  proposals_invalidate proposals_fresh proposals_emit proposals_gate proposals_expire_all
  : coord.

Ltac shrinks_tac :=
  repeat first
    [ solve [apply shrinks_keeps; keeps_tac]
    | match goal with
      | |- shrinks (if ?x then _ else _) => destruct x
      | |- shrinks (let (_, _) := ?x in _) => destruct x
      | |- shrinks (match ?x with _ => _ end) => destruct x
      end
    | apply shrinks_bind; [|intros ?] | apply shrinks_InTransaction
    | apply shrinks_run; intros ?;
      first [apply expire_pending | apply save_decided; cbn; congruence] ].

Lemma shrinks_saveBoth l p :
  proposal.p_Status p ≠ proposal.StatusPendingSignatures → shrinks (saveLaunchAndProposal l p).
Proof using B32 O. intros H. unfold saveLaunchAndProposal. shrinks_tac. Qed.

Lemma shrinks_applyProposal l p :
  proposal.p_Status p ≠ proposal.StatusPendingSignatures → shrinks (applyProposal cfg l p).
Proof.
  intros H. unfold applyProposal. destruct (proposal.p_ActionType p).
  all: unfold applyApproveValidator, applyRejectValidator, applyRemoveValidator,
    applyPublishChainRecord, applyCloseWindow, applyPublishGenesis, applyUpdateGenesisTime,
    applyApproveAllocationFile, applyReplaceCommitteeMember, applyReviseGenesis,
    applyCancelLaunch, applyExpandCommittee, applyShrinkCommittee, findJoinRequest,
    findApprovedByLaunch, findJoinRequestsByLaunch, saveLaunchAndProposal; shrinks_tac.
Qed.

Lemma shrinks_dispatch p : shrinks (dispatchEvents p).
Proof.
  unfold dispatchEvents, proposal.PopEvents. apply shrinks_bind; [|intros; shrinks_tac].
  apply shrinks_keeps. change (keeps proposals_of (dispatch_all
    (uuid_String (proposal.p_LaunchID p)) (proposal.p_events p))).
  induction (proposal.p_events p) as [|ev evs IH]; cbn; [apply keeps_ret|].
  apply keeps_bind; [by intros w|intros _]. apply keeps_bind; [|intros; apply IH].
  intros w. pose proof (db_writeAuditEvent (uuid_String (proposal.p_LaunchID p)) ev w) as H.
  unfold or_exit, proposals_of. destruct (writeAuditEvent _ ev w) as [[] w1]; cbn in *;
    by rewrite H.
Qed.

Lemma shrinks_applyAndSave l p :
  proposal.p_Status p ≠ proposal.StatusPendingSignatures → shrinks (applyAndSave cfg l p).
Proof.
  intros H. unfold applyAndSave. apply shrinks_bind; [|intros _; apply shrinks_bind].
  - apply shrinks_keeps, proposals_of_db, db_writeAuditEvent.
  - intros w. pose proof (shrinks_InTransaction _ (shrinks_applyProposal l p H) w) as Hs.
    unfold on_failure. destruct (InTransaction _ w) as [[a|e| |] w1]; try done.
    pose proof (db_emit (uuid_String (proposal.p_LaunchID p)) (abort_event p e) w1) as He.
    destruct (emit _ _ w1) as [x w2]. cbn in *. by rewrite He.
  - intros; apply shrinks_dispatch.
Qed.

Lemma shrinks_veto l p :
  proposal.p_Status p ≠ proposal.StatusPendingSignatures → shrinks (applyAllocationVeto l p).
Proof.
  intros H. unfold applyAllocationVeto.
  apply shrinks_bind; [shrinks_tac|intros pl]. apply shrinks_bind; [shrinks_tac|intros now].
  destruct (launch.RejectAllocationFile _ _ _ _) as [l' []]; cbn [negb]; [|shrinks_tac].
  apply shrinks_bind; [by apply shrinks_InTransaction, shrinks_saveBoth|].
  intros; apply shrinks_dispatch.
Qed.

(** ** Which two proposals must not be pending together *)

(** The payload [raw] decides on the join request it writes as [jr]. *)
Definition names (raw : bytes) (jr : string) : Prop :=
  jr ≠ "" ∧
  json.unmarshal (json.field ["join_request_id"] "join_request_id" json.d_string "") raw = Ok jr.

Definition decides (a : payload.ActionType) : Prop :=
  a ∈ [payload.ActionApproveValidator; payload.ActionRejectValidator;
       payload.ActionRemoveApprovedValidator].

(** Two decisions on one join request, whatever the two actions. *)
Definition contradicts (a a' : payload.ActionType) (pl pl' : bytes) : Prop :=
  decides a ∧ decides a' ∧ ∃ jr, names pl jr ∧ names pl' jr.

(** The same action once more: the same bytes or, for the other actions, two
    payloads with one canonical form. *)
Definition repeats (a a' : payload.ActionType) (pl pl' : bytes) : Prop :=
  a = a' ∧
  (pl = pl' ∨
   ¬ decides a ∧ ∃ c, canonical_Marshal (Some pl) = Ok c ∧ canonical_Marshal (Some pl') = Ok c).

(** A publication of the genesis beside a change of the approved set. *)
Definition publishes_beside (a a' : payload.ActionType) : Prop :=
  a = payload.ActionPublishGenesis ∧
  (a' = payload.ActionApproveValidator ∨ a' = payload.ActionRemoveApprovedValidator).

Definition clash (x y : uuid * uuid * payload.ActionType * bytes) : Prop :=
  let '(i, l, a, pl) := x in let '(i', l', a', pl') := y in
  l = l' ∧
  (contradicts a a' pl pl' ∨ repeats a a' pl pl' ∨
   publishes_beside a a' ∨ publishes_beside a' a).

(** No two pending proposals clash. *)
Definition pending_ok (d : db) : Prop :=
  ∀ x y, x ∈ pending_cores d → y ∈ pending_cores d → x.1.1.1 ≠ y.1.1.1 → ¬ clash x y.

Lemma clash_sym x y : clash x y → clash y x.
Proof.
  destruct x as [[[i l] a] pl], y as [[[i' l'] a'] pl']. cbn.
  unfold contradicts, repeats. naive_solver.
Qed.

(** The key of the code separates what clashes. *)
Lemma decides_true a : decides a ↔ is_validator_decision a = true.
Proof. unfold decides, is_validator_decision. destruct a; cbn; split; set_solver. Qed.

Lemma names_extract raw jr : names raw jr → extractJoinRequestID (Some raw) = jr.
Proof. intros [_ H]. unfold extractJoinRequestID. cbn. by rewrite H. Qed.

Lemma decision_key a raw jr :
  decides a → names raw jr → conflictKey a (Some raw) = ("validator:" +:+ jr)%string.
Proof.
  intros Ha%decides_true Hn. unfold conflictKey. rewrite (names_extract _ _ Hn), Ha.
  destruct Hn as [Hne _]. by destruct jr.
Qed.

Lemma contradicts_key a a' pl pl' :
  contradicts a a' pl pl' → conflictKey a (Some pl) = conflictKey a' (Some pl').
Proof. intros (Ha & Ha' & jr & Hn & Hn'). by rewrite !(decision_key _ _ jr). Qed.

Lemma repeats_key a a' pl pl' :
  repeats a a' pl pl' → conflictKey a (Some pl) = conflictKey a' (Some pl').
Proof.
  intros [-> [->|(Ha & c & Hc & Hc')]]; [done|]. unfold conflictKey, canonicalPayload.
  rewrite Hc, Hc'. destruct (is_validator_decision a') eqn:E; [|done].
  by destruct Ha; apply decides_true.
Qed.

Lemma scan_rows_elem {R A} (scan : R → result A) rows out r :
  scan_rows scan rows = Ok out → r ∈ rows → ∃ a, scan r = Ok a ∧ a ∈ out.
Proof.
  revert out. induction rows as [|r0 rows IH]; intros out H Hr; [set_solver|].
  cbn in H. apply result_bind_Ok in H as (a & Ha & H).
  apply result_bind_Ok in H as (l & Hl & [= <-]).
  apply elem_of_cons in Hr as [->|Hr]; [exists a; set_solver|].
  destruct (IH l Hl Hr) as (b & ? & ?). exists b; set_solver.
Qed.

Lemma scan_rows_back {R A} (scan : R → result A) rows out a :
  scan_rows scan rows = Ok out → a ∈ out → ∃ r, r ∈ rows ∧ scan r = Ok a.
Proof.
  revert out. induction rows as [|r0 rows IH]; intros out H Ha.
  - cbn in H. injection H as <-. by apply elem_of_nil in Ha.
  - cbn in H. apply result_bind_Ok in H as (b & Hb & H).
    apply result_bind_Ok in H as (l & Hl & [= <-]).
    apply elem_of_cons in Ha as [->|Ha]; [exists r0; set_solver|].
    destruct (IH l Hl Ha) as (r & ? & ?). exists r; set_solver.
Qed.

(** [FindPending] misses no pending proposal. *)
Lemma findPending_complete d ps x :
  (findPending d).1 = Ok ps → x ∈ pending_cores d →
  ∃ p, p ∈ ps ∧ x = (proposal.p_ID p, proposal.p_LaunchID p, proposal.p_ActionType p,
                     proposal.p_Payload p).
Proof.
  unfold findPending, query, scanProposalRows. cbn [fst]. intros H (r & -> & Hr)%list_elem_of_fmap.
  apply result_bind_Ok in H as (scanned & Hs & H).
  assert (r ∈ order_by pw_proposed_at (List.filter is_pending (db_proposals d))) as Hr'
    by (unfold order_by; by rewrite merge_sort_Permutation).
  destruct (scan_rows_elem _ _ _ _ Hs Hr') as (p & Hp & Hin).
  destruct (scan_rows_elem _ _ _ _ H Hin) as (q & Hq & Hqin).
  exists q. split; [done|]. unfold scanProposal in Hp. unfold loadSignatures in Hq.
  repeat (apply result_bind_Ok in Hp as (? & ? & Hp)).
  repeat (apply result_bind_Ok in Hq as (? & ? & Hq)). by simplify_eq/=.
Qed.

Lemma findPending_Ret w ps w' :
  run_st findPending w = (Ret ps, w') → (findPending (w_db w)).1 = Ok ps ∧ w' = w.
Proof. unfold findPending. intros H. by apply query_Ret in H. Qed.

Lemma guard_false c e w u w' : guard_err c e w = (Ret u, w') → c = false ∧ w' = w.
Proof. apply guard_err_Ret. Qed.

Lemma noConflict_Ret lid a pl w u w' :
  rejectConflictingPending lid a pl w = (Ret u, w') →
  w' = w ∧ ∀ i a' pl', (i, lid, a', pl') ∈ pending_cores (w_db w) →
    conflictKey a' (Some pl') ≠ conflictKey a pl.
Proof.
  unfold rejectConflictingPending. intros H. apply bind_Ret in H as (ps & w1 & E & H).
  apply findPending_Ret in E as [E ->]. apply guard_false in H as [H ->]. split; [done|].
  intros i a' pl' Hx Hk. destruct (findPending_complete _ _ _ E Hx) as (p & Hp & [= _ El Ea Ep]).
  apply (existsb_false _ _ p) in H; [|done].
  subst. by rewrite !bool_decide_eq_true_2 in H.
Qed.

Lemma hasPending_Ret lid acts w b w' :
  hasPending lid acts w = (Ret b, w') →
  w' = w ∧ (b = false → ∀ i a pl, (i, lid, a, pl) ∈ pending_cores (w_db w) → a ∉ acts).
Proof.
  unfold hasPending. intros H. apply bind_Ret in H as (ps & w1 & E & H).
  apply findPending_Ret in E as [E ->]. apply ret_Ret in H as [<- ->]. split; [done|].
  intros H i a pl Hx Ha. destruct (findPending_complete _ _ _ E Hx) as (p & Hp & [= _ El Ea _]).
  apply (existsb_false _ _ p) in H; [|done].
  subst. by rewrite !bool_decide_eq_true_2 in H.
Qed.

Lemma guardFinal_Ret l a w u w' :
  guardFinalizationRaise cfg l a w = (Ret u, w') →
  proposals_of w' = proposals_of w ∧
  ∀ i a' pl, (i, launch.l_ID l, a', pl) ∈ pending_cores (w_db w) →
    (a = payload.ActionPublishGenesis →
     a' ≠ payload.ActionApproveValidator ∧ a' ≠ payload.ActionRemoveApprovedValidator) ∧
    (a = payload.ActionApproveValidator ∨ a = payload.ActionRemoveApprovedValidator →
     a' ≠ payload.ActionPublishGenesis).
Proof.
  unfold guardFinalizationRaise. intros H. case_bool_decide as Ha.
  - apply bind_Ret in H as (? & w1 & E1 & H). apply bind_Ret in H as (b & w2 & E2 & H).
    apply bind_Ret in H as (? & w3 & E3 & H). apply guard_false in E3 as [-> ->].
    apply hasPending_Ret in E2 as [-> Hno].
    assert (proposals_of w1 = proposals_of w) as Hp
      by (specialize (proposals_fresh l w) as Hk; by rewrite E1 in Hk).
    split.
    + rewrite <- Hp. specialize (proposals_gate l w1) as Hk. by rewrite H in Hk.
    + intros i a' pl Hx. unfold pending_cores in *. unfold proposals_of in Hp. rewrite Hp in Hno.
      specialize (Hno eq_refl i a' pl Hx). set_solver.
  - destruct (_ || _) eqn:Hb.
    + apply bind_Ret in H as (b & w2 & E2 & H). apply guard_false in H as [-> ->].
      apply hasPending_Ret in E2 as [-> Hno]. split; [done|].
      intros i a' pl Hx. specialize (Hno eq_refl i a' pl Hx). set_solver.
    + apply ret_Ret in H as [_ ->]. split; [done|]. apply orb_false_elim in Hb as [Hb1 Hb2].
      guards. naive_solver.
Qed.

Lemma hydrate_ID d l l' : hydrate d l = Ok l' → launch.l_ID l' = launch.l_ID l.
Proof.
  unfold hydrate. intros (l1 & H1 & (l2 & H2 & (l3 & H3 & H4)%result_bind_Ok)%result_bind_Ok)%result_bind_Ok.
  unfold loadAllocationFiles in H4. apply result_bind_Ok in H4 as (? & _ & [= <-]).
  unfold loadVotingPower in H3. apply result_bind_Ok in H3 as (? & _ & [= <-]).
  unfold loadAllowlist in H2. apply result_bind_Ok in H2 as (? & _ & [= <-]).
  unfold loadCommittee in H1. destruct (first _ _).
  - repeat (apply result_bind_Ok in H1 as (? & _ & H1)). simplify_eq/=. by destruct l.
  - simplify_eq. by destruct l1.
Qed.

Lemma findLaunch_ID lid d l : (findLaunch lid d).1 = Ok l → launch.l_ID l = lid.
Proof.
  unfold findLaunch, query, load_first. cbn [fst].
  destruct (first _ _) as [r|] eqn:E; [|done]. apply first_id_Some in E as [_ <-].
  intros (l0 & H0 & H)%result_bind_Ok. rewrite (hydrate_ID _ _ _ H).
  unfold scanLaunchCols in H0. repeat (apply result_bind_Ok in H0 as (? & _ & H0)).
  by simplify_eq.
Qed.

(** ** The invariant *)
Definition calm (w : world) : Prop := pending_ok (w_db w).

Lemma calm_same w w' : proposals_of w' = proposals_of w → calm w → calm w'.
Proof. unfold calm, pending_ok, pending_cores, proposals_of. by intros ->. Qed.

Lemma calm_shrinks {A} (m : M A) w : shrinks m → calm w → calm (m w).2.
Proof. intros Hs Hc x y Hx Hy. apply Hc; by apply Hs. Qed.

Lemma bind_post {A B} (m : M A) (f : A → M B) (Q : world → Prop) w :
  Q (m w).2 → (∀ a w1, m w = (Ret a, w1) → Q (f a w1).2) → Q ((m ≫= f) w).2.
Proof.
  intros H1 H2. unfold mbind, M_bind. destruct (m w) as [[] w1]; eauto.
Qed.

(** One step that keeps the table, in a run that is calm so far. *)
Lemma calm_bind {A B} (m : M A) (f : A → M B) w :
  keeps proposals_of m → calm w →
  (∀ a w1, m w = (Ret a, w1) → proposals_of w1 = proposals_of w → calm (f a w1).2) →
  calm ((m ≫= f) w).2.
Proof.
  intros Hk Hc Hf. apply bind_post.
  - by eapply calm_same; [apply Hk|].
  - intros a w1 E. apply Hf; [done|]. specialize (Hk w). by rewrite E in Hk.
Qed.

Lemma proposals_authenticate lid doc addr nonce ts sig pub :
  keeps proposals_of (authenticate lid doc addr nonce ts sig pub).
Proof.
  intros w. pose proof (visible_authenticate lid doc addr nonce ts sig pub w) as H.
  unfold visible in H. injection H as H _ _. apply (f_equal db_proposals) in H.
  unfold proposals_of. destruct (w_db w), (w_db (authenticate _ _ _ _ _ _ _ w).2). done.
Qed.

Lemma proposals_findPending : keeps proposals_of (run_st findPending).
Proof. apply keeps_query. Qed.

Lemma proposals_guardFinal l a : keeps proposals_of (guardFinalizationRaise cfg l a).
Proof.
  unfold guardFinalizationRaise, hasPending. pose proof proposals_findPending. keeps_tac.
Qed.

Lemma proposals_noConflict lid a pl : keeps proposals_of (rejectConflictingPending lid a pl).
Proof. unfold rejectConflictingPending. pose proof proposals_findPending. keeps_tac. Qed.

Lemma emit_events p now p' :
  proposal.emitExecutionEvents p now = Some p' → ∃ es, p' = proposal.set_events es p.
Proof.
  unfold proposal.emitExecutionEvents, proposal.RecordEvent.
  destruct (proposal.p_ActionType p); intros H;
    try (apply bind_Some in H as (x & _ & H); try destruct x); simplify_eq;
    try (eexists; reflexivity);
    exists (proposal.p_events p'); by rewrite set_events_same.
Qed.

Lemma check_quorum_core p M now p' :
  proposal.CheckQuorum p M now = Some p' →
  core_of (proposal_cols p') = core_of (proposal_cols p).
Proof.
  unfold proposal.CheckQuorum, proposal.execute_if_quorum. case_match; [by intros [= <-]|].
  case_match; [|by intros [= <-]]. by intros [es ->]%emit_events.
Qed.

Lemma new_core id lid a pl by_ sig ttl now p :
  proposal.New id lid a pl by_ sig ttl now = Ok p →
  ∃ raw, pl = Some raw ∧ core_of (proposal_cols p) = (id, lid, a, raw).
Proof.
  unfold proposal.New. destruct pl as [raw|]; [|done]. case_match; [|done].
  intros [= <-]. by exists raw.
Qed.

(** A new proposal that passed the guards keeps the pending set calm. *)
Lemma calm_new p w i lid a raw :
  calm w → fresh_id i (w_db w) → core_of (proposal_cols p) = (i, lid, a, raw) →
  (∀ y, y ∈ pending_cores (w_db w) → ¬ clash (i, lid, a, raw) y) →
  calm (run_st (saveProposal p) w).2.
Proof.
  intros Hc Hf Hcore Hno. unfold calm, run_st.
  pose proof (save_new p (w_db w)) as Hnew.
  destruct (saveProposal p (w_db w)) as [x d]. cbn in *.
  assert (proposal.p_ID p = i) as Hid by (unfold core_of in Hcore; cbn in Hcore; congruence).
  rewrite Hid, Hcore in Hnew. intros u v Hu Hv Hne Hcl.
  apply Hnew in Hu; [|done]. apply Hnew in Hv; [|done].
  destruct Hu as [Hu| ->], Hv as [Hv| ->].
  - exact (Hc u v Hu Hv Hne Hcl).
  - exact (Hno u Hu (clash_sym _ _ Hcl)).
  - exact (Hno v Hv Hcl).
  - done.
Qed.

(** What the two guards together exclude. *)
Lemma guards_no_clash w1 w2 w i lid a pl raw :
  proposals_of w1 = proposals_of w → proposals_of w2 = proposals_of w → pl = Some raw →
  (∀ j a' pl', (j, lid, a', pl') ∈ pending_cores (w_db w1) →
    (a = payload.ActionPublishGenesis →
     a' ≠ payload.ActionApproveValidator ∧ a' ≠ payload.ActionRemoveApprovedValidator) ∧
    (a = payload.ActionApproveValidator ∨ a = payload.ActionRemoveApprovedValidator →
     a' ≠ payload.ActionPublishGenesis)) →
  (∀ j a' pl', (j, lid, a', pl') ∈ pending_cores (w_db w2) →
    conflictKey a' (Some pl') ≠ conflictKey a pl) →
  ∀ y, y ∈ pending_cores (w_db w) → ¬ clash (i, lid, a, raw) y.
Proof.
  unfold proposals_of. intros P1 P2 -> Hfreeze Hkey [[[j l'] a'] pl'] Hy. unfold pending_cores in *.
  rewrite P1 in Hfreeze. rewrite P2 in Hkey. cbn. intros [<- Hc].
  specialize (Hfreeze _ _ _ Hy) as [F1 F2]. specialize (Hkey _ _ _ Hy).
  destruct Hc as [Hk%contradicts_key|[Hk%repeats_key|[[Ha Ha']|[Ha' Ha]]]].
  - by apply Hkey.
  - by apply Hkey.
  - destruct (F1 Ha) as [? ?], Ha'; done.
  - by apply F2.
Qed.

Lemma raise_calm lid ri w :
  (∀ n, fresh_id (oracle_uuid n) (w_db w)) → calm w → calm (Raise cfg lid ri w).2.
Proof.
  intros Hf Hc. unfold Raise.
  assert (∀ w', proposals_of w' = proposals_of w → calm w') as Hsame
    by (intros; by eapply calm_same).
  apply calm_bind; [apply proposals_authenticate|auto|]. intros [l m] w1 E1 P1.
  apply authenticate_Ret in E1 as [[Hl _ _ _ _ _] _]. apply findLaunch_ID in Hl as <-.
  apply calm_bind; [apply proposals_guardFinal|auto|]. intros [] w2 E2 P2. rewrite P1 in P2.
  apply guardFinal_Ret in E2 as [_ Hfreeze].
  apply calm_bind; [auto with coord|auto|]. intros [] w3 [_ ->]%of_result_Ret _.
  apply calm_bind; [apply proposals_noConflict|auto|]. intros [] w4 E4 _.
  apply noConflict_Ret in E4 as [-> Hkey].
  apply calm_bind; [auto with coord|auto|]. intros sig w5 [_ ->]%of_result_Ret _.
  apply calm_bind; [apply proposals_Now|auto|]. intros now w6 [_ ->]%Now_Ret _.
  apply calm_bind; [by intros ?|auto|]. intros id w7 [-> ->]%NewUUID_Ret _.
  apply calm_bind; [auto with coord|auto|].
  intros p0 w8 [(raw & Hraw & Hcore)%map_err_Ok%new_core ->]%of_result_Ret _.
  apply calm_bind; [auto with coord|auto|]. intros p w9 [Hq%check_quorum_core ->]%of_option_Ret _.
  case_bool_decide as Hex.
  { apply calm_shrinks; [|auto]. apply shrinks_applyAndSave. congruence. }
  assert (calm (run_st (saveProposal p) (tick (tick w2))).2) as Hsave.
  { eapply calm_new; [auto| |by rewrite Hq|].
    - unfold fresh_id. change (db_proposals _) with (proposals_of w2). rewrite P2. apply Hf.
    - intros y Hy. eapply (guards_no_clash w1 w2 w); [done..|].
      unfold pending_cores in *. change (db_proposals (w_db (tick (tick w2)))) with (proposals_of w2) in Hy.
      by rewrite P2 in Hy. }
  apply bind_post; [exact Hsave|]. intros [] w10 E10. cbn. by rewrite E10 in Hsave.
Qed.

Lemma findProposal_row pid w p w' :
  run_st (findProposal pid) w = (Ret p, w') →
  w' = w ∧ ∃ r, r ∈ proposals_of w ∧ pw_id r = proposal.p_ID p ∧
    pw_status r = proposal.p_Status p.
Proof.
  unfold findProposal. intros [H ->]%query_Ret. split; [done|]. unfold scan_first in H.
  destruct (List.filter _ _) as [|r rest] eqn:E; [done|]. exists r.
  assert (r ∈ List.filter (is_id pw_id pid) (db_proposals (w_db w))) as Hr
    by (rewrite E; left).
  apply list_elem_of_In, filter_In in Hr as [Hr _]. split; [by apply list_elem_of_In|].
  unfold load_proposal, scanProposal, loadSignatures in H.
  repeat (apply result_bind_Ok in H as (? & ? & H)).
  repeat match goal with H : _ ≫= _ = Ok _ |- _ => apply result_bind_Ok in H as (? & ? & H) end.
  by simplify_eq/=.
Qed.

Lemma sign_id p a dec sig M now p' :
  proposal.Sign p a dec sig M now = Some (Ok p') → proposal.p_ID p' = proposal.p_ID p.
Proof.
  unfold proposal.Sign, proposal.execute_if_quorum. repeat case_match; try done.
  - by intros [= <-].
  - cbn. destruct (proposal.emitExecutionEvents _ _) eqn:E; [|done]. cbn.
    apply emit_events in E as [es ->]. by intros [= <-].
  - by intros [= <-].
Qed.

Lemma sign_load_spec lid pid si :
  keeps proposals_of (sign_load lid pid si) ∧
  ∀ w l p w', sign_load lid pid si w = (Ret (l, p), w') →
    ∃ r, r ∈ proposals_of w' ∧ pw_id r = proposal.p_ID p ∧
      pw_status r = proposal.StatusPendingSignatures.
Proof.
  split.
  - unfold sign_load, findProposal. pose proof proposals_authenticate. keeps_tac.
  - intros w l p w' H. unfold sign_load in H. apply bind_Ret in H as ([l0 m] & w1 & _ & H).
    apply bind_Ret in H as (p0 & w2 & E & H). apply findProposal_row in E as (-> & r & Hr & Hid & Hs).
    minv. guards. simplify_eq. apply sign_id in E3. exists r.
    split_and!; [done|congruence|congruence].
Qed.

Lemma sign_calm lid pid si w :
  NoDup (pw_id <$> proposals_of w) → calm w → calm (Sign cfg lid pid si w).2.
Proof.
  intros Hnd Hc. unfold Sign. destruct (sign_load_spec lid pid si) as [Hk Hrow].
  apply calm_bind; [done|done|]. intros [l p] w1 E P.
  destruct (Hrow _ _ _ _ E) as (r & Hr & Hid & Hs).
  assert (calm w1) as Hc1 by (by eapply calm_same). unfold sign_store.
  case_bool_decide as Hex; [apply calm_shrinks; [|done]; apply shrinks_applyAndSave; congruence|].
  destruct (bool_decide (proposal.p_Status p = proposal.StatusVetoed)) eqn:Hv; guards; cbn [andb].
  - case_bool_decide; [apply calm_shrinks; [|done]; apply shrinks_veto; congruence|].
    apply calm_shrinks; [|done]. shrinks_tac.
  - assert (calm (run_st (saveProposal p) w1).2) as Hsave.
    { unfold calm, run_st. pose proof (save_loaded p (w_db w1) r) as Hl.
      unfold proposals_of in *. rewrite P in Hl. rewrite P in Hr. specialize (Hl Hnd Hr Hid Hs).
      destruct (saveProposal p (w_db w1)) as [x d]. cbn in *.
      intros u v Hu Hv'. apply Hc1; by apply Hl. }
    apply bind_post; [exact Hsave|]. intros [] w2 E2. cbn. by rewrite E2 in Hsave.
Qed.

Lemma expire_calm w : calm w → calm (ExpireStale w).2.
Proof.
  intros Hc. apply calm_shrinks; [|done]. unfold ExpireStale.
  apply shrinks_bind; [apply shrinks_keeps, proposals_findPending|intros ps].
  apply shrinks_bind; [shrinks_tac|intros now].
  induction ps as [|p ps IH]; cbn; [shrinks_tac|]. apply shrinks_bind; [|intros; apply IH].
  unfold proposal.ExpireIfStale. destruct (_ && _); cbn; shrinks_tac.
Qed.

(** C3. The pending proposals of a launch never contradict each other: with
    fresh identifiers, no request of the service, run to its end, produces two
    pending proposals of one launch that both decide on the join request of the
    same written id (approval, rejection and removal in any combination), nor
    twice the same action with the same payload, nor a genesis publication
    beside a validator approval or removal.  Ids are compared as written:
    [two_spellings_contradict] shows one request pending under two spellings. *)
Theorem pending_never_contradict w lid pid ri si :
  (∀ n, fresh_id (oracle_uuid n) (w_db w)) → NoDup (pw_id <$> db_proposals (w_db w)) →
  pending_ok (w_db w) →
  pending_ok (w_db (Raise cfg lid ri w).2) ∧
  pending_ok (w_db (Sign cfg lid pid si w).2) ∧
  pending_ok (w_db (ExpireStale w).2).
Proof.
  intros Hf Hnd Hc. split_and!; [by apply raise_calm|by apply sign_calm|by apply expire_calm].
Qed.

End pending.

(** ** A concrete run *)
Module pending_samples.
Import samples fixtures proposal_samples.

(** A genesis publication is pending in launch 1; identifiers from 1000 on are
    not in use. *)
Definition with_pending : world :=
  world_of (saveProposal pending (install 3 launch.StatusWindowClosed)).2.

Lemma with_pending_ids : pw_id <$> db_proposals (w_db with_pending) = [9%N].
Proof. vm_compute. reflexivity. Qed.

Lemma with_pending_ok : pending_ok (w_db with_pending).
Proof.
  assert (pending_cores (w_db with_pending)
    = [(9%N, 1%N, payload.ActionPublishGenesis, genesis_payload)]) as E
    by (vm_compute; reflexivity).
  intros x y. rewrite E, !list_elem_of_singleton. by intros -> ->.
Qed.

Definition second_raise : RaiseInput :=
  raise_by "cosmos1bob" "n1" payload.ActionCancelLaunch "{}".

Lemma pending_never_contradict_witness :
  pending_ok (w_db (Raise cfg_off 1%N second_raise with_pending).2).
Proof.
  refine (proj1 (pending_never_contradict cfg_off with_pending 1%N 9%N second_raise
            (sign_by "cosmos1bob" "n1" proposal.DecisionSign) _ _ _)).
  - intros n. unfold fresh_id. rewrite with_pending_ids, list_elem_of_singleton. cbn. lia.
  - rewrite with_pending_ids. apply NoDup_singleton.
  - apply with_pending_ok.
Defined.

(** Dave's request in launch 1, and an id parser that reads, like the UUID
    package, upper and lower case alike. *)
Definition lower_id : string := "6ba7b810-9dad-11d1-80b4-00c04fd430c8".
Definition upper_id : string := "6BA7B810-9DAD-11D1-80B4-00C04FD430C8".
Definition two_case : UUIDText := {|
  uuid_Parse := λ s, if bool_decide (s ∈ [lower_id; upper_id]) then Ok 60%N
                     else @uuid_Parse toy_uuid s;
  uuid_String := @uuid_String toy_uuid |}.

Definition decide_on (addr nonce : string) (a : payload.ActionType) (id : string)
    (w : world) : outcome proposal.Proposal * world :=
  Raise (UT := two_case) cfg_off 1%N (raise_by addr nonce a (obj "join_request_id" id)) w.

Definition with_request : world :=
  world_of (saveJoinRequest (request 60%N 1%N dave "key2" "{}")
              (install 2 launch.StatusWindowOpen)).2.

Definition rejection_raised : world :=
  (decide_on "cosmos1alice" "n1" payload.ActionRejectValidator lower_id with_request).2.

(** The proposals left pending: identifier of the request and action. *)
Definition targets (w : world) : list (result uuid * payload.ActionType) :=
  (λ r, (json.unmarshal (json.field ["join_request_id"] "join_request_id"
           (@payload.d_uuid two_case) uuid_Nil) (pw_payload r), pw_action_type r))
  <$> List.filter is_pending (db_proposals (w_db w)).

(** A second decision on the request under the same spelling is refused; under
    the other spelling it is accepted, and a rejection and a removal of one
    request are pending together. *)
Lemma two_spellings_contradict :
  (decide_on "cosmos1bob" "n2" payload.ActionRemoveApprovedValidator lower_id
     rejection_raised).1 = Fail [ErrConflict] ∧
  targets (decide_on "cosmos1bob" "n2" payload.ActionRemoveApprovedValidator upper_id
     rejection_raised).2
    = [(Ok 60%N, payload.ActionRejectValidator);
       (Ok 60%N, payload.ActionRemoveApprovedValidator)].
Proof. vm_compute. split; reflexivity. Qed.
End pending_samples.
