(* ===== verification/ProposalRaces.v ===== *)
(** * Executions the proposal service permits

    What happens when two committee members act on a proposal at the same time
    (nothing locks a proposal between loading and saving it): a theorem about
    any two overlapping [Sign] requests, a run of it on a concrete installation,
    and an evaluated run that shows what an executed validator decision may
    touch. *)

From S2P Require Import Prelude GoStd GoTime Values LaunchAgg Fixtures Json Events Payload.
From S2P Require Import Proposal ProposalProps JoinRequest Rehearsal Store StoreProps World.
From S2P Require Import WorldProps InputSet ProposalService ServiceSamples ProposalServiceProps.
From S2P Require Import PendingProps.
Import sqlite proposals.
#[global] Open Scope Z_scope.

(** The addresses with a stored SIGN decision on a proposal. *)
Definition signed_rows (d : db) (pid : uuid) : list string :=
  sw_member_address <$> List.filter (λ r, is_id sw_proposal_id pid r
    && bool_decide (sw_decision r = proposal.DecisionSign)) (db_signatures d).

(** Status and execution time of the stored proposal. *)
Definition stored_state (d : db) (pid : uuid) : option (proposal.Status * option string) :=
  (λ r, (pw_status r, pw_executed_at r)) <$> first (is_id pw_id pid) (db_proposals d).

Definition trimmed (s : string) : Prop := strings.TrimSpace s = s.

Section races.
Context `{B32 : Bech32} `{NU : NetURL} `{UT : UUIDText} `{CJ : CanonicalJSON}
        `{SV : SignatureVerifier} `{O : Oracle}.
Variable cfg : Config.

(** ** Addresses as texts *)
Lemma account_text s a : NewAccountID s = Ok a → account_String a = strings.TrimSpace s.
Proof.
  unfold NewAccountID. destruct (is_empty _) eqn:E; [done|].
  repeat (case_match; try done). intros [= <-]. unfold account_String. cbn. by rewrite E.
Qed.

Lemma account_same s s' : strings.TrimSpace s = strings.TrimSpace s' →
  NewAccountID s = NewAccountID s'.
Proof. unfold NewAccountID. by intros ->. Qed.

(** ** Loading *)
Lemma findProposal_nonces x pid d :
  (findProposal pid (with_nonces x d)).1 = (findProposal pid d).1.
Proof. by destruct d. Qed.

Lemma scan_rows_Forall2 {R A} (scan : R → result A) rows out :
  scan_rows scan rows = Ok out → Forall2 (λ r a, scan r = Ok a) rows out.
Proof.
  revert out. induction rows as [|r rows IH]; intros out H; [by injection H as <-|].
  cbn in H. apply result_bind_Ok in H as (a & Ha & (l & Hl & [= <-])%result_bind_Ok).
  constructor; [done|by apply IH].
Qed.

(** The stored decisions on [pid], in the order they are loaded. *)
Definition decisions (pid : uuid) (d : db) : list signature_row :=
  order_by sw_signed_at (List.filter (is_id sw_proposal_id pid) (db_signatures d)).

Record loaded (pid : uuid) (d : db) (p : proposal.Proposal) : Prop := {
  ld_id : proposal.p_ID p = pid;
  ld_row : ∃ r, first (is_id pw_id pid) (db_proposals d) = Some r ∧
    pw_status r = proposal.p_Status p ∧
    nullStrToTime (pw_executed_at r) = Ok (proposal.p_ExecutedAt p);
  ld_decisions : Forall2 (λ r s, scanSignature r = Ok s) (decisions pid d)
                   (proposal.p_Signatures p) }.

Lemma first_filter {A} (f : A → bool) l :
  first f l = head (List.filter f l).
Proof. induction l as [|x l IH]; [done|]. unfold first in *. cbn. by destruct (f x). Qed.

Lemma findProposal_loaded pid d p : (findProposal pid d).1 = Ok p → loaded pid d p.
Proof.
  unfold findProposal, query, scan_first. cbn [fst]. intros H.
  destruct (List.filter _ _) as [|r rest] eqn:E; [done|].
  assert (pw_id r = pid) as Hid.
  { assert (In r (List.filter (is_id pw_id pid) (db_proposals d))) as Hr by (rewrite E; by left).
    apply filter_In in Hr as [_ Hr]. by apply bool_decide_eq_true in Hr. }
  unfold load_proposal, scanProposal, loadSignatures in H.
  repeat match goal with H : _ ≫= _ = Ok _ |- _ => apply result_bind_Ok in H as (? & ? & H) end.
  simplify_eq/=. split; cbn; [done| |].
  - exists r. by rewrite first_filter, E.
  - by apply scan_rows_Forall2.
Qed.

Lemma decisions_elem pid d r :
  r ∈ decisions pid d ↔ r ∈ db_signatures d ∧ sw_proposal_id r = pid.
Proof.
  unfold decisions, order_by. rewrite merge_sort_Permutation, list_elem_of_In, filter_In.
  unfold is_id. by rewrite <- list_elem_of_In, bool_decide_eq_true.
Qed.

(** A loaded [Sign] request, in terms of what it read and passed. *)
Lemma sign_load_Ret lid pid i w l p' w1 :
  sign_load lid pid i w = (Ret (l, p'), w1) →
  ∃ p m sig now, loaded pid (w_db w) p ∧ NewAccountID (si_MemberAddr i) = Ok m ∧
    proposal.p_Status p = proposal.StatusPendingSignatures ∧
    proposal.Sign p m (si_Decision i) sig (launch.c_ThresholdM (launch.l_Committee l)) now
      = Some (Ok p') ∧
    ∃ x, w_db w1 = with_nonces x (w_db w).
Proof.
  unfold sign_load. intros H. apply bind_Ret in H as ([l0 m] & w2 & E & H).
  apply authenticate_Ret in E as [Hau [x Hx]].
  apply bind_Ret in H as (p & w3 & E & H). unfold findProposal in E.
  apply query_Ret in E as [E ->]. minv. guards. simplify_eq.
  rewrite Hx in E. exists p, m. eexists _, _. split_and!.
  - apply findProposal_loaded. rewrite <- (findProposal_nonces x). exact E.
  - by apply au_addr in Hau.
  - done.
  - done.
  - by exists x.
Qed.


Lemma scanSignature_Ok r s : scanSignature r = Ok s →
  NewAccountID (sw_member_address r) = Ok (proposal.s_MemberAddress s) ∧
  proposal.s_Decision s = sw_decision r.
Proof.
  unfold scanSignature. intros (a & Ha & (t & _ & (sg & _ & [= <-])%result_bind_Ok)%result_bind_Ok)%result_bind_Ok.
  done.
Qed.

Lemma Forall2_from_r {A B} (P : A → B → Prop) l k b :
  Forall2 P l k → b ∈ k → ∃ a, a ∈ l ∧ P a b.
Proof.
  intros H [i Hi]%list_elem_of_lookup. destruct (Forall2_lookup_r _ _ _ _ _ H Hi) as (x & Hx & ?).
  exists x. split; [by eapply list_elem_of_lookup_2|done].
Qed.
Lemma Forall2_from_l {A B} (P : A → B → Prop) l k a :
  Forall2 P l k → a ∈ l → ∃ b, b ∈ k ∧ P a b.
Proof.
  intros H [i Hi]%list_elem_of_lookup. destruct (Forall2_lookup_l _ _ _ _ _ H Hi) as (x & Hx & ?).
  exists x. split; [by eapply list_elem_of_lookup_2|done].
Qed.

(** ** Storing one more decision *)
Lemma same_signer_true r r' :
  same_signer r r' = true ↔
  sw_proposal_id r' = sw_proposal_id r ∧ sw_member_address r' = sw_member_address r.
Proof. unfold same_signer, is_id, is_str. by rewrite andb_true_iff, !bool_decide_eq_true. Qed.

Definition known (rows : list signature_row) (r : signature_row) : Prop :=
  existsb (same_signer r) rows = true.

Lemma known_elem rows r :
  known rows r ↔ ∃ r', r' ∈ rows ∧ sw_proposal_id r' = sw_proposal_id r ∧
                       sw_member_address r' = sw_member_address r.
Proof.
  unfold known. rewrite existsb_exists. apply exist_proper. intros r'.
  by rewrite same_signer_true, list_elem_of_In.
Qed.

Lemma known_more rows rows' r : known rows r → known (rows ++ rows') r.
Proof. unfold known. intros H. by rewrite existsb_app, H. Qed.

Lemma add_known rows rs : Forall (known rows) rs → foldl add_signature_row rows rs = rows.
Proof.
  induction 1 as [|r rs Hr _ IH]; [done|]. cbn. unfold add_signature_row at 2.
  by rewrite (Hr : existsb _ _ = true).
Qed.

Definition texts_trimmed (d : db) : Prop :=
  ∀ r, r ∈ db_signatures d → trimmed (sw_member_address r).

Lemma loaded_known pid d p : loaded pid d p → texts_trimmed d →
  Forall (known (db_signatures d)) (signature_cols pid <$> proposal.p_Signatures p).
Proof.
  intros [_ _ Hl] Ht. apply Forall_fmap, Forall_forall. intros s Hs.
  destruct (Forall2_from_r _ _ _ _ Hl Hs) as (r & [Hr Hid]%decisions_elem & [Ha _]%scanSignature_Ok).
  apply known_elem. exists r. split_and!; [done|done|]. cbn.
  rewrite (account_text _ _ Ha). symmetry. by apply Ht.
Qed.

Lemma loaded_new pid d p t m dec now sig : loaded pid d p → texts_trimmed d →
  NewAccountID t = Ok m → acct m ∉ voters p →
  ¬ known (db_signatures d) (signature_cols pid (proposal.mkSig m dec now sig)).
Proof.
  intros [_ _ Hl] Ht Hm Hv (r & Hr & Hid & Ha)%known_elem. cbn in Hid, Ha.
  assert (r ∈ decisions pid d) as Hd by (by apply decisions_elem).
  destruct (Forall2_from_l _ _ _ _ Hl Hd) as (s & Hs & [Hacc _]%scanSignature_Ok).
  apply Hv. unfold voters. apply list_elem_of_fmap. exists s. split; [|done].
  rewrite (account_text _ _ Hm) in Ha. specialize (Ht _ Hr).
  rewrite (account_same (sw_member_address r) t) in Hacc by (by rewrite Ht). cbn. congruence.
Qed.

(** [Save] of a proposal that has a row. *)
Lemma save_present p d :
  is_Some (stored_state d (proposal.p_ID p)) →
  ∃ d', saveProposal p d = (Ok tt, d') ∧
    stored_state d' (proposal.p_ID p)
      = Some (proposal.p_Status p, nullTimeToStr (proposal.p_ExecutedAt p)) ∧
    db_launches d' = db_launches d ∧
    db_signatures d' = foldl add_signature_row (db_signatures d)
      (signature_cols (proposal.p_ID p) <$> proposal.p_Signatures p).
Proof.
  intros [st Hst]. unfold stored_state in Hst. apply fmap_Some in Hst as (r & Hr & _).
  assert (existsb (is_id pw_id (proposal.p_ID p)) (db_proposals d) = true) as Hex.
  { unfold first in Hr. apply List.find_some in Hr as [Hin Hid]. apply existsb_exists. eauto. }
  rewrite saveProposal_spec. unfold upsert_proposal. cbn [pw_id proposal_cols]. rewrite Hex.
  eexists. split; [reflexivity|]. split_and!; [|by destruct d|by destruct d].
  unfold stored_state.
  assert (∀ x y, db_proposals (with_signatures x (with_proposals y d)) = y) as -> by (by destruct d).
  rewrite first_update by (intros r0; done). rewrite Hr. apply first_id_Some in Hr as [_ Hid].
  cbn. unfold is_id. by rewrite bool_decide_eq_true_2.
Qed.

(** [Save] of a loaded proposal with one decision more. *)
Lemma save_one_more d p s :
  is_Some (stored_state d (proposal.p_ID p)) →
  Forall (known (db_signatures d)) (signature_cols (proposal.p_ID p) <$> proposal.p_Signatures p) →
  ¬ known (db_signatures d) (signature_cols (proposal.p_ID p) s) →
  ∃ d', saveProposal (proposal.add_signature s p) d = (Ok tt, d') ∧
    db_signatures d' = db_signatures d ++ [signature_cols (proposal.p_ID p) s] ∧
    stored_state d' (proposal.p_ID p)
      = Some (proposal.p_Status p, nullTimeToStr (proposal.p_ExecutedAt p)).
Proof.
  intros Hrow Hknown Hnew.
  destruct (save_present (proposal.add_signature s p) d Hrow) as (d' & Hs & Hst & _ & Hsig).
  exists d'. split_and!; [done| |done]. rewrite Hsig.
  change (proposal.p_Signatures (proposal.add_signature s p))
    with (proposal.p_Signatures p ++ [s]).
  change (proposal.p_ID (proposal.add_signature s p)) with (proposal.p_ID p).
  rewrite fmap_app, foldl_app, (add_known (db_signatures d)) by done. cbn [fmap list_fmap foldl].
  unfold add_signature_row. destruct (existsb _ _) eqn:E; [by destruct Hnew|done].
Qed.

(** ** Counting *)
Lemma filter_permutation {A} (f : A → bool) (l k : list A) :
  l ≡ₚ k → length (List.filter f l) = length (List.filter f k).
Proof.
  induction 1 as [|x l k _ IH|x y l|l k j _ IH1 _ IH2]; cbn; [done| | |congruence].
  - destruct (f x); cbn; congruence.
  - by destruct (f x), (f y).
Qed.

Lemma filter_and {A} (f g : A → bool) l :
  List.filter (λ x, f x && g x) l = List.filter g (List.filter f l).
Proof. induction l as [|x l IH]; [done|]. cbn. destruct (f x); cbn; by rewrite IH. Qed.

Lemma signed_rows_count pid d p : loaded pid d p → len (signed_rows d pid) = proposal.SignCount p.
Proof.
  intros [_ _ Hl]. unfold signed_rows, proposal.SignCount. rewrite length_fmap, filter_and.
  rewrite <- (filter_permutation _ (decisions pid d))
    by (unfold decisions, order_by; by rewrite merge_sort_Permutation).
  f_equal. induction Hl as [|r s rs ss [_ Hs]%scanSignature_Ok _ IH]; [done|].
  cbn. unfold proposal.is_sign at 1. rewrite Hs.
  destruct (bool_decide _); cbn; congruence.
Qed.

Lemma signed_rows_app2 d d' r r' pid : db_signatures d' = db_signatures d ++ [r; r'] →
  sw_decision r = proposal.DecisionSign → sw_decision r' = proposal.DecisionSign →
  sw_proposal_id r = pid → sw_proposal_id r' = pid →
  signed_rows d' pid = signed_rows d pid ++ [sw_member_address r; sw_member_address r'].
Proof.
  intros E Hr Hr' Hid Hid'. unfold signed_rows. rewrite E, List.filter_app, fmap_app. f_equal. cbn.
  unfold is_id. by rewrite !bool_decide_eq_true_2.
Qed.

Lemma SignCount_add s p : proposal.s_Decision s = proposal.DecisionSign →
  proposal.SignCount (proposal.add_signature s p) = proposal.SignCount p + 1.
Proof.
  intros H. unfold proposal.SignCount. cbn. rewrite List.filter_app, length_app. cbn.
  unfold proposal.is_sign at 2. rewrite bool_decide_eq_true_2 by done. cbn. lia.
Qed.

(** ** One request among others *)

(** The tables a proposal is loaded from. *)
Definition decision_tables (d : db) := (db_proposals d, db_signatures d).

Lemma loaded_tables pid d d' p :
  decision_tables d' = decision_tables d → loaded pid d p → loaded pid d' p.
Proof.
  intros [= E1 E2] [Hid Hr Hl]. split; [done|by rewrite E1|].
  unfold decisions in *. by rewrite E2.
Qed.

(** An accepted decision that neither vetoes nor completes the quorum. *)
Lemma sign_load_pending lid pid i w l p' w1 :
  sign_load lid pid i w = (Ret (l, p'), w1) → si_Decision i = proposal.DecisionSign →
  proposal.p_Status p' = proposal.StatusPendingSignatures →
  ∃ p m sig now, loaded pid (w_db w) p ∧ NewAccountID (si_MemberAddr i) = Ok m ∧
    (acct m ∉ voters p) ∧
    p' = proposal.add_signature (proposal.mkSig m proposal.DecisionSign now sig) p ∧
    decision_tables (w_db w1) = decision_tables (w_db w).
Proof.
  intros H Hd Hp. apply sign_load_Ret in H as (p & m & sig & now & Hl & Hm & _ & Hs & x & Hx).
  rewrite Hd in Hs. apply Sign_inv in Hs as (_ & _ & Hv & [[? _]|[_ He]]); [done|].
  exists p, m, sig, now. split_and!; [done..| |by rewrite Hx; destruct (w_db w)].
  unfold proposal.execute_if_quorum in He. destruct (_ <=? _); [|by injection He].
  apply emit_events in He as [es ->]. done.
Qed.

(** Its store, in any later state in which the loaded decisions are still
    there and the member's address is not. *)
Lemma sign_store_pending cfg' l p s w :
  proposal.p_Status p = proposal.StatusPendingSignatures →
  is_Some (stored_state (w_db w) (proposal.p_ID p)) →
  Forall (known (db_signatures (w_db w)))
    (signature_cols (proposal.p_ID p) <$> proposal.p_Signatures p) →
  ¬ known (db_signatures (w_db w)) (signature_cols (proposal.p_ID p) s) →
  ∃ w', sign_store cfg' l (proposal.add_signature s p) w = (Ret (proposal.add_signature s p), w') ∧
    db_signatures (w_db w') = db_signatures (w_db w) ++ [signature_cols (proposal.p_ID p) s] ∧
    stored_state (w_db w') (proposal.p_ID p)
      = Some (proposal.StatusPendingSignatures, nullTimeToStr (proposal.p_ExecutedAt p)).
Proof.
  intros Hp Hrow Hk Hn. destruct (save_one_more _ _ _ Hrow Hk Hn) as (d' & Hs & Hsig & Hst).
  rewrite Hp in Hst. unfold sign_store.
  change (proposal.p_Status (proposal.add_signature s p)) with (proposal.p_Status p). rewrite Hp.
  eexists. split.
  - repeat rewrite bool_decide_eq_false_2 by done. cbn [andb].
    unfold mbind, M_bind, run_st. rewrite Hs. reflexivity.
  - by split_and!.
Qed.

(** Whoever has a stored decision is refused another one. *)
Lemma signed_once lid pid i w t a m x :
  t ∈ signed_rows (w_db w) pid → NewAccountID t = Ok a →
  NewAccountID (si_MemberAddr i) = Ok m → acct m = acct a →
  (Sign cfg lid pid i w).1 ≠ Ret x.
Proof.
  intros (r & -> & Hr)%list_elem_of_fmap Ha Hm Heq H. unfold Sign in H.
  destruct ((sign_load lid pid i ≫= _) w) as [o w'] eqn:E. cbn in H. subst o.
  apply bind_Ret in E as ([l p'] & w1 & E & _).
  apply sign_load_Ret in E as (p & m' & sig & now & Hl & Hm' & _ & Hs & _).
  apply Sign_inv in Hs as (_ & _ & Hv & _). simplify_eq. apply Hv.
  apply list_elem_of_In, filter_In in Hr as [Hr [Hid%bool_decide_eq_true _]%andb_prop].
  assert (r ∈ decisions pid (w_db w)) as Hd by (apply decisions_elem; by rewrite list_elem_of_In).
  destruct (Forall2_from_l _ _ _ _ (ld_decisions _ _ _ Hl) Hd) as (s & Hs & [Hacc _]%scanSignature_Ok).
  apply list_elem_of_fmap. exists s. split; [|done]. cbn. congruence.
Qed.

Lemma known_app rows r r' : known (rows ++ [r]) r' → known rows r' ∨
  sw_member_address r = sw_member_address r'.
Proof.
  intros (r0 & [Hr0| ->%list_elem_of_singleton]%elem_of_app & Hid & Ha)%known_elem; [left|by right].
  apply known_elem. by exists r0.
Qed.

(** C39. Two decisions on a proposal at the same time can leave it stuck: nothing
    locks a proposal between loading and saving it.  Take any state with
    addresses stored without surrounding blanks, and two SIGN requests of
    different accounts for one proposal, both loaded before either is stored,
    each of them one that alone leaves the proposal pending.  Both requests then
    succeed, the proposal stays pending with two more SIGN decisions stored than
    before, one more than either request counted, so that the threshold can be
    reached without an execution; and nobody whose SIGN decision is stored, these
    two members included, is accepted by any later [Sign] that finds the same
    decisions stored. *)
Theorem concurrent_decisions_lost lid pid i1 i2 w l1 p1 w1 l2 p2 w2 a1 a2 :
  texts_trimmed (w_db w) → trimmed (si_MemberAddr i1) → trimmed (si_MemberAddr i2) →
  NewAccountID (si_MemberAddr i1) = Ok a1 → NewAccountID (si_MemberAddr i2) = Ok a2 →
  acct a1 ≠ acct a2 →
  sign_load lid pid i1 w = (Ret (l1, p1), w1) → sign_load lid pid i2 w1 = (Ret (l2, p2), w2) →
  si_Decision i1 = proposal.DecisionSign → si_Decision i2 = proposal.DecisionSign →
  proposal.p_Status p1 = proposal.StatusPendingSignatures →
  proposal.p_Status p2 = proposal.StatusPendingSignatures →
  ∃ w3 w4,
    sign_store cfg l1 p1 w2 = (Ret p1, w3) ∧ sign_store cfg l2 p2 w3 = (Ret p2, w4) ∧
    fst <$> stored_state (w_db w4) pid = Some proposal.StatusPendingSignatures ∧
    signed_rows (w_db w4) pid
      = signed_rows (w_db w) pid ++ [si_MemberAddr i1; si_MemberAddr i2] ∧
    len (signed_rows (w_db w4) pid) = proposal.SignCount p1 + 1 ∧
    len (signed_rows (w_db w4) pid) = proposal.SignCount p2 + 1 ∧
    ∀ t a m i lid' w' x,
      db_signatures (w_db w') = db_signatures (w_db w4) →
      t ∈ signed_rows (w_db w4) pid → NewAccountID t = Ok a →
      NewAccountID (si_MemberAddr i) = Ok m → acct m = acct a →
      (Sign cfg lid' pid i w').1 ≠ Ret x.
Proof.
  intros Ht T1 T2 A1 A2 Hne L1 L2 D1 D2 P1 P2.
  destruct (sign_load_pending _ _ _ _ _ _ _ L1 D1 P1) as (p & m1 & s1 & n1 & Hp & M1 & V1 & -> & E1).
  destruct (sign_load_pending _ _ _ _ _ _ _ L2 D2 P2) as (q & m2 & s2 & n2 & Hq & M2 & V2 & -> & E2).
  apply (loaded_tables _ _ (w_db w)) in Hq; [|done].
  pose proof (account_text _ _ M1) as X1. pose proof (account_text _ _ M2) as X2.
  rewrite T1 in X1. rewrite T2 in X2.
  rewrite E1 in E2. apply pair_eq in E2 as [Eprop Esig].
  simplify_eq. pose proof (loaded_known _ _ _ Hp Ht) as K1.
  pose proof (loaded_known _ _ _ Hq Ht) as K2.
  pose proof (loaded_new _ _ _ _ _ proposal.DecisionSign n1 s1 Hp Ht M1 V1) as N1.
  pose proof (loaded_new _ _ _ _ _ proposal.DecisionSign n2 s2 Hq Ht M2 V2) as N2.
  pose proof (ld_id _ _ _ Hp) as Ip. pose proof (ld_id _ _ _ Hq) as Iq.
  destruct (ld_row _ _ _ Hp) as (r & Hr & _).
  assert (is_Some (stored_state (w_db w2) pid)) as Hst
    by (unfold stored_state; rewrite Eprop, Hr; by eexists).
  destruct (sign_store_pending cfg l1 p (proposal.mkSig m1 proposal.DecisionSign n1 s1) w2)
    as (w3 & S1 & G1 & R1); rewrite ?Ip, ?Esig; try done.
  rewrite Ip, ?Esig in *.
  destruct (sign_store_pending cfg l2 q (proposal.mkSig m2 proposal.DecisionSign n2 s2) w3)
    as (w4 & S2 & G2 & St); rewrite ?Iq, ?G1; try done.
  { eapply Forall_impl; [exact K2|]. intros ?. apply known_more. }
  { intros [?|Ha]%known_app; [done|]. cbn in Ha. rewrite X1, X2 in Ha.
    rewrite <- Ha in M2. congruence. }
  rewrite Iq in *. rewrite G1, <- app_assoc in G2. cbn in G2. exists w3, w4.
  assert (signed_rows (w_db w4) pid
    = signed_rows (w_db w) pid ++ [si_MemberAddr i1; si_MemberAddr i2]) as E4.
  { rewrite (signed_rows_app2 _ _ _ _ pid G2) by done. cbn. by rewrite X1, X2. }
  assert (∀ x s, loaded pid (w_db w) x → proposal.s_Decision s = proposal.DecisionSign →
    len (signed_rows (w_db w4) pid) = proposal.SignCount (proposal.add_signature s x) + 1) as Hcount.
  { intros x s Hx Hs. rewrite E4, length_app. cbn. rewrite SignCount_add by done.
    rewrite <- (signed_rows_count _ _ _ Hx). lia. }
  split_and!; [done..| |done| | |].
  - by rewrite St.
  - by apply Hcount.
  - by apply Hcount.
  - intros t a m i lid' w' x Hw Ht' Ha Hm Heq. apply (signed_once lid' pid i w' t a m x); [|done..].
    unfold signed_rows in *. by rewrite Hw.
Qed.

(** A veto stored late overwrites the record of an execution: whatever happened
    since it was loaded without an execution time, the stored status becomes
    VETOED and the execution time is lost, while the launches, the audit trail and
    the broadcasts keep what the execution did. *)
Lemma stale_veto_overwrites lid pid i w l p w1 w' :
  sign_load lid pid i w = (Ret (l, p), w1) → si_Decision i = proposal.DecisionVeto →
  proposal.p_ActionType p ≠ payload.ActionApproveAllocationFile →
  snd <$> stored_state (w_db w) pid = Some None → is_Some (stored_state (w_db w') pid) →
  ∃ w'', sign_store cfg l p w' = (Ret p, w'') ∧
    stored_state (w_db w'') pid = Some (proposal.StatusVetoed, None) ∧
    db_launches (w_db w'') = db_launches (w_db w') ∧
    w_audit w'' = w_audit w' ∧ w_published w'' = w_published w'.
Proof.
  intros H Hd Ha Hnone Hrow.
  apply sign_load_Ret in H as (p0 & m & sig & now & Hl & _ & _ & Hs & _).
  rewrite Hd in Hs. apply Sign_inv in Hs as (_ & _ & _ & [[_ ->]|[? _]]); [|done].
  destruct Hl as [Hid (r & Hr & _ & Hex) _].
  assert (proposal.p_ExecutedAt p0 = None) as Hex0.
  { unfold stored_state in Hnone. rewrite Hr in Hnone. injection Hnone as E. rewrite E in Hex.
    by injection Hex. }
  unfold sign_store. set (p := proposal.set_status _ _) in *.
  rewrite bool_decide_eq_false_2, bool_decide_eq_true_2, (bool_decide_eq_false_2 (_ = _)) by done.
  cbn [andb]. unfold mbind, M_bind, run_st.
  change (proposal.p_ID p0) with (proposal.p_ID p) in Hid.
  rewrite <- Hid in Hrow. destruct (save_present p (w_db w') Hrow) as (d' & Hsave & Hst & Hlaunch & _).
  rewrite Hsave. eexists. split; [reflexivity|]. cbn.
  rewrite Hid in Hst.
  change (proposal.p_ExecutedAt p) with (proposal.p_ExecutedAt p0) in Hst. by rewrite Hst, Hex0.
Qed.

End races.

(** ** On a concrete installation *)
Module race_samples.
Import samples fixtures proposal_samples.

(** Alice's CANCEL_LAUNCH proposal on launch 1 with threshold [M]. *)
Definition cancel_raised (M : Z) : world :=
  (Raise cfg_off 1%N (raise_by "cosmos1alice" "n1" payload.ActionCancelLaunch "{}")
    (world_of (install M launch.StatusWindowOpen))).2.
Definition cancel_id : uuid := 1004%N.

(** With a threshold of three, bob and carol sign at the same time. *)
Definition by_bob : SignInput := sign_by "cosmos1bob" "n2" proposal.DecisionSign.
Definition by_carol : SignInput := sign_by "osmo1carol" "n3" proposal.DecisionSign.

Definition load (i : SignInput) (w : world) : (launch.Launch * proposal.Proposal) * world :=
  match sign_load 1%N cancel_id i w with
  | (Ret lp, w') => (lp, w')
  | (_, w') => ((some_launch 1%N "" launch.StatusDraft [] 0, pending), w')
  end.
Definition bob_loaded := load by_bob (cancel_raised 3).
Definition carol_loaded := load by_carol bob_loaded.2.

Lemma trimmed_rows d :
  forallb (λ r, bool_decide (trimmed (sw_member_address r))) (db_signatures d) = true →
  texts_trimmed d.
Proof.
  intros H r Hr. rewrite forallb_forall in H. apply list_elem_of_In, H in Hr.
  by apply bool_decide_eq_true in Hr.
Qed.

Lemma concurrent_decisions_lost_witness :
  ∃ w3 w4,
    sign_store cfg_off bob_loaded.1.1 bob_loaded.1.2 carol_loaded.2 = (Ret bob_loaded.1.2, w3) ∧
    sign_store cfg_off carol_loaded.1.1 carol_loaded.1.2 w3 = (Ret carol_loaded.1.2, w4) ∧
    launch.c_ThresholdM (launch.l_Committee carol_loaded.1.1) = 3 ∧
    fst <$> stored_state (w_db w4) cancel_id = Some proposal.StatusPendingSignatures ∧
    signed_rows (w_db w4) cancel_id = ["cosmos1alice"; "cosmos1bob"; "osmo1carol"]%string.
Proof.
  destruct (concurrent_decisions_lost cfg_off 1%N cancel_id by_bob by_carol (cancel_raised 3)
    bob_loaded.1.1 bob_loaded.1.2 bob_loaded.2 carol_loaded.1.1 carol_loaded.1.2 carol_loaded.2
    bob carol) as (w3 & w4 & S1 & S2 & St & Sg & _).
  1: apply trimmed_rows.
  6: vm_compute; congruence.
  1-11: vm_compute; reflexivity.
  exists w3, w4. split_and!; [exact S1|exact S2|vm_compute; reflexivity|exact St|].
  rewrite Sg. vm_compute. reflexivity.
Defined.

(** With a threshold of two, bob's veto is loaded, carol's signature executes
    the cancellation, and the veto is stored: the launch is cancelled, the
    completion is in the audit trail, and the proposal reads VETOED without an
    execution time. *)
Definition overtaken : M unit :=
  sign_load 1%N cancel_id (sign_by "cosmos1bob" "n2" proposal.DecisionVeto) ≫= λ '(l, p),
  Sign cfg_off 1%N cancel_id by_carol ≫= λ _, sign_store cfg_off l p ≫= λ _, mret tt.

Example vetoed_late :
  let r := overtaken (cancel_raised 2) in
  r.1 = Ret tt ∧ launch_status (w_db r.2) 1%N = Some launch.StatusCancelled ∧
  stored_state (w_db r.2) cancel_id = Some (proposal.StatusVetoed, None) ∧
  (ae_EventName <$> w_audit r.2) = ["ProposalExecuting"; "LaunchCancelled"]%string.
Proof. vm_compute. repeat split. Qed.

Definition foreign_payload : bytes :=
  of_chars (chars "{" ++ chars (dq "join_request_id") ++ chars ":" ++ chars (dq "50")
    ++ chars "," ++ chars (dq "operator_address") ++ chars ":" ++ chars (dq "osmo1dave")
    ++ chars "}").

Definition foreign_approval : outcome proposal.Proposal * world :=
  Raise cfg_off 1%N (raise_by "cosmos1alice" "n1" payload.ActionApproveValidator foreign_payload)
    (world_of (install 1 launch.StatusWindowOpen)).

(** An executed validator decision is not tied to its launch: the
    committee of launch 1 approves a join request of launch 2, whose committee
    (dave alone) signed nothing; the request is then part of launch 2's
    approved set. *)
Theorem cross_launch_approval :
  request_status (install 1 launch.StatusWindowOpen) 50%N = Some joinrequest.StatusPending ∧
  (∃ p, foreign_approval.1 = Ret p ∧ proposal.p_LaunchID p = 1%N) ∧
  request_status (w_db foreign_approval.2) 50%N = Some joinrequest.StatusApproved ∧
  (∃ jrs, (findApprovedByLaunch 2%N (w_db foreign_approval.2)).1 = Ok jrs ∧
          joinrequest.j_ID <$> jrs = [50%N]).
Proof. vm_compute. repeat split; repeat eexists. Qed.
End race_samples.
