(* ===== verification/JobsProps.v ===== *)
(** * What the background jobs achieve *)

From S2P Require Import Prelude GoStd GoTime Values LaunchAgg Fixtures Json Events Payload.
From S2P Require Import Proposal ProposalProps JoinRequest Store StoreProps World WorldProps.
From S2P Require Import ProposalService ServiceSamples ProposalServiceProps PendingProps Jobs.
Import sqlite proposals jobs.
#[global] Open Scope Z_scope.

(** ** Expiry *)
Section expiry.
Context `{B32 : Bech32} `{NU : NetURL} `{UT : UUIDText} `{O : Oracle}.

Lemma emit_ok scope ev w : ∃ w', emit scope ev w = (Ret tt, w') ∧ w_db w' = w_db w.
Proof.
  pose proof (db_emit scope ev w) as Hd. unfold emit, recordAudit, mbind, M_bind in *.
  destruct (writeAuditEvent scope ev w) as [r w1] eqn:E.
  destruct (writeAuditEvent_spec _ _ _ _ _ E) as (_ & _ & [[-> _]|[-> _]]);
    cbn in *; eexists; (split; [reflexivity|exact Hd]).
Qed.

Definition stale (now : time.Time) (p : proposal.Proposal) : bool :=
  bool_decide (proposal.p_Status p = proposal.StatusPendingSignatures)
  && time.Before (proposal.p_TTLExpires p) now.

(** Saving a proposal whose row exists succeeds and sets two columns. *)
Lemma saveProposal_known p d :
  existsb (is_id pw_id (proposal.p_ID p)) (db_proposals d) = true →
  ∃ d', saveProposal p d = (Ok tt, d') ∧
    db_proposals d' = update (is_id pw_id (proposal.p_ID p))
      (proposal_set (proposal.p_Status p) (nullTimeToStr (proposal.p_ExecutedAt p)))
      (db_proposals d).
Proof.
  intros H. pose proof (saveProposal_rows p d) as Hr. rewrite saveProposal_spec in *.
  cbn zeta in *. unfold upsert_proposal in *. cbn [pw_id proposal_cols] in *. rewrite H in *.
  eexists. split; [reflexivity|]. cbn [snd] in Hr. rewrite Hr. by rewrite db_proposals_with.
Qed.

Definition known (d : db) (p : proposal.Proposal) : Prop :=
  existsb (is_id pw_id (proposal.p_ID p)) (db_proposals d) = true.

Lemma known_update q f d d' p :
  (∀ r, pw_id (f r) = pw_id r) → db_proposals d' = update q f (db_proposals d) →
  known d p → known d' p.
Proof.
  intros Hf Hd. unfold known. rewrite !existsb_id, Hd. unfold update.
  rewrite <- list_fmap_compose. intros H.
  erewrite list_fmap_ext; [exact H|]. intros i r _. cbn. by destruct (q r).
Qed.

(** The loop expires every stale proposal of its list and nothing else. *)
Lemma expire_all_spec now ps w :
  Forall (known (w_db w)) ps →
  ∃ w', expire_stale_all now ps w = (Ret tt, w') ∧
    ∀ r, r ∈ db_proposals (w_db w') → is_pending r = true →
      r ∈ db_proposals (w_db w) ∧
      ∀ p, p ∈ ps → stale now p = true → proposal.p_ID p ≠ pw_id r.
Proof.
  revert w. induction ps as [|p ps IH]; intros w Hk.
  { exists w. split; [done|]. intros r Hr _. split; [done|]. by intros p ?%elem_of_nil. }
  apply Forall_cons in Hk as [Hp Hps]. cbn [expire_stale_all].
  unfold proposal.ExpireIfStale. fold (stale now p). destruct (stale now p) eqn:Es.
  - destruct (saveProposal_known (proposal.set_status proposal.StatusExpired p) (w_db w))
      as (d1 & Hsave & Hrows); [exact Hp|].
    destruct (emit_ok (uuid_String (proposal.p_LaunchID p))
      (expired_event (proposal.set_status proposal.StatusExpired p)) (set_db d1 w))
      as (w1 & Hemit & Hd1).
    destruct (IH w1) as (w' & Hrun & Hrest).
    { rewrite Hd1. eapply Forall_impl; [exact Hps|]. intros q.
      eapply known_update; [|exact Hrows]. by intros []. }
    exists w'. split.
    { unfold mbind, M_bind, run_st. rewrite Hsave. cbn [proposal.p_LaunchID proposal.set_status].
      by rewrite Hemit. }
    intros r Hr Hpend. destruct (Hrest r Hr Hpend) as [Hin Hnot].
    rewrite Hd1 in Hin. cbn [w_db set_db] in Hin. rewrite Hrows in Hin.
    unfold update in Hin. apply list_elem_of_fmap in Hin as (r0 & -> & Hin).
    destruct (is_id pw_id _ r0) eqn:Eid; [done|]. split; [done|].
    intros q [->|Hq]%elem_of_cons Hst; [|by apply Hnot].
    apply bool_decide_eq_false in Eid. intros E. by apply Eid.
  - destruct (IH w Hps) as (w' & Hrun & Hrest). exists w'. split; [exact Hrun|].
    intros r Hr Hpend. destruct (Hrest r Hr Hpend) as [Hin Hnot]. split; [done|].
    intros q [->|Hq]%elem_of_cons Hst; [congruence|by apply Hnot].
Qed.

(** The pending proposals that are loaded are exactly the pending rows. *)
Lemma findPending_rows d ps :
  (findPending d).1 = Ok ps →
  Forall (known d) ps ∧
  ∀ r, r ∈ db_proposals d → is_pending r = true →
    ∃ p, p ∈ ps ∧ proposal.p_ID p = pw_id r ∧
      proposal.p_Status p = proposal.StatusPendingSignatures ∧
      strToTime (pw_ttl_expires r) = Ok (proposal.p_TTLExpires p).
Proof.
  unfold findPending, query, scanProposalRows. cbn [fst]. intros H.
  apply result_bind_Ok in H as (scanned & Hs & H). split.
  - apply Forall_forall. intros q Hq.
    destruct (scan_rows_back _ _ _ _ H Hq) as (p & Hp & Hload).
    destruct (scan_rows_back _ _ _ _ Hs Hp) as (r & Hr & Hscan).
    unfold order_by in Hr. rewrite merge_sort_Permutation in Hr.
    apply list_elem_of_In, filter_In in Hr as [Hr _].
    unfold scanProposal in Hscan. unfold loadSignatures in Hload.
    repeat (apply result_bind_Ok in Hscan as (? & ? & Hscan)).
    repeat (apply result_bind_Ok in Hload as (? & ? & Hload)). simplify_eq/=.
    apply existsb_exists. exists r. split; [done|]. by apply bool_decide_eq_true.
  - intros r Hr Hpend.
    assert (r ∈ order_by pw_proposed_at (List.filter is_pending (db_proposals d))) as Hr'.
    { unfold order_by. rewrite merge_sort_Permutation. apply list_elem_of_In, filter_In.
      by rewrite <- list_elem_of_In. }
    destruct (scan_rows_elem _ _ _ _ Hs Hr') as (p & Hp & Hin).
    destruct (scan_rows_elem _ _ _ _ H Hin) as (q & Hq & Hqin). exists q.
    split; [done|]. apply bool_decide_eq_true in Hpend.
    unfold scanProposal in Hp. unfold loadSignatures in Hq.
    repeat (apply result_bind_Ok in Hp as (? & ? & Hp)).
    repeat (apply result_bind_Ok in Hq as (? & ? & Hq)). by simplify_eq/=.
Qed.

(** C17. Stale proposals do not stay pending.  Whenever the pending proposals of
    the database can be read, one run of the expiry job completes, whatever
    fails in the audit log, and after it no proposal is pending whose time to
    live ended before the run's clock reading. *)
Theorem expiry_clears_stale w ps :
  (findPending (w_db w)).1 = Ok ps →
  ∃ w', runExpiry w = (Ret tt, w') ∧
    ∀ r, r ∈ db_proposals (w_db w') → is_pending r = true →
      ∃ ttl, strToTime (pw_ttl_expires r) = Ok ttl ∧ oracle_Now (w_tick w) ≤ ttl.
Proof.
  intros H. destruct (findPending_rows _ _ H) as [Hk Hrows].
  destruct (expire_all_spec (oracle_Now (w_tick w)) ps (tick w)) as (w' & Hrun & Hpost); [exact Hk|].
  exists w'. split.
  { assert (Hf : run_st findPending w = (Ret ps, w)) by (apply query_Ret; by split).
    unfold runExpiry, logged, ExpireStale, mbind, M_bind. rewrite Hf. cbn [Now].
    by rewrite Hrun. }
  intros r Hr Hpend. destruct (Hpost r Hr Hpend) as [Hin Hnot].
  destruct (Hrows r Hin Hpend) as (p & Hp & Hid & Hst & Httl).
  exists (proposal.p_TTLExpires p). split; [done|].
  apply Z.nlt_ge. intros Hlt. apply (Hnot p Hp); [|done].
  unfold stale. rewrite Hst, bool_decide_true by done. by apply Z.ltb_lt.
Qed.
End expiry.

(** ** The launch monitor *)
Section monitor.
Context `{B32 : Bech32} `{NU : NetURL} `{UT : UUIDText} `{O : Oracle} `{HC : HTTPClient}.
Context (validateURL : option (string → result unit)).

(** The node at the launch's monitoring URL, which passed the URL check,
    answered 200 with a block at height 1 of the launch's chain. *)
Record detected (l : launch.Launch) : Prop := {
  de_url : launch.l_MonitorRPCURL l ≠ ""%string;
  de_allowed : url_allowed validateURL (launch.l_MonitorRPCURL l) = true;
  de_chain : launch.r_ChainID (launch.l_Record l) ≠ ""%string;
  de_block : ∃ n body,
    http_Get n (launch.l_MonitorRPCURL l +:+ "/block?height=1") = Ok (200, body) ∧
    json.Decode dec_body body true = Ok (mkHeader (launch.r_ChainID (launch.l_Record l)) "1") }.

(** One save of a detected candidate as LAUNCHED. *)
Definition marks (candidates : list launch.Launch) (d d' : db) : Prop :=
  ∃ l l' now, l ∈ candidates ∧ detected l ∧ launch.MarkLaunched l now = Ok l' ∧
    d' = (saveLaunch l' d).2.

Definition monitored (candidates : list launch.Launch) (w w' : world) : Prop :=
  w_audit w' = w_audit w ∧ w_files w' = w_files w ∧ rtc (marks candidates) (w_db w) (w_db w').

#[local] Instance monitored_preorder cs : PreOrder (monitored cs).
Proof.
  split; [by intros w|]. intros w1 w2 w3 (A1 & F1 & R1) (A2 & F2 & R2).
  split_and!; [congruence|congruence|by etrans].
Qed.

Definition does {A} (cs : list launch.Launch) (m : M A) : Prop := ∀ w, monitored cs w (m w).2.

Lemma does_bind {A B} cs (m : M A) (f : A → M B) :
  does cs m → (∀ a, does cs (f a)) → does cs (m ≫= f).
Proof.
  intros Hm Hf w. specialize (Hm w). unfold mbind, M_bind.
  destruct (m w) as [[a|e| |] w1]; cbn in *; try done. etrans; [done|apply Hf].
Qed.
Lemma does_logged cs m : does cs m → does cs (logged m).
Proof. intros H w. specialize (H w). unfold logged. by destruct (m w) as [[] w1]. Qed.
Lemma does_ret {A} cs (a : A) : does cs (mret a : M A).
Proof. intros w. cbn. reflexivity. Qed.
Lemma does_Now cs : does cs Now.
Proof. intros w. by split_and!. Qed.
Lemma does_Publish cs ev : does cs (Publish ev).
Proof. intros w. by split_and!. Qed.

Lemma does_save cs l l' now : l ∈ cs → detected l → launch.MarkLaunched l now = Ok l' →
  does cs (run_st (saveLaunch l')).
Proof.
  intros Hin Hd Hm w. unfold run_st.
  destruct (saveLaunch l' (w_db w)) as [r d] eqn:E. cbn [snd set_db].
  split_and!; [done|done|]. apply rtc_once. exists l, l', now. by rewrite E.
Qed.

Lemma does_mark cs l url : l ∈ cs → detected l → does cs (markLaunched l url).
Proof.
  intros Hin Hd. apply does_logged. apply does_bind; [apply does_Now|intros now w].
  unfold mbind at 1, M_bind at 1, of_result.
  destruct (launch.MarkLaunched l now) as [l'|e] eqn:E; [|cbn; reflexivity].
  revert w. apply (does_bind cs); [by eapply does_save|intros _].
  apply does_bind; [apply does_Now|intros; apply does_Publish].
Qed.

Lemma poll_spec url chain w :
  monitored [] w (pollBlock1 url chain w).2 ∧
  ∀ w1, pollBlock1 url chain w = (Ret true, w1) → chain ≠ ""%string ∧ ∃ n body,
    http_Get n (url +:+ "/block?height=1") = Ok (200, body) ∧
    json.Decode dec_body body true = Ok (mkHeader chain "1").
Proof.
  unfold pollBlock1. destruct (http_Get _ _) as [[status body]|e] eqn:E;
    [|by split; [split_and!|]].
  destruct (Z.eqb_spec status StatusOK) as [->|]; cbn [negb]; [|by split; [split_and!|]].
  destruct (json.Decode dec_body body true) as [h|e] eqn:Ed; [|by split; [split_and!|]].
  split; [by split_and!|]. intros w1 [= Hb _].
  apply andb_true_iff in Hb as [[Hc Hi]%andb_true_iff Hh].
  apply bool_decide_eq_true in Hi, Hh. apply negb_true_iff, is_empty_false in Hc.
  split; [done|]. exists (w_tick w), body. split; [done|]. rewrite Ed.
  destruct h. cbn in *. by subst.
Qed.

Lemma does_one cs l : l ∈ cs → does cs (monitor_one validateURL l).
Proof.
  intros Hin. unfold monitor_one. destruct (is_empty (launch.l_MonitorRPCURL l)) eqn:Eu;
    [apply does_ret|]. apply is_empty_false in Eu.
  destruct (url_allowed _ _) eqn:Ea; cbn [negb]; [|apply does_ret].
  apply does_logged. intros w.
  destruct (poll_spec (launch.l_MonitorRPCURL l) (launch.r_ChainID (launch.l_Record l)) w)
    as [(Pa & Pf & Pd) Ptrue].
  assert (Hpoll : monitored cs w (pollBlock1 (launch.l_MonitorRPCURL l)
    (launch.r_ChainID (launch.l_Record l)) w).2).
  { split_and!; [done|done|]. inversion Pd as [|? ? ? (? & ? & ? & Hnil & _)]; [done|].
    by apply elem_of_nil in Hnil. }
  unfold mbind, M_bind.
  destruct (pollBlock1 _ _ w) as [[[]|e| |] w1] eqn:E; cbn [snd] in *; try done.
  etrans; [exact Hpoll|]. destruct (Ptrue w1 eq_refl) as (Hc & n & body & Hget & Hdec).
  apply does_mark; [done|]. split; try done. by exists n, body.
Qed.

Lemma does_all cs rest : (∀ l, l ∈ rest → l ∈ cs) → does cs (monitor_all validateURL rest).
Proof.
  induction rest as [|l rest IH]; intros Hsub; cbn; [apply does_ret|].
  apply does_bind; [apply does_one, Hsub; by left|intros; apply IH].
  intros l' Hl'. apply Hsub. by right.
Qed.

(** C18. The monitor marks only what it has seen.  A tick of the launch monitor
    changes the database only by saving, for launches it loaded as
    GENESIS_READY, their transition to LAUNCHED, and only for a launch whose
    monitoring node, at an allowed URL, answered with block 1 of the launch's
    own chain; it writes nothing to the audit log, not even that the chain was
    detected. *)
Theorem monitor_marks_detected w :
  w_audit (runMonitorTick validateURL w).2 = w_audit w ∧
  (w_db (runMonitorTick validateURL w).2 = w_db w ∨
   ∃ candidates,
     (findLaunchesByStatus launch.StatusGenesisReady (w_db w)).1 = Ok candidates ∧
     rtc (marks candidates) (w_db w) (w_db (runMonitorTick validateURL w).2)).
Proof.
  unfold runMonitorTick, logged, mbind, M_bind.
  destruct (run_st (findLaunchesByStatus launch.StatusGenesisReady) w) as [[cs|e| |] w1] eqn:E.
  1: { apply query_Ret in E as [E ->].
       destruct (does_all cs cs (λ l H, H) w) as (Ha & _ & Hd).
       destruct (monitor_all validateURL cs w) as [[] w2]; cbn [snd] in *;
         (split; [done|right]; exists cs; by split). }
  all: pose proof (keeps_query (λ w, (w_audit w, w_db w))
    (λ d, scanned ← scan_rows scanLaunchCols (order_by lr_created_at
       (List.filter (λ r, bool_decide (lr_status r = launch.StatusGenesisReady)) (db_launches d)));
     scan_rows (hydrate d) scanned) w) as Hk; unfold findLaunchesByStatus in E;
    rewrite E in Hk; cbn [snd] in *; injection Hk as Ha Hd; (split; [done|by left]).
Qed.
End monitor.

(** ** A stale proposal *)
Module expiry_samples.
Import samples fixtures proposal_samples.

(** Alice's proposal is raised on one day; the job runs some days later. *)
Definition raised : world :=
  (Raise cfg_off 1%N (raise_by "cosmos1alice" "n1" payload.ActionCancelLaunch "{}")
     (world_of (install 2 launch.StatusWindowOpen))).2.
Definition pending_proposals : list proposal.Proposal :=
  match (findPending (w_db raised)).1 with Ok ps => ps | Err _ => [] end.

#[local] Instance day_oracle : Oracle := {|
  oracle_Now := λ n, t0 + Z.of_nat n * day;
  oracle_uuid := λ n, (1000 + N.of_nat n)%N;
  oracle_audit_fails := λ _, true;
  oracle_commit_fails := λ _, false;
  oracle_file_fails := λ _, false |}.

Lemma expiry_clears_stale_witness :
  length pending_proposals = 1%nat ∧
  ∃ w', runExpiry raised = (Ret tt, w') ∧
    (pw_status <$> db_proposals (w_db w')) = [proposal.StatusExpired] ∧
    ∀ r, r ∈ db_proposals (w_db w') → is_pending r = true →
      ∃ ttl, strToTime (pw_ttl_expires r) = Ok ttl ∧ oracle_Now (w_tick raised) ≤ ttl.
Proof.
  split; [vm_compute; reflexivity|].
  destruct (expiry_clears_stale raised pending_proposals) as (w' & Hrun & Hpost).
  - vm_compute. reflexivity.
  - exists w'. split; [exact Hrun|]. split; [|exact Hpost].
    assert (w' = (runExpiry raised).2) as -> by (rewrite Hrun; reflexivity).
    vm_compute. reflexivity.
Defined.
End expiry_samples.
