(* ===== verification/LaunchServiceProps.v ===== *)
(** * Correctness of the launch service

    Every editing request either leaves the database alone or saves, for a
    caller entitled to it, a launch the aggregate can reach from the loaded
    one; and three executions on the sample installation that the storage
    layer permits although the interface promises otherwise. *)

From S2P Require Import Prelude GoStd GoTime Sha256 Values LaunchAgg LaunchProps Fixtures Json.
From S2P Require Import Events Payload Proposal ProposalProps JoinRequest Rehearsal Store.
From S2P Require Import StoreProps World WorldProps FileStore InputSet GenesisCheck.
From S2P Require Import ProposalService LaunchService ServiceSamples ProposalServiceProps.
From stdpp Require Import relations.
Import sqlite launches.
#[global] Open Scope Z_scope.

Section editing.
Context `{B32 : Bech32} `{NU : NetURL} `{UT : UUIDText} `{CJ : CanonicalJSON} `{UV : URLValidator}
        `{O : Oracle}.

(** The editing requests of the service, creation apart. *)
Inductive request : Type :=
  | RqInitialGenesis (data : bytes)
  | RqFinalGenesis (data : bytes)
  | RqInitialGenesisRef (url sha : string)
  | RqFinalGenesisRef (url sha : string) (t : time.Time)
  | RqAllocation (ty : string) (data : bytes)
  | RqAllocationRef (ty url sha : string)
  | RqPatch (i : PatchLaunchInput)
  | RqAddMember (address label : string)
  | RqRemoveMember (address : string)
  | RqSetCommittee (c : launch.Committee)
  | RqOpenWindow
  | RqCancel.

Definition serve (id : uuid) (caller : string) (q : request) : M unit :=
  match q with
  | RqInitialGenesis data => UploadInitialGenesis id data caller ≫= λ _, mret tt
  | RqFinalGenesis data => UploadFinalGenesis id data caller ≫= λ _, mret tt
  | RqInitialGenesisRef url sha => UploadInitialGenesisRef id url sha caller
  | RqFinalGenesisRef url sha t => UploadFinalGenesisRef id url sha t caller
  | RqAllocation ty data => UploadAllocationFileBytes id ty data caller ≫= λ _, mret tt
  | RqAllocationRef ty url sha => UploadAllocationFileRef id ty url sha caller
  | RqPatch i => PatchLaunch id i caller ≫= λ _, mret tt
  | RqAddMember a lb => AddMember id a lb caller ≫= λ _, mret tt
  | RqRemoveMember a => RemoveMember id a caller
  | RqSetCommittee c => SetCommittee id c caller
  | RqOpenWindow => OpenWindow id caller
  | RqCancel => CancelLaunch id caller
  end.

(** Replacing the committee and cancelling are the lead's, the rest any
    member's. *)
Definition authorized (q : request) (l : launch.Launch) (caller : string) : bool :=
  match q with
  | RqSetCommittee _ | RqCancel => is_lead l caller
  | _ => is_committee l caller
  end.

(** ** One save at the end *)
Definition edits {A} (P : launch.Launch → Prop) (m : M A) (w : world) : Prop :=
  w_db (m w).2 = w_db w ∨ ∃ l', P l' ∧ w_db (m w).2 = (saveLaunch l' (w_db w)).2.

Lemma edits_keeps {A} P (m : M A) w : keeps w_db m → edits P m w.
Proof. intros H. left. apply H. Qed.

Lemma edits_bind {A B} P (m : M A) (f : A → M B) w :
  keeps w_db m → (∀ a w1, m w = (Ret a, w1) → w_db w1 = w_db w → edits P (f a) w1) →
  edits P (m ≫= f) w.
Proof.
  intros Hk Hf. specialize (Hk w). unfold edits, mbind, M_bind.
  destruct (m w) as [[a|e| |] w1]; try (left; exact Hk). cbn in Hk.
  specialize (Hf a w1 eq_refl Hk). unfold edits in Hf. by rewrite Hk in Hf.
Qed.

Lemma edits_then {A B} P (m : M A) (f : A → M B) w :
  edits P m w → (∀ a, keeps w_db (f a)) → edits P (m ≫= f) w.
Proof.
  intros Hm Hf. unfold edits, mbind, M_bind in *. destruct (m w) as [[a|e| |] w1]; try exact Hm.
  rewrite (Hf a w1). exact Hm.
Qed.

Lemma edits_save (P : launch.Launch → Prop) l' w :
  P l' → edits P (run_st (saveLaunch l')) w.
Proof.
  intros HP. right. exists l'. split; [done|]. unfold run_st.
  by destruct (saveLaunch l' (w_db w)).
Qed.

Lemma db_write n f x : keeps w_db (fs.write n f x).
Proof. intros w. unfold fs.write. by destruct (oracle_file_fails _). Qed.

Lemma edits_saveAndEmit (P : launch.Launch → Prop) l' ev w : P l' → edits P (saveAndEmit l' ev) w.
Proof.
  intros HP. unfold saveAndEmit. apply edits_then; [by apply edits_save|]. intros _. apply db_emit.
Qed.

(** ** What a request may save *)
Definition allowed (id : uuid) (d : db) (ok : launch.Launch → bool) (l' : launch.Launch) : Prop :=
  ∃ l, (findLaunch id d).1 = Ok l ∧ ok l = true ∧ rtc launch_step l l' ∧ same_lock l l'.

Lemma db_findLaunch id : keeps w_db (run_st (findLaunch id)).
Proof. apply keeps_query. Qed.

Lemma db_requireCommittee id c : keeps w_db (requireCommittee id c).
Proof. unfold requireCommittee, findLaunch. keeps_tac. Qed.
Lemma db_requireLead id c : keeps w_db (requireLead id c).
Proof. unfold requireLead, findLaunch. keeps_tac. Qed.

Lemma requireCommittee_Ret id c w l w1 :
  requireCommittee id c w = (Ret l, w1) →
  (findLaunch id (w_db w)).1 = Ok l ∧ is_committee l c = true.
Proof. unfold requireCommittee, findLaunch. intros H. minv. guards. done. Qed.
Lemma requireLead_Ret id c w l w1 :
  requireLead id c w = (Ret l, w1) → (findLaunch id (w_db w)).1 = Ok l ∧ is_lead l c = true.
Proof. unfold requireLead, findLaunch. intros H. minv. guards. done. Qed.

Lemma requireStatus_Ret s l w u w1 :
  requireStatus s l w = (Ret u, w1) → launch.l_Status l = s.
Proof. unfold requireStatus. intros H. minv. guards. done. Qed.

(** A request that starts with [requireCommittee]: only what follows matters. *)
Lemma edits_committee {A} id c (f : launch.Launch → M A) w :
  (∀ l w1, w_db w1 = w_db w → is_committee l c = true →
     edits (λ l', rtc launch_step l l' ∧ same_lock l l') (f l) w1) →
  edits (allowed id (w_db w) (λ l, is_committee l c)) (requireCommittee id c ≫= f) w.
Proof.
  intros Hf. apply edits_bind; [apply db_requireCommittee|]. intros l w1 [Hl Hc]%requireCommittee_Ret Hd.
  destruct (Hf l w1 Hd Hc) as [H|(l' & [Hr Hk] & H)]; [by left|].
  right. exists l'. split; [|done]. exists l. done.
Qed.
Lemma edits_lead {A} id c (f : launch.Launch → M A) w :
  (∀ l w1, w_db w1 = w_db w → is_lead l c = true →
     edits (λ l', rtc launch_step l l' ∧ same_lock l l') (f l) w1) →
  edits (allowed id (w_db w) (λ l, is_lead l c)) (requireLead id c ≫= f) w.
Proof.
  intros Hf. apply edits_bind; [apply db_requireLead|]. intros l w1 [Hl Hc]%requireLead_Ret Hd.
  destruct (Hf l w1 Hd Hc) as [H|(l' & [Hr Hk] & H)]; [by left|].
  right. exists l'. split; [|done]. exists l. done.
Qed.

Lemma one_step l l' : launch_step l l' → same_lock l l' → rtc launch_step l l' ∧ same_lock l l'.
Proof. intros Hs Hk. split; [by apply rtc_once|done]. Qed.

Lemma same_lock_trans l1 l2 l3 : same_lock l1 l2 → same_lock l2 l3 → same_lock l1 l3.
Proof. unfold same_lock. intros [-> ->] [-> ->]. done. Qed.

Lemma sha256Hex_valid data : isSHA256HexLower (sha256Hex data) = true.
Proof.
  destruct (sha256.hex_sum_chars data) as [Hl Hd]. unfold isSHA256HexLower, sha256Hex.
  rewrite Hd.
  assert (String.length (sha256.hex_sum data) = 64%nat) as ->; [|done].
  rewrite <- Hl. generalize (sha256.hex_sum data). induction s; cbn; congruence.
Qed.

#[local] Hint Resolve db_write db_Current : coord.

(** The leading step of a computation leaves the database alone. *)
Ltac skip E :=
  apply edits_bind;
  [unfold badRequest, conflict, requireStatus, fs.SaveInitial, fs.SaveFinal, fs.SaveInitialRef,
     fs.SaveFinalRef, fs.AllocSave, fs.AllocSaveRef, fs.writeBytes, fs.writeRef,
     findApprovedByLaunch; keeps_tac
  |intros ? ? E _].

Lemma serve_initial l h w :
  launch.l_Status l = launch.StatusDraft → isSHA256HexLower h = true →
  edits (λ l', rtc launch_step l l' ∧ same_lock l l')
    (run_st (saveLaunch (launch.set_InitialGenesisSHA256 h l))) w.
Proof.
  intros Hs Hh. apply edits_save, one_step; [by apply step_set_initial|by destruct l].
Qed.

Lemma bindFinal_Ret l h t w l' w1 :
  launch.l_Status l = launch.StatusWindowClosed → isSHA256HexLower h = true →
  bindFinal l h t w = (Ret l', w1) → rtc launch_step l l' ∧ same_lock l l'.
Proof.
  intros Hs Hh H. unfold bindFinal in H. minv.
  apply one_step; [by apply step_set_final|by destruct l].
Qed.

Lemma db_bindFinal l h t : keeps w_db (bindFinal l h t).
Proof. unfold bindFinal. pose proof (λ l, db_Current l). keeps_tac. Qed.
#[local] Hint Resolve db_bindFinal : coord.

Abbreviation reaches l := (λ l', rtc launch_step l l' ∧ same_lock l l').
Abbreviation may_save id w caller := (allowed id (w_db w) (λ l, is_committee l caller)).

Lemma edit_initial id data caller w :
  edits (may_save id w caller) (UploadInitialGenesis id data caller) w.
Proof.
  apply edits_committee. intros l w1 _ _. skip Hs. apply requireStatus_Ret in Hs.
  skip E. skip E1. apply edits_then; [|intros; keeps_tac].
  apply serve_initial; [done|apply sha256Hex_valid].
Qed.

Lemma edit_final id data caller w :
  edits (may_save id w caller) (UploadFinalGenesis id data caller) w.
Proof.
  apply edits_committee. intros l w1 _ _. skip Hs. apply requireStatus_Ret in Hs.
  skip E. skip E1. skip E2. skip E3. skip E4. skip Hb.
  apply bindFinal_Ret in Hb; [|done|apply sha256Hex_valid].
  apply edits_then; [by apply edits_save|intros; keeps_tac].
Qed.

Lemma edit_initial_ref id url sha caller w :
  edits (may_save id w caller) (UploadInitialGenesisRef id url sha caller) w.
Proof.
  apply edits_then; [|intros; keeps_tac]. apply edits_committee. intros l w1 _ _.
  skip Hs. apply requireStatus_Ret in Hs. skip E. skip Hh. minv. guards. skip E1. skip E2. minv.
  by apply serve_initial.
Qed.

Lemma edit_final_ref id url sha t caller w :
  edits (may_save id w caller) (UploadFinalGenesisRef id url sha t caller) w.
Proof.
  skip E. minv. skip E0. minv. skip E1. minv. change (w_db w) with (w_db (tick w)).
  apply edits_then; [|intros; keeps_tac]. apply edits_committee. intros l w1 _ _.
  skip Hs. apply requireStatus_Ret in Hs. skip E2. skip Hh. minv. guards. skip E3. skip Hb.
  apply bindFinal_Ret in Hb; [|done|done]. by apply edits_save.
Qed.

Lemma upload_reaches l t h now l' :
  launch.UploadAllocationFile l t h now = Ok l' → reaches l l'.
Proof.
  intros H. apply one_step; [by eapply step_upload_alloc|].
  unfold launch.UploadAllocationFile in H. unfold same_lock.
  repeat (case_match; simplify_eq/=); by destruct l.
Qed.

Lemma edit_alloc id ty data caller w :
  edits (may_save id w caller) (UploadAllocationFileBytes id ty data caller) w.
Proof.
  skip E. minv. apply edits_committee. intros l w1 _ _. unfold alloc_store.
  skip E0. skip Hu. minv. apply upload_reaches in Hu. skip E1.
  apply edits_then; [by apply edits_save|intros; keeps_tac].
Qed.

Lemma edit_alloc_ref id ty url sha caller w :
  edits (may_save id w caller) (UploadAllocationFileRef id ty url sha caller) w.
Proof.
  skip E. minv. apply edits_committee. intros l w1 _ _. skip E0. skip E1. skip E2. skip Hu. minv.
  apply upload_reaches in Hu. skip E3.
  apply edits_then; [by apply edits_save|intros; keeps_tac].
Qed.

(** *** Patches: each field group is a step of its own. *)
Lemma reaches_refl l : reaches l l.
Proof. by split. Qed.
Lemma reaches_trans l1 l2 l3 : reaches l1 l2 → reaches l2 l3 → reaches l1 l3.
Proof. intros [H1 K1] [H2 K2]. split; [by etrans|by eapply same_lock_trans]. Qed.

Lemma monitoring_reaches l a b c : reaches l (launch.set_Monitoring a b c l).
Proof. apply one_step; [apply step_patch_ops|by destruct l]. Qed.

Lemma patch_monitor_Ret l i w l' c w1 : patch_monitor l i w = (Ret (l', c), w1) → reaches l l'.
Proof.
  unfold patch_monitor, badRequest. intros H. destruct (pi_MonitorRPCURL i); minv; simplify_eq;
    [apply monitoring_reaches|apply reaches_refl].
Qed.
Lemma patch_endpoint_Ret l i w l' c w1 : patch_endpoint l i w = (Ret (l', c), w1) → reaches l l'.
Proof.
  unfold patch_endpoint. intros H. destruct (pi_RehearsalEndpoint i); minv; simplify_eq;
    [apply monitoring_reaches|apply reaches_refl].
Qed.
Lemma patch_pubkey_Ret l i w l' c w1 : patch_pubkey l i w = (Ret (l', c), w1) → reaches l l'.
Proof.
  unfold patch_pubkey, badRequest. intros H. destruct (pi_RehearsalServicePubKey i); minv;
    simplify_eq; [apply monitoring_reaches|apply reaches_refl].
Qed.
Lemma patch_draft_Ret l i w l' c w1 : patch_draft l i w = (Ret (l', c), w1) → reaches l l'.
Proof.
  unfold patch_draft. destruct (hasDraftFields i); cbn [negb]; intros H; minv; simplify_eq;
    [|apply reaches_refl].
  apply requireStatus_Ret in E. unfold applyDraftFields in H.
  destruct (launch.validateChainRecord _) eqn:Hv; minv; simplify_eq.
  apply one_step; [apply step_patch_record; [done|by destruct l]|by destruct l].
Qed.

Lemma db_patches l i :
  keeps w_db (patch_monitor l i) ∧ keeps w_db (patch_endpoint l i) ∧
  keeps w_db (patch_pubkey l i) ∧ keeps w_db (patch_draft l i).
Proof.
  unfold patch_monitor, patch_endpoint, patch_pubkey, patch_draft, badRequest, requireStatus.
  split_and!; keeps_tac.
Qed.

Lemma edit_patch id i caller w : edits (may_save id w caller) (PatchLaunch id i caller) w.
Proof.
  apply edits_committee. intros l w1 _ _.
  apply edits_bind; [apply db_patches|]. intros [l1 c1] w2 H1%patch_monitor_Ret _.
  apply edits_bind; [apply db_patches|]. intros [l2 c2] w3 H2%patch_endpoint_Ret _.
  apply edits_bind; [apply db_patches|]. intros [l3 c3] w4 H3%patch_pubkey_Ret _.
  apply edits_bind; [apply db_patches|]. intros [l4 c4] w5 H4%patch_draft_Ret _.
  apply edits_then; [apply edits_save|intros; keeps_tac].
  eauto using reaches_trans.
Qed.

(** *** The other requests *)
Lemma edit_add id a lb caller w : edits (may_save id w caller) (AddMember id a lb caller) w.
Proof.
  apply edits_committee. intros l w1 _ _. skip E. skip E0. skip E1. skip Hm. minv.
  apply edits_then; [apply edits_saveAndEmit|intros; keeps_tac].
  apply one_step; [by eapply step_add_member|]. unfold launch.AddMember in Hm.
  case_match; simplify_eq. by destruct l.
Qed.

Lemma edit_remove id a caller w : edits (may_save id w caller) (RemoveMember id a caller) w.
Proof.
  apply edits_committee. intros l w1 _ _. skip E. skip Hm. minv.
  apply edits_saveAndEmit. apply one_step; [by eapply step_remove_member|].
  unfold launch.RemoveMember in Hm. repeat (case_match; simplify_eq). by destruct l.
Qed.

Lemma lock_OpenWindow l now l' : launch.OpenWindow l now = Ok l' → same_lock l l'.
Proof. unfold launch.OpenWindow. intros. case_match; simplify_eq. by destruct l. Qed.

Lemma edit_open id caller w : edits (may_save id w caller) (OpenWindow id caller) w.
Proof.
  apply edits_committee. intros l w1 _ _.
  apply edits_bind; [unfold conflict; keeps_tac|]. intros l1 w2 Hp _.
  assert (reaches l l1) as H1.
  { unfold conflict in Hp. destruct (bool_decide _); minv; subst; [|apply reaches_refl].
    apply one_step; [by eapply step_publish|by eapply lock_Publish]. }
  skip E. skip Ho. unfold conflict in Ho. minv. apply edits_saveAndEmit.
  eapply reaches_trans; [exact H1|].
  apply one_step; [by eapply step_open|by eapply lock_OpenWindow].
Qed.

Lemma edit_committee id c caller w :
  edits (allowed id (w_db w) (λ l, is_lead l caller)) (SetCommittee id c caller) w.
Proof.
  apply edits_lead. intros l w1 _ _. skip Hs. apply requireStatus_Ret in Hs.
  skip H1. skip H2. skip H3. skip H4. minv. apply edits_saveAndEmit.
  apply one_step; [apply step_set_committee; [done|]|by destruct l].
  apply negb_false_iff in H2, H4. unfold committee_ok. rewrite H1, H2.
  destruct (launch.c_Members c); [done|]. cbn in H3. by simplify_eq.
Qed.

Lemma edit_cancel id caller w :
  edits (allowed id (w_db w) (λ l, is_lead l caller)) (CancelLaunch id caller) w.
Proof.
  apply edits_lead. intros l w1 _ _. skip E. skip E0. skip Hc. unfold conflict in Hc. minv.
  apply edits_saveAndEmit. apply one_step; [by eapply step_cancel|by eapply lock_Cancel].
Qed.

(** C7. Editing a launch outside proposals is authorized and follows the
    aggregate.  An editing request leaves the database as it was, or its only
    effect there is one save of a launch that the aggregate reaches from the
    stored one with the loaded identity and version, and the caller is a member
    of the stored committee (its lead, for a new committee or a cancellation). *)
Theorem edits_are_authorized_steps id caller q w :
  w_db (serve id caller q w).2 = w_db w ∨
  ∃ l l', (findLaunch id (w_db w)).1 = Ok l ∧ authorized q l caller = true ∧
    rtc launch_step l l' ∧ same_lock l l' ∧
    w_db (serve id caller q w).2 = (saveLaunch l' (w_db w)).2.
Proof.
  assert (edits (allowed id (w_db w) (λ l, authorized q l caller)) (serve id caller q) w) as H.
  { destruct q; cbn [serve authorized]; try (apply edits_then; [|intros; apply keeps_ret]).
    all: eauto using edit_initial, edit_final, edit_initial_ref, edit_final_ref, edit_alloc,
      edit_alloc_ref, edit_patch, edit_add, edit_remove, edit_committee, edit_open, edit_cancel. }
  destruct H as [H|(l' & (l & H1 & H2 & H3 & H4) & H)]; [by left|]. right. eauto 8.
Qed.

End editing.
