(* ===== verification/LaunchRaces.v ===== *)
(** * Executions the launch service permits

    Runs of the launch service on a concrete installation, evaluated: a
    committee saved under a new identifier, a file uploaded after a reference
    to another one, and two uploads at the same time. *)

From S2P Require Import Prelude GoStd GoTime Sha256 Values LaunchAgg Fixtures Json Events Payload.
From S2P Require Import Proposal ProposalProps JoinRequest Rehearsal Store World FileStore.
From S2P Require Import InputSet GenesisCheck ProposalService LaunchService ServiceSamples.
Import sqlite samples fixtures genesis_samples launches.
#[global] Open Scope Z_scope.

#[local] Instance any_url : URLValidator := {| urlValidator := λ _, Ok tt |}.

Definition alice_addr : string := "cosmos1alice".

(** What a fresh load of launch 1 returns. *)
Definition loaded {A} (f : launch.Launch → A) (w : world) : option A :=
  match (findLaunch 1%N (w_db w)).1 with Ok l => Some (f l) | Err _ => None end.
Definition members_of (l : launch.Launch) : list string :=
  (λ m, account_String (launch.cm_Address m)) <$> launch.c_Members (launch.l_Committee l).

(** ** A new committee *)
Definition draft_world : world := world_of (install 2 launch.StatusDraft).
(** As the handler builds it: with an identifier of its own. *)
Definition new_committee : launch.Committee :=
  launch.mkCommittee 777%N (member <$> [alice; dave]) 2 2 alice t0.
Definition committee_set : outcome unit * world :=
  SetCommittee 1%N new_committee alice_addr draft_world.
Definition after_next_edit : outcome Member * world :=
  AddMember 1%N "cosmos1bob" "" alice_addr committee_set.2.

(** A committee replaced by [SetCommittee] does not take effect: the request
    succeeds and is audited, but the launch still loads its old committee,
    because the old row is never deleted and is found first; the next save of
    the launch, by anybody, rewrites the old row behind the new one, and the
    new committee takes over. *)
Lemma set_committee_not_effective :
  committee_set.1 = Ret tt ∧
  (ae_EventName <$> w_audit committee_set.2) = ["CommitteeSet"]%string ∧
  loaded members_of committee_set.2
    = Some ["cosmos1alice"; "cosmos1bob"; "cosmos1carol"]%string ∧
  (∃ m, after_next_edit.1 = Ret m) ∧
  loaded members_of after_next_edit.2 = Some ["cosmos1alice"; "cosmos1dave"]%string.
Proof. vm_compute. split_and!; try reflexivity. eexists; reflexivity. Qed.

(** ** A reference, then a file *)
Definition closed_world : world := world_of (install 2 launch.StatusWindowClosed).
Definition final_file : bytes := js
  "{'chain_id':'chain-1','genesis_time':'2030-01-01T00:00:00Z','app_state':{}}".
Definition ref_registered : world :=
  (UploadFinalGenesisRef 1%N "https://old.example" hash64 (t0 + day) alice_addr closed_world).2.
Definition file_uploaded : outcome string * world :=
  UploadFinalGenesis 1%N final_file alice_addr ref_registered.
Definition served (w : world) : outcome fs.StoredFileRef := (fs.GetFinalRef (uuid_String 1%N) w).1.

(** A genesis uploaded as a file after another one was registered by
    reference is recorded and can be published, but never served: the store
    keeps the reference and prefers it, so readers are sent to the old address,
    whose digest is not the recorded one. *)
Lemma stale_reference_served :
  file_uploaded.1 = Ret (sha256Hex final_file) ∧
  loaded launch.l_FinalGenesisSHA256 file_uploaded.2 = Some (sha256Hex final_file) ∧
  served file_uploaded.2 = Ret (fs.mkRef "https://old.example" hash64 None) ∧
  sha256Hex final_file ≠ hash64.
Proof.
  split; [vm_compute; reflexivity|]. split; [vm_compute; reflexivity|].
  split; [vm_compute; reflexivity|]. apply (bool_decide_eq_true_1 (_ ≠ _)).
  vm_compute. reflexivity.
Qed.

(** Two requests the launch service acknowledges without effect on what it
    serves: a committee replaced by [SetCommittee] is audited but the launch
    still loads the old one, until the next save of the launch by anybody
    brings the new one in; and a genesis file uploaded after a reference is
    recorded, with its digest, while readers keep being sent to the old
    reference. *)
Theorem acknowledged_but_not_served :
  (committee_set.1 = Ret tt ∧
   (ae_EventName <$> w_audit committee_set.2) = ["CommitteeSet"]%string ∧
   loaded members_of committee_set.2
     = Some ["cosmos1alice"; "cosmos1bob"; "cosmos1carol"]%string ∧
   (∃ m, after_next_edit.1 = Ret m) ∧
   loaded members_of after_next_edit.2 = Some ["cosmos1alice"; "cosmos1dave"]%string) ∧
  (file_uploaded.1 = Ret (sha256Hex final_file) ∧
   loaded launch.l_FinalGenesisSHA256 file_uploaded.2 = Some (sha256Hex final_file) ∧
   served file_uploaded.2 = Ret (fs.mkRef "https://old.example" hash64 None) ∧
   sha256Hex final_file ≠ hash64).
Proof. exact (conj set_committee_not_effective stale_reference_served). Qed.

(** ** Two uploads at the same time *)

(** The first request is loaded, the second runs completely, the first goes on. *)
Definition crossed_uploads : outcome string * world :=
  (requireCommittee 1%N alice_addr ≫= λ l,
   UploadAllocationFileBytes 1%N "accounts" "second" "cosmos1bob" ≫= λ _,
   alloc_store 1%N "accounts" "first" l) draft_world.

Definition recorded_hash (w : world) : option (list string) :=
  loaded (λ l, launch.af_SHA256 <$> launch.l_AllocationFiles l) w.
Definition stored_bytes (w : world) : option stored_file :=
  w_files w !! (uuid_String 1%N, fs.alloc_file "accounts" ".data").

(** An upload that is refused can still replace the stored file: the bytes
    are written before the launch is saved, so the loser of the version check
    leaves its bytes in the store under the winner's recorded digest. *)
Lemma refused_upload_replaces_file :
  crossed_uploads.1 = Fail [ErrConflict] ∧
  recorded_hash crossed_uploads.2 = Some [sha256Hex "second"] ∧
  stored_bytes crossed_uploads.2 = Some (RawBytes "first") ∧
  sha256Hex "first" ≠ sha256Hex "second".
Proof.
  split; [vm_compute; reflexivity|]. split; [vm_compute; reflexivity|].
  split; [vm_compute; reflexivity|]. apply (bool_decide_eq_true_1 (_ ≠ _)).
  vm_compute. reflexivity.
Qed.
