(* ===== verification/BackfillProps.v ===== *)
(** * What opening the database guarantees

    Migrations run once each, in order; the conversion of addresses succeeds on
    tables that load, keeps every launch and makes the launch list agree with
    visibility; and one launch under the prefix of operator addresses, which
    the service accepts, keeps the server from starting. *)

From S2P Require Import Prelude GoStd GoTime TimeProps GoFloat Values LaunchAgg Fixtures Json.
From S2P Require Import Payload Proposal ProposalProps JoinRequest Rehearsal Store StoreProps.
From S2P Require Import Codec StoreRoundtrip World WorldProps LaunchService AuthService Backfill.
From S2P Require Import ServiceSamples.
Import sqlite launches.
#[global] Open Scope Z_scope.

(** ** Migrations *)
Section migrations.
Context `{Q : SQL}.
Import migrations.

(** The data after a list of scripts. *)
Fixpoint run_scripts (files : list (string * string)) (s : authdb * db) : result (authdb * db) :=
  match files with
  | [] => Ok s
  | file :: files => s1 ← sql_exec file.2 s; run_scripts files s1
  end.

Definition version_of (file : string * string) : Z :=
  match versionFromFilename file.1 with Ok v => v | Err _ => 0 end.

(** [f1] is [f] after the scripts [ran], each recorded under its version. *)
Record advanced (f : datafile) (ran : list (string * string)) (f1 : datafile) : Prop := {
  adv_data : run_scripts ran (df_auth f, df_db f) = Ok (df_auth f1, df_db f1);
  adv_recorded : (df_applied f1).*1 = (df_applied f).*1 ++ (version_of <$> ran);
  adv_fresh : Forall (λ v, v ∉ (df_applied f).*1) (version_of <$> ran);
  adv_once : NoDup (version_of <$> ran) }.

Lemma recorded_spec v f : recorded v f = true ↔ v ∈ (df_applied f).*1.
Proof.
  unfold recorded. rewrite existsb_exists, list_elem_of_fmap. split.
  - intros (r & Hr & <-%Z.eqb_eq). exists r. by rewrite list_elem_of_In.
  - intros (r & -> & Hr). exists r. rewrite <- list_elem_of_In. by rewrite Z.eqb_refl.
Qed.

Lemma advanced_refl f : advanced f [] f.
Proof. split; cbn; [done|by rewrite app_nil_r|done|apply NoDup_nil_2]. Qed.

Lemma advanced_step now file f f1 ran f2 :
  apply_file now file f = (Ok tt, f1) → advanced f1 ran f2 →
  ∃ ran', advanced f ran' f2 ∧ ran' `sublist_of` file :: ran ∧ ran `sublist_of` ran'.
Proof.
  unfold apply_file. destruct (versionFromFilename file.1) as [v|] eqn:Hv; [|done].
  destruct (recorded v f) eqn:Hr.
  - intros [= <-] Hd. exists ran. split_and!; [exact Hd|by apply sublist_cons|reflexivity].
  - destruct (sql_exec _ _) as [s|] eqn:Hs; [|done]. intros [= <-] [Hd Hrec Hf Ho].
    exists (file :: ran). cbn in Hd, Hrec, Hf.
    assert (version_of file = v) as Hvo by (unfold version_of; by rewrite Hv).
    split_and!; [|reflexivity|by apply sublist_cons].
    split; cbn.
    + rewrite Hs. cbn. by destruct s.
    + rewrite Hrec, fmap_app, Hvo, <- app_assoc. done.
    + rewrite Hvo. constructor; [by rewrite <- recorded_spec, Hr|].
      eapply Forall_impl; [exact Hf|]. cbn. intros w Hw Hin. apply Hw.
      rewrite fmap_app. apply elem_of_app. by left.
    + constructor; [|done]. rewrite Hvo. intros Hin. rewrite Forall_forall in Hf.
      apply (Hf v Hin). cbn. rewrite fmap_app. apply elem_of_app. right. by left.
Qed.

Lemma apply_files_spec now files f r f1 :
  apply_files now files f = (r, f1) →
  (∃ ran, advanced f ran f1 ∧ ran `sublist_of` files) ∧
  (r = Ok tt → ∀ file, file ∈ files → ∃ v,
     versionFromFilename file.1 = Ok v ∧ recorded v f1 = true).
Proof.
  revert f. induction files as [|file files IH]; intros f; cbn.
  - intros [= <- <-]. split; [exists []; by split; [apply advanced_refl|]|].
    intros _ file Hin. by apply elem_of_nil in Hin.
  - destruct (apply_file now file f) as [[[]|e] f2] eqn:Ha.
    + intros H. destruct (IH f2 H) as [(ran & Hd & Hsub) Hall]. split.
      * destruct (advanced_step _ _ _ _ _ _ Ha Hd) as (ran' & Hd' & Hsub' & _).
        exists ran'. split; [done|]. etrans; [exact Hsub'|by apply sublist_skip].
      * intros Hr file' [->|Hin]%elem_of_cons; [|by apply Hall].
        revert Ha. unfold apply_file. destruct (versionFromFilename file.1) as [v|]; [|done].
        intros Ha. exists v. split; [done|]. apply recorded_spec.
        rewrite (adv_recorded _ _ _ Hd). apply elem_of_app. left. apply recorded_spec.
        destruct (recorded v f) eqn:Hrec; [by injection Ha as <-|].
        destruct (sql_exec _ _) as [s|]; [|done]. injection Ha as <-.
        apply recorded_spec. cbn. rewrite fmap_app. apply elem_of_app. right. by left.
    + intros [= <- <-]. split; [|done]. exists []. split; [|apply sublist_nil_l].
      revert Ha. unfold apply_file. destruct (versionFromFilename _) as [v|].
      * destruct (recorded v f); [done|]. destruct (sql_exec _ _); [done|].
        intros [= _ <-]. apply advanced_refl.
      * intros [= _ <-]. apply advanced_refl.
Qed.

Lemma apply_files_idle now files f :
  (∀ file, file ∈ files → ∃ v, versionFromFilename file.1 = Ok v ∧ recorded v f = true) →
  apply_files now files f = (Ok tt, f).
Proof.
  induction files as [|file files IH]; intros H; [done|]. cbn.
  destruct (H file) as (v & Hv & Hr); [by left|]. unfold apply_file. rewrite Hv, Hr.
  apply IH. intros file' Hin. apply H. by right.
Qed.

(** A run of the migrations executes, in the order of their names, only
    scripts whose version is not recorded, each once, and records exactly
    those, also when it stops at a failing script; a run that succeeds leaves
    every version recorded, and a later run then changes nothing. *)
Theorem migrations_once now now' files f r f1 :
  runMigrations now files f = (r, f1) →
  (∃ ran, advanced f ran f1 ∧ ran `sublist_of` order_by fst files) ∧
  (r = Ok tt → runMigrations now' files f1 = (Ok tt, f1)).
Proof.
  unfold runMigrations. intros H. destruct (apply_files_spec _ _ _ _ _ H) as [Hd Hall].
  split; [done|]. intros Hr. apply apply_files_idle. intros file Hin. by apply Hall.
Qed.

End migrations.

(** ** Loading and saving one launch *)
Section resaving.
Context `{B32 : Bech32} `{NU : NetURL} `{UT : UUIDText} `{RO : RowOrder}.
Import backfill.
Implicit Types (l : launch.Launch) (d : db).

Lemma scanLaunchCols_ID r l : scanLaunchCols r = Ok l →
  launch.l_ID l = lr_id r ∧ launch.c_TotalN (launch.l_Committee l) = 0.
Proof.
  unfold scanLaunchCols. intros H.
  repeat (apply result_bind_Ok in H as (? & _ & H)). by injection H as <-.
Qed.

Lemma set_Committee_ID c l : launch.l_ID (launch.set_Committee c l) = launch.l_ID l.
Proof. by destruct l. Qed.

(** What a loaded launch says of its row and its committee row. *)
Lemma findLaunch_facts id d l :
  (findLaunch id d).1 = Ok l →
  launch.l_ID l = id ∧
  match first (is_id co_launch_id id) (db_committees d) with
  | Some c => launch.c_ID (launch.l_Committee l) = co_id c ∧
              launch.c_TotalN (launch.l_Committee l) = co_total_n c
  | None => launch.c_TotalN (launch.l_Committee l) = 0
  end.
Proof.
  unfold findLaunch, query, load_first. cbn [fst].
  destruct (first (is_id lr_id id) (db_launches d)) as [r|] eqn:Hr; [|done].
  apply first_id_Some in Hr as [_ Hid].
  intros (l0 & [Hl0 Ht0]%scanLaunchCols_ID & Hh)%result_bind_Ok.
  unfold hydrate in Hh. apply result_bind_Ok in Hh as (l1 & H1 & Hh).
  apply result_bind_Ok in Hh as (l2 & H2 & Hh). apply result_bind_Ok in Hh as (l3 & H3 & H4).
  unfold loadAllocationFiles in H4. apply result_bind_Ok in H4 as (fs & _ & [= <-]).
  unfold loadVotingPower in H3. apply result_bind_Ok in H3 as (ps & _ & [= <-]).
  unfold loadAllowlist in H2. apply result_bind_Ok in H2 as (ms & _ & [= <-]).
  unfold loadCommittee in H1. rewrite Hl0, Hid in H1.
  destruct (first (is_id co_launch_id id) (db_committees d)) as [c|].
  - apply result_bind_Ok in H1 as (lead & _ & H1). apply result_bind_Ok in H1 as (ca & _ & H1).
    apply result_bind_Ok in H1 as (cms & _ & [= <-]). rewrite <- Hid, <- Hl0. by destruct l0.
  - injection H1 as <-. rewrite <- Hid, <- Hl0, <- Ht0. by destruct l0.
Qed.

(** The tables after the members list and the committee of [l] are saved. *)
Definition resaved l d : db :=
  let d1 := with_allowlist
    (remove (is_id aw_launch_id (launch.l_ID l)) (db_allowlist d)
     ++ (allow_row l <$> al_Members (launch.l_Allowlist l))) d in
  if 0 <? launch.c_TotalN (launch.l_Committee l) then
    let c := launch.l_Committee l in
    with_members (remove (is_id me_committee_id (launch.c_ID c)) (db_members d)
                  ++ member_rows c (prefix_of l))
      (with_committees (remove (is_id co_id (launch.c_ID c)) (db_committees d)
                        ++ [committee_row_of l]) d1)
  else d1.

Lemma resave_Ok id d :
  (resave id d).1 = Ok tt →
  ∃ l, (findLaunch id d).1 = Ok l ∧ resave id d = (Ok tt, resaved l d).
Proof.
  unfold resave. destruct (findLaunch id d) as [[l|e] d0] eqn:Hf.
  2: { unfold mbind, St_bind. by rewrite Hf. }
  assert (d0 = d) as -> by (unfold findLaunch, query in Hf; by injection Hf).
  unfold mbind, St_bind. rewrite Hf. intros H. exists l. split; [done|].
  destruct (saveAllowlist l d) as [[[]|e] d1] eqn:Ha; [|done].
  pose proof (saveAllowlist_Ok l d) as Hd1. rewrite Ha in Hd1. specialize (Hd1 eq_refl).
  injection Hd1 as ->. unfold resaved. destruct (0 <? _); [|done].
  unfold saveCommittee, mbind, St_bind, exec. by destruct d.
Qed.

Lemma resave_fails id d e : (findLaunch id d).1 = Err e → (resave id d).1 = Err e.
Proof.
  unfold resave, mbind, St_bind. destruct (findLaunch id d) as [[l|e'] d0]; [done|].
  by intros [= ->].
Qed.

Lemma committees_resaved l d :
  db_committees (resaved l d) = db_committees d ∨
  0 < launch.c_TotalN (launch.l_Committee l) ∧
  db_committees (resaved l d)
  = remove (is_id co_id (launch.c_ID (launch.l_Committee l))) (db_committees d)
    ++ [committee_row_of l].
Proof.
  unfold resaved. destruct (0 <? _) eqn:E.
  - right. split; [lia|]. by destruct d.
  - left. by destruct d.
Qed.

(** ** A launch whose committee cannot be read *)
Definition unreadable (id : uuid) d : Prop :=
  ∃ c e, first (is_id co_launch_id id) (db_committees d) = Some c ∧
         NewAccountID (co_lead_address c) = Err e.

Lemma unreadable_find id d : unreadable id d → ∃ e, (findLaunch id d).1 = Err e.
Proof.
  intros (c & e & Hc & Hl). unfold findLaunch, query, load_first. cbn [fst].
  destruct (first (is_id lr_id id) (db_launches d)) as [r|] eqn:Hr; [|by eexists].
  apply first_id_Some in Hr as [_ Hid].
  destruct (scanLaunchCols r) as [l0|e0] eqn:Hs; [|by eexists].
  apply scanLaunchCols_ID in Hs as [Hl0 _]. cbn [mbind result_bind]. unfold hydrate, loadCommittee.
  rewrite Hl0, Hid, Hc, Hl. by eexists.
Qed.

Lemma remove_keys (j : uuid) (rows : list committee_row) :
  NoDup (co_id <$> rows) →
  ¬ (j ∈ (co_id <$> remove (is_id co_id j) rows)) ∧
  NoDup (co_id <$> remove (is_id co_id j) rows).
Proof.
  unfold remove. induction rows as [|x rows IH]; cbn; [split; [set_solver|constructor]|].
  intros [Hx Hnd]%NoDup_cons. destruct (IH Hnd) as [Hj Hn].
  destruct (is_id co_id j x) eqn:E; cbn; [done|]. apply bool_decide_eq_false in E.
  split; [by apply not_elem_of_cons|].
  constructor; [|done]. intros (y & Hxy & Hy)%list_elem_of_fmap. apply Hx. rewrite Hxy.
  apply list_elem_of_fmap_2. apply list_elem_of_In, filter_In in Hy as [Hy _].
  by apply list_elem_of_In.
Qed.

Lemma resaved_committee_keys l d :
  NoDup (co_id <$> db_committees d) → NoDup (co_id <$> db_committees (resaved l d)).
Proof.
  intros Hnd. destruct (committees_resaved l d) as [->|[_ ->]]; [done|].
  destruct (remove_keys (launch.c_ID (launch.l_Committee l)) _ Hnd) as [Hj Hn].
  rewrite fmap_app. apply NoDup_app. split_and!; [done| |apply NoDup_singleton].
  intros x Hx ->%list_elem_of_singleton. by apply Hj.
Qed.

(** Saving another launch leaves the first committee row of a launch alone. *)
Lemma resaved_first id id2 l d :
  NoDup (co_id <$> db_committees d) → id2 ≠ id → (findLaunch id2 d).1 = Ok l →
  first (is_id co_launch_id id) (db_committees (resaved l d))
  = first (is_id co_launch_id id) (db_committees d).
Proof.
  intros Hnd Hne (Hid & Hc)%findLaunch_facts.
  destruct (committees_resaved l d) as [->|[Ht ->]]; [done|].
  destruct (first (is_id co_launch_id id2) (db_committees d)) as [c2|] eqn:H2; [|lia].
  destruct Hc as [Hc _]. apply first_id_Some in H2 as [Hin2 Hl2]. rewrite Hc. clear Hc Ht.
  unfold first. rewrite find_app. cbn [List.find]. unfold is_id at 3, committee_row_of.
  cbn [co_launch_id]. rewrite Hid, bool_decide_eq_false_2 by done.
  transitivity (List.find (is_id co_launch_id id) (remove (is_id co_id (co_id c2)) (db_committees d)));
    [by destruct (List.find _ _)|].
  unfold remove. induction (db_committees d) as [|x rows IH]; [done|]. cbn.
  apply NoDup_cons in Hnd as [Hx Hnd]. apply elem_of_cons in Hin2.
  unfold is_id at 2. case_bool_decide as E; cbn.
  - assert (x = c2) as -> by (destruct Hin2 as [->|Hin2]; [done|]; exfalso; apply Hx;
      rewrite E; by apply list_elem_of_fmap_2).
    unfold is_id at 3. rewrite bool_decide_eq_false_2 by (by rewrite Hl2). clear IH Hin2 Hl2.
    induction rows as [|y rows IH]; [done|]. cbn. apply not_elem_of_cons in Hx as [Hy Hx].
    apply NoDup_cons in Hnd as [_ Hnd].
    unfold is_id at 2. rewrite bool_decide_eq_false_2 by done. cbn. by rewrite IH.
  - destruct Hin2 as [->|Hin2]; [done|]. by rewrite IH.
Qed.

Lemma resave_all_fails id ids d :
  NoDup (co_id <$> db_committees d) → unreadable id d → id ∈ ids →
  ∃ e, (for_each ids resave d).1 = Err e.
Proof.
  revert d. induction ids as [|i ids IH]; intros d Hnd Hu Hin; [by apply elem_of_nil in Hin|].
  cbn. unfold mbind, St_bind. destruct (decide (i = id)) as [->|Hne].
  - destruct (unreadable_find id d Hu) as [e He]. pose proof (resave_fails id d e He) as H.
    destruct (resave id d) as [[]?]; [done|]. by eexists.
  - apply elem_of_cons in Hin as [|Hin]; [done|].
    destruct (resave i d) as [[[]|e] d1] eqn:E; [|by eexists].
    destruct (resave_Ok i d) as (l & Hl & E'); [by rewrite E|]. rewrite E in E'. injection E' as ->.
    apply IH; [by apply resaved_committee_keys| |done].
    destruct Hu as (c & e & Hc & He). exists c, e. split; [|done].
    by rewrite (resaved_first id i).
Qed.

End resaving.

(** ** What the other launches see of a conversion *)
Section keeping.
Context `{B32 : Bech32} {BC : Bech32Correct} `{NU : NetURL} `{UT : UUIDText}.
Context `{RO : RowOrder} {ROK : RowOrderOK RO}.
#[local] Set Default Proof Using "Type".
Import backfill.
Implicit Types (l : launch.Launch) (d : db).

(** All that loading a launch, and listing it, depends on. *)
Definition view (id : uuid) d :=
  (row_of d id,
   (λ c, (c, List.filter (is_id me_committee_id (co_id c)) (db_members d)))
     <$> List.filter (is_id co_launch_id id) (db_committees d),
   List.filter (is_id aw_launch_id id) (db_allowlist d),
   List.filter (is_id fr_launch_id id) (db_allocs d),
   List.filter (approved_in id) (db_jrs d)).

Lemma view_ext {A B C D E} (a a' : A) (b b' : B) (c c' : C) (d d' : D) (e e' : E) :
  a = a' → b = b' → c = c' → d = d' → e = e' → (a, b, c, d, e) = (a', b', c', d', e').
Proof. congruence. Qed.

Lemma find_head {A} (p : A → bool) (xs : list A) : List.find p xs = head (List.filter p xs).
Proof. induction xs as [|x xs IH]; [done|]. cbn. by destruct (p x). Qed.

Lemma existsb_filter {A} (p q : A → bool) (xs : list A) :
  existsb (λ x, p x && q x) xs = existsb q (List.filter p xs).
Proof. induction xs as [|x xs IH]; [done|]. cbn. rewrite IH. by destruct (p x). Qed.

Lemma loadCommittee_view id d d' l :
  view id d' = view id d → launch.l_ID l = id → loadCommittee d' l = loadCommittee d l.
Proof.
  intros [= _ Hc _ _ _] <-. unfold loadCommittee, first. rewrite !find_head.
  destruct (List.filter _ (db_committees d')), (List.filter _ (db_committees d)); try done.
  cbn in Hc |- *. injection Hc as -> Hm _. by rewrite Hm.
Qed.

Lemma hydrate_view id d d' l :
  view id d' = view id d → launch.l_ID l = id → hydrate d' l = hydrate d l.
Proof.
  intros Hv Hid. unfold hydrate. rewrite (loadCommittee_view id d) by done.
  destruct (loadCommittee d l) as [l1|] eqn:E1; [|done]. cbn [mbind result_bind].
  assert (launch.l_ID l1 = id) as Hid1.
  { unfold loadCommittee in E1. destruct (first _ _); [|by injection E1 as <-].
    repeat (apply result_bind_Ok in E1 as (? & _ & E1)). injection E1 as <-.
    by rewrite set_Committee_ID. }
  injection Hv as _ _ Ha Hf Hj. unfold loadAllowlist. rewrite Hid1, Ha.
  destruct (scan_rows scanAllow _) as [ms|]; [|done]. cbn [mbind result_bind].
  assert (launch.l_ID (launch.set_Allowlist (NewAllowlistFromMembers ms) l1) = id) as Hid2
    by by destruct l1.
  unfold loadVotingPower. rewrite Hid2, Hj.
  destruct (scan_rows scanPower _) as [ps|]; [|done]. cbn [mbind result_bind].
  unfold loadAllocationFiles. rewrite <- Hid2 in Hf.
  set (l2 := launch.set_Allowlist _ l1) in *.
  assert (launch.l_ID (launch.InitVotingPower l2 (foldl (λ m kv, <[kv.1:=kv.2]> m) ∅ ps))
          = launch.l_ID l2) as -> by by destruct l2.
  by rewrite Hf.
Qed.

Lemma findLaunch_view id d d' :
  view id d' = view id d → (findLaunch id d').1 = (findLaunch id d).1.
Proof.
  intros Hv. unfold findLaunch, query, load_first. cbn [fst].
  assert (row_of d' id = row_of d id) as Hr by by injection Hv. unfold row_of in Hr. rewrite Hr.
  destruct (first (is_id lr_id id) (db_launches d)) as [r|] eqn:Hf; [|done].
  apply first_id_Some in Hf as [_ Hid].
  destruct (scanLaunchCols r) as [l|] eqn:Hs; [|done]. cbn [mbind result_bind].
  apply scanLaunchCols_ID in Hs as [Hl _]. apply (hydrate_view id); [done|congruence].
Qed.

Lemma listed_of_view d a r :
  listed d a r
  = existsb (is_str aw_account a) (List.filter (is_id aw_launch_id (lr_id r)) (db_allowlist d))
    || existsb (λ cm, existsb (is_str me_account a) cm.2)
         ((λ c, (c, List.filter (is_id me_committee_id (co_id c)) (db_members d)))
            <$> List.filter (is_id co_launch_id (lr_id r)) (db_committees d)).
Proof.
  unfold listed. rewrite existsb_filter. f_equal. rewrite existsb_filter.
  induction (List.filter _ (db_committees d)) as [|c cs IH]; [done|]. cbn [fmap list_fmap existsb].
  rewrite IH. f_equal. apply existsb_filter.
Qed.

Lemma listed_view id d d' a r :
  view id d' = view id d → lr_id r = id → listed d' a r = listed d a r.
Proof. intros [= _ Hc Ha _ _] <-. by rewrite !listed_of_view, Hc, Ha. Qed.

(** ** Converting one launch *)

Lemma is_id_false {A} (f : A → uuid) i x : f x ≠ i → is_id f i x = false.
Proof. apply bool_decide_eq_false_2. Qed.

Lemma filter_other {A} (f : A → uuid) i j (old new : list A) :
  j ≠ i → Forall (λ x, f x = j) new →
  List.filter (is_id f i) (remove (is_id f j) old ++ new) = List.filter (is_id f i) old.
Proof.
  intros Hne Hnew. rewrite List.filter_app.
  replace (List.filter (is_id f i) new) with (@nil A).
  - rewrite app_nil_r. unfold remove. induction old as [|x old IH]; [done|]. cbn.
    destruct (is_id f j x) eqn:E; cbn.
    + apply bool_decide_eq_true in E. rewrite (is_id_false f i x) by congruence. exact IH.
    + by rewrite IH.
  - induction Hnew as [|x new Hx _ IH]; [done|]. cbn.
    by rewrite (is_id_false f i x) by congruence.
Qed.

(** Removing by one key and adding back under another filter's negation. *)
Lemma filter_apart {A} (f g : A → uuid) i j (old : list A) x :
  (∀ y, y ∈ old → f y = i → g y ≠ j) → f x ≠ i →
  List.filter (is_id f i) (remove (is_id g j) old ++ [x]) = List.filter (is_id f i) old.
Proof.
  intros H Hx. rewrite List.filter_app. cbn.
  rewrite (is_id_false f i x) by done. rewrite app_nil_r. unfold remove.
  induction old as [|y old IH]; [done|]. cbn.
  assert (∀ z, z ∈ old → f z = i → g z ≠ j) as H' by (intros z Hz; apply H; by right).
  destruct (is_id g j y) eqn:Ej; cbn.
  - apply bool_decide_eq_true in Ej. rewrite IH by done. rewrite (is_id_false f i y); [done|]. intros Hi. by apply (H y); [left|..].
  - by rewrite IH.
Qed.

(** Tables every launch loads from: one committee row per launch, and
    launches that can be written without loss. *)
Record convertible d : Prop := {
  cv_launches : NoDup (lr_id <$> db_launches d);
  cv_committees : NoDup (co_id <$> db_committees d);
  cv_single : NoDup (co_launch_id <$> db_committees d);
  cv_loads : ∀ id, id ∈ (lr_id <$> db_launches d) → ∃ l,
    (findLaunch id d).1 = Ok l ∧ storable_launch l ∧
    0 < launch.c_TotalN (launch.l_Committee l) }.

Definition committee_keys d : list (uuid * uuid * Z) :=
  (λ c, (co_id c, co_launch_id c, co_total_n c)) <$> db_committees d.

(** The committee row of a loaded launch. *)
Lemma loaded_committee id d l :
  (findLaunch id d).1 = Ok l → 0 < launch.c_TotalN (launch.l_Committee l) →
  launch.l_ID l = id ∧ ∃ c, c ∈ db_committees d ∧ co_launch_id c = id ∧
    co_id c = launch.c_ID (launch.l_Committee l) ∧
    co_total_n c = launch.c_TotalN (launch.l_Committee l).
Proof.
  intros [Hid Hc]%findLaunch_facts Ht. split; [done|].
  destruct (first _ _) as [c|] eqn:Hf; [|lia]. destruct Hc as [H1 H2].
  apply first_id_Some in Hf as [Hin Hl]. by exists c.
Qed.

Lemma key_unique {A} (f : A → uuid) (xs : list A) x y :
  NoDup (f <$> xs) → x ∈ xs → y ∈ xs → f x = f y → x = y.
Proof.
  intros Hnd Hx Hy Hf. pose proof (unique_first f xs x Hnd Hx) as H1.
  pose proof (unique_first f xs y Hnd Hy) as H2. rewrite Hf, H2 in H1. congruence.
Qed.

Lemma loaded_own id d l :
  convertible d → (findLaunch id d).1 = Ok l → 0 < launch.c_TotalN (launch.l_Committee l) →
  own_committee l d.
Proof.
  intros Hd Hl Ht. destruct (loaded_committee id d l Hl Ht) as (Hid & c & Hin & Hc & Hci & _).
  intros c' Hin' Hc'. rewrite <- Hci. f_equal.
  apply (key_unique co_launch_id (db_committees d)); [apply Hd|done..|congruence].
Qed.

Lemma remove_other (j : uuid) (rows : list committee_row) :
  (j ∉ co_id <$> rows) → remove (is_id co_id j) rows = rows.
Proof.
  unfold remove. induction rows as [|x rows IH]; [done|]. cbn.
  intros [Hx Hrows]%not_elem_of_cons. rewrite (is_id_false co_id j x) by done. cbn. by rewrite IH.
Qed.

Lemma remove_perm (rows : list committee_row) c :
  NoDup (co_id <$> rows) → c ∈ rows → rows ≡ₚ remove (is_id co_id (co_id c)) rows ++ [c].
Proof.
  induction rows as [|x rows IH]; intros Hnd Hc; [by apply elem_of_nil in Hc|].
  cbn in Hnd. apply NoDup_cons in Hnd as [Hx Hnd]. apply elem_of_cons in Hc as [->|Hc].
  - assert (remove (is_id co_id (co_id x)) (x :: rows) = remove (is_id co_id (co_id x)) rows) as ->.
    { unfold remove. cbn. unfold is_id at 1. by rewrite bool_decide_eq_true_2. }
    rewrite remove_other by done. by rewrite Permutation_app_comm.
  - assert (remove (is_id co_id (co_id c)) (x :: rows)
            = x :: remove (is_id co_id (co_id c)) rows) as ->.
    { unfold remove. cbn. rewrite (is_id_false co_id (co_id c) x); [done|]. intros E. apply Hx.
      rewrite E. by apply list_elem_of_fmap_2. }
    cbn. by rewrite <- IH.
Qed.

Lemma keys_resaved id d l :
  convertible d → (findLaunch id d).1 = Ok l → 0 < launch.c_TotalN (launch.l_Committee l) →
  committee_keys (resaved l d) ≡ₚ committee_keys d.
Proof.
  intros Hd Hl Ht. destruct (loaded_committee id d l Hl Ht) as (Hid & c & Hin & Hc & Hci & Hct).
  unfold committee_keys. destruct (committees_resaved l d) as [->|[_ ->]]; [done|].
  rewrite (remove_perm (db_committees d) c) at 2 by (done || apply Hd).
  rewrite !fmap_app, Hci. apply reflexive_eq. f_equal. unfold committee_row_of.
  cbn [fmap list_fmap co_id co_launch_id co_total_n]. by rewrite Hid, Hc, Hci, Hct.
Qed.

(** Resaving one launch leaves the view of another. *)
Lemma resaved_view id id2 d l :
  convertible d → id2 ≠ id → (findLaunch id2 d).1 = Ok l →
  0 < launch.c_TotalN (launch.l_Committee l) → view id (resaved l d) = view id d.
Proof.
  intros Hd Hne Hl Ht.
  destruct (loaded_committee id2 d l Hl Ht) as (Hid & c & Hin & Hc & Hci & _).
  assert (∀ y, y ∈ db_committees d → co_launch_id y = id →
               co_id y ≠ launch.c_ID (launch.l_Committee l)) as Hapart.
  { intros y Hy Hyl Hyc. apply Hne. rewrite <- Hc, <- Hyl. f_equal.
    apply (key_unique co_id (db_committees d)); [apply Hd|done..|congruence]. }
  unfold view, resaved. rewrite (proj2 (Z.ltb_lt _ _) Ht).
  apply view_ext; [by destruct d| | |by destruct d|by destruct d].
  - transitivity ((λ c, (c, List.filter (is_id me_committee_id (co_id c))
        (remove (is_id me_committee_id (launch.c_ID (launch.l_Committee l))) (db_members d)
         ++ member_rows (launch.l_Committee l) (prefix_of l))))
      <$> List.filter (is_id co_launch_id id)
            (remove (is_id co_id (launch.c_ID (launch.l_Committee l))) (db_committees d)
             ++ [committee_row_of l])); [by destruct d|].
    rewrite filter_apart by (done || by cbn; congruence).
    apply list_fmap_ext. intros n y Hy. f_equal. apply filter_other.
    + apply list_elem_of_lookup_2, list_elem_of_In, filter_In in Hy as [Hy Hyl].
      apply bool_decide_eq_true in Hyl. intros E.
      by apply (Hapart y); [apply list_elem_of_In|..].
    + apply Forall_forall. intros x (i' & m' & -> & _)%elem_of_lookup_imap. done.
  - transitivity (List.filter (is_id aw_launch_id id)
      (remove (is_id aw_launch_id (launch.l_ID l)) (db_allowlist d)
       ++ (allow_row l <$> al_Members (launch.l_Allowlist l)))); [by destruct d|].
    apply filter_other; [congruence|]. by apply Forall_fmap, Forall_true.
Qed.

(** A launch with every address shown under its own prefix. *)
Definition reshown l : launch.Launch :=
  launch.set_Committee (redisplay_committee (prefix_of l) (launch.l_Committee l))
    (launch.set_Allowlist (redisplay_allowlist (prefix_of l) (launch.l_Allowlist l)) l).

Lemma resaved_parts l d :
  0 < launch.c_TotalN (launch.l_Committee l) →
  db_launches (resaved l d) = db_launches d ∧ db_jrs (resaved l d) = db_jrs d ∧
  db_allocs (resaved l d) = db_allocs d ∧
  committee_saved l d (resaved l d) ∧ allowlist_saved l d (resaved l d).
Proof.
  intros Ht. unfold resaved. rewrite (proj2 (Z.ltb_lt _ _) Ht). by destruct d.
Qed.

Lemma findLaunch_resaved id d l :
  convertible d → (findLaunch id d).1 = Ok l → storable_launch l →
  0 < launch.c_TotalN (launch.l_Committee l) →
  (findLaunch id (resaved l d)).1 = Ok (reshown l).
Proof using BC.
  intros Hd Hl Hst Ht. pose proof (loaded_own id d l Hd Hl Ht) as Hown.
  destruct (resaved_parts l d Ht) as (Hla & Hj & Hf & Hc & Ha).
  revert Hl. unfold findLaunch, query, load_first. cbn [fst]. rewrite Hla.
  destruct (first (is_id lr_id id) (db_launches d)) as [r|]; [|done].
  destruct (scanLaunchCols r) as [l0|]; [|done]. cbn [mbind result_bind]. unfold hydrate.
  intros (l1 & H1 & H)%result_bind_Ok. apply result_bind_Ok in H as (l2 & H2 & H).
  apply result_bind_Ok in H as (l3 & H3 & H4).
  unfold loadCommittee in H1. assert (∃ c1, l1 = launch.set_Committee c1 l0) as [c1 ->].
  { destruct (first _ _); [|exists (launch.l_Committee l0); injection H1 as <-; by destruct l0].
    repeat (apply result_bind_Ok in H1 as (? & _ & H1)). injection H1 as <-. by eexists. }
  unfold loadAllowlist in H2. apply result_bind_Ok in H2 as (ms & _ & [= <-]).
  unfold loadVotingPower in H3. apply result_bind_Ok in H3 as (ps & Hps & [= <-]).
  unfold loadAllocationFiles in H4. apply result_bind_Ok in H4 as (fs & Hfs & [= Heq]).
  assert (launch.l_ID l0 = launch.l_ID l) as Hid by (rewrite <- Heq; by destruct l0).
  rewrite (load_committee l d) by done. cbn [mbind result_bind].
  rewrite (load_allowlist l d) by (done || by rewrite set_Committee_ID). cbn [mbind result_bind].
  unfold loadVotingPower. rewrite Hj.
  assert (launch.l_ID (launch.set_Allowlist (redisplay_allowlist (prefix_of l) (launch.l_Allowlist l))
            (launch.set_Committee (redisplay_committee (prefix_of l) (launch.l_Committee l)) l0))
          = launch.l_ID (launch.set_Allowlist (NewAllowlistFromMembers ms)
              (launch.set_Committee c1 l0))) as -> by by destruct l0.
  rewrite Hps. cbn [mbind result_bind]. unfold loadAllocationFiles. rewrite Hf.
  clear -Hfs Heq. destruct l0. cbn -[scan_rows order_by] in Hfs, Heq |- *. rewrite Hfs.
  cbn. f_equal. by rewrite <- Heq.
Qed.

Lemma addresses_apart p (ps : list (string * memberMeta)) :
  account_prefix p = true → NoDup ps.*1 →
  Forall (λ kv, storable_account p (m_Address (entry_member kv))) ps →
  NoDup ((λ kv, underPrefix (m_Address (entry_member kv)) p) <$> ps).
Proof using BC.
  intros Hp. induction ps as [|kv ps IH]; cbn; [constructor|].
  intros [Hk Hnd]%NoDup_cons [Ha Hps]%Forall_cons. constructor; [|by apply IH].
  intros (kv' & Heq & Hin)%list_elem_of_fmap. apply Hk.
  rewrite Forall_forall in Hps. specialize (Hps kv' Hin).
  pose proof (NewAccountID_underPrefix p _ Hp Ha) as H1.
  pose proof (NewAccountID_underPrefix p _ Hp Hps) as H2.
  rewrite Heq, H2 in H1. injection H1 as H1 _. cbn in H1. rewrite <- H1.
  by apply list_elem_of_fmap_2.
Qed.

Lemma insert_members_ok l (ms : list Member) d :
  NoDup ((λ m, aw_address (allow_row l m)) <$> ms) →
  (∀ r m, r ∈ db_allowlist d → m ∈ ms → aw_launch_id r = launch.l_ID l →
     aw_address r ≠ aw_address (allow_row l m)) →
  ∃ d', for_each ms (λ m d,
    let r := allow_row l m in
    if existsb (λ r', is_id aw_launch_id (launch.l_ID l) r'
                      && is_str aw_address (aw_address r) r') (db_allowlist d)
    then (Err errorf, d)
    else (Ok tt, with_allowlist (db_allowlist d ++ [r]) d)) d = (Ok tt, d').
Proof using Type.
  revert d. induction ms as [|m ms IH]; intros d Hnd Hfree; [by eexists|].
  cbn in Hnd. apply NoDup_cons in Hnd as [Hm Hnd]. cbn [for_each]. unfold mbind, St_bind.
  cbv zeta. destruct (existsb _ (db_allowlist d)) eqn:E.
  - exfalso. apply existsb_exists in E as (r & Hr & [Hl%bool_decide_eq_true
      Ha%bool_decide_eq_true]%andb_prop).
    apply (Hfree r m); [by apply list_elem_of_In|by left|done|done].
  - apply IH; [done|]. intros r m' Hr Hm' Hl Heq.
    assert (db_allowlist (with_allowlist (db_allowlist d ++ [allow_row l m]) d)
            = db_allowlist d ++ [allow_row l m]) as Hd by by destruct d.
    rewrite Hd in Hr. apply elem_of_app in Hr as [Hr|Hr%list_elem_of_singleton].
    + apply (Hfree r m'); [done|by right|done|done].
    + apply Hm. subst r. cbn in Heq |- *. rewrite Heq.
      exact (list_elem_of_fmap_2 (λ m, aw_address (allow_row l m)) ms m' Hm').
Qed.

Lemma saveAllowlist_succeeds l d : storable_launch l → (saveAllowlist l d).1 = Ok tt.
Proof using BC.
  intros Hst. unfold saveAllowlist, mbind, St_bind, exec. cbv beta iota.
  destruct (insert_members_ok l (al_Members (launch.l_Allowlist l))
    (with_allowlist (remove (is_id aw_launch_id (launch.l_ID l)) (db_allowlist d)) d))
    as [d' Hd']; [| |exact (f_equal fst Hd')].
  - unfold al_Members. rewrite <- list_fmap_compose.
    apply (addresses_apart (prefix_of l)); [apply Hst| |].
    + rewrite sorted_entries_perm. apply NoDup_fst_map_to_list.
    + apply Forall_forall. intros [k m] Hin. rewrite sorted_entries_perm in Hin.
      apply elem_of_map_to_list in Hin. exact (proj1 (sl_allowlist l Hst k m Hin)).
  - intros r m Hr _ Hl. assert (db_allowlist (with_allowlist (remove (is_id aw_launch_id
      (launch.l_ID l)) (db_allowlist d)) d) = remove (is_id aw_launch_id (launch.l_ID l))
      (db_allowlist d)) as Hd by by destruct d. rewrite Hd in Hr.
    apply list_elem_of_In, filter_In in Hr as [_ Hn%negb_true_iff].
    exfalso. revert Hn. unfold is_id. by rewrite bool_decide_eq_true_2.
Qed.

Lemma resave_total id d l :
  (findLaunch id d).1 = Ok l → storable_launch l → resave id d = (Ok tt, resaved l d).
Proof using BC.
  intros Hl Hst. assert ((resave id d).1 = Ok tt) as Hok.
  { unfold resave, mbind, St_bind. destruct (findLaunch id d) as [r d0] eqn:Hf.
    cbn in Hl. subst r. assert (d0 = d) as -> by (unfold findLaunch, query in Hf; by injection Hf).
    pose proof (saveAllowlist_succeeds l d Hst) as Ha.
    destruct (saveAllowlist l d) as [[[]|e] d1]; [|done].
    destruct (0 <? _); [|done]. unfold saveCommittee, mbind, St_bind, exec. done. }
  destruct (resave_Ok id d Hok) as (l' & Hl' & E). rewrite Hl in Hl'. by injection Hl' as ->.
Qed.

Lemma storable_acct p a a' : acct a' = acct a → storable_account p a → storable_account p a'.
Proof. intros E (b & Hb & Hf). exists b. by rewrite E. Qed.

Lemma storable_reshown l : storable_launch l → storable_launch (reshown l).
Proof.
  intros [Hp Hl Hm Ha Hf Hg Ht Hr Hc].
  assert (launch.l_Record (reshown l) = launch.l_Record l) as Er by by destruct l.
  assert (prefix_of (reshown l) = prefix_of l) as Ep by (unfold prefix_of; by rewrite Er).
  assert (launch.l_Committee (reshown l)
          = redisplay_committee (prefix_of l) (launch.l_Committee l)) as Ec by by destruct l.
  assert (launch.l_Allowlist (reshown l)
          = redisplay_allowlist (prefix_of l) (launch.l_Allowlist l)) as Ea by by destruct l.
  split; rewrite ?Er, ?Ep, ?Ec, ?Ea; [done| | | |by destruct l|done| |done|done].
  - by eapply storable_acct.
  - apply Forall_fmap. eapply Forall_impl; [exact Hm|]. intros m. by apply storable_acct.
  - intros k m Hk. rewrite redisplay_lookup in Hk. apply fmap_Some in Hk as (m0 & Hk & ->).
    destruct (Ha k m0 Hk) as [H1 H2]. split; [by eapply storable_acct|done].
  - by destruct l.
Qed.

Lemma redisplay_allowlist_twice p (al : gmap string memberMeta) :
  account_prefix p = true →
  (∀ k m, al !! k = Some m → storable_account p (mkAccountID k (mm_display m))) →
  redisplay_allowlist p (redisplay_allowlist p al) = redisplay_allowlist p al.
Proof using BC.
  intros Hp Ha. unfold redisplay_allowlist. apply map_eq. intros k. rewrite !map_lookup_imap.
  destruct (al !! k) as [m|] eqn:Hk; [|done]. cbn. f_equal. unfold redisplay_meta.
  cbn [mm_display mm_label mm_addedBy mm_addedAt]. f_equal.
  apply underPrefix_acct; [done|exact (Ha k m Hk)|done].
Qed.

Lemma storable_stored l v vp : storable_launch l → storable_launch (stored_form l v vp).
Proof.
  intros [Hp Hl Hm Ha Hf Hg Ht Hr Hc]. split; cbn [stored_form launch.l_Record launch.l_Committee
    launch.l_Allowlist launch.l_AllocationFiles redisplay_committee launch.c_LeadAddress
    launch.c_Members launch.l_CreatedAt launch.l_UpdatedAt launch.c_CreatedAt];
    [done| | | | |done|done|done|done].
  - by eapply storable_acct.
  - apply Forall_fmap. eapply Forall_impl; [exact Hm|]. intros m. by apply storable_acct.
  - intros k m Hk. rewrite redisplay_lookup in Hk. apply fmap_Some in Hk as (m0 & Hk & ->).
    destruct (Ha k m0 Hk) as [H1 H2]. split; [by eapply storable_acct|done].
  - unfold order_by. by rewrite merge_sort_Permutation.
Qed.

Lemma reshown_twice l : storable_launch l → reshown (reshown l) = reshown l.
Proof using BC.
  intros [Hp Hl Hm Ha _ _ _ _ _]. unfold reshown at 1.
  assert (prefix_of (reshown l) = prefix_of l) as -> by by destruct l.
  assert (launch.l_Committee (reshown l)
          = redisplay_committee (prefix_of l) (launch.l_Committee l)) as -> by by destruct l.
  assert (launch.l_Allowlist (reshown l)
          = redisplay_allowlist (prefix_of l) (launch.l_Allowlist l)) as -> by by destruct l.
  assert (redisplay_committee (prefix_of l) (redisplay_committee (prefix_of l) (launch.l_Committee l))
          = redisplay_committee (prefix_of l) (launch.l_Committee l)) as ->.
  { unfold redisplay_committee. cbn [launch.c_ID launch.c_Members launch.c_ThresholdM
      launch.c_TotalN launch.c_LeadAddress launch.c_CreatedAt].
    rewrite redisplay_twice by done. f_equal. rewrite <- list_fmap_compose.
    apply list_fmap_ext. intros i m Hi. cbn. unfold redisplay_member at 1. cbn [launch.cm_Address
      launch.cm_Moniker redisplay_member]. rewrite redisplay_twice; [done..|].
    rewrite Forall_forall in Hm. apply Hm. by eapply list_elem_of_lookup_2. }
  assert (redisplay_allowlist (prefix_of l) (redisplay_allowlist (prefix_of l) (launch.l_Allowlist l))
          = redisplay_allowlist (prefix_of l) (launch.l_Allowlist l)) as ->.
  { apply redisplay_allowlist_twice; [done|]. intros k m Hk. exact (proj1 (Ha k m Hk)). }
  by destruct l.
Qed.

Lemma convertible_resaved id d l :
  convertible d → (findLaunch id d).1 = Ok l → storable_launch l →
  0 < launch.c_TotalN (launch.l_Committee l) → convertible (resaved l d).
Proof using BC.
  intros Hd Hl Hst Ht. destruct (resaved_parts l d Ht) as (Hla & _).
  pose proof (keys_resaved id d l Hd Hl Ht) as Hk. unfold committee_keys in Hk. split.
  - rewrite Hla. apply Hd.
  - assert (co_id <$> db_committees (resaved l d) ≡ₚ co_id <$> db_committees d) as ->; [|apply Hd].
    apply (fmap_Permutation (λ k : uuid * uuid * Z, k.1.1)) in Hk.
    by rewrite <- !list_fmap_compose in Hk.
  - assert (co_launch_id <$> db_committees (resaved l d) ≡ₚ co_launch_id <$> db_committees d) as ->;
      [|apply Hd].
    apply (fmap_Permutation (λ k : uuid * uuid * Z, k.1.2)) in Hk.
    by rewrite <- !list_fmap_compose in Hk.
  - rewrite Hla. intros id' Hin. destruct (decide (id = id')) as [<-|Hne].
    + exists (reshown l). split; [by apply findLaunch_resaved|].
      split; [by apply storable_reshown|by destruct l].
    + rewrite (findLaunch_view id' d); [by apply Hd|]. by apply (resaved_view id' id).
Qed.

(** The launch is as it was, shown under its prefix, and listed for exactly
    the accounts it is visible to. *)
Definition converted (id : uuid) l d : Prop :=
  (findLaunch id d).1 = Ok (reshown l) ∧
  ∀ addr a r, accountHex addr = Some a → lr_id r = id →
    listed d a r = launch.IsVisibleTo l addr.

Lemma converted_view id l d d' : view id d' = view id d → converted id l d → converted id l d'.
Proof.
  intros Hv [H1 H2]. split; [by rewrite (findLaunch_view id d)|].
  intros addr a r Ha Hr. rewrite (listed_view id d) by done. by apply H2.
Qed.

Lemma IsVisibleTo_accounts l addr a :
  accountHex addr = Some a →
  launch.IsVisibleTo l addr
  = bool_decide (is_Some (launch.l_Allowlist l !! a))
    || existsb (λ m, bool_decide (acct (launch.cm_Address m) = a))
         (launch.c_Members (launch.l_Committee l)).
Proof.
  unfold accountHex, launch.IsVisibleTo. intros H.
  destruct (NewAccountID addr) as [id|] eqn:Hid; [|done]. injection H as <-.
  destruct (is_empty addr) eqn:He; [by destruct addr|]. apply orb_comm.
Qed.

Lemma converted_resaved id d l :
  convertible d → (findLaunch id d).1 = Ok l → storable_launch l →
  0 < launch.c_TotalN (launch.l_Committee l) → converted id l (resaved l d).
Proof using BC.
  intros Hd Hl Hst Ht. split; [by apply findLaunch_resaved|]. intros addr a r Ha Hr.
  destruct (resaved_parts l d Ht) as (_ & _ & _ & Hc & Hal).
  destruct (loaded_committee id d l Hl Ht) as [Hid _].
  rewrite (IsVisibleTo_accounts l addr a) by done.
  apply (listed_saved l d); [by apply (loaded_own id)|congruence|done|done].
Qed.

Lemma resave_all ids d :
  NoDup ids → (∀ id, id ∈ ids → id ∈ (lr_id <$> db_launches d)) → convertible d →
  ∃ d', for_each ids resave d = (Ok tt, d') ∧ convertible d' ∧
    db_launches d' = db_launches d ∧ (∀ id, (id ∉ ids) → view id d' = view id d) ∧
    ∀ id l, id ∈ ids → (findLaunch id d).1 = Ok l → converted id l d'.
Proof using BC.
  revert d. induction ids as [|i ids IH]; intros d Hnd Hin Hd.
  - exists d. split_and!; [done..|]. intros id l H. by apply elem_of_nil in H.
  - apply NoDup_cons in Hnd as [Hi Hnd].
    destruct (cv_loads d Hd i) as (l & Hl & Hst & Ht); [apply Hin; by left|].
    destruct (resaved_parts l d Ht) as (Hla & _).
    destruct (IH (resaved l d)) as (d' & Hfor & Hd' & Hla' & Hview & Hconv).
    + done.
    + intros id Hid. rewrite Hla. apply Hin. by right.
    + by apply (convertible_resaved i).
    + exists d'. cbn [for_each]. unfold mbind, St_bind. rewrite (resave_total i d l) by done.
      split_and!; [done|done|congruence| |].
      * intros id [Hne Hids]%not_elem_of_cons. rewrite Hview by done.
        by apply (resaved_view id i).
      * intros id l' [->|Hid]%elem_of_cons Hl'.
        -- rewrite Hl in Hl'. injection Hl' as <-.
           apply (converted_view i l (resaved l d)); [by apply Hview|by apply converted_resaved].
        -- apply Hconv; [done|]. rewrite (findLaunch_view id d); [done|].
           apply (resaved_view id i); [done| |done|done]. congruence.
Qed.

Lemma findLaunch_in id d l : (findLaunch id d).1 = Ok l → id ∈ (lr_id <$> db_launches d).
Proof.
  unfold findLaunch, query, load_first. cbn [fst].
  destruct (first (is_id lr_id id) (db_launches d)) as [r|] eqn:Hr; [|done].
  intros _. apply first_id_Some in Hr as [Hin <-]. by apply list_elem_of_fmap_2.
Qed.

Lemma convert_all d :
  convertible d →
  ∃ d', backfillLaunchScopedAddresses d = (Ok tt, d') ∧ convertible d' ∧
    db_launches d' = db_launches d ∧
    ∀ id l, (findLaunch id d).1 = Ok l → converted id l d'.
Proof using BC ROK.
  intros Hd. unfold backfillLaunchScopedAddresses.
  destruct (resave_all (row_order (lr_id <$> db_launches d)) d) as (d' & H1 & H2 & H3 & _ & H4);
    [rewrite row_order_perm; apply Hd|intros id; by rewrite row_order_perm|done|].
  exists d'. split_and!; [done..|]. intros id l Hl. apply H4; [|done].
  rewrite row_order_perm. by eapply findLaunch_in.
Qed.

(** On tables from which every launch loads, the conversion of member
    addresses at start-up succeeds, leaves every launch as it was with its
    addresses shown under its own prefix, and makes the launch list show it to
    exactly the accounts it is visible to; a second start changes no launch. *)
Theorem backfill_keeps_launches d :
  convertible d →
  ∃ d', backfillLaunchScopedAddresses d = (Ok tt, d') ∧ convertible d' ∧
    (∀ id l, (findLaunch id d).1 = Ok l → converted id l d') ∧
    ∃ d'', backfillLaunchScopedAddresses d' = (Ok tt, d'') ∧
      ∀ id l, (findLaunch id d').1 = Ok l → (findLaunch id d'').1 = Ok l.
Proof using BC ROK.
  intros Hd. destruct (convert_all d Hd) as (d' & H1 & Hd' & Hla & H2).
  destruct (convert_all d' Hd') as (d'' & H3 & _ & _ & H4).
  exists d'. split_and!; [done..|]. exists d''. split; [done|]. intros id l' Hl'.
  destruct (H4 id l' Hl') as [-> _]. f_equal.
  destruct (cv_loads d Hd id) as (l & Hl & Hst & _).
  { rewrite <- Hla. by eapply findLaunch_in. }
  destruct (H2 id l Hl) as [Hr _]. rewrite Hl' in Hr. injection Hr as ->. by apply reshown_twice.
Qed.

End keeping.

(** ** A prefix that keeps the server from starting *)
Section start.
Context `{B32 : Bech32} {BC : Bech32Correct} `{NU : NetURL} `{UT : UUIDText}.
Context `{RO : RowOrder} {ROK : RowOrderOK RO} `{Q : SQL}.
#[local] Set Default Proof Using "Type*".
Import backfill.
Implicit Types (l : launch.Launch) (d : db).

(** The prefix of an operator or consensus address, in the codec's alphabet. *)
Definition operator_prefix (p : string) : bool :=
  lower_hrp p && (strings.HasSuffix p "valoper" || strings.HasSuffix p "valcons").

Lemma NewAccountID_operator p a :
  operator_prefix p = true → storable_account p a →
  NewAccountID (underPrefix a p) = Err [ErrNotAccountAddress].
Proof using BC.
  intros [Hl Hsuf]%andb_prop (b & Hb & Hfit).
  assert (is_empty p = false) as Hne by (apply andb_prop in Hl as [Hl _]; by apply negb_true_iff).
  destruct (encode_decode p b Hl Hfit) as (dd & s & Hc & He & Hd & _ & Ht & Hs).
  assert (underPrefix a p = s) as ->.
  { unfold underPrefix, account_Bech32. rewrite Hne, Hb, hex.Decode_Encode. cbn.
    rewrite Hc. cbn. by rewrite He. }
  unfold NewAccountID. rewrite Ht. destruct (is_empty s) eqn:E; [by destruct s|].
  by rewrite Hd, Hne, Hsuf.
Qed.

Lemma saved_committees l d :
  unique_launches d → (saveLaunch l d).1 = Ok tt →
  db_committees (saveLaunch l d).2
  = remove (is_id co_id (launch.c_ID (launch.l_Committee l))) (db_committees d)
    ++ [committee_row_of l].
Proof using Type.
  intros Hu Hok.
  destruct (saveLaunch_cases l d Hu) as [v _ _ E|e _ E|_ _ E|_ _ E];
    [by rewrite E in Hok|by rewrite E in Hok| |];
    rewrite E in Hok |- *; rewrite (save_rest_Ok _ _ Hok); by destruct d.
Qed.

Lemma saved_unreadable l d :
  unique_launches d → own_committee l d → operator_prefix (prefix_of l) = true →
  storable_account (prefix_of l) (launch.c_LeadAddress (launch.l_Committee l)) →
  (saveLaunch l d).1 = Ok tt → unreadable (launch.l_ID l) (saveLaunch l d).2.
Proof using BC.
  intros Hu Hown Hp Ha Hok. exists (committee_row_of l), [ErrNotAccountAddress].
  rewrite saved_committees by done. unfold first. rewrite find_app, find_removed by done.
  cbn [List.find]. unfold is_id at 1. cbn [committee_row_of co_launch_id].
  rewrite bool_decide_eq_true_2 by done. split; [done|]. by apply NewAccountID_operator.
Qed.

Lemma saved_blocks_start l d :
  unique_launches d → NoDup (co_id <$> db_committees d) → own_committee l d →
  operator_prefix (prefix_of l) = true →
  storable_account (prefix_of l) (launch.c_LeadAddress (launch.l_Committee l)) →
  (saveLaunch l d).1 = Ok tt →
  let d' := (saveLaunch l d).2 in
  (∃ e, (findLaunch (launch.l_ID l) d').1 = Err e) ∧
  ∀ now files f, df_db f = d' → migrations.runMigrations now files f = (Ok tt, f) →
    ∃ e, (Open now files f).1 = Err e.
Proof.
  intros Hu Hnd Hown Hp Ha Hok d'. pose proof (saved_unreadable l d Hu Hown Hp Ha Hok) as Hun.
  split; [by apply unreadable_find|]. intros now files f Hf Hmig.
  assert (launch.l_ID l ∈ lr_id <$> db_launches d') as Hin.
  { destruct (saveLaunch_rows l d Hu) as [[e E]|(_ & _ & Hv & _)]; [by rewrite E in Hok|].
    unfold version_at, row_of in Hv. apply fmap_Some in Hv as (r & [Hr <-]%first_id_Some & _).
    by apply list_elem_of_fmap_2. }
  assert (NoDup (co_id <$> db_committees d')) as Hnd'.
  { unfold d'. rewrite saved_committees by done.
    destruct (remove_keys (launch.c_ID (launch.l_Committee l)) _ Hnd) as [Hj Hn].
    rewrite fmap_app. apply NoDup_app. split_and!; [done| |apply NoDup_singleton].
    intros x Hx ->%list_elem_of_singleton. by apply Hj. }
  destruct (resave_all_fails (launch.l_ID l) (row_order (lr_id <$> db_launches d')) d')
    as [e He]; [done..|by rewrite row_order_perm|].
  unfold Open. rewrite Hmig. unfold backfillAccountForms. cbn [fst snd]. rewrite Hf.
  unfold mbind, St_bind, backfillLaunchScopedAddresses at 1.
  destruct (for_each _ resave d') as [[]?]; [done|]. cbn. by eexists.
Qed.

Context `{O : Oracle}.

Lemma CreateLaunch_Ret input w l w' :
  CreateLaunch input w = (Ret l, w') →
  launch.l_Record l = ci_Record input ∧ launch.l_Committee l = ci_Committee input ∧
  saveLaunch l (w_db w) = (Ok tt, w_db w').
Proof using Type.
  unfold CreateLaunch, saveAndEmit, badRequest. intros H. minv.
  assert (w_db w3 = w_db w4) as ->.
  { match type of E2 with emit ?sc ?ev _ = _ => pose proof (db_emit sc ev w4) as He end.
    by rewrite E2 in He. }
  clear E2.
  assert (launch.l_Record a1 = ci_Record input ∧ launch.l_Committee a1 = ci_Committee input)
    as [Hr Hc].
  { revert E1. unfold launch.New. repeat case_match; intros; simplify_eq; done. }
  unfold run_st in E3. destruct (saveLaunch _ (w_db _)) as [[[]|e] d1] eqn:Hs; [|done].
  injection E3 as _ <-. split_and!; [by destruct a1|by destruct a1|].
  reflexivity.
Qed.

(** C38. The service creates a launch under a prefix of operator or consensus
    addresses like any other, but that launch cannot be loaded again, and the
    server does not open its database any more: the conversion of addresses
    that runs at every start fails on it. *)
Theorem operator_prefix_blocks_start input w l w' :
  CreateLaunch input w = (Ret l, w') →
  operator_prefix (launch.r_Bech32Prefix (ci_Record input)) = true →
  storable_account (launch.r_Bech32Prefix (ci_Record input))
    (launch.c_LeadAddress (ci_Committee input)) →
  unique_launches (w_db w) → NoDup (co_id <$> db_committees (w_db w)) →
  own_committee l (w_db w) →
  (∃ e, (findLaunch (launch.l_ID l) (w_db w')).1 = Err e) ∧
  ∀ now files f, df_db f = w_db w' → migrations.runMigrations now files f = (Ok tt, f) →
    ∃ e, (Open now files f).1 = Err e.
Proof.
  intros (Hr & Hc & Hs)%CreateLaunch_Ret Hp Ha Hu Hnd Hown.
  pose proof (saved_blocks_start l (w_db w)) as H. rewrite Hs in H. apply H; [done..| | |done].
  - unfold prefix_of. by rewrite Hr.
  - unfold prefix_of. by rewrite Hr, Hc.
Qed.

End start.

(** ** A sample: [cosmosvaloper] *)
Module start_samples.
Import fixtures samples.
#[local] Existing Instances letters.codec letters.codec_correct | 0.

#[export] Instance table_order : RowOrder := {| row_order := λ _ l, l |}.
#[export] Instance table_order_ok : RowOrderOK table_order.
Proof. split. reflexivity. Qed.
#[export] Instance no_sql : SQL := {| sql_exec := λ _ s, Ok s |}.

Definition operator_record : launch.ChainRecord :=
  launch.mkRecord "chain-1" "Chain" "cosmosvaloper" "chaind" "v1" "" "" "" None "utok" "1" ""
    (rate_of "0.2") (rate_of "0.01") (t0 + 10 * day) 1.
Definition create : CreateLaunchInput :=
  mkCreate operator_record launch.LaunchTypeTestnet []
    (launch.mkCommittee 7%N [member alice] 1 1 alice t0).

Definition created : outcome launch.Launch * world := CreateLaunch create (world_of empty_db).
Definition file_names : list (string * string) :=
  [("migrations/0001_initial_schema.sql", ""); ("migrations/0002_add_bech32_prefix.sql", "")].
Definition opened : datafile :=
  mkDatafile [(1, ""%string); (2, ""%string)] (mkAuth ∅ [] ∅ []) (w_db created.2).

Lemma operator_prefix_blocks_start_witness :
  ∃ l e, created.1 = Ret l ∧ (backfill.Open t0 file_names opened).1 = Err e.
Proof.
  destruct created as [[l| | |] w'] eqn:Hc; try (vm_compute in Hc; discriminate).
  assert (launch.l_ID l = 1000%N ∧ w_db w' = w_db created.2) as [Hid Hdb].
  { rewrite Hc. split; [|done]. vm_compute in Hc. by injection Hc as <- _. }
  destruct (operator_prefix_blocks_start create (world_of empty_db) l w') as [_ Hopen].
  - exact Hc.
  - vm_compute. reflexivity.
  - exists "alice"%string. split; [reflexivity|vm_compute; lia].
  - apply NoDup_nil_2.
  - apply NoDup_nil_2.
  - intros c Hin. exfalso. exact (proj1 (elem_of_nil c) Hin).
  - destruct (Hopen t0 file_names opened) as [e He].
    + by rewrite Hdb.
    + vm_compute. reflexivity.
    + exists l, e. by split.
Defined.

(** A stored launch under an account prefix is converted. *)
Definition stored : db := (saveLaunch roundtrip_samples.sample empty_db).2.

Lemma convertible_stored : convertible stored.
Proof.
  assert (lr_id <$> db_launches stored = [1%N]) as H1 by (vm_compute; reflexivity).
  assert (co_id <$> db_committees stored = [7%N]) as H2 by (vm_compute; reflexivity).
  assert (co_launch_id <$> db_committees stored = [1%N]) as H3 by (vm_compute; reflexivity).
  split; rewrite ?H1, ?H2, ?H3; try apply NoDup_singleton.
  intros id ->%list_elem_of_singleton.
  exists (stored_form roundtrip_samples.sample 0 ∅). split; [vm_compute; reflexivity|].
  split; [apply storable_stored, roundtrip_samples.storable_sample|vm_compute; reflexivity].
Qed.

Lemma backfill_keeps_launches_witness :
  ∃ d', backfill.backfillLaunchScopedAddresses stored = (Ok tt, d') ∧
    ∃ r, row_of d' 1%N = Some r ∧ listed d' (acct carol) r = true.
Proof.
  destruct (backfill_keeps_launches (BC := letters.codec_correct) stored convertible_stored)
    as (d' & H & _ & _ & _).
  exists d'. split; [exact H|].
  assert (d' = (backfill.backfillLaunchScopedAddresses stored).2) as -> by (by rewrite H).
  eexists. split; vm_compute; reflexivity.
Defined.

End start_samples.
