(* ===== verification/StartupProps.v ===== *)
(** * What a server that started can rely on

    The configuration checks and the start-up code decode the two signing keys
    differently; a server that starts nevertheless runs with the checked ones.
    Two configurations the checks let through are theorems as well. *)

From S2P Require Import Prelude GoStd GoTime Values Json Payload Store World AuditLog Rehearsal.
From S2P Require Import ProposalService LaunchService RehearsalService AuthService Backfill Jobs.
From S2P Require Import Codec Netutil Config Http Handlers Server Startup.
From S2P Require Import Fixtures ServiceSamples BackfillProps.
Import config startup.
#[global] Open Scope Z_scope.

(** ** Trimming *)
Lemma strip_any_Some ps l r :
  strings.strip_any ps l = Some r → ∃ p, p ∈ ps ∧ l = p ++ r.
Proof.
  induction ps as [|p ps IH]; cbn; [done|].
  destruct (strings.strip_prefix p l) eqn:E.
  - intros [= ->]. apply strings.strip_prefix_Some in E. exists p. by split; [left|].
  - intros (q & Hq & ->)%IH. exists q. by split; [right|].
Qed.

Lemma trim_left_split fuel ps l :
  ∃ ws, Forall (.∈ ps) ws ∧ l = concat ws ++ strings.trim_left fuel ps l.
Proof.
  revert l. induction fuel as [|fuel IH]; intros l; [by exists []|]. cbn.
  destruct (strings.strip_any ps l) as [r|] eqn:E; [|by exists []].
  apply strip_any_Some in E as (p & Hp & ->). destruct (IH r) as (ws & Hws & Hr).
  exists (p :: ws). split; [by constructor|]. cbn. by rewrite <- app_assoc, <- Hr.
Qed.

(** The text around what [TrimSpace] leaves. *)
Lemma TrimSpace_split s :
  ∃ ws tail, Forall (.∈ strings.spaces) ws
    ∧ chars s = concat ws ++ chars (strings.TrimSpace s) ++ tail.
Proof.
  unfold strings.TrimSpace. rewrite String.list_ascii_of_string_of_list_ascii.
  destruct (trim_left_split (String.length s) strings.spaces (chars s)) as (ws & Hws & Hs).
  set (l := strings.trim_left _ _ (chars s)) in *.
  destruct (trim_left_split (length l) (map (@rev ascii) strings.spaces) (rev l)) as (vs & _ & Hl).
  exists ws, (rev (concat vs)). split; [done|]. rewrite Hs at 1. f_equal.
  apply (f_equal (@rev ascii)) in Hl. by rewrite rev_involutive, rev_app_distr in Hl.
Qed.

(** ** Decoding with the error ignored *)
Lemma skip_newlines_app l1 l2 :
  base64.skip_newlines (l1 ++ l2) = base64.skip_newlines l1 ++ base64.skip_newlines l2.
Proof. apply List.filter_app. Qed.

Lemma list_ind4 {A} (P : list A → Prop) :
  (∀ l, (length l < 4)%nat → P l) →
  (∀ a b c d l, P l → P (a :: b :: c :: d :: l)) → ∀ l, P l.
Proof.
  intros Hs Hc. fix IH 1. intros [|a [|b [|c [|d l]]]]; [apply Hs; cbn; lia..|apply Hc, IH].
Qed.

(** One more quantum after the first. *)
Lemma decode_chars_more a b c d e l r :
  base64.decode_chars (a :: b :: c :: d :: e :: l) = Some r →
  ∃ x y z w r', base64.value a = Some x ∧ base64.value b = Some y ∧ base64.value c = Some z
    ∧ base64.value d = Some w ∧ base64.decode_chars (e :: l) = Some r'
    ∧ r = base64.byte_of (x * 4 + y / 16) :: base64.byte_of (y * 16 + z / 4)
            :: base64.byte_of (z * 64 + w) :: r'.
Proof.
  intros H. cbn [base64.decode_chars] in H.
  apply bind_Some in H as (x & Hx & H). apply bind_Some in H as (y & Hy & H).
  apply bind_Some in H as (z & Hz & H). apply bind_Some in H as (w & Hw & H).
  apply bind_Some in H as (r' & Hr & [= <-]). by exists x, y, z, w, r'.
Qed.

Lemma value_not_pad c x : base64.value c = Some x → c ≠ base64.pad.
Proof. intros H ->. vm_compute in H. done. Qed.

(** A well-formed text is decoded to its bytes, whatever follows it if it ends
    with padding, that is, when its length is no multiple of three. *)
Lemma decoded_prefix_spec l r tail :
  base64.decode_chars l = Some r → (tail = [] ∨ (length r mod 3 ≠ 0)%nat) →
  decoded_prefix (l ++ tail) = r.
Proof.
  revert r. induction l as [l Hl|a b c d l IH] using list_ind4; intros r H Ht.
  - destruct l as [|a [|b [|c [|]]]]; cbn in H; try done; [|cbn in Hl; lia].
    injection H as <-. by destruct Ht as [->|Ht].
  - destruct l as [|e l].
    + cbn [base64.decode_chars] in H.
      apply bind_Some in H as (x & Hx & H). apply bind_Some in H as (y & Hy & H).
      cbn [decoded_prefix app]. rewrite Hx, Hy.
      destruct (ascii_dec c base64.pad).
      { destruct (ascii_dec d base64.pad); [by injection H as <-|done]. }
      apply bind_Some in H as (z & Hz & H). rewrite Hz.
      destruct (ascii_dec d base64.pad); [by injection H as <-|].
      apply bind_Some in H as (w & Hw & [= <-]). rewrite Hw.
      by destruct Ht as [->|[]].
    + apply decode_chars_more in H as (x & y & z & w & r' & Hx & Hy & Hz & Hw & Hr & ->).
      cbn [app decoded_prefix]. rewrite Hx, Hy, Hz, Hw.
      destruct (ascii_dec c base64.pad) as [E|_]; [by apply value_not_pad in Hz|].
      destruct (ascii_dec d base64.pad) as [E|_]; [by apply value_not_pad in Hw|].
      do 3 f_equal. apply (IH _ Hr). destruct Ht as [->|Ht]; [by left|right].
      cbn [length] in Ht. replace (S (S (S (length r')))) with (length r' + 1 * 3)%nat in Ht by lia.
      by rewrite Nat.Div0.mod_add in Ht.
Qed.

Lemma decoded_ignored s b : base64.DecodeString s = Ok b → DecodeString_ignored s = b.
Proof.
  unfold base64.DecodeString, DecodeString_ignored.
  destruct (base64.decode_chars _) eqn:E; [|done]. intros [= <-].
  rewrite <- (app_nil_r (base64.skip_newlines _)). f_equal.
  apply decoded_prefix_spec; [done|by left].
Qed.

Lemma bad_start_decodes_nothing a l : base64.value a = None → decoded_prefix (a :: l) = [].
Proof. intros H. destruct l as [|b [|c [|d l]]]; cbn; [done..|]. by rewrite H. Qed.

(** Leading white space is skipped (line ends) or stops the decoder. *)
Lemma leading_spaces ws x :
  Forall (.∈ strings.spaces) ws →
  decoded_prefix (base64.skip_newlines (concat ws ++ x)) = []
  ∨ decoded_prefix (base64.skip_newlines (concat ws ++ x)) = decoded_prefix (base64.skip_newlines x).
Proof.
  induction 1 as [|p ws Hp _ IH]; [by right|]. cbn [concat]. rewrite <- app_assoc.
  generalize dependent (concat ws ++ x). intros y IH.
  assert (∃ a q, p = a :: q ∧ (base64.value a = None)
          ∧ (base64.skip_newlines [a] = [a] ∨ q = [] ∧ base64.skip_newlines [a] = []))
    as (a & q & -> & Ha & Hs).
  { revert Hp. unfold strings.spaces. cbn [map].
    rewrite !elem_of_cons. intros Hp. repeat destruct Hp as [->|Hp];
      try (by apply elem_of_nil in Hp);
      (eexists _, _; split; [reflexivity|split; [vm_compute; reflexivity|]]);
      vm_compute; by (left; reflexivity) || (right; split; reflexivity). }
  change ((a :: q) ++ y) with ([a] ++ (q ++ y)). rewrite skip_newlines_app.
  destruct Hs as [->|[-> ->]]; [left; by apply bad_start_decodes_nothing|exact IH].
Qed.

(** ** Keys *)
Lemma seed_Ok b64 k :
  seed b64 = Ok k →
  base64.DecodeString (strings.TrimSpace b64) = Ok k ∧ String.length k = SeedSize.
Proof.
  unfold seed. intros (d & Hd & H)%result_bind_Ok.
  destruct (String.length d =? SeedSize)%nat eqn:E; [|done]. cbn in H. injection H as <-.
  by apply Nat.eqb_eq in E.
Qed.

(** Whatever key the start-up code reads from a checked text, it is the key the
    check saw. *)
Lemma ignored_seed b64 k :
  seed b64 = Ok k → String.length (DecodeString_ignored b64) = SeedSize →
  DecodeString_ignored b64 = k.
Proof.
  intros (Hd & Hk)%seed_Ok Hl. unfold base64.DecodeString in Hd.
  destruct (base64.decode_chars _) as [d|] eqn:E; [|done]. injection Hd as <-.
  destruct (TrimSpace_split b64) as (ws & tail & Hws & Hs).
  assert (length d = 32%nat) as Hd32.
  { rewrite <- (String.list_ascii_of_string_of_list_ascii d), letters.chars_length. exact Hk. }
  unfold DecodeString_ignored in *. rewrite Hs in *.
  destruct (leading_spaces ws (chars (strings.TrimSpace b64) ++ tail) Hws) as [H0|H0];
    rewrite H0 in *; [done|].
  rewrite skip_newlines_app. f_equal. apply decoded_prefix_spec; [done|right]. by rewrite Hd32.
Qed.

(** ** The checks *)
Lemma check_Ok b : check b = Ok tt ↔ b = false.
Proof. unfold check. by destruct b. Qed.

Lemma result_unit_bind {A} (m : result unit) (f : unit → result A) a :
  (x ← m; f x) = Ok a ↔ m = Ok tt ∧ f tt = Ok a.
Proof. destruct m as [[]|]; cbn; naive_solver. Qed.

Section startup.
Context `{B32 : Bech32} `{NU : NetURL} `{RES : Resolver} `{UT : UUIDText} `{CJ : CanonicalJSON}
        `{ED : Ed25519} `{O : Oracle} `{R : Random} `{Q : SQL} `{RO : RowOrder} `{OP : OS}
        `{VP : Viper} `{ZL : Zerolog}.
#[local] Set Default Proof Using "Type*".

Record accepted (c : Config) (auditKey jwtKey : bytes) : Prop := {
  ac_db : DBPath c ≠ ""%string;
  ac_audit : seed (AuditPrivKeyB64 c) = Ok auditKey;
  ac_jwt : seed (JWTPrivKeyB64 c) = Ok jwtKey;
  ac_distinct : auditKey ≠ jwtKey;
  ac_policy : LaunchPolicy c = LaunchPolicyOpen ∨ LaunchPolicy c = LaunchPolicyRestricted;
  ac_gate : RehearsalGate c ∈ [""; "off"; "advisory"; "required"]%string;
  ac_bridge : RehearsalGate c = "required"%string →
    RehearsalOpsToken c ≠ ""%string ∨ RehearsalOpsTokenFile c ≠ ""%string;
  ac_tls : TLSCert c = ""%string ↔ TLSKey c = ""%string }.

Lemma validate_accepted c : validate c = Ok tt → ∃ a j, accepted c a j.
Proof using Type.
  unfold validate. rewrite !result_unit_bind, !check_Ok.
  intros (Hdb & _ & _ & (a & Ha & H)%result_bind_Ok).
  rewrite !result_unit_bind, !check_Ok in H.
  destruct H as (_ & Hp & Hg & _ & Hb & Ht & _ & (j & Hj & Hd)%result_bind_Ok).
  rewrite check_Ok, bool_decide_eq_false in Hd. exists a, j. split; [|done|done|done|..].
  - by apply is_empty_false.
  - apply andb_false_iff in Hp as [Hp|Hp]; apply negb_false_iff, bool_decide_eq_true in Hp; auto.
  - by apply negb_false_iff, bool_decide_eq_true in Hg.
  - intros Hr. rewrite bool_decide_eq_true_2 in Hb by done.
    apply andb_false_iff in Hb as [Hb|Hb]; apply is_empty_false in Hb; auto.
  - apply negb_false_iff, eqb_prop in Ht. by rewrite <- !is_empty_spec, Ht.
Qed.

Lemma validate_keys_inline c :
  validate c = Ok tt →
  is_empty (AuditPrivKeyB64 c) = false ∧ is_empty (JWTPrivKeyB64 c) = false.
Proof using Type.
  unfold validate. rewrite !result_unit_bind, !check_Ok.
  intros (_ & _ & Ha & (a & _ & H)%result_bind_Ok).
  rewrite !result_unit_bind, !check_Ok in H. tauto.
Qed.

Lemma loaded_valid cfgFile c : loadServeConfig cfgFile = Ok c → validate c = Ok tt.
Proof using Type.
  unfold loadServeConfig, Load. intros (fl & _ & H)%result_bind_Ok.
  destruct (viper_ReadInConfig _); [| |done];
    apply result_bind_Ok in H as (c0 & _ & H); apply result_bind_Ok in H as (c1 & _ & H);
    by apply result_unit_bind in H as [Hv [= <-]].
Qed.

(** What the override of the rate limit keeps. *)
Lemma accepted_override b c a j : accepted c a j → accepted (with_NoRateLimit b c) a j.
Proof using Type. intros []. by split. Qed.

(** ** A running server *)
Lemma start_Running c now files io health m r m' :
  start c now files io health m = (Running r, m') →
  ∃ data jwtKey auditKey auditLog d,
    backfill.Open now files (m_data m) = (Ok tt, data) ∧
    NewJWTSessionStore (JWTPrivKeyB64 c) = Ok jwtKey ∧
    NewKeyFromSeed (DecodeString_ignored (AuditPrivKeyB64 c)) = Some auditKey ∧
    auditlog.openAuditLog (Some auditKey)
      (negb (bool_decide (AuditStartupVerify c = AuditStartupVerifyTail))) (m_audit m) io
      = (Ok auditLog, d) ∧
    m' = mkMachine data d ∧
    r = mkRunning (apiServer c auditLog health) (buildLogger (LogLevel c)) jwtKey
          (challenge_store c) auditLog (configureLaunchService NewLaunchService c).1
          (monitorURLValidatorFor (InsecureNoSSRFCheck c)) (ListenAddr c)
          (if is_empty (TLSCert c) then None else Some (TLSCert c, TLSKey c)).
Proof using Type.
  unfold start. destruct (backfill.Open _ _ _) as [[[]|] data] eqn:Hdb; [|done].
  destruct (NewJWTSessionStore _) as [jwtKey|] eqn:Hj; [|done].
  destruct (NewKeyFromSeed _) as [auditKey|] eqn:Hk; [|done].
  destruct (auditlog.openAuditLog _ _ _ _) as [[auditLog|] d] eqn:Hl; [|done].
  destruct (openFileStores _); [|done]. intros [= <- <-].
  by exists data, jwtKey, auditKey, auditLog, d.
Qed.

Lemma jwt_key c a j k : accepted c a j → NewJWTSessionStore (JWTPrivKeyB64 c) = Ok k → k = j.
Proof using Type.
  intros Hc. unfold NewJWTSessionStore. intros (s & Hs & H)%result_bind_Ok.
  destruct (String.length s =? SeedSize)%nat eqn:E; [|done]. cbn in H. injection H as <-.
  apply decoded_ignored in Hs. rewrite <- Hs. apply ignored_seed; [apply (ac_jwt _ _ _ Hc)|].
  rewrite Hs. by apply Nat.eqb_eq.
Qed.

Lemma audit_key c a j k :
  accepted c a j → NewKeyFromSeed (DecodeString_ignored (AuditPrivKeyB64 c)) = Some k → k = a.
Proof using Type.
  intros Hc. unfold NewKeyFromSeed. destruct (_ =? _)%nat eqn:E; [|done]. intros [= <-].
  apply ignored_seed; [apply (ac_audit _ _ _ Hc)|by apply Nat.eqb_eq].
Qed.

Lemma openAuditLog_Ok k full d o w d' :
  auditlog.openAuditLog (Some k) full d o = (Ok w, d') →
  auditlog.w_privKey w = Some k ∧
  auditlog.w_prevHash w = default ""%string (auditlog.d_tip d) ∧
  (auditlog.w_prevHash w ≠ ""%string →
   auditlog.verifyLastLineHash d' (auditlog.w_prevHash w) = Ok tt) ∧
  (full = true → ∃ log, auditlog.d_file d' = Some log ∧
     auditlog.HasTamper (auditlog.Scan log (Some (ed25519_Public k))).1 = false).
Proof using Type.
  unfold auditlog.openAuditLog, auditlog.Open. intros [= Hw <-].
  apply result_bind_Ok in Hw as (w1 & H1 & H2).
  unfold auditlog.WithPrevHashStore in H1. apply result_bind_Ok in H1 as (tip & Htip & H1).
  apply result_unit_bind in H1 as [Hl [= <-]].
  unfold auditlog.LoadPrevHash in Htip. destruct (auditlog.io_tip_fails o); [done|].
  injection Htip as Htip. cbn [auditlog.d_tip] in Htip.
  unfold auditlog.VerifyOnStart in H2. apply result_bind_Ok in H2 as (last & _ & H2).
  cbn [auditlog.w_privKey auditlog.w_prevHash auditlog.w_prevHashStore auditlog.w_closed] in H2.
  assert (tip ≠ ""%string → auditlog.verifyLastLineHash
    (auditlog.mkDisk (Some (default [] (auditlog.d_file d))) (auditlog.d_tip d)) tip = Ok tt) as Ht.
  { intros Hne%is_empty_false. by rewrite Hne in Hl. }
  destruct full; cbn [negb auditlog.d_file] in H2.
  - destruct (auditlog.Scan _ _) as [res e] eqn:Hs.
    destruct e; [done|]. destruct (auditlog.HasTamper res) eqn:Ha; [done|]. injection H2 as <-.
    split_and!; [done..|]. intros _. exists (default [] (auditlog.d_file d)). split; [done|].
    change (auditlog.PubKey _) with (Some (ed25519_Public k)) in Hs. by rewrite Hs.
  - injection H2 as <-. by split_and!.
Qed.

Lemma override_checked (b : bool) c a j :
  accepted c a j → accepted (if b then with_NoRateLimit true c else c) a j.
Proof using Type. destruct b; [apply accepted_override|done]. Qed.

(** C37. A server that started runs on a checked configuration: it signs its
    audit log and its sessions with two different 32-byte seeds, the ones the
    checks decoded, although the start-up code decodes the texts differently;
    its listener uses TLS exactly when both files are named, with those files,
    and the handlers know; the audit log's last line is the one the database
    remembers, if it remembers one; and unless only the tail was to be checked
    the whole log was scanned and shows no tampering under the server's key. *)
Theorem started_server_sound cfgFile now files io health m r m' :
  runServe cfgFile now files io health m = (Running r, m') →
  ∃ c auditKey,
    loadServeConfig cfgFile = Ok c ∧
    String.length auditKey = 32%nat ∧ String.length (r_jwtKey r) = 32%nat ∧
    auditKey ≠ r_jwtKey r ∧
    auditlog.w_privKey (r_auditLog r) = Some auditKey ∧
    api.sv_auditPubKey (r_server r) = Some (ed25519_Public auditKey) ∧
    (if r_tls r is Some files
     then files = (TLSCert c, TLSKey c) ∧ TLSCert c ≠ ""%string ∧ TLSKey c ≠ ""%string
     else TLSCert c = ""%string ∧ TLSKey c = ""%string) ∧
    (api.sv_tlsEnabled (r_server r) = true ↔ r_tls r ≠ None) ∧
    auditlog.w_prevHash (r_auditLog r) = default ""%string (auditlog.d_tip (m_audit m)) ∧
    (auditlog.w_prevHash (r_auditLog r) ≠ ""%string →
     auditlog.verifyLastLineHash (m_audit m') (auditlog.w_prevHash (r_auditLog r)) = Ok tt) ∧
    (AuditStartupVerify c ≠ AuditStartupVerifyTail →
     ∃ log, auditlog.d_file (m_audit m') = Some log ∧
       auditlog.HasTamper (auditlog.Scan log (Some (ed25519_Public auditKey))).1 = false).
Proof.
  unfold runServe. destruct (loadServeConfig cfgFile) as [c|] eqn:Hc; [|done].
  destruct (validate_accepted c (loaded_valid _ _ Hc)) as (a & j & Ha).
  set (c1 := if bool_decide _ then _ else c).
  assert (accepted c1 a j) as Ha1 by apply override_checked, Ha.
  assert (AuditStartupVerify c1 = AuditStartupVerify c ∧ TLSCert c1 = TLSCert c) as [Ev Et]
    by (unfold c1; by destruct (bool_decide _)).
  intros (data & jk & ak & w & d & _ & Hj & Hk & Hw & -> & ->)%start_Running.
  pose proof Hk as Hlen. unfold NewKeyFromSeed in Hlen.
  rewrite (jwt_key _ _ _ _ Ha1 Hj). rewrite (audit_key _ _ _ _ Ha1 Hk) in *. clear Hlen.
  apply openAuditLog_Ok in Hw as (Hkey & Htip & Hl & Hs).
  exists c, a. cbn [r_jwtKey r_auditLog r_server]. split_and!; [done|..].
  - by apply (seed_Ok _ _ (ac_audit _ _ _ Ha)).
  - by apply (seed_Ok _ _ (ac_jwt _ _ _ Ha)).
  - apply (ac_distinct _ _ _ Ha).
  - done.
  - unfold apiServer, auditlog.PubKey. cbn. by rewrite Hkey.
  - cbn [r_tls]. pose proof (ac_tls _ _ _ Ha) as Htls.
    assert (TLSKey c1 = TLSKey c) as -> by (unfold c1; by destruct (bool_decide _)).
    rewrite Et. destruct (is_empty (TLSCert c)) eqn:Ec.
    + apply is_empty_spec in Ec. naive_solver.
    + apply is_empty_false in Ec. naive_solver.
  - cbn. by destruct (is_empty (TLSCert c1)).
  - done.
  - exact Hl.
  - intros Hv. apply Hs. by rewrite Ev, bool_decide_eq_false_2.
Qed.
Lemma TrimSpace_blank t : strings.TrimSpace (String.String " " t) = strings.TrimSpace t.
Proof using Type. reflexivity. Qed.

Definition with_audit_key (k : string) (c : Config) : Config :=
  with_secrets k (JWTPrivKeyB64 c) (RehearsalOpsToken c) c.

(** The checks trim the audit key and the start-up code does not: put a blank
    before the key of an accepted configuration and the configuration is still
    accepted, but the server panics, after it has migrated the database. *)
Theorem blank_before_key_panics c now files io health m data jwtKey :
  validate c = Ok tt →
  backfill.Open now files (m_data m) = (Ok tt, data) →
  NewJWTSessionStore (JWTPrivKeyB64 c) = Ok jwtKey →
  let c1 := with_audit_key (String.String " " (AuditPrivKeyB64 c)) c in
  validate c1 = Ok tt ∧
  start c1 now files io health m = (Panicked, mkMachine data (m_audit m)).
Proof.
  intros Hv Hdb Hj c1. split.
  - revert Hv. unfold validate. rewrite !result_unit_bind, !check_Ok.
    intros (H1 & H2 & H3 & H4). by split_and!.
  - unfold start. rewrite Hdb. subst c1. cbn [JWTPrivKeyB64 with_audit_key with_secrets].
    rewrite Hj. cbn [AuditPrivKeyB64 with_audit_key with_secrets].
    unfold DecodeString_ignored. cbn [String.list_ascii_of_string].
    change (base64.skip_newlines (" "%char :: ?l)) with (" "%char :: base64.skip_newlines l).
    by rewrite bad_start_decodes_nothing.
Qed.

(** A configuration that requires a passing rehearsal names a token file with
    nothing but white space in it.  Loading and checking accept it, and the
    server starts with the gate on and every bridge request refused, so that no
    rehearsal result can ever arrive. *)
Theorem required_gate_without_bridge c c1 file content now files io health m r m' :
  RehearsalGate c = "required"%string →
  RehearsalOpsToken c = ""%string →
  RehearsalOpsTokenFile c = file → file ≠ ""%string →
  os_ReadFile file = Ok content → strings.TrimSpace content = ""%string →
  loadKeyFiles c = Ok c1 →
  start c1 now files io health m = (Running r, m') →
  (validate c = Ok tt → validate c1 = Ok tt) ∧
  proposals.rehearsalGate (api.sv_proposals (r_server r)) = rehearsal.RehearsalGateRequired ∧
  ∀ next req p,
    http.requireOps (api.sv_rehearsalOpsToken (r_server r)) next req p =
    (http.HReply (http.writeError http.StatusUnauthorized "ops_credential_required"
                    "rehearsal bridge is not enabled"), p).
Proof.
  intros Hg Htok Hf Hne%is_empty_false Hread Hblank Hload Hstart.
  unfold loadKeyFiles in Hload. apply result_bind_Ok in Hload as (ak & Hak & Hload).
  apply result_bind_Ok in Hload as (jk & Hjk & Hload).
  unfold load_secret at 1 in Hload. rewrite Htok, Hf, Hne, Hread in Hload.
  cbn [is_empty negb andb mbind result_bind] in Hload. rewrite Hblank in Hload.
  injection Hload as <-. split_and!.
  - intros Hv. destruct (validate_keys_inline c Hv) as [Ha Hj].
    unfold load_secret in Hak, Hjk. rewrite Ha in Hak. rewrite Hj in Hjk. injection Hak as <-. injection Hjk as <-. rewrite <- Htok. by destruct c.
  - apply start_Running in Hstart as (? & ? & ? & ? & ? & _ & _ & _ & _ & _ & ->).
    cbn [r_server apiServer api.sv_proposals]. cbn. by rewrite Hg.
  - intros next req p. apply start_Running in Hstart as (? & ? & ? & ? & ? & _ & _ & _ & _ & _ & ->).
    reflexivity.
Qed.

End startup.

(** ** Samples *)
Module startup_samples.
Import fixtures samples BackfillProps.start_samples.
#[local] Existing Instances letters.codec letters.codec_correct | 0.

#[local] Instance tag_ed25519 : Ed25519 := {|
  ed25519_Public := λ k, k; ed25519_Sign := λ k m, k; ed25519_Verify := λ p m s, true |}.
#[local] Instance one_host : Resolver := {| LookupHost := λ _, Ok ["93.184.216.34"%string] |}.
#[local] Instance fixed_random : Random := {| random_read := λ _, Ok "random"%string |}.
#[local] Instance level_names : Zerolog := {| zerolog_ParseLevel := Ok |}.

(** One file, of white space. *)
#[local] Instance blank_file : OS := {|
  os_ReadFile := λ _, Ok "  "%string; os_Getenv := λ _, ""%string; os_MkdirAll := λ _, Ok tt |}.

Definition seed_of (a : ascii) : string := base64.EncodeToString (of_chars (replicate 32 a)).

Definition office_config (gate tokenFile : string) : Config :=
  mkConfig ":8080" "coord.db" "audit.jsonl" (seed_of "a") "files" "info" "" [] "open" "full"
    false 1000 "" "" "" false false false (seed_of "b") "" "" tokenFile 0 gate.

#[local] Instance office_viper : Viper := {|
  viper_ReadInConfig := λ _, ReadNotFound;
  viper_Unmarshal := λ _, Ok (office_config "off" "");
  viper_GetString := λ _ _, " cosmos1alice, ,cosmos1bob"%string |}.

Definition new_machine : machine :=
  mkMachine (mkDatafile [] (mkAuth ∅ [] ∅ []) sqlite.empty_db) (auditlog.mkDisk None None).
Definition healthy : nat → result unit := newHealthCheck (λ _, true) (λ _, true).

Definition booted : boot * machine :=
  runServe "" t0 file_names auditlog.io_ok healthy new_machine.

Definition is_running (b : boot) : bool := if b is Running _ then true else false.
Lemma is_running_true b : is_running b = true → ∃ r, b = Running r.
Proof. destruct b as [| |r]; [done|done|by exists r]. Qed.

Lemma started_server_sound_witness :
  ∃ r, booted.1 = Running r ∧
    ∃ k, auditlog.w_privKey (r_auditLog r) = Some k ∧ k ≠ r_jwtKey r.
Proof.
  assert (is_running booted.1 = true) as [r Hr]%is_running_true by (vm_compute; reflexivity).
  destruct (started_server_sound "" t0 file_names auditlog.io_ok healthy new_machine r booted.2)
    as (c & k & _ & _ & _ & Hne & Hk & _).
  - rewrite <- Hr. apply surjective_pairing.
  - exists r. split; [exact Hr|]. by exists k.
Defined.

Lemma blank_before_key_panics_witness :
  ∃ c1 m', validate c1 = Ok tt ∧
    start c1 t0 file_names auditlog.io_ok healthy new_machine = (Panicked, m').
Proof.
  eexists _, _.
  apply (blank_before_key_panics (office_config "off" "") t0 file_names auditlog.io_ok healthy
           new_machine (m_data booted.2) (of_chars (replicate 32 "b"%char)));
    vm_compute; reflexivity.
Defined.

Definition gated : Config := office_config "required" "/run/secrets/ops".
Definition gated_boot : boot * machine :=
  start gated t0 file_names auditlog.io_ok healthy new_machine.

Lemma required_gate_without_bridge_witness :
  ∃ r, gated_boot.1 = Running r ∧ validate gated = Ok tt ∧
    proposals.rehearsalGate (api.sv_proposals (r_server r)) = rehearsal.RehearsalGateRequired.
Proof.
  assert (is_running gated_boot.1 = true) as [r Hr]%is_running_true by (vm_compute; reflexivity).
  destruct (required_gate_without_bridge gated gated "/run/secrets/ops" "  " t0 file_names
              auditlog.io_ok healthy new_machine r gated_boot.2) as (Hv & Hg & _);
    [reflexivity|reflexivity|reflexivity|discriminate|reflexivity|vm_compute; reflexivity
    |vm_compute; reflexivity|..].
  - rewrite <- Hr. apply surjective_pairing.
  - exists r. split; [exact Hr|]. split; [apply Hv; vm_compute; reflexivity|exact Hg].
Defined.

(** The administrators are split and trimmed; a key with a blank behind it is
    read as it is without. *)
Example administrators :
  (AdminAddresses <$> loadServeConfig "") = Ok ["cosmos1alice"; "cosmos1bob"]%string.
Proof. vm_compute. reflexivity. Qed.
Example blank_behind_key :
  DecodeString_ignored (seed_of "a" +:+ " ") = of_chars (replicate 32 "a"%char).
Proof. vm_compute. reflexivity. Qed.
Example loopback_listeners :
  isLoopback <$> ["127.0.0.1:8080"; "[::1]:8080"; ":8080"; "localhost:8080"]%string
  = [true; true; false; false].
Proof. vm_compute. reflexivity. Qed.

End startup_samples.
