(* ===== verification/HttpProps.v ===== *)
(** * Reasoning about handlers

    One judgement for the three things the theorems on the HTTP layer are about:
    what a handler leaves alone, which responses it sends, and whether it may
    end the process. *)

From S2P Require Import Prelude GoStd GoTime Values Json Payload Store World WorldProps.
From S2P Require Import ProposalService ProposalServiceProps AuthService AuthProps Wire Http.
#[global] Open Scope Z_scope.

Import sqlite wire http.

(** A step of a handler keeps [g] of the process, replies early only as [P]
    allows, and ends the process only if [E]. *)
Definition step_ok {X A} (g : proc → X) (P : response → Prop) (E : Prop) (m : H A) : Prop :=
  ∀ p, g (m p).2 = g p ∧ match (m p).1 with HReply r => P r | HExit => E | _ => True end.
(** A whole handler: its final response counts too. *)
Definition run_ok {X} (g : proc → X) (P : response → Prop) (E : Prop) (m : H response) : Prop :=
  ∀ p, g (m p).2 = g p ∧
    match (m p).1 with HRet r | HReply r => P r | HExit => E | HPanic => True end.

(** A service call ends the process only if [E]. *)
Definition exits {A} (E : Prop) (m : M A) : Prop := ∀ w, (m w).1 = Exit → E.

Section rules.
Context {X : Type} (g : proc → X) (P : response → Prop) (E : Prop).

Lemma run_bind {A} (m : H A) (f : A → H response) :
  step_ok g P E m → (∀ a, run_ok g P E (f a)) → run_ok g P E (m ≫= f).
Proof.
  intros Hm Hf p. specialize (Hm p). unfold mbind, H_bind.
  destruct (m p) as [[a|r| |] p1]; cbn in *; try done.
  destruct Hm as [<- _]. apply Hf.
Qed.
Lemma step_bind {A B} (m : H A) (f : A → H B) :
  step_ok g P E m → (∀ a, step_ok g P E (f a)) → step_ok g P E (m ≫= f).
Proof.
  intros Hm Hf p. specialize (Hm p). unfold mbind, H_bind.
  destruct (m p) as [[a|r| |] p1]; cbn in *; try done.
  destruct Hm as [<- _]. apply Hf.
Qed.
Lemma run_ret resp : P resp → run_ok g P E (mret resp).
Proof. by intros H p. Qed.
Lemma step_ret {A} (a : A) : step_ok g P E (mret a).
Proof. by intros p. Qed.
Lemma run_reply resp : P resp → run_ok g P E (reply resp).
Proof. by intros H p. Qed.
Lemma step_reply {A} resp : P resp → step_ok g P E (reply resp : H A).
Proof. by intros H p. Qed.
Lemma step_require c resp : P resp → step_ok g P E (require c resp).
Proof. intros H. destruct c; [apply step_ret|by apply step_reply]. Qed.
Lemma step_get : step_ok g P E get_proc.
Proof. by intros p. Qed.

Lemma step_attempt {A} (m : AM A) :
  (∀ d w l, g (mkProc (m (d, w)).2.1 (m (d, w)).2.2 l) = g (mkProc d w l)) →
  (∀ s, (m s).1 = Exit → E) →
  step_ok g P E (attempt m).
Proof.
  intros Hg HE [d w l]. specialize (Hg d w l). specialize (HE (d, w)). unfold attempt. cbn.
  destruct (m (d, w)) as [[] [d1 w1]]; cbn in *; auto.
Qed.
Lemma step_acall {A} r (m : AM A) :
  (∀ d w l, g (mkProc (m (d, w)).2.1 (m (d, w)).2.2 l) = g (mkProc d w l)) →
  (∀ s, (m s).1 = Exit → E) → (∀ e, P (writeServiceError r e)) →
  step_ok g P E (acall r m).
Proof.
  intros Hg HE HP. apply step_bind; [by apply step_attempt|].
  intros [a|e]; [apply step_ret|by apply step_reply].
Qed.
Lemma step_lift {A} (m : M A) :
  (∀ d w l, g (mkProc d (m w).2 l) = g (mkProc d w l)) → exits E m →
  step_ok g P E (attempt (lift m)).
Proof.
  intros Hg HE. apply step_attempt; [intros d w l; specialize (Hg d w l)
    |intros [d w]; specialize (HE w)]; unfold lift; by destruct (m w).
Qed.
Lemma step_call {A} r (m : M A) :
  (∀ d w l, g (mkProc d (m w).2 l) = g (mkProc d w l)) → exits E m →
  (∀ e, P (writeServiceError r e)) → step_ok g P E (call r m).
Proof.
  intros Hg HE HP. apply step_bind; [by apply step_lift|].
  intros [a|e]; [apply step_ret|by apply step_reply].
Qed.
Lemma step_set_level lvl :
  (∀ d w l, g (mkProc d w lvl) = g (mkProc d w l)) → step_ok g P E (set_level lvl).
Proof. intros H [d w l]. split; [apply H|done]. Qed.
Lemma step_decode_or {A} (dec : json.value → option A) r resp :
  P resp → step_ok g P E (decode_or dec r resp).
Proof.
  intros H. unfold decode_or. destruct (json.Decode dec _ _); [apply step_ret|by apply step_reply].
Qed.
End rules.

(** ** Services that end the process only if [E] *)

Section exits.
Context (E : Prop).
Lemma exits_bind {A B} (m : M A) (f : A → M B) :
  exits E m → (∀ a, exits E (f a)) → exits E (m ≫= f).
Proof.
  intros Hm Hf w. specialize (Hm w). unfold mbind, M_bind.
  destruct (m w) as [[] w1]; cbn; [apply Hf|done|done|auto].
Qed.
Lemma exits_ret {A} (a : A) : exits E (mret a : M A).
Proof. by intros w. Qed.
Lemma exits_throw {A} e : exits E (throw e : M A).
Proof. by intros w. Qed.
Lemma exits_of_result {A} (r : result A) : exits E (of_result r).
Proof. intros w. by destruct r. Qed.
Lemma exits_of_option {A} (r : option A) : exits E (of_option r).
Proof. intros w. by destruct r. Qed.
Lemma exits_guard c e : exits E (guard_err c e).
Proof. intros w. unfold guard_err. by destruct c. Qed.
Lemma exits_on_err {A} f (m : M A) : exits E m → exits E (on_err f m).
Proof. intros H w. specialize (H w). unfold on_err. by destruct (m w) as [[] w1]. Qed.
Lemma exits_on_failure {A} h (m : M A) : exits E m → exits E (proposals.on_failure h m).
Proof.
  intros H w. specialize (H w). unfold proposals.on_failure.
  destruct (m w) as [[|e| |] w1]; cbn in *; try done. by destruct (h e w1).
Qed.
Lemma exits_run_st {A} (m : St A) : exits E (run_st m).
Proof. intros w. unfold run_st. by destruct (m (w_db w)) as [[] ?]. Qed.

Context `{O : Oracle} `{UT : UUIDText}.
Lemma exits_Now : exits E Now.
Proof. by intros w. Qed.
Lemma exits_NewUUID : exits E NewUUID.
Proof. by intros w. Qed.
Lemma exits_Publish ev : exits E (Publish ev).
Proof. by intros w. Qed.
Lemma exits_Append e : exits E (Append e).
Proof. intros w. unfold Append. by destruct (oracle_audit_fails _). Qed.
Lemma exits_InTransaction {A} (fn : M A) : exits E fn → exits E (InTransaction fn).
Proof.
  intros H w. specialize (H w). unfold InTransaction.
  destruct (fn w) as [[] w1]; try done. by destruct (oracle_commit_fails _).
Qed.
Lemma exits_writeAuditEvent scope ev : exits E (writeAuditEvent scope ev).
Proof.
  unfold writeAuditEvent. apply exits_bind; [|intros; apply exits_Append].
  destruct (time.IsZero _); [apply exits_Now|apply exits_ret].
Qed.
Lemma exits_recordAudit scope ev : exits E (recordAudit scope ev).
Proof.
  intros w. pose proof (exits_writeAuditEvent scope ev w) as H. unfold recordAudit.
  by destruct (writeAuditEvent scope ev w) as [[] w1].
Qed.
Lemma exits_emit scope ev : exits E (emit scope ev).
Proof. apply exits_bind; [apply exits_recordAudit|intros; apply exits_Publish]. Qed.
Lemma exits_ConsumeNonce a n : exits E (ConsumeNonce a n).
Proof.
  apply exits_bind; [apply exits_Now|intros].
  apply exits_bind; [apply exits_Now|intros; apply exits_run_st].
Qed.
Lemma exits_timestamp ts : exits E (validateTimestamp ts).
Proof.
  unfold validateTimestamp. destruct (is_empty ts); [apply exits_throw|].
  destruct (rfc3339.Parse ts); [|apply exits_throw].
  apply exits_bind; [apply exits_Now|intros; apply exits_guard].
Qed.

(** The one place that ends the process: an audit append that fails. *)
Lemma exits_or_exit scope ev :
  ((∃ n, oracle_audit_fails n = true) → E) →
  exits E (proposals.or_exit (writeAuditEvent scope ev)).
Proof.
  intros HE w. unfold proposals.or_exit, writeAuditEvent, Append, mbind, M_bind, mret, M_ret.
  destruct (time.IsZero _); cbn; destruct (oracle_audit_fails _) eqn:Ha; cbn;
    first [done|intros _; apply HE; eauto].
Qed.
End exits.

#[export] Hint Resolve exits_ret exits_throw exits_of_result exits_of_option exits_guard
  exits_run_st exits_Now exits_NewUUID exits_Publish exits_Append exits_writeAuditEvent
  exits_recordAudit exits_emit exits_ConsumeNonce exits_timestamp exits_or_exit : coord.

Ltac exits_tac :=
  repeat first
    [ progress cbv beta | solve [auto with coord]
    | match goal with
      | |- exits _ (if ?x then _ else _) => destruct x
      | |- exits _ (let (_, _) := ?x in _) => destruct x
      | |- exits _ (match ?x with _ => _ end) => destruct x
      end
    | apply exits_bind; [|intros ?] | apply exits_on_err | apply exits_InTransaction
    | apply exits_on_failure ].
