(* ===== verification/ServiceEffects.v ===== *)
(** * What the services do to the process

    Which service calls may end the process (only raising and signing a
    proposal, once the decision is committed and an audit append fails), and
    which leave everything a client can observe alone (the reads). *)

From S2P Require Import Prelude GoStd GoTime Values LaunchAgg Events Payload Proposal Store World.
From S2P Require Import WorldProps.
From S2P Require Import JoinRequest Rehearsal FileStore GenesisCheck InputSet ProposalService.
From S2P Require Import ProposalServiceProps LaunchService JoinRequestService ReadinessService.
From S2P Require Import AuditLog RehearsalService AuthService AuthProps Http HttpProps.
Import sqlite.
#[global] Open Scope Z_scope.

(** ** Ending the process *)
Section exits.
Context `{B32 : Bech32} `{NU : NetURL} `{UT : UUIDText} `{CJ : CanonicalJSON}
        `{SVr : SignatureVerifier} `{GV : joinrequests.GentxValidator} `{Ed : Ed25519}
        `{UV : launches.URLValidator} `{O : Oracle}.
Context (E : Prop).

Lemma exits_write n m f : exits E (fs.write n m f).
Proof. intros w. unfold fs.write. by destruct (oracle_file_fails _). Qed.
Lemma exits_getRef n m f : exits E (fs.getRef n m f).
Proof. intros w. unfold fs.getRef. by repeat case_match. Qed.
Lemma exits_GetInitialRef id : exits E (fs.GetInitialRef id).
Proof. apply exits_getRef. Qed.
Lemma exits_GetFinalRef id : exits E (fs.GetFinalRef id).
Proof. apply exits_getRef. Qed.
Lemma exits_AllocGetRef id t : exits E (fs.AllocGetRef id t).
Proof. apply exits_getRef. Qed.
Lemma exits_Assemble l : exits E (inputset.Assemble l).
Proof. unfold inputset.Assemble. exits_tac. Qed.
Lemma exits_Current l : exits E (inputset.Current l).
Proof. unfold inputset.Current. pose proof exits_Assemble. exits_tac. Qed.
#[local] Hint Resolve exits_write exits_getRef exits_Assemble exits_Current : coord.

(** The calls of [LaunchService]. *)
Import launches.
Lemma exits_requireCommittee id c : exits E (requireCommittee id c).
Proof. unfold requireCommittee. exits_tac. Qed.
Lemma exits_requireLead id c : exits E (requireLead id c).
Proof. unfold requireLead. exits_tac. Qed.
Lemma exits_requireStatus st l : exits E (requireStatus st l).
Proof. unfold requireStatus. exits_tac. Qed.
Lemma exits_badRequest {A} (r : result A) : exits E (badRequest r).
Proof. apply exits_of_result. Qed.
Lemma exits_conflict {A} (r : result A) : exits E (conflict r).
Proof. apply exits_of_result. Qed.
Lemma exits_saveAndEmit l ev : exits E (saveAndEmit l ev).
Proof. unfold saveAndEmit. exits_tac. Qed.
#[local] Hint Resolve exits_requireCommittee exits_requireLead exits_requireStatus
  exits_badRequest exits_conflict exits_saveAndEmit : coord.
Lemma exits_bindFinal l h t : exits E (bindFinal l h t).
Proof. unfold bindFinal. exits_tac. Qed.
#[local] Hint Resolve exits_bindFinal : coord.

Lemma exits_CreateLaunch i : exits E (CreateLaunch i).
Proof. unfold CreateLaunch. exits_tac. Qed.
Lemma exits_UploadInitialGenesis id d c : exits E (UploadInitialGenesis id d c).
Proof. unfold UploadInitialGenesis, fs.SaveInitial, fs.writeBytes. exits_tac. Qed.
Lemma exits_UploadFinalGenesis id d c : exits E (UploadFinalGenesis id d c).
Proof. unfold UploadFinalGenesis, fs.SaveFinal, fs.writeBytes. exits_tac. Qed.
Lemma exits_UploadInitialGenesisRef id u h c : exits E (UploadInitialGenesisRef id u h c).
Proof.
  unfold UploadInitialGenesisRef, uploadGenesisRef, fs.SaveInitialRef, fs.writeRef. exits_tac.
Qed.
Lemma exits_UploadFinalGenesisRef id u h t c : exits E (UploadFinalGenesisRef id u h t c).
Proof.
  unfold UploadFinalGenesisRef, uploadGenesisRef, fs.SaveFinalRef, fs.writeRef. exits_tac.
Qed.
Lemma exits_UploadAllocationFileBytes id t d c : exits E (UploadAllocationFileBytes id t d c).
Proof. unfold UploadAllocationFileBytes, alloc_store, fs.AllocSave, fs.writeBytes. exits_tac. Qed.
Lemma exits_UploadAllocationFileRef id t u h c : exits E (UploadAllocationFileRef id t u h c).
Proof. unfold UploadAllocationFileRef, fs.AllocSaveRef, fs.writeRef. exits_tac. Qed.
Lemma exits_PatchLaunch id i c : exits E (PatchLaunch id i c).
Proof. unfold PatchLaunch, patch_monitor, patch_endpoint, patch_pubkey, patch_draft. exits_tac. Qed.
Lemma exits_AddMember id a l c : exits E (AddMember id a l c).
Proof. unfold AddMember. exits_tac. Qed.
Lemma exits_RemoveMember id a c : exits E (RemoveMember id a c).
Proof. unfold RemoveMember. exits_tac. Qed.
Lemma exits_ListMembers id c : exits E (ListMembers id c).
Proof. unfold ListMembers. exits_tac. Qed.
Lemma exits_SetCommittee id cm c : exits E (SetCommittee id cm c).
Proof. unfold SetCommittee. exits_tac. Qed.
Lemma exits_IsCommitteeMember id c : exits E (IsCommitteeMember id c).
Proof. unfold IsCommitteeMember. exits_tac. Qed.
Lemma exits_GetLaunch id c : exits E (GetLaunch id c).
Proof. unfold GetLaunch. exits_tac. Qed.
#[local] Hint Resolve exits_GetLaunch : coord.
Lemma exits_GetCommittee id c : exits E (GetCommittee id c).
Proof. unfold GetCommittee. exits_tac. Qed.
Lemma exits_GetChainHint id c : exits E (GetChainHint id c).
Proof. unfold GetChainHint. exits_tac. Qed.
Lemma exits_ListLaunches c p n : exits E (ListLaunches c p n).
Proof. unfold ListLaunches. exits_tac. Qed.
Lemma exits_OpenWindow id c : exits E (OpenWindow id c).
Proof. unfold OpenWindow. exits_tac. Qed.
Lemma exits_GetDashboard id c : exits E (GetDashboard id c).
Proof. unfold GetDashboard. exits_tac. Qed.
Lemma exits_CancelLaunch id c : exits E (CancelLaunch id c).
Proof. unfold CancelLaunch. exits_tac. Qed.

(** The other services. *)
Lemma exits_Submit id i : exits E (joinrequests.Submit id i).
Proof.
  assert (∀ v, exits E (joinrequests.activeRequest id v)).
  { intros v w. unfold joinrequests.activeRequest, run_st.
    destruct (findActiveByValidator _ _ _) as [[]?]; cbn; [done|]. by destruct (errors_Is _ _). }
  unfold joinrequests.Submit, joinrequests.admit_submission, joinrequests.verifyRequestAuth,
    joinrequests.store_submission, joinrequests.supersedePending, decodeBase64Sig. exits_tac.
Qed.
Lemma exits_joinGetByID id c m : exits E (joinrequests.GetByID id c m).
Proof. unfold joinrequests.GetByID. exits_tac. Qed.
Lemma exits_joinList id st p n : exits E (joinrequests.ListForLaunch id st p n).
Proof. unfold joinrequests.ListForLaunch. exits_tac. Qed.
Lemma exits_joinGrouped id c : exits E (joinrequests.ListGroupedBySubmitter id c).
Proof. unfold joinrequests.ListGroupedBySubmitter. exits_tac. Qed.

Lemma exits_Confirm id i : exits E (readiness.Confirm id i).
Proof.
  assert (∀ op, exits E (readiness.existing_confirmation id op)).
  { intros op w. unfold readiness.existing_confirmation, run_st.
    destruct (findReadinessByOperator _ _ _) as [[]?]; cbn; [done|].
    by destruct (errors_Is _ _). }
  unfold readiness.Confirm, readiness.authenticate, readiness.check_confirmation,
    readiness.store_confirmation, decodeBase64Sig. exits_tac.
Qed.
Lemma exits_GetPeers id : exits E (readiness.GetPeers id).
Proof. unfold readiness.GetPeers. exits_tac. Qed.
Lemma exits_readinessDashboard id : exits E (readiness.GetDashboard id).
Proof. unfold readiness.GetDashboard. exits_tac. Qed.

Lemma exits_Preview id : exits E (bridge.PreviewRehearsalInput id).
Proof. unfold bridge.PreviewRehearsalInput. exits_tac. Qed.
Lemma exits_Claim ttl id r : exits E (bridge.ClaimRehearsalRun ttl id r).
Proof. unfold bridge.ClaimRehearsalRun, bridge.claim_load, bridge.claim_store. exits_tac. Qed.
Lemma exits_Record id f : exits E (bridge.RecordRehearsalResult id f).
Proof.
  assert (∀ sg, exits E (bridge.already_recorded id sg)).
  { intros sg w.
    assert (H : exits E (bridge.findResultBySignature id sg))
      by (unfold bridge.findResultBySignature; exits_tac).
    specialize (H w). unfold bridge.already_recorded.
    by destruct (bridge.findResultBySignature id sg w) as [[] w1]. }
  unfold bridge.RecordRehearsalResult, bridge.store_result, bridge.resolveAttempt. exits_tac.
Qed.
Lemma exits_ListResults id c : exits E (bridge.ListRehearsalResults id c).
Proof. unfold bridge.ListRehearsalResults. exits_tac. Qed.
Lemma exits_ResetAttempt id a c : exits E (bridge.ResetRehearsalAttempt id a c).
Proof. unfold bridge.ResetRehearsalAttempt. exits_tac. Qed.

Lemma exits_proposalList id p n : exits E (proposals.ListForLaunch id p n).
Proof. unfold proposals.ListForLaunch. exits_tac. Qed.
Lemma exits_proposalGet id p : exits E (proposals.GetByID id p).
Proof. unfold proposals.GetByID. exits_tac. Qed.

(** Executing a proposal is the exception: only the record of what it did may
    be missing. *)
Section execution.
Import proposals.
Context (cfg : Config).
Lemma exits_expire_all ps : exits E (expire_all ps).
Proof. induction ps; cbn; exits_tac. Qed.
Lemma exits_gate l : exits E (gateRehearsal cfg l).
Proof. unfold gateRehearsal, latestRehearsal. exits_tac. Qed.
Lemma exits_fresh l : exits E (checkGenesisFresh l).
Proof. unfold checkGenesisFresh. exits_tac. Qed.
#[local] Hint Resolve exits_expire_all exits_gate exits_fresh : coord.
Lemma exits_saveBoth l p : exits E (saveLaunchAndProposal l p).
Proof. unfold saveLaunchAndProposal. exits_tac. Qed.
#[local] Hint Resolve exits_saveBoth : coord.
Lemma exits_applyProposal l p : exits E (applyProposal cfg l p).
Proof.
  unfold applyProposal, applyApproveValidator, applyRejectValidator, applyRemoveValidator,
    applyPublishChainRecord, applyCloseWindow, applyPublishGenesis, applyUpdateGenesisTime,
    applyApproveAllocationFile, applyReplaceCommitteeMember, applyReviseGenesis,
    applyCancelLaunch, applyExpandCommittee, applyShrinkCommittee. exits_tac.
Qed.
#[local] Hint Resolve exits_applyProposal : coord.
Lemma exits_authenticate lid doc a n t s pk : exits E (authenticate lid doc a n t s pk).
Proof. unfold authenticate, decodeBase64Sig, verifyMemberSig. exits_tac. Qed.
Lemma exits_guardFinal l a : exits E (guardFinalizationRaise cfg l a).
Proof. unfold guardFinalizationRaise, hasPending. exits_tac. Qed.
Lemma exits_noConflict lid a pl : exits E (rejectConflictingPending lid a pl).
Proof. unfold rejectConflictingPending. exits_tac. Qed.
#[local] Hint Resolve exits_authenticate exits_guardFinal exits_noConflict : coord.
Lemma exits_sign_load lid pid i : exits E (sign_load lid pid i).
Proof. unfold sign_load. exits_tac. Qed.
#[local] Hint Resolve exits_sign_load : coord.

Context (HE : (∃ n, oracle_audit_fails n = true) → E).
Lemma exits_dispatchEvents p : exits E (dispatchEvents p).
Proof using Type*.
  unfold dispatchEvents. destruct (proposal.PopEvents p) as [evs q].
  apply exits_bind; [|intros; apply exits_ret].
  induction evs as [|ev evs IH]; cbn; [apply exits_ret|].
  apply exits_bind; [apply exits_Publish|intros _].
  apply exits_bind; [by apply exits_or_exit|intros _; exact IH].
Qed.
#[local] Hint Resolve exits_dispatchEvents : coord.
Lemma exits_applyAndSave l p : exits E (applyAndSave cfg l p).
Proof using Type*. unfold applyAndSave. exits_tac. Qed.
#[local] Hint Resolve exits_applyAndSave : coord.
Lemma exits_Raise id i : exits E (Raise cfg id i).
Proof using Type*. unfold Raise. exits_tac. Qed.
Lemma exits_Sign id pid i : exits E (Sign cfg id pid i).
Proof using Type*. unfold Sign, sign_store, applyAllocationVeto. exits_tac. Qed.
End execution.
End exits.

#[export] Hint Resolve exits_getRef exits_GetInitialRef exits_GetFinalRef exits_AllocGetRef
  exits_Assemble exits_Current exits_CreateLaunch
  exits_UploadInitialGenesis exits_UploadFinalGenesis exits_UploadInitialGenesisRef
  exits_UploadFinalGenesisRef exits_UploadAllocationFileBytes exits_UploadAllocationFileRef
  exits_PatchLaunch exits_AddMember exits_RemoveMember exits_ListMembers exits_SetCommittee
  exits_IsCommitteeMember exits_GetLaunch exits_GetCommittee exits_GetChainHint
  exits_ListLaunches exits_OpenWindow exits_GetDashboard exits_CancelLaunch exits_Submit
  exits_joinGetByID exits_joinList exits_joinGrouped exits_Confirm exits_GetPeers
  exits_readinessDashboard exits_Preview exits_Claim exits_Record exits_ListResults
  exits_ResetAttempt exits_proposalList exits_proposalGet exits_Raise exits_Sign : coord.

(** ** How a request ends the process *)
Section ending.
Import proposals.
Context `{B32 : Bech32} `{NU : NetURL} `{UT : UUIDText} `{CJ : CanonicalJSON}
        `{SVr : SignatureVerifier} `{O : Oracle}.
Context (cfg : Config).

(** The stored tables, nonces aside. *)
Definition tables (w : world) : db := with_nonces [] (w_db w).

(** The transaction of a decided proposal that succeeded: its action, or the
    rejection of an allocation file.  [p1] carries the completion events. *)
Definition committed (l : launch.Launch) (p p1 : proposal.Proposal) (w1 w2 : world) : Prop :=
  (proposal.p_Status p = proposal.StatusExecuted ∧ applyProposal cfg l p w1 = (Ret p1, w2)) ∨
  (proposal.p_Status p = proposal.StatusVetoed ∧
   proposal.p_ActionType p = payload.ActionApproveAllocationFile ∧
   ∃ l' ev, saveLaunchAndProposal l' p w1 = (Ret p, w2) ∧ p1 = proposal.RecordEvent p ev).

(** A decision was committed on the tables [d] and its effects stay; of its
    completion events the first ones were audited and broadcast, the next one was
    broadcast and could not be audited. *)
Definition died_after_commit (d : db) (w' : world) : Prop :=
  ∃ l p p1 w1 w2 dn ev rest,
    tables w1 = d ∧ committed l p p1 w1 w2 ∧ w_db w' = w_db w2 ∧
    proposal.p_events p1 = dn ++ ev :: rest ∧
    audited w' = audited w2 ++ dn ∧ w_published w' = w_published w2 ++ dn ++ [ev].

Definition ends_with {A} (R : db → world → Prop) (m : M A) : Prop :=
  ∀ w w', m w = (Exit, w') → R (tables w) w'.

Lemma ends_bind {A B} R (m : M A) (f : A → M B) :
  exits False m → keeps tables m → (∀ a, ends_with R (f a)) → ends_with R (m ≫= f).
Proof.
  intros He Hk Hf w w' H. specialize (He w). specialize (Hk w). unfold mbind, M_bind in H.
  destruct (m w) as [[a|e| |] w1]; cbn in *; try discriminate.
  - rewrite <- Hk. by eapply Hf.
  - by destruct He.
Qed.
Lemma ends_never {A} R (m : M A) : exits False m → ends_with R m.
Proof. intros H w w' E. destruct (H w). by rewrite E. Qed.

Lemma dispatch_ends p w w' : dispatchEvents p w = (Exit, w') →
  w_db w' = w_db w ∧ ∃ dn ev rest, proposal.p_events p = dn ++ ev :: rest ∧
    audited w' = audited w ++ dn ∧ w_published w' = w_published w ++ dn ++ [ev].
Proof.
  unfold dispatchEvents, proposal.PopEvents, mbind, M_bind.
  destruct (dispatch_all _ _ w) as [x w1] eqn:E. apply dispatch_all_spec in E as (Hd & H).
  intros Hx. assert (x = Exit ∧ w' = w1) as [-> ->] by (destruct x; by simplify_eq).
  split; [done|]. destruct H as [(? & _)|(_ & dn & ev & rest & H)]; [done|]. by exists dn, ev, rest.
Qed.

(** A transaction, kept as [t] runs it, followed by the dispatch. *)
Lemma transaction_ends {A} (t m : M A) (g : A → proposal.Proposal) l p w w1 :
  exits False t → (∀ a w2, t w = (Ret a, w2) → InTransaction m w = (Ret a, w2)) →
  (∀ a w2, m w = (Ret a, w2) → committed l p (g a) w w2) →
  (t ≫= λ a, dispatchEvents (g a)) w = (Exit, w1) →
  died_after_commit (tables w) w1.
Proof.
  intros He Ht Hc H. specialize (He w). unfold mbind, M_bind in H.
  destruct (t w) as [[a|e| |] w2]; try discriminate; [|by destruct He].
  destruct (InTransaction_Ret m w a w2 (Ht a w2 eq_refl)) as (w3 & E & ->).
  apply dispatch_ends in H as (Hd & dn & ev & rest & Hev & Ha & Hp).
  exists l, p, (g a), w, w3, dn, ev, rest. split_and!; auto.
Qed.

Lemma applyAndSave_ends l p : proposal.p_Status p = proposal.StatusExecuted →
  ends_with died_after_commit (applyAndSave cfg l p).
Proof.
  intros Hs. unfold applyAndSave. apply ends_bind; [exits_tac| |].
  { intros w. unfold tables. by rewrite db_writeAuditEvent. }
  intros _ w w' H. eapply (transaction_ends _ (applyProposal cfg l p) id l p); [| | |exact H].
  - pose proof (exits_applyProposal False cfg l p). exits_tac.
  - intros a w2 E. unfold on_failure in E. destruct (InTransaction _ w) as [[]]; try done.
    by destruct (emit _ _ _).
  - intros a w2 E. by left.
Qed.

Lemma veto_ends l p : proposal.p_Status p = proposal.StatusVetoed →
  proposal.p_ActionType p = payload.ActionApproveAllocationFile →
  ends_with died_after_commit (applyAllocationVeto l p).
Proof.
  intros Hs Ha. unfold applyAllocationVeto. apply ends_bind; [exits_tac|by intros w|intros pl].
  apply ends_bind; [exits_tac|by intros w|intros now].
  destruct (launch.RejectAllocationFile _ _ _ _) as [l' []]; cbn [negb]; [|apply ends_never; exits_tac].
  intros w w' H.
  eapply (transaction_ends _ (saveLaunchAndProposal l' p) _ l p); [| | |exact H].
  - pose proof (exits_saveBoth False l' p). exits_tac.
  - done.
  - intros a w2 E. right. pose proof (saveBoth_Ret _ _ _ _ _ E) as [-> _].
    split_and!; [done..|]. by exists l', (domain.event (domain.Lch (domain.AllocationFileRejected
      (launch.l_ID l') (payload.aa_Type pl) (payload.aa_Hash pl)))).
Qed.

Lemma tables_visible {A} (m : M A) : keeps visible m → keeps tables m.
Proof. intros H w. specialize (H w). unfold visible, tables in *. congruence. Qed.

Lemma tables_db {A} (m : M A) : keeps w_db m → keeps tables m.
Proof. intros H w. unfold tables. by rewrite H. Qed.

Lemma ends_if {A} R (m m' : M A) (c : bool) :
  (c = true → ends_with R m) → (c = false → ends_with R m') → ends_with R (if c then m else m').
Proof. by destruct c; auto. Qed.

(** A raised or signed proposal ends the process only after its decision was
    committed. *)
Lemma Raise_ends lid i : ends_with died_after_commit (Raise cfg lid i).
Proof.
  unfold Raise.
  apply ends_bind; [apply exits_authenticate|apply tables_visible, visible_authenticate|].
  intros [l m]. apply ends_bind; [apply exits_guardFinal| |intros _].
  { apply tables_db. unfold guardFinalizationRaise, hasPending. pose proof (db_gate cfg).
    pose proof db_fresh. keeps_tac; apply keeps_query. }
  repeat (apply ends_bind; [first [apply exits_noConflict|exits_tac]
                           |first [by intros ?|apply tables_visible; unfold rejectConflictingPending, findPending;
                             solve [keeps_tac]]|intros ?]).
  apply ends_if; intros Hs; guards; [by apply applyAndSave_ends|apply ends_never; exits_tac].
Qed.

Lemma Sign_ends lid pid i : ends_with died_after_commit (Sign cfg lid pid i).
Proof.
  unfold Sign. apply ends_bind; [apply exits_sign_load| |intros [l p]].
  { apply tables_visible. unfold sign_load. pose proof visible_authenticate.
    pose proof visible_Now. keeps_tac. }
  unfold sign_store. apply ends_if; intros Hs; guards; [by apply applyAndSave_ends|].
  apply ends_if; intros Hv; [|apply ends_never; exits_tac].
  apply andb_prop in Hv as [? ?]. guards. by apply veto_ends.
Qed.
End ending.

(** ** Reads *)
Section reads.
Context `{B32 : Bech32} `{NU : NetURL} `{UT : UUIDText} `{CJ : CanonicalJSON} `{O : Oracle}.

Lemma visible_query {A} (f : db → result A) : keeps visible (run_st (query f)).
Proof. apply keeps_query. Qed.
Lemma visible_getRef n m f : keeps visible (fs.getRef n m f).
Proof. intros w. unfold fs.getRef. by repeat case_match. Qed.
Lemma visible_GetInitialRef id : keeps visible (fs.GetInitialRef id).
Proof. apply visible_getRef. Qed.
Lemma visible_GetFinalRef id : keeps visible (fs.GetFinalRef id).
Proof. apply visible_getRef. Qed.
Lemma visible_AllocGetRef id t : keeps visible (fs.AllocGetRef id t).
Proof. apply visible_getRef. Qed.
#[local] Hint Resolve visible_Now visible_getRef : coord.

Lemma visible_GetLaunch id c : keeps visible (launches.GetLaunch id c).
Proof. unfold launches.GetLaunch, findLaunch. keeps_tac. Qed.
#[local] Hint Resolve visible_GetLaunch : coord.
Lemma visible_requireCommittee id c : keeps visible (launches.requireCommittee id c).
Proof. unfold launches.requireCommittee, findLaunch. keeps_tac. Qed.
#[local] Hint Resolve visible_requireCommittee : coord.
Lemma visible_GetCommittee id c : keeps visible (launches.GetCommittee id c).
Proof. unfold launches.GetCommittee. keeps_tac. Qed.
Lemma visible_GetChainHint id c : keeps visible (launches.GetChainHint id c).
Proof. unfold launches.GetChainHint, findLaunch. keeps_tac. Qed.
Lemma visible_ListLaunches c p n : keeps visible (launches.ListLaunches c p n).
Proof. unfold launches.ListLaunches, findAllLaunches. keeps_tac. Qed.
Lemma visible_ListMembers id c : keeps visible (launches.ListMembers id c).
Proof. unfold launches.ListMembers. keeps_tac. Qed.
Lemma visible_IsCommitteeMember id c : keeps visible (launches.IsCommitteeMember id c).
Proof. unfold launches.IsCommitteeMember, findLaunch. keeps_tac. Qed.
Lemma visible_GetDashboard id c : keeps visible (launches.GetDashboard id c).
Proof. unfold launches.GetDashboard. keeps_tac. Qed.
Lemma visible_GetPeers id : keeps visible (readiness.GetPeers id).
Proof. unfold readiness.GetPeers, findApprovedByLaunch. keeps_tac. Qed.
Lemma visible_readinessDashboard id : keeps visible (readiness.GetDashboard id).
Proof. unfold readiness.GetDashboard, findApprovedByLaunch, findReadinessByLaunch. keeps_tac. Qed.
Lemma visible_proposalList id p n : keeps visible (proposals.ListForLaunch id p n).
Proof. unfold proposals.ListForLaunch, findProposalsByLaunch. keeps_tac. Qed.
Lemma visible_proposalGet id p : keeps visible (proposals.GetByID id p).
Proof. unfold proposals.GetByID, findProposal. keeps_tac. Qed.
Lemma visible_joinGetByID id c m : keeps visible (joinrequests.GetByID id c m).
Proof. unfold joinrequests.GetByID, findJoinRequest. keeps_tac. Qed.
Lemma visible_joinList id st p n : keeps visible (joinrequests.ListForLaunch id st p n).
Proof. unfold joinrequests.ListForLaunch, findJoinRequestsByLaunch. keeps_tac. Qed.
Lemma visible_joinGrouped id c : keeps visible (joinrequests.ListGroupedBySubmitter id c).
Proof. unfold joinrequests.ListGroupedBySubmitter, findLaunch, allByLaunch. keeps_tac. Qed.
Lemma visible_ListResults id c : keeps visible (bridge.ListRehearsalResults id c).
Proof. unfold bridge.ListRehearsalResults, findResultsByLaunch. keeps_tac. Qed.
Lemma visible_Preview id : keeps visible (bridge.PreviewRehearsalInput id).
Proof.
  unfold bridge.PreviewRehearsalInput, inputset.Assemble, findLaunch, findApprovedByLaunch.
  keeps_tac.
Qed.
End reads.

#[export] Hint Resolve visible_Now visible_getRef visible_GetInitialRef visible_GetFinalRef
  visible_AllocGetRef visible_GetLaunch visible_GetCommittee
  visible_GetChainHint visible_ListLaunches visible_ListMembers visible_IsCommitteeMember
  visible_GetDashboard visible_GetPeers visible_readinessDashboard visible_proposalList
  visible_proposalGet visible_joinGetByID visible_joinList visible_joinGrouped
  visible_ListResults visible_Preview : coord.
