(* ===== verification/ApiProps.v ===== *)
(** * Correctness of the HTTP layer

    What a request can change without credentials, what only administrators
    change, which responses are sent, that a request is answered, and that a
    private launch does not show. *)

From S2P Require Import Prelude GoStd GoTime Values LaunchAgg Json Payload JoinRequest Rehearsal.
From S2P Require Import Store World WorldProps AuditLog FileStore ProposalService ProposalServiceProps.
From S2P Require Import LaunchService JoinRequestService ReadinessService RehearsalService.
From S2P Require Import AuthService AuthProps Wire Requests Http Handlers Server HttpProps ServiceEffects.
Import sqlite wire requests http api server.
#[global] Open Scope Z_scope.

(** ** What is observed of a process *)

(** Everything but the clock and the nonces. *)
Definition full_a (s : authdb * world) := (s.1, visible s.2).
Definition full (p : proc) := (p_auth p, visible (p_world p), p_level p).
(** Challenges and rate rows set aside. *)
Definition outer (p : proc) :=
  (a_fences (p_auth p), a_coordinators (p_auth p), visible (p_world p), p_level p).
Definition nothing (p : proc) := tt.

(** ** Well-formed responses *)

(** The error codes of the API and the status each goes with. *)
Definition error_codes : list (string * Z) :=
  [("not_found", 404); ("conflict", 409); ("unauthorized", 401); ("forbidden", 403);
   ("bad_request", 400); ("too_many_requests", 429); ("gentx_invalid", 400);
   ("internal_error", 500); ("auth_failed", 401); ("missing_token", 401); ("invalid_token", 401);
   ("ops_credential_required", 401); ("invalid_ops_credential", 401);
   ("unsupported_media_type", 415); ("too_large", 413); ("no_audit_key", 503);
   ("invalid_body", 400); ("invalid_field", 400); ("invalid_id", 400); ("invalid_param", 400);
   ("invalid_type", 400); ("invalid_genesis_time", 400); ("missing_genesis_time", 400);
   ("missing_field", 400); ("missing_param", 400); ("missing_url", 400); ("missing_sha256", 400);
   ("empty_body", 400); ("host_mode_disabled", 400); ("read_error", 400)]%string.

(** What the errors of the services stand for, the first that applies. *)
Definition service_errors : list (sentinel * string) :=
  [(ErrNotFound, "not_found"); (ErrConflict, "conflict"); (ErrUnauthorized, "unauthorized");
   (ErrForbidden, "forbidden"); (ErrBadRequest, "bad_request");
   (ErrTooManyRequests, "too_many_requests")]%string.
Definition code_of (e : error) : string :=
  match As_GentxInvalid e with
  | Some _ => "gentx_invalid"
  | None => match List.find (λ sc, errors_Is e sc.1) service_errors with
            | Some (_, code) => code
            | None => "internal_error"
            end
  end.
(** An error told to the client is told under its own code. *)
Definition explained (b : errorBody) : bool :=
  match eb_Message b with
  | ErrorText _ e => negb (bool_decide (eb_Code b ∈ "gentx_invalid"%string :: service_errors.*2))
                     || bool_decide (eb_Code b = code_of e)
  | Text _ => true
  end.
(** The two texts an internal error has. *)
Definition fixed_text (m : message) : bool :=
  match m with
  | Text s => bool_decide (s ∈ ["an unexpected error occurred"; "could not validate session"])
  | ErrorText _ _ => false
  end.

Definition json_ok (st : Z) (v : payload_json) : bool :=
  match v with
  | VError b => bool_decide ((eb_Code b, st) ∈ error_codes) && explained b
                && (negb (st =? 500) || fixed_text (eb_Message b))
  | VLeaseConflict _ => st =? 409
  | VHealth h => if bool_decide (h = "ok"%string) then st =? 200 else st =? 503
  | _ => (st =? 200) || (st =? 201)
  end.

Definition has_header (resp : response) (k v : string) : bool :=
  bool_decide ((k, v) ∈ rs_Header resp).
Definition has_key (resp : response) (k : string) : bool :=
  bool_decide (k ∈ (rs_Header resp).*1).

(** A JSON body says so; an error body carries a code of the list above, the
    status is the code's, and an internal error tells nothing; files, redirections
    to somewhere, streams and texts go with their statuses. *)
Definition well_formed (resp : response) : bool :=
  match rs_Body resp with
  | BNone => bool_decide (rs_Status resp ∈ [204; 405])
             || (rs_Status resp =? 302) && has_key resp "Location"
  | BJSON v => has_header resp "Content-Type" "application/json" && json_ok (rs_Status resp) v
  | BText _ => bool_decide (rs_Status resp ∈ [200; 404; 429])
  | BFile _ => rs_Status resp =? 200
  | BEvents _ => (rs_Status resp =? 200) && has_header resp "Content-Type" "text/event-stream"
  end.

(** A response that tells [b] with the status [st]. *)
Definition tells (resp : response) (code : string) : Prop :=
  well_formed resp = true ∧
  ∃ b, rs_Body resp = BJSON (VError b) ∧ eb_Code b = code ∧ (code, rs_Status resp) ∈ error_codes.

Lemma tells_body st code m rq inv :
  bool_decide ((code, st) ∈ error_codes) = true →
  explained (mkErrorBody code m rq inv) = true →
  negb (st =? 500) || fixed_text m = true →
  tells (writeJSON st (VError (mkErrorBody code m rq inv))) code.
Proof.
  intros Hc He Hf. split.
  - unfold well_formed. cbn [rs_Body rs_Status writeJSON].
    unfold json_ok. cbn [eb_Code eb_Message]. by rewrite Hc, He, Hf.
  - eexists. split_and!; [done..|]. by apply bool_decide_eq_true in Hc.
Qed.

Lemma explained_own code m e rq inv :
  m = ErrorText "" e → code_of e = code → explained (mkErrorBody code m rq inv) = true.
Proof.
  intros -> <-. unfold explained. cbn [eb_Message eb_Code].
  by rewrite (bool_decide_eq_true_2 (code_of e = code_of e)), orb_true_r.
Qed.

(** [writeServiceError] answers with the code of the error and its status. *)
Lemma service_error_answer r e : tells (writeServiceError r e) (code_of e).
Proof.
  unfold writeServiceError. destruct (As_GentxInvalid e) as [rs|] eqn:E.
  { assert (code_of e = "gentx_invalid"%string) as Hc by (unfold code_of; by rewrite E).
    rewrite Hc. apply tells_body; [reflexivity|by eapply explained_own|reflexivity]. }
  assert (Hcode : code_of e = match List.find (λ sc, errors_Is e sc.1) service_errors with
                              | Some (_, code) => code | None => "internal_error" end%string)
    by (unfold code_of; by rewrite E).
  unfold service_errors in Hcode. cbn [List.find fst] in Hcode.
  repeat match goal with
  | |- tells (if ?b then _ else _) _ =>
      destruct b; [rewrite Hcode; apply tells_body;
                   [reflexivity|by eapply explained_own|reflexivity]|]
  end.
  rewrite Hcode. apply tells_body; reflexivity.
Qed.
Lemma well_formed_service_error r e : well_formed (writeServiceError r e) = true.
Proof. apply service_error_answer. Qed.

(** ** Structural proofs about handlers *)
Lemma well_formed_field m : well_formed (writeMessage StatusBadRequest "invalid_field" m) = true.
Proof. by destruct m. Qed.
#[export] Hint Resolve well_formed_service_error well_formed_field : coord.

Lemma astays_exit {A} (m : AM A) (E : Prop) : astays m → ∀ s, (m s).1 = Exit → E.
Proof. intros H s He. by destruct (H s). Qed.

Ltac hside := solve [done | auto with coord | intros; auto with coord
  | apply astays_exit; auto with coord].

Lemma committee_members_ok `{B32 : Bech32} {X} (g : proc → X) P E i ms :
  (∀ m, P (writeMessage StatusBadRequest "invalid_field" m)) →
  step_ok g P E (committee_members i ms).
Proof.
  intros HP. revert i. induction ms as [|m ms IH]; intros i; cbn; [apply step_ret|].
  apply step_bind; [unfold field_or|intros a; apply step_bind; [apply IH|intros; apply step_ret]].
  destruct (NewAccountID _); [apply step_ret|by apply step_reply].
Qed.

Ltac hstep :=
  lazymatch goal with
  | |- run_ok _ _ _ (_ ≫= _) => apply run_bind; [|intros ?]
  | |- step_ok _ _ _ (_ ≫= _) => apply step_bind; [|intros ?]
  | |- run_ok _ _ _ (mret _) => apply run_ret; hside
  | |- run_ok _ _ _ (ok _) => apply run_ret; hside
  | |- run_ok _ _ _ (reply _) => apply run_reply; hside
  | |- step_ok _ _ _ (mret _) => apply step_ret
  | |- step_ok _ _ _ (reply _) => apply step_reply; hside
  | |- step_ok _ _ _ (call _ _) => apply step_call; hside
  | |- step_ok _ _ _ (acall _ _) => apply step_acall; hside
  | |- step_ok _ _ _ (attempt (lift _)) => apply step_lift; hside
  | |- step_ok _ _ _ (attempt _) => apply step_attempt; hside
  | |- step_ok _ _ _ (require _ _) => apply step_require; hside
  | |- step_ok _ _ _ get_proc => apply step_get
  | |- step_ok _ _ _ (set_level _) => apply step_set_level; hside
  | |- step_ok _ _ _ (decode_or _ _ _) => apply step_decode_or; hside
  | |- step_ok _ _ _ (decode_body _ _) => unfold decode_body
  | |- step_ok _ _ _ (launch_id _) => unfold launch_id
  | |- step_ok _ _ _ (prop_id _) => unfold prop_id
  | |- step_ok _ _ _ (parse_id _ _ _) => unfold parse_id
  | |- step_ok _ _ _ (parsePagination _) => unfold parsePagination, positive
  | |- step_ok _ _ _ (field_or _ _) => unfold field_or
  | |- step_ok _ _ _ (committee_members _ _) => apply committee_members_ok; hside
  | |- step_ok _ _ _ (committee_only _ _ _) => unfold committee_only
  | |- step_ok _ _ _ (act_as_self _ _) => unfold act_as_self
  | |- step_ok _ _ _ (upload_body _ _ _ _ _) => unfold upload_body
  | |- step_ok _ _ _ (genesis_ref _ _ _) => unfold genesis_ref
  | |- run_ok _ _ _ (serve_ref _ _ _ _) => unfold serve_ref
  | |- run_ok _ _ _ (serveAllocationRef _ _ _) => unfold serveAllocationRef
  | |- run_ok _ _ _ (handleGenesisUploadRef _ _ _ _) => unfold handleGenesisUploadRef
  | |- run_ok _ _ _ (handleGenesisUploadBytes _ _ _ _ _) => unfold handleGenesisUploadBytes
  | |- run_ok _ _ _ (handleAllocationUploadRef _ _ _ _) => unfold handleAllocationUploadRef
  | |- run_ok _ _ _ (handleAllocationUploadBytes _ _ _ _ _) => unfold handleAllocationUploadBytes
  | |- step_ok _ _ _ (session_operator _) => unfold session_operator
  | |- step_ok _ _ _ (let (_, _) := ?x in _) => destruct x
  | |- run_ok _ _ _ (let (_, _) := ?x in _) => destruct x
  | |- step_ok _ _ _ (if ?x then _ else _) => destruct x
  | |- run_ok _ _ _ (if ?x then _ else _) => destruct x
  | |- run_ok _ _ _ ((if ?x then _ else _) _) => destruct x
  | |- step_ok _ _ _ (match ?x with _ => _ end) => destruct x
  | |- run_ok _ _ _ (match ?x with _ => _ end) => destruct x
  | |- step_ok _ _ _ _ => solve [auto with coord]
  end.
Ltac handler_tac := repeat (cbv beta zeta; hstep).

(** The middleware and the handlers, opened. *)
Ltac open_route :=
  cbn [rt_Handler rt_Method rt_Pattern mounted Get Post Delete Patch compose];
  unfold
    jsonPOST, jsonAdminPOST, requireJSONPOST, admin, ops, limited, LimitByIP, requireAuth,
    optionalAuth, requireAdmin, requireOps, requireJSONBody, handleLaunchCreate,
    handleLaunchList, handleLaunchGet, handleLaunchPatch, handleOpenWindow, handleLaunchCancel,
    handleChainHint, handleCommitteeCreate, handleCommitteeGet, handleMemberAdd,
    handleMemberRemove, handleMemberList, handleGenesisUploadRef, handleGenesisUploadBytes,
    handleGenesisUpload, handleGenesisGet, handleGenesisHashGet, handleAllocationUploadRef,
    handleAllocationUploadBytes, handleAllocationUpload, handleAllocationList,
    handleAllocationGet, handleProposalRaise, handleProposalList, handleProposalGet,
    handleProposalSign, handleJoinSubmit, handleJoinList, handleJoinGrouped, handleGentxsGet,
    handleJoinGet, handleReadinessConfirm, handleDashboard, handlePeers,
    handleRehearsalResultsList, handleRehearsalReset, handleRehearsalInput, handleRehearsalClaim,
    handleBridgeAllocationGet, handleRehearsalResults, handleAuthChallenge, handleAuthVerify,
    handleAuthRevoke, handleAuthSessionInfo, handleAuthRevokeAll, handleAdminRevokeAllSessions,
    handleCoordinatorAdd, handleCoordinatorRemove, handleCoordinatorList, handleLogLevelGet,
    handleLogLevelSet, handleAudit, handleAuditPubKey, handleEvents, handleHealthz,
    handleLaunchAction.
(** The routes one by one. *)
Ltac each_route :=
  unfold routes, registerAPIRoutes, registerBridgeRoutes, registerLaunchReadRoutes;
  rewrite Forall_cons, Forall_fmap, !Forall_app; split_and!;
  repeat (apply Forall_cons; split); try apply Forall_nil_2.

Section api_props.
Context `{B32 : Bech32} `{NU : NetURL} `{UT : UUIDText} `{CJ : CanonicalJSON}
        `{SVr : SignatureVerifier} `{GV : joinrequests.GentxValidator} `{Ed : Ed25519}
        `{UV : launches.URLValidator} `{O : Oracle} `{J : JWT} `{CS : ChallengeStore}
        `{AL : AuditLogReader} `{Rt : Router} `{HR : HTTPRate}.
Context {OK : StoreOK CS}.
Context (s : Server).
#[local] Set Default Proof Using "Type*".

(** ** Sessions *)

(** The operator of a session token, at a process. *)
Definition session (raw : string) (p : proc) : option string :=
  match (sessions.Validate raw (p_auth p, p_world p)).1 with Ret a => Some a | _ => None end.

Lemma Validate_tick raw d w : (sessions.Validate raw (d, w)).2 = (d, tick w).
Proof using Type.
  unfold sessions.Validate, sessions.unauthorized, sessions.parseClaims, mbind, AM_bind, lift, Now,
    aresult, of_result, aguard, guard_err. cbn.
  destruct (jwt_ParseWithClaims raw _) as [c|]; cbn; [|done].
  destruct (is_empty _); cbn; [done|]. destruct (a_fences d !! _); cbn; [|done].
  destruct (rfc3339.Parse _); cbn; [|done]. by destruct (negb _).
Qed.

(** Every route sends well-formed responses, and only raising and signing
    proposals may end the process. *)
Definition executing : list string :=
  ["/api/v1/launch/{id}/proposal"; "/api/v1/launch/{id}/proposal/{prop_id}/sign"].
Definition may_exit (rt : route) : Prop :=
  rt_Method rt = "POST"%string ∧ rt_Pattern rt ∈ executing ∧ ∃ n, oracle_audit_fails n = true.

Lemma astays_Validate raw : astays (sessions.Validate raw).
Proof using Type. unfold sessions.Validate, sessions.parseClaims. astays_tac. Qed.
Lemma lift_stays {A} (m : M A) : exits False m → astays (lift m).
Proof using Type. intros H. apply astays_lift. intros w. exact (H w). Qed.
#[local] Hint Resolve lift_stays : coord.
Lemma astays_audit b : astays (auth.audit_global b).
Proof using Type. apply lift_stays. exits_tac. Qed.
Lemma astays_IssueChallenge a : astays (auth.IssueChallenge a).
Proof. unfold auth.IssueChallenge. pose proof issue_stays. astays_tac. Qed.
Lemma astays_Verify i : astays (auth.VerifyChallenge i).
Proof.
  unfold auth.VerifyChallenge, auth.consume_challenge, auth.check_response, sessions.Issue,
    decodeBase64Sig.
  pose proof consume_stays. astays_tac.
Qed.
Lemma astays_RevokeAll a b : astays (auth.RevokeAllSessions a b).
Proof using Type.
  unfold auth.RevokeAllSessions, sessions.RevokeAllForOperator. pose proof astays_audit. astays_tac.
Qed.
Lemma astays_SessionInfo raw : astays (auth.GetSessionInfo raw).
Proof using Type.
  unfold auth.GetSessionInfo, sessions.ParseClaims, sessions.parseClaims.
  pose proof astays_Validate. astays_tac.
Qed.
Lemma astays_Add a b : astays (coordinators.Add a b).
Proof using Type.
  unfold coordinators.Add, coordinators.repo_Add. pose proof astays_audit. astays_tac.
Qed.
Lemma astays_Remove a b : astays (coordinators.Remove a b).
Proof using Type.
  unfold coordinators.Remove, coordinators.repo_Remove. pose proof astays_audit. astays_tac.
Qed.
Lemma astays_List a b : astays (coordinators.List a b).
Proof using Type. unfold coordinators.List, coordinators.repo_List. astays_tac. Qed.
Lemma astays_Contains a : astays (coordinators.Contains a).
Proof using Type. unfold coordinators.Contains, coordinators.repo_Contains. astays_tac. Qed.
#[local] Hint Resolve astays_Validate astays_IssueChallenge astays_Verify
  astays_RevokeAll astays_SessionInfo astays_Add astays_Remove astays_List astays_Contains : coord.

Lemma exits_list_with_status E id st p n : exits E (list_with_status id st p n).
Proof using Type. unfold list_with_status. exits_tac. Qed.
Lemma visible_list_with_status id st p n : keeps visible (list_with_status id st p n).
Proof using Type. unfold list_with_status. keeps_tac. Qed.
#[local] Hint Resolve exits_list_with_status visible_list_with_status : coord.

Definition sound (rt : route) : Prop :=
  ∀ r, run_ok nothing (λ resp, well_formed resp = true) (may_exit rt) (rt_Handler rt r).

Lemma routes_sound : Forall sound (routes s).
Proof.
  each_route; intros r; open_route; handler_tac.
  all: apply step_call; [hside| |hside].
  all: first [apply exits_Raise|apply exits_Sign]; intros Hn.
  all: split_and!; [done| |done]; unfold executing; set_solver.
Qed.

(** Which route serves a request. *)
Definition routed (r : request) (rt : route) (params : gmap string string) : Prop :=
  ∃ i, chi_match ((λ rt, (rt_Method rt, rt_Pattern rt)) <$> routes s) (rq_Method r) (rq_Path r)
         = Matched i params ∧ routes s !! i = Some rt.

(** What holds of every route, and needs nothing of the answers to requests no
    route serves, holds of the whole. *)
Lemma dispatch_ok {X} (g : proc → X) P E r :
  (∀ rt params, routed r rt params → run_ok g P E (rt_Handler rt (set_params params r))) →
  (∀ b, P (mkResponse StatusNotFound [] (BText b))) → P (mkResponse StatusMethodNotAllowed [] BNone) →
  run_ok g P E (dispatch s r).
Proof.
  intros Hr H404 H405. unfold dispatch.
  destruct (chi_match _ _ _) as [i params| |] eqn:Em; [|by apply run_reply..].
  destruct (routes s !! i) as [rt|] eqn:Ei; [|by apply run_reply].
  apply Hr. by exists i.
Qed.

Lemma has_header_app h resp k v :
  has_header resp k v = true → has_header (add_headers h resp) k v = true.
Proof.
  unfold has_header. rewrite !bool_decide_eq_true. cbn. intros H. apply elem_of_app. by right.
Qed.
Lemma well_formed_add h resp : well_formed resp = true → well_formed (add_headers h resp) = true.
Proof.
  unfold well_formed. cbn. destruct (rs_Body resp); try done.
  - rewrite !orb_true_iff, !andb_true_iff. intros [H|[H1 H2]]; [by left|right; split; [done|]].
    unfold has_key in *. rewrite bool_decide_eq_true in H2 |- *. cbn.
    rewrite fmap_app. apply elem_of_app. by right.
  - rewrite !andb_true_iff. intros [H1 H2]. split; [by apply has_header_app|done].
  - rewrite !andb_true_iff. intros [H1 H2]. split; [done|by apply has_header_app].
Qed.

(** The outcome of a run of the whole server, from that of the routes. *)
Lemma Handler_ok {X} (g : proc → X) P E r p :
  run_ok g P E (dispatch s r) →
  P (writeError StatusInternalServerError "internal_error" "an unexpected error occurred") →
  g (Handler s r p).2 = g p ∧
  match (Handler s r p).1 with
  | Some resp => ∃ resp0, P resp0 ∧ resp = add_headers (securityHeaders (sv_tlsEnabled s)) resp0
  | None => E
  end.
Proof.
  intros Hd HP. specialize (Hd p). unfold Handler, recoveryMiddleware.
  destruct (dispatch s r p) as [[r1|r1| |] p1]; cbn in *; destruct Hd as [Hg Hd];
    split; eauto.
Qed.

(** ** What a step keeps *)
Lemma full_lift {A} (m : M A) :
  keeps visible m → ∀ d w l, full (mkProc d (m w).2 l) = full (mkProc d w l).
Proof using Type. intros H d w l. unfold full. cbn. by rewrite (H w). Qed.
Lemma full_attempt {A} (m : AM A) :
  akeeps full_a m →
  ∀ d w l, full (mkProc (m (d, w)).2.1 (m (d, w)).2.2 l) = full (mkProc d w l).
Proof using Type. intros H d w l. specialize (H (d, w)). unfold full, full_a in *. cbn in *. congruence. Qed.

Lemma full_a_lift {A} (m : M A) : keeps visible m → akeeps full_a (lift m).
Proof using Type. intros H [d w]. specialize (H w). unfold lift, full_a. by destruct (m w) as [o w1]; cbn in *; rewrite H. Qed.
#[local] Hint Resolve full_lift full_attempt full_a_lift : coord.
Lemma full_a_Validate raw : akeeps full_a (sessions.Validate raw).
Proof using Type. intros [d w]. by rewrite Validate_tick. Qed.
#[local] Hint Resolve full_a_Validate : coord.
Lemma full_a_unauthorized {A} (m : AM A) : akeeps full_a m → akeeps full_a (sessions.unauthorized m).
Proof using Type. intros H s0. specialize (H s0). unfold sessions.unauthorized. by destruct (m s0) as [[] s1]. Qed.
Lemma full_a_SessionInfo raw : akeeps full_a (auth.GetSessionInfo raw).
Proof using Type.
  unfold auth.GetSessionInfo, sessions.ParseClaims, sessions.parseClaims.
  apply akeeps_bind; [auto with coord|intros a].
  apply akeeps_bind; [apply full_a_unauthorized; akeeps_tac|intros [[]]; akeeps_tac].
Qed.
Lemma full_a_List a b : akeeps full_a (coordinators.List a b).
Proof using Type. unfold coordinators.List, coordinators.repo_List. akeeps_tac. Qed.
Lemma full_a_Contains a : akeeps full_a (coordinators.Contains a).
Proof using Type. unfold coordinators.Contains, coordinators.repo_Contains. akeeps_tac. Qed.
#[local] Hint Resolve full_a_SessionInfo full_a_List full_a_Contains : coord.

(** ** How a handler ends the process *)
Definition ends_in (m : H response) : Prop := ∀ p p', m p = (HExit, p') →
  died_after_commit (sv_proposals s) (tables (p_world p)) (p_world p').

Lemma full_tables p p' : full p' = full p → tables (p_world p') = tables (p_world p).
Proof using Type. unfold full, visible, tables. congruence. Qed.

Lemma ends_in_bind {A} (m : H A) (f : A → H response) :
  step_ok full (λ _, True) False m → (∀ a, ends_in (f a)) → ends_in (m ≫= f).
Proof using Type.
  intros Hm Hf p p' H. destruct (Hm p) as [Hk Ho]. unfold mbind, H_bind in H.
  destruct (m p) as [[a|resp| |] p1]; cbn in *; try discriminate; [|done].
  rewrite <- (full_tables _ _ Hk). by eapply Hf.
Qed.

Lemma ends_in_call {A} r (m : M A) (k : A → response) :
  ends_with (died_after_commit (sv_proposals s)) m →
  ends_in (call r m ≫= λ a, mret (k a)).
Proof using Type.
  intros Hm [d w l] p' H. unfold call, acall, attempt, lift, mbind, H_bind in H. cbn in H.
  destruct (m w) as [[a|e| |] w1] eqn:E; cbn in H; simplify_eq. cbn. by apply Hm.
Qed.

Ltac end_tac := repeat first
  [ apply ends_in_call
  | apply ends_in_bind; [cbv beta zeta; handler_tac|intros ?; cbv beta zeta] ].

Lemma not_executing pat : bool_decide (pat ∈ executing) = false → pat ∈ executing → False.
Proof using Type. by intros H%bool_decide_eq_false. Qed.
Lemma routes_end : Forall (λ rt, may_exit rt → ∀ r, ends_in (rt_Handler rt r)) (routes s).
Proof.
  each_route; intros (Hm & Hp & _) r;
    cbn [rt_Method rt_Pattern rt_Handler mounted Get Post Delete Patch compose] in *;
    try discriminate Hm;
    try (refine (False_ind _ (not_executing _ _ Hp)); vm_compute; reflexivity).
  all: clear Hm Hp; open_route; case_match; cbv beta; end_tac.
  - apply Raise_ends.
  - apply Raise_ends.
  - apply Sign_ends.
  - apply Sign_ends.
Qed.

Lemma dispatch_exit r p p' : dispatch s r p = (HExit, p') →
  ∃ rt params, routed r rt params ∧ may_exit rt ∧
    died_after_commit (sv_proposals s) (tables (p_world p)) (p_world p').
Proof.
  unfold dispatch. destruct (chi_match _ _ _) as [i params| |] eqn:Em; [|done..].
  destruct (routes s !! i) as [rt|] eqn:Ei; [|done]. intros H.
  destruct (Forall_lookup_1 _ _ _ _ routes_sound Ei (set_params params r) p) as [_ Hx].
  rewrite H in Hx. cbn in Hx. exists rt, params. split_and!; [by exists i|done|].
  exact (Forall_lookup_1 _ _ _ _ routes_end Ei Hx _ _ _ H).
Qed.

(** C22. Every request is answered, whatever it holds and even when its handler
    panics, and with a well-formed response: a JSON body is declared as such, an
    error body carries a code of the API under that code's own status, the error
    of a service is told under the code of the first of NotFound, Conflict,
    Unauthorized, Forbidden, BadRequest and TooManyRequests it wraps (any other
    is an internal error, of which nothing is told but one of two fixed texts),
    a redirection says where to, and the security headers are there.  The one
    exception is a [POST] that raised or signed a proposal and decided it: the
    decision was committed and stays, and an append of its completion events to
    the audit log failed, which ends the process. *)
Theorem requests_answered r p :
  ((∃ resp, (Handler s r p).1 = Some resp ∧ well_formed resp = true ∧
      Forall (λ h, h ∈ rs_Header resp) (securityHeaders (sv_tlsEnabled s))) ∨
   (Handler s r p).1 = None ∧
   (∃ rt params, routed r rt params ∧ rt_Method rt = "POST"%string ∧ rt_Pattern rt ∈ executing) ∧
   (∃ n, oracle_audit_fails n = true) ∧
   died_after_commit (sv_proposals s) (tables (p_world p)) (p_world (Handler s r p).2)) ∧
  ∀ e, tells (writeServiceError r e) (code_of e).
Proof.
  split; [|apply service_error_answer].
  destruct (Handler_ok nothing (λ resp, well_formed resp = true) True r p) as [_ H].
  - apply dispatch_ok; [|done..]. intros rt params (i & Hm & Hi) p1.
    pose proof (Forall_lookup_1 _ _ _ _ routes_sound Hi (set_params params r) p1) as [Hg Ho].
    split; [done|]. by destruct (rt_Handler rt _ p1) as [[]].
  - done.
  - destruct (Handler s r p) as [[resp|] p'] eqn:E; cbn in *; [left|right].
    + destruct H as (resp0 & Hw & ->). eexists. split; [done|]. split; [by apply well_formed_add|].
      apply Forall_forall. intros h Hh. unfold add_headers. cbn [rs_Header].
      apply elem_of_app. by left.
    + unfold Handler, recoveryMiddleware in E.
      destruct (dispatch s r p) as [[| | |] p1] eqn:Hdisp; try discriminate. injection E as <-.
      apply dispatch_exit in Hdisp as (rt & params & Hr & (Hm & Hp & Hn) & Hd).
      split_and!; [done|by exists rt, params|done|done].
Qed.

(** ** Reads *)
Definition reads (rt : route) : Prop :=
  rt_Method rt = "GET"%string → ∀ r, run_ok full (λ _, True) True (rt_Handler rt r).
Lemma routes_read : Forall reads (routes s).
Proof.
  each_route; intros Hm r; cbn [rt_Method mounted Get Post Delete Patch compose] in Hm;
    try discriminate Hm; clear Hm; open_route; handler_tac.
Qed.

(** ** Requests without credentials *)
Definition outer_a (st : authdb * world) :=
  (a_fences st.1, a_coordinators st.1, visible st.2).
Definition listed_a (st : authdb * world) := (a_fences st.1, a_coordinators st.1).

Lemma listed_preserves {A} (m : AM A) :
  (∀ P : authdb * world → Prop, timeless P →
     (∀ d w c r, P (d, w) → P (mkAuth c r (a_fences d) (a_coordinators d), w)) → preserves P m) →
  akeeps listed_a m.
Proof using Type.
  intros H st. apply (H (λ st', listed_a st' = listed_a st)); [|done..]. by intros d w w' Hd _.
Qed.
Lemma outer_a_store {A} (m : AM A) :
  akeeps listed_a m → akeeps aworld m → akeeps outer_a m.
Proof.
  intros H1 H2 st. specialize (H1 st). specialize (H2 st).
  unfold outer_a, listed_a, aworld in *. congruence.
Qed.
Lemma outer_a_lift {A} (m : M A) : keeps visible m → akeeps outer_a (lift m).
Proof using Type.
  intros H [d w]. specialize (H w). unfold lift, outer_a.
  by destruct (m w) as [o w1]; cbn in *; rewrite H.
Qed.
Lemma outer_a_issue a : akeeps outer_a (store_Issue a).
Proof.
  apply outer_a_store; [|apply issue_world]. apply listed_preserves. intros P. apply issue_fences.
Qed.
Lemma outer_a_consume a : akeeps outer_a (store_Consume a).
Proof.
  apply outer_a_store; [|apply consume_world].
  apply listed_preserves. intros P. apply consume_fences.
Qed.
#[local] Hint Resolve outer_a_lift outer_a_issue outer_a_consume visible_consume visible_timestamp
  : coord.
Lemma outer_a_IssueChallenge a : akeeps outer_a (auth.IssueChallenge a).
Proof. unfold auth.IssueChallenge. akeeps_tac. Qed.
Lemma outer_a_Verify i : akeeps outer_a (auth.VerifyChallenge i).
Proof.
  unfold auth.VerifyChallenge, auth.consume_challenge, auth.check_response, sessions.Issue,
    decodeBase64Sig. akeeps_tac.
Qed.
Lemma outer_attempt {A} (m : AM A) :
  akeeps outer_a m →
  ∀ d w l, outer (mkProc (m (d, w)).2.1 (m (d, w)).2.2 l) = outer (mkProc d w l).
Proof using Type. intros H d w l. specialize (H (d, w)). unfold outer, outer_a in *. cbn in *. congruence. Qed.
Lemma outer_a_Validate raw : akeeps outer_a (sessions.Validate raw).
Proof using Type. intros [d w]. by rewrite Validate_tick. Qed.
#[local] Hint Resolve outer_a_IssueChallenge outer_a_Verify outer_attempt outer_a_Validate : coord.

(** A session of an operator, or the operations token. *)
Definition operator_of (r : request) (p : proc) : option string :=
  if is_empty (bearerToken r) then None else session (bearerToken r) p.
Definition is_ops (r : request) : Prop :=
  sv_rehearsalOpsToken s ≠ ""%string ∧ bearerToken r = sv_rehearsalOpsToken s.

(** Without credentials, nothing happens. *)
Definition guarded (h : handler) : Prop :=
  ∀ r p, operator_of r p = None → ¬ is_ops r → outer (h r p).2 = outer p.

Lemma session_operator_spec r p :
  match operator_of r p with
  | Some a => session_operator r p = (HRet a, mkProc (p_auth p) (tick (p_world p)) (p_level p))
  | None => outer (session_operator r p).2 = outer p ∧
      ∀ a, (session_operator r p).1 ≠ HRet a
  end.
Proof using Type.
  unfold operator_of, session_operator, session. destruct (is_empty (bearerToken r)); cbn; [done|].
  unfold mbind, H_bind, mret, H_ret, attempt.
  pose proof (Validate_tick (bearerToken r) (p_auth p) (p_world p)) as Ht.
  destruct (sessions.Validate _ _) as [[a|e| |] [d w]]; cbn in *; injection Ht as -> ->; try done.
  by destruct (errors_Is e _).
Qed.

Lemma guarded_bind (f : request → string → H response) :
  guarded (λ r, session_operator r ≫= f r).
Proof.
  intros r p Hn _. pose proof (session_operator_spec r p) as H. rewrite Hn in H.
  destruct H as [Ho Ha]. unfold mbind, H_bind.
  destruct (session_operator r p) as [[a|?| |] p1]; try done. by destruct (Ha a).
Qed.
Lemma guarded_auth next : guarded (requireAuth next).
Proof. apply guarded_bind. Qed.
Lemma guarded_admin a next : guarded (requireAdmin a next).
Proof. apply guarded_bind. Qed.
Lemma guarded_ops next : guarded (ops s next).
Proof.
  intros r p _ Hn. unfold is_ops in Hn. unfold ops, requireOps, require, reply.
  destruct (is_empty (sv_rehearsalOpsToken s)) eqn:E1; cbn; [done|].
  destruct (is_empty (bearerToken r)) eqn:E2; cbn; [done|].
  case_bool_decide as E3; cbn; [|done]. destruct Hn. split; [by apply is_empty_false|done].
Qed.
Lemma guarded_limited n h : guarded h → guarded (limited s n h).
Proof.
  intros Hh. unfold limited. destruct (sv_disableRateLimit s); [done|].
  intros r p Ho Hn. unfold LimitByIP, mbind, H_bind, get_proc, require.
  destruct (httprate_allows _ _ _ _); cbn; [by apply Hh|done].
Qed.
Lemma guarded_run h : (∀ r, run_ok outer (λ _, True) True (h r)) → guarded h.
Proof. intros H r p _ _. apply H. Qed.
Lemma guarded_full h : (∀ r, run_ok full (λ _, True) True (h r)) → guarded h.
Proof.
  intros H r p _ _. destruct (H r p) as [Hf _]. unfold full, outer in *. congruence.
Qed.

Lemma writes_guarded :
  Forall (λ rt, rt_Method rt ≠ "GET"%string → guarded (rt_Handler rt)) (routes s).
Proof.
  each_route; intros Hm; cbn [rt_Method rt_Handler mounted Get Post Delete Patch compose] in *;
    try done; clear Hm; try apply guarded_auth; try apply guarded_admin; try apply guarded_ops;
    try (apply guarded_limited, guarded_auth); try apply guarded_limited;
    apply guarded_run; intros r; open_route; handler_tac.
Qed.
Lemma routes_guarded : Forall (λ rt, guarded (rt_Handler rt)) (routes s).
Proof.
  pose proof routes_read as Hr. pose proof writes_guarded as Hw.
  rewrite !Forall_forall in Hr, Hw |- *. intros rt Hin.
  destruct (decide (rt_Method rt = "GET"%string)) as [Hm|Hm]; [|by apply Hw].
  apply guarded_full. by apply Hr.
Qed.

(** C19. Credentials.  Apart from the bookkeeping of logins (challenges, nonces
    and rate rows, which anybody can use up: [stranger_burns_challenge]), a
    request without a valid session and without the operations token changes
    no launch, proposal, join request, confirmation or rehearsal, no file, no
    audit entry, publishes nothing, ends no session and leaves the coordinator
    list and the log level; and a [GET], with whatever credentials, changes
    nothing at all of what the server stores but nonces. *)
Theorem only_credentials_write r p
    (chi_method : ∀ table m path i params, chi_match table m path = Matched i params →
       fst <$> table !! i = Some m) :
  (operator_of r p = None → ¬ is_ops r → outer (Handler s r p).2 = outer p) ∧
  (rq_Method r = "GET"%string → full (Handler s r p).2 = full p).
Proof.
  unfold Handler. split.
  - intros Ho Hn.
    assert (H : outer (dispatch s r p).2 = outer p).
    { unfold dispatch. destruct (chi_match _ _ _) as [i params| |]; [|done..].
      destruct (routes s !! i) as [rt|] eqn:Hi; [|done].
      by apply (Forall_lookup_1 _ _ _ _ routes_guarded Hi (set_params params r) p). }
    unfold recoveryMiddleware. by destruct (dispatch s r p) as [[] p1].
  - intros Hm. apply (Handler_ok full (λ _, True) True r p); [|done].
    apply dispatch_ok; [|done..]. intros rt params (i & Hc & Hi).
    apply chi_method in Hc. rewrite list_lookup_fmap, Hi in Hc. injection Hc as Hc.
    apply (Forall_lookup_1 _ _ _ _ routes_read Hi). congruence.
Qed.
End api_props.
