(* ===== verification/ApiAccess.v ===== *)
(** * Who may do what over HTTP

    Administration is for administrators; a private launch does not show to
    those who may not see it; pages are bounded. *)

From S2P Require Import Prelude GoStd GoTime Values LaunchAgg Json Payload JoinRequest Rehearsal.
From S2P Require Import Store World WorldProps AuditLog FileStore ProposalService ProposalServiceProps.
From S2P Require Import LaunchService JoinRequestService ReadinessService RehearsalService.
From S2P Require Import AuthService AuthProps Wire Requests Http Handlers Server HttpProps ServiceEffects.
From S2P Require Import ApiProps.
Import sqlite wire requests http api server.
#[global] Open Scope Z_scope.

(** The coordinator list, the log level and the revocations of everyone but one
    account. *)
Definition administered (key : string) (p : proc) :=
  (a_coordinators (p_auth p), delete key (a_fences (p_auth p)), p_level p).
Definition administered_a (key : string) (st : authdb * world) :=
  (a_coordinators st.1, delete key (a_fences st.1)).
(** The same with all revocations. *)
Definition listed (p : proc) :=
  (a_fences (p_auth p), a_coordinators (p_auth p), p_level p).

Section api_access.
Context `{B32 : Bech32} `{NU : NetURL} `{UT : UUIDText} `{CJ : CanonicalJSON}
        `{SVr : SignatureVerifier} `{GV : joinrequests.GentxValidator} `{Ed : Ed25519}
        `{UV : launches.URLValidator} `{O : Oracle} `{J : JWT} `{CS : ChallengeStore}
        `{AL : AuditLogReader} `{Rt : Router} `{HR : HTTPRate}.
Context {OK : StoreOK CS}.
Context (s : Server).
#[local] Set Default Proof Using "Type*".

(** ** Administration *)
Lemma listed_attempt {A} (m : AM A) :
  akeeps listed_a m →
  ∀ d w l, listed (mkProc (m (d, w)).2.1 (m (d, w)).2.2 l) = listed (mkProc d w l).
Proof using Type. intros H d w l. specialize (H (d, w)). unfold listed, listed_a in *. cbn in *. congruence. Qed.
Lemma administered_attempt key {A} (m : AM A) :
  akeeps (administered_a key) m →
  ∀ d w l, administered key (mkProc (m (d, w)).2.1 (m (d, w)).2.2 l) = administered key (mkProc d w l).
Proof using Type.
  intros H d w l. specialize (H (d, w)). unfold administered, administered_a in *. cbn in *. congruence.
Qed.
Lemma listed_outer {A} (m : AM A) : akeeps outer_a m → akeeps listed_a m.
Proof using Type. intros H st. specialize (H st). unfold outer_a, listed_a in *. congruence. Qed.
Lemma listed_full {A} (m : AM A) : akeeps full_a m → akeeps listed_a m.
Proof using Type. intros H st. specialize (H st). unfold full_a, listed_a in *. congruence. Qed.
Lemma administered_listed key {A} (m : AM A) : akeeps listed_a m → akeeps (administered_a key) m.
Proof using Type. intros H st. specialize (H st). unfold administered_a, listed_a in *. congruence. Qed.
Lemma administered_lift key {A} (m : M A) : akeeps (administered_a key) (lift m).
Proof using Type. intros [d w]. unfold lift. by destruct (m w). Qed.
Lemma administered_revoke addr b :
  akeeps (administered_a (sessions.accountFenceKey addr)) (auth.RevokeAllSessions addr b).
Proof using Type.
  apply akeeps_bind; [|intros _; apply administered_lift].
  unfold sessions.RevokeAllForOperator. generalize (sessions.accountFenceKey addr). intros key [d w].
  unfold administered_a, mbind, AM_bind, lift, Now, get_auth, put_auth, set_fences.
  cbn [fst snd a_fences a_coordinators].
  by rewrite delete_insert_eq.
Qed.

(** The caller is not an administrator. *)
Definition plain (r : request) (p : proc) : Prop :=
  ∀ a, operator_of r p = Some a → accountLookupKey a ∉ sv_adminAddresses s.
(** Such a caller ends at most its own sessions. *)
Definition confined (h : handler) : Prop :=
  ∀ r p, plain r p →
    match operator_of r p with
    | Some a => administered (sessions.accountFenceKey a) (h r p).2
                = administered (sessions.accountFenceKey a) p
    | None => listed (h r p).2 = listed p
    end.

Lemma confined_run h : (∀ r, run_ok listed (λ _, True) True (h r)) → confined h.
Proof.
  intros H r p _. destruct (H r p) as [Hl _]. destruct (operator_of r p); [|done].
  unfold listed, administered in *. congruence.
Qed.
Lemma confined_session (f : request → string → H response) :
  (∀ r p a, operator_of r p = Some a → accountLookupKey a ∉ sv_adminAddresses s →
     ∀ p1, administered (sessions.accountFenceKey a) (f r a p1).2
           = administered (sessions.accountFenceKey a) p1) →
  confined (λ r, session_operator r ≫= f r).
Proof.
  intros Hf r p Hp. pose proof (session_operator_spec r p) as H.
  destruct (operator_of r p) as [a|] eqn:Ho.
  - unfold mbind, H_bind. rewrite H. by rewrite (Hf r p a Ho (Hp a Ho)).
  - destruct H as [H Ha]. unfold mbind, H_bind.
    destruct (session_operator r p) as [[a|?| |] p1]; [by destruct (Ha a)|..]; cbn in *;
      unfold outer, listed in *; congruence.
Qed.
Lemma confined_auth next :
  (∀ a r, run_ok (administered (sessions.accountFenceKey a)) (λ _, True) True
            (next (with_operator a r))) →
  confined (requireAuth next).
Proof. intros H. apply confined_session. intros r p a _ _ p1. by apply H. Qed.
Lemma confined_admin next : confined (requireAdmin (sv_adminAddresses s) next).
Proof.
  apply confined_session. intros r p a _ Hn p1. unfold mbind, H_bind, require.
  by rewrite bool_decide_false.
Qed.
Lemma confined_limited n h : confined h → confined (limited s n h).
Proof.
  intros Hh. unfold limited. destruct (sv_disableRateLimit s); [done|].
  intros r p Hp. unfold LimitByIP, mbind, H_bind, get_proc, require.
  destruct (httprate_allows _ _ _ _); cbn; [by apply Hh|by destruct (operator_of r p)].
Qed.

#[local] Hint Resolve listed_attempt administered_attempt administered_listed administered_revoke
  listed_outer listed_full outer_a_Verify full_a_Validate
  full_a_SessionInfo full_a_Contains full_a_List : coord.

Lemma routes_confined : Forall (λ rt, confined (rt_Handler rt)) (routes s).
Proof.
  pose proof outer_a_IssueChallenge as Hissue.
  each_route; cbn [rt_Method rt_Handler mounted Get Post Delete Patch compose] in *;
    try apply confined_admin; try (apply confined_limited; try apply confined_auth);
    try apply confined_auth; try (apply confined_run; intros r); try intros a r;
    open_route; handler_tac.
Qed.

(** C21. Administration is for administrators.  A request without a session of an
    account on the administrators' list leaves the coordinator list and the log
    level alone, and ends no sessions but those of its own account. *)
Theorem only_admins_administer r p :
  plain r p →
  let p' := (Handler s r p).2 in
  a_coordinators (p_auth p') = a_coordinators (p_auth p) ∧ p_level p' = p_level p ∧
  ∀ key, a_fences (p_auth p') !! key ≠ a_fences (p_auth p) !! key →
    ∃ a, operator_of r p = Some a ∧ sessions.accountFenceKey a = key.
Proof.
  intros Hp p'. assert (H : match operator_of r p with
    | Some a => administered (sessions.accountFenceKey a) p'
                = administered (sessions.accountFenceKey a) p
    | None => listed p' = listed p
    end).
  { assert (Hd : confined (dispatch s)).
    { intros r1 p1 Hp1. unfold dispatch. destruct (chi_match _ _ _) as [i params| |];
        [|by destruct (operator_of r1 p1)..].
      destruct (routes s !! i) as [rt|] eqn:Hi; [|by destruct (operator_of r1 p1)].
      by apply (Forall_lookup_1 _ _ _ _ routes_confined Hi (set_params params r1) p1). }
    specialize (Hd r p Hp). subst p'. unfold Handler, recoveryMiddleware.
    by destruct (dispatch s r p) as [[] p1]. }
  destruct (operator_of r p) as [a|] eqn:Ho.
  - injection H as Hc Hf Hl. split_and!; [done|done|]. intros key Hk. exists a. split; [done|].
    destruct (decide (sessions.accountFenceKey a = key)) as [|Hne]; [done|]. destruct Hk.
    by rewrite <- (lookup_delete_ne (a_fences (p_auth p')) _ _ Hne), Hf, lookup_delete_ne.
  - injection H as Hf Hc Hl. split_and!; [done|done|]. intros key Hk. by rewrite Hf in Hk.
Qed.

(** ** Private launches *)

(** The launch does not exist, or the caller may not see it. *)
Definition unseen (callerAddr : string) (id : uuid) (w : world) : Prop :=
  match (findLaunch id (w_db w)).1 with
  | Ok l => launch.IsVisibleTo l callerAddr = false
  | Err e => e = [ErrNotFound]
  end.
Definition not_found : response :=
  writeMessage StatusNotFound "not_found" (ErrorText "" [ErrNotFound]).

Lemma unseen_GetLaunch id c w :
  unseen c id w → (launches.GetLaunch id c w).1 = Fail [ErrNotFound].
Proof using Type.
  unfold unseen, launches.GetLaunch, mbind, M_bind, run_st, guard_err.
  destruct (findLaunch id (w_db w)) as [[l|e] d]; cbn; [by intros ->|by intros ->].
Qed.
Lemma unseen_bind {A B} (m : M A) (f : A → M B) w e :
  (m w).1 = Fail e → ((m ≫= f) w).1 = Fail e.
Proof using Type. unfold mbind, M_bind. destruct (m w) as [[] w1]; cbn; congruence. Qed.
Lemma unseen_GetChainHint id c w :
  unseen c id w → (launches.GetChainHint id c w).1 = Fail [ErrNotFound].
Proof using Type.
  unfold unseen, launches.GetChainHint, mbind, M_bind, run_st, guard_err.
  destruct (findLaunch id (w_db w)) as [[l|e] d]; cbn; [by intros ->|by intros ->].
Qed.

(** The handler answers 404 when the caller may not see the launch. *)
Definition hides (h : handler) : Prop :=
  ∀ r p id, uuid_Parse (URLParam r "id") = Ok id → unseen (operator r) id (p_world p) →
    (h r p).1 = HReply not_found.

Lemma hides_call {A} (r : request) (m : M A) (f : A → H response) p :
  (m (p_world p)).1 = Fail [ErrNotFound] → ((call r m ≫= f) p).1 = HReply not_found.
Proof using Type.
  unfold call, acall, attempt, lift, mbind, H_bind, reply. intros H.
  destruct (m (p_world p)) as [o w1]. cbn in H. by subst o.
Qed.
Lemma hides_first {A} (m : uuid → request → M A) (f : uuid → request → A → H response) msg :
  (∀ id r w, unseen (operator r) id w → (m id r w).1 = Fail [ErrNotFound]) →
  hides (λ r, parse_id r "id" msg ≫= λ id, call r (m id r) ≫= f id r).
Proof using Type.
  intros Hm r p id Hid Hu. unfold parse_id. rewrite Hid.
  change (((call r (m id r) ≫= f id r) p).1 = HReply not_found). by apply hides_call, Hm.
Qed.

(** Who asks. *)
Definition caller (r : request) (p : proc) : string := default ""%string (operator_of r p).

Lemma hides_optional h r p id :
  hides h → uuid_Parse (URLParam r "id") = Ok id → rq_Operator r = None →
  unseen (caller r p) id (p_world p) → (optionalAuth h r p).1 = HReply not_found.
Proof using Type.
  intros Hh Hid Hop Hu. unfold optionalAuth.
  assert (Hr : operator r = ""%string) by (unfold operator, operatorFromContext; by rewrite Hop).
  unfold caller, operator_of, session in Hu.
  destruct (is_empty (bearerToken r)); [apply (Hh r p id); [done|by rewrite Hr]|].
  pose proof (Validate_tick (bearerToken r) (p_auth p) (p_world p)) as Ht.
  unfold mbind, H_bind, attempt.
  pose proof (astays_Validate (bearerToken r) (p_auth p, p_world p)) as Hstay.
  destruct (sessions.Validate _ _) as [[a|e| |] [d w]] eqn:E; cbn in *; injection Ht as -> ->.
  - by apply (Hh (with_operator a r) _ id).
  - apply (Hh r _ id); [done|by rewrite Hr].
  - exfalso. clear - E. unfold sessions.Validate, sessions.unauthorized, sessions.parseClaims, mbind,
      AM_bind, lift, Now, aresult, of_result, aguard, guard_err in E. cbn in E.
    destruct (jwt_ParseWithClaims _ _) as [c|]; cbn in E; [|done].
    destruct (is_empty _); cbn in E; [done|]. destruct (a_fences _ !! _); cbn in E; [|done].
    destruct (rfc3339.Parse _); cbn in E; [|done]. by destruct (negb _).
  - done.
Qed.
(** The reads of one launch that need no session. *)
Definition gated : list string :=
  ["/api/v1/launch/{id}"; "/api/v1/launch/{id}/committee"; "/api/v1/launch/{id}/chain-hint";
   "/api/v1/launch/{id}/genesis"; "/api/v1/launch/{id}/genesis/hash";
   "/api/v1/launch/{id}/allocations"; "/api/v1/launch/{id}/allocations/{type}";
   "/api/v1/launch/{id}/dashboard"; "/api/v1/launch/{id}/peers"; "/api/v1/launch/{id}/audit";
   "/api/v1/launch/{id}/events"].
Definition is_gated (rt : route) : bool :=
  String.eqb (rt_Method rt) "GET" && existsb (String.eqb (rt_Pattern rt)) gated.

Lemma unseen_GetDashboard id c w :
  unseen c id w → (launches.GetDashboard id c w).1 = Fail [ErrNotFound].
Proof using Type. intros H. by apply unseen_bind, unseen_GetLaunch. Qed.
Lemma unseen_GetCommittee id c w :
  unseen c id w → (launches.GetCommittee id c w).1 = Fail [ErrNotFound].
Proof using Type. intros H. by apply unseen_bind, unseen_GetLaunch. Qed.

Lemma routes_hide :
  Forall (λ rt, is_gated rt = true → ∃ h, rt_Handler rt = optionalAuth h ∧ hides h) (routes s).
Proof.
  each_route; intros Hg; try (vm_compute in Hg; discriminate Hg); clear Hg;
    eexists; (split; [reflexivity|]).
  all: first
    [ apply (hides_first (λ id r, launches.GetLaunch id (operator r)));
      intros; by apply unseen_GetLaunch
    | apply (hides_first (λ id r, launches.GetCommittee id (operator r)));
      intros; by apply unseen_GetCommittee
    | apply (hides_first (λ id r, launches.GetChainHint id (operator r)));
      intros; by apply unseen_GetChainHint
    | apply (hides_first (λ id r, launches.GetDashboard id (operator r)));
      intros; by apply unseen_GetDashboard ].
Qed.

(** C20. A private launch does not show.  On each of the eleven reads of a launch
    that need no session, a caller who is neither on its committee nor on its
    allowlist, with a session or without, gets byte for byte the response to an
    identifier that no launch has. *)
Theorem private_launch_hidden r p rt params id :
  routed s r rt params → is_gated rt = true → rq_Operator r = None →
  uuid_Parse (get params "id") = Ok id →
  unseen (caller r p) id (p_world p) →
  (Handler s r p).1 = Some (add_headers (securityHeaders (sv_tlsEnabled s)) not_found).
Proof.
  intros (i & Hc & Hi) Hg Hop Hid Hu.
  destruct (Forall_lookup_1 _ _ _ _ routes_hide Hi Hg) as (h & Hh & Hhid).
  assert (H : (dispatch s r p).1 = HReply not_found).
  { unfold dispatch. rewrite Hc, Hi, Hh. by apply (hides_optional h (set_params params r) p id). }
  unfold Handler, recoveryMiddleware. destruct (dispatch s r p) as [o p1]. cbn in H. by subst o.
Qed.

(** ** Reads that only ask for a session *)

(** A session has been checked: the handler runs for its operator. *)
Lemma Handler_auth r p a rt params h :
  operator_of r p = Some a → routed s r rt params → rt_Handler rt = requireAuth h →
  Handler s r p =
    let (resp, p1) := recoveryMiddleware (λ r1, h (with_operator a r1)) (set_params params r)
                        (mkProc (p_auth p) (tick (p_world p)) (p_level p)) in
    (add_headers (securityHeaders (sv_tlsEnabled s)) <$> resp, p1).
Proof.
  intros Ho (i & Hc & Hi) Hh. unfold Handler, recoveryMiddleware.
  assert (dispatch s r p = h (with_operator a (set_params params r))
            (mkProc (p_auth p) (tick (p_world p)) (p_level p))) as ->; [|done].
  unfold dispatch. rewrite Hc, Hi, Hh. unfold requireAuth, mbind, H_bind.
  pose proof (session_operator_spec (set_params params r) p) as H.
  assert (Ho1 : operator_of (set_params params r) p = Some a) by exact Ho.
  rewrite Ho1 in H. by rewrite H.
Qed.

Lemma bind_HRet {A B} (m : H A) (f : A → H B) p a p1 :
  m p = (HRet a, p1) → (m ≫= f) p = f a p1.
Proof using Type. unfold mbind, H_bind. by intros ->. Qed.
Lemma call_HRet {A} (r : request) (m : M A) p a w1 :
  m (p_world p) = (Ret a, w1) → call r m p = (HRet a, mkProc (p_auth p) w1 (p_level p)).
Proof using Type. intros H. unfold call, acall, attempt, lift, mbind, H_bind. by rewrite H. Qed.
Lemma parse_id_HRet r key msg id p :
  uuid_Parse (URLParam r key) = Ok id → parse_id r key msg p = (HRet id, p).
Proof using Type. unfold parse_id. by intros ->. Qed.
Lemma run_query_Ret {A} (f : db → result A) w a :
  f (w_db w) = Ok a → run_st (query f) w = (Ret a, w).
Proof using Type. intros H. unfold run_st, query. rewrite H. by destruct w. Qed.

Lemma IsCommitteeMember_Ret id c w l :
  (findLaunch id (w_db w)).1 = Ok l →
  launches.IsCommitteeMember id c w = (Ret (launches.is_committee l c), w).
Proof using Type.
  intros H. unfold launches.IsCommitteeMember, mbind, M_bind, findLaunch.
  by rewrite (run_query_Ret _ _ l).
Qed.
Lemma committee_reads_request id c w jr :
  (findJoinRequest id (w_db w)).1 = Ok jr → joinrequests.GetByID id c true w = (Ret jr, w).
Proof using Type.
  intros H. unfold joinrequests.GetByID, mbind, M_bind, findJoinRequest.
  by rewrite (run_query_Ret _ _ jr).
Qed.

(** C40. Two reads check less than the others.  Any session lists the proposals of
    any launch, one hidden from it included; and a member of the committee of
    one launch reads, under that launch's address, the join request of any
    other. *)
Theorem sessions_read_across_launches r p a params id :
  operator_of r p = Some a → uuid_Parse (get params "id") = Ok id →
  rq_Query r = ∅ →
  (routed s r (mounted (Get "/launch/{id}/proposals" (requireAuth handleProposalList))) params →
   ∀ items total, (findProposalsByLaunch id 1 20 (w_db (p_world p))).1 = Ok (items, total) →
   (Handler s r p).1 = Some (add_headers (securityHeaders (sv_tlsEnabled s)) (writeJSON StatusOK
     (VProposalPage (mkPage (proposalToJSON <$> items) total 1 20))))) ∧
  (routed s r (mounted (Get "/launch/{id}/join/{req_id}" (requireAuth handleJoinGet))) params →
   ∀ reqID own jr, uuid_Parse (get params "req_id") = Ok reqID →
   (findLaunch id (w_db (p_world p))).1 = Ok own → launches.is_committee own a = true →
   (findJoinRequest reqID (w_db (p_world p))).1 = Ok jr →
   (Handler s r p).1 = Some (add_headers (securityHeaders (sv_tlsEnabled s)) (writeJSON StatusOK
     (VJoinRequest (joinRequestToJSON jr))))).
Proof.
  intros Ho Hid Hq. split.
  - intros Hr items total Hf. rewrite (Handler_auth r p a _ params _ Ho Hr eq_refl).
    unfold recoveryMiddleware, handleProposalList, launch_id.
    erewrite bind_HRet by (apply parse_id_HRet; exact Hid).
    erewrite (bind_HRet (parsePagination _) _ _ (1, 20)).
    2: { unfold parsePagination, positive, Query. cbn [rq_Query set_params with_operator].
         by rewrite Hq. }
    erewrite bind_HRet; [|apply call_HRet, run_query_Ret, Hf]. done.
  - intros Hr reqID own jr Hreq Hown Hm Hjr. rewrite (Handler_auth r p a _ params _ Ho Hr eq_refl).
    unfold recoveryMiddleware, handleJoinGet, launch_id.
    erewrite bind_HRet by (apply parse_id_HRet; exact Hid).
    erewrite bind_HRet by (apply parse_id_HRet; exact Hreq).
    erewrite bind_HRet; [|apply call_HRet, IsCommitteeMember_Ret, Hown].
    change (operator (with_operator a (set_params params r))) with a. rewrite Hm.
    erewrite bind_HRet; [|apply call_HRet, committee_reads_request, Hjr]. done.
Qed.
End api_access.
