(* ===== verification/ApiSamples.v ===== *)
(** * Requests to a small server

    A router, sessions and a server for the installation of [samples], the
    witnesses of the theorems on the HTTP layer, and requests that show more
    than one might expect. *)

From S2P Require Import Prelude GoStd GoTime Values LaunchAgg Fixtures Json Payload Proposal.
From S2P Require Import ProposalProps JoinRequest Rehearsal Store World AuditLog ProposalService.
From S2P Require Import ProposalServiceProps LaunchService JoinRequestService ServiceSamples.
From S2P Require Import AuthService AuthProps Wire Requests Http Handlers Server ApiProps ApiAccess.
Import sqlite wire requests http api server.
#[global] Open Scope Z_scope.

Module api_samples.
Import samples fixtures proposal_samples.

(** ** The environment *)

(** The segments of a path, and of a pattern; a segment in braces matches any
    and names it. *)
Fixpoint segments (acc l : list ascii) : list string :=
  match l with
  | [] => [of_chars (rev acc)]
  | a :: l => if Ascii.eqb a (ascii_of_nat 47) then of_chars (rev acc) :: segments [] l
              else segments (a :: acc) l
  end.
Definition parameter (seg : string) : option string :=
  match chars seg with
  | c :: l => if Ascii.eqb c (ascii_of_nat 123) then Some (of_chars (removelast l)) else None
  | [] => None
  end.
Fixpoint match_segments (pat path : list string) (params : gmap string string)
    : option (gmap string string) :=
  match pat, path with
  | [], [] => Some params
  | p :: pat, x :: path =>
      match parameter p with
      | Some name => match_segments pat path (<[name := x]> params)
      | None => if String.eqb p x then match_segments pat path params else None
      end
  | _, _ => None
  end.
Definition match_route (method path : string) (e : string * string) : option (gmap string string) :=
  if String.eqb e.1 method
  then match_segments (segments [] (chars e.2)) (segments [] (chars path)) ∅ else None.
Fixpoint match_from (i : nat) (table : list (string * string)) (method path : string)
    : route_match :=
  match table with
  | [] => NoRoute
  | e :: table =>
      match match_route method path e with
      | Some params => Matched i params
      | None => match_from (S i) table method path
      end
  end.
#[export] Instance toy_router : Router := {| chi_match := match_from 0 |}.
#[export] Instance no_limit : HTTPRate := {| httprate_allows := λ _ _ _ _, true |}.
#[export] Instance no_gentx : joinrequests.GentxValidator := {|
  joinrequests.gentx_Validate := λ _ _, joinrequests.mkOutcome [] false "" "" |}.
#[export] Instance no_ed25519 : Ed25519 := {|
  ed25519_Public := λ _, ""%string; ed25519_Sign := λ _ _, ""%string;
  ed25519_Verify := λ _ _ _, false |}.
#[export] Instance any_url : launches.URLValidator := {| launches.urlValidator := λ _, Ok tt |}.
(** A token is the address it was issued to. *)
#[export] Instance address_token : JWT := {|
  jwt_SignedString := λ c, Ok (cl_Subject c);
  jwt_ParseWithClaims := λ raw now, Ok (mkClaims raw (Some t0) (Some (t0 + time.Hour)) "") |}.
#[export] Instance toy_random : Random := {| random_read := λ n, Ok "random"%string |}.
#[export] Existing Instance challenges.sqlite_store.
#[export] Instance whole_log : AuditLogReader := {|
  audit_ReadForLaunch := λ evs _, Ok evs |}.

(** Alice administers; carol's address has another prefix than hers. *)
Definition desk : Server :=
  NewServer "" ["cosmos1alice"%string] None "open" true 1000 true "ops-token" cfg_off
    (45 * time.Minute).

(** Launch 1 is alice's, bob's and carol's, launch 2 is dave's. *)
Definition office : proc :=
  mkProc (mkAuth ∅ [] ∅ []) (world_of (install 1 launch.StatusWindowOpen)) "info".

Definition json_pair (kv : string * string) : string := dq kv.1 +:+ ":" +:+ kv.2.
Definition json_object (kvs : list (string * string)) : string :=
  "{" +:+ join_commas (json_pair <$> kvs) +:+ "}".

Definition ask (method path token body : string) : http.request :=
  mkRequest method path
    (<["Authorization" := "Bearer " +:+ token]> (<["Content-Type" := "application/json"]> ∅))
    ∅ ∅ body true "req-1" "10.0.0.1" None.

Definition status (o : option http.response * proc) : option Z := rs_Status <$> o.1.

(** ** Requests *)
Definition read_launch (token : string) : http.request := ask "GET" "/api/v1/launch/1" token "".
Example member_reads : status (Handler desk (read_launch "cosmos1bob") office) = Some 200.
Proof. vm_compute. reflexivity. Qed.
Example stranger_does_not : status (Handler desk (read_launch "osmo1dave") office) = Some 404.
Proof. vm_compute. reflexivity. Qed.

(** Dave, alone on the committee of launch 2, cancels it. *)
Definition cancel_body : string :=
  json_object [("action_type", dq "CANCEL_LAUNCH"); ("payload", "{}"); 
    ("member_address", dq "osmo1dave"); ("nonce", dq "n1"); ("timestamp", dq (rfc3339.Format t0));
    ("signature", dq sig64); ("pubkey_b64", dq "ok")]%string.
Definition cancel : http.request := ask "POST" "/api/v1/launch/2/proposal" "osmo1dave" cancel_body.
Definition anonymous (method path body : string) : http.request := ask method path "" body.

(** Cancelling without an audit log: the launch is cancelled and the process is
    gone. *)
Definition audit_down : Oracle := {|
  oracle_Now := oracle_Now; oracle_uuid := oracle_uuid;
  oracle_audit_fails := λ n, (8 <=? n)%nat;
  oracle_commit_fails := λ _, false; oracle_file_fails := λ _, false |}.

Lemma requests_answered_witness :
  (Handler (O := audit_down) (CS := challenges.sqlite_store (O := audit_down)) desk cancel office).1
    = None ∧
  launch_status (w_db (p_world (Handler (O := audit_down)
    (CS := challenges.sqlite_store (O := audit_down)) desk cancel office).2)) 2%N
    = Some launch.StatusCancelled ∧
  ∃ resp, (Handler desk cancel office).1 = Some resp ∧ well_formed resp = true.
Proof.
  split; [vm_compute; reflexivity|]. split; [vm_compute; reflexivity|].
  destruct (requests_answered desk cancel office)
    as [[(resp & H & Hw & _)|(_ & _ & (n & Hn) & _)] _].
  - exists resp. split; [exact H|exact Hw].
  - discriminate Hn.
Defined.

Lemma router_method table m path i params :
  chi_match table m path = Matched i params → fst <$> table !! i = Some m.
Proof.
  cbn [chi_match toy_router]. intros H.
  assert (Hj : ∃ j, i = (0 + j)%nat ∧ fst <$> table !! j = Some m).
  { revert H. generalize 0%nat as k. induction table as [|e table IH]; intros k H; [done|].
    cbn in H. unfold match_route at 1 in H. destruct (String.eqb e.1 m) eqn:Em.
    - destruct (match_segments _ _ _).
      + injection H as <- _. exists 0%nat. split; [lia|]. cbn. f_equal. by apply String.eqb_eq.
      + apply IH in H as (j & -> & Hj). exists (S j). split; [lia|done].
    - apply IH in H as (j & -> & Hj). exists (S j). split; [lia|done]. }
  destruct Hj as (j & -> & Hj). done.
Qed.

(** A forged token changes nothing. *)
Lemma only_credentials_write_witness :
  outer (Handler desk (anonymous "POST" "/api/v1/launch/2/proposal" cancel_body) office).2
    = outer office ∧
  full (Handler desk (read_launch "cosmos1bob") office).2 = full office.
Proof.
  split.
  - apply only_credentials_write; [exact router_method|vm_compute; reflexivity|].
    intros [_ H]. vm_compute in H. discriminate H.
  - apply only_credentials_write; [exact router_method|reflexivity].
Defined.

(** Bob has a session and is no administrator; alice is. *)
Definition set_debug (token : string) : http.request :=
  ask "POST" "/api/v1/admin/log-level" token (json_object [("level", dq "debug")]%string).
Lemma only_admins_administer_witness :
  p_level (Handler desk (set_debug "cosmos1bob") office).2 = "info"%string ∧
  status (Handler desk (set_debug "cosmos1bob") office) = Some 403 ∧
  p_level (Handler desk (set_debug "osmo1alice") office).2 = "debug"%string.
Proof.
  split; [|split; vm_compute; reflexivity].
  destruct (only_admins_administer desk (set_debug "cosmos1bob") office) as (_ & H & _).
  - intros a Ha. vm_compute in Ha. injection Ha as <-.
    apply (bool_decide_eq_true_1 (_ ∉ _)). vm_compute. reflexivity.
  - exact H.
Defined.

(** To dave, launch 1 is as absent as launch 7. *)
Lemma private_launch_hidden_witness :
  (Handler desk (read_launch "osmo1dave") office).1
    = (Handler desk (ask "GET" "/api/v1/launch/7" "osmo1dave" "") office).1.
Proof.
  transitivity (Some (add_headers (securityHeaders (sv_tlsEnabled desk)) not_found)).
  - apply (private_launch_hidden desk (read_launch "osmo1dave") office
      (mounted (Get "/launch/{id}" (optionalAuth handleLaunchGet))) {["id"%string := "1"%string]} 1%N).
    + exists 17%nat. split; [vm_compute; reflexivity|reflexivity].
    + vm_compute. reflexivity.
    + reflexivity.
    + vm_compute. reflexivity.
    + vm_compute. reflexivity.
  - vm_compute. reflexivity.
Defined.

(** A pending proposal of launch 1, read by dave, to whom launch 1 does not
    exist; and the join request of launch 2, read by alice as a member of the
    committee of launch 1. *)
Definition publication : proposal.Proposal :=
  proposal.mkProposal 9%N 1%N payload.ActionPublishGenesis genesis_payload alice t0 (t0 + day)
    proposal.StatusPendingSignatures None
    [proposal.mkSig alice proposal.DecisionSign t0 sig64] [].
Definition busy : proc :=
  mkProc (p_auth office) (set_db (saveProposal publication (w_db (p_world office))).2 (p_world office))
    (p_level office).
Definition list_1 : http.request := ask "GET" "/api/v1/launch/1/proposals" "osmo1dave" "".
Definition join_50 : http.request := ask "GET" "/api/v1/launch/1/join/50" "cosmos1alice" "".
Definition id_1 : gmap string string := {["id"%string := "1"%string]}.
Definition stored_50 : joinrequest.JoinRequest :=
  match (findJoinRequest 50%N (w_db (p_world busy))).1 with
  | Ok jr => jr | Err _ => request 0%N 0%N alice "" ""
  end.
Lemma list_route : routed desk list_1
  (mounted (Get "/launch/{id}/proposals" (requireAuth handleProposalList))) id_1.
Proof. exists 44%nat. split; [vm_compute; reflexivity|reflexivity]. Qed.
Lemma join_route : routed desk join_50
  (mounted (Get "/launch/{id}/join/{req_id}" (requireAuth handleJoinGet)))
  (<["req_id"%string := "50"%string]> id_1).
Proof. exists 42%nat. split; [vm_compute; reflexivity|reflexivity]. Qed.

Lemma sessions_read_across_launches_witness :
  status (Handler desk (read_launch "osmo1dave") busy) = Some 404 ∧
  (Handler desk list_1 busy).1 = Some (add_headers (securityHeaders false) (writeJSON StatusOK
    (VProposalPage (mkPage [proposalToJSON publication] 1 1 20)))) ∧
  (Handler desk join_50 busy).1 = Some (add_headers (securityHeaders false) (writeJSON StatusOK
    (VJoinRequest (joinRequestToJSON stored_50)))) ∧
  joinrequest.j_LaunchID stored_50 = 2%N.
Proof.
  split; [vm_compute; reflexivity|]. split_and!; [| |vm_compute; reflexivity].
  - destruct (sessions_read_across_launches desk list_1 busy "osmo1dave" id_1 1%N) as [H _];
      [vm_compute; reflexivity..|].
    apply (H list_route [publication] 1). vm_compute. reflexivity.
  - destruct (sessions_read_across_launches desk join_50 busy "cosmos1alice"
      (<["req_id"%string := "50"%string]> id_1) 1%N) as [_ H]; [vm_compute; reflexivity..|].
    apply (H join_route 50%N (match (findLaunch 1%N (w_db (p_world busy))).1 with
      | Ok own => own | Err _ => some_launch 1%N "" launch.StatusDraft [] 0 end));
      vm_compute; reflexivity.
Defined.
End api_samples.
