(* ===== verification/Broker.v ===== *)
(** * The event stream (src/internal/infrastructure/sse/broker.go, api/events.go)

    The broker's operations on its subscriptions and channels, and the run of
    publishers and of the handlers of [GET /launch/{id}/events] around it: a
    publication holds the read lock while it goes through the subscribers one
    by one, other publications and the receivers go on meanwhile, and
    subscribing and unsubscribing wait for the write lock.  A handler skips an
    event that [json.Marshal] refuses; of the domain events that is only one with
    a time outside the years 0 to 9999 ([trail.event_json]), which is left out:
    every received event is written. *)

From S2P Require Import Prelude GoStd Payload Events.
#[global] Open Scope Z_scope.

Module sse.

Definition subChannelBuf : nat := 16.

(** A buffered channel, and the channels made so far; a channel is named by its
    position. *)
Record channel : Type := mkChannel { ch_buf : list domain.DomainEvent; ch_closed : bool }.
Record Broker : Type := mkBroker { subs : gmap string (list nat); chans : list channel }.

Definition New : Broker := mkBroker ∅ [].
Definition subscribers (lid : string) (b : Broker) : list nat := default [] (subs b !! lid).

(** [make], [append] *)
Definition Subscribe (launchID : string) (b : Broker) : nat * Broker :=
  let ch := length (chans b) in
  (ch, mkBroker (<[launchID := subscribers launchID b ++ [ch]]> (subs b))
         (chans b ++ [mkChannel [] false])).

(** [select { case ch <- ev: default: }]; [None] is the panic of a send on a
    closed channel. *)
Definition send (ev : domain.DomainEvent) (ch : nat) (b : Broker) : option Broker :=
  match chans b !! ch with
  | Some c =>
      if ch_closed c then None
      else if (length (ch_buf c) <? subChannelBuf)%nat
           then Some (mkBroker (subs b) (<[ch := mkChannel (ch_buf c ++ [ev]) false]> (chans b)))
           else Some b
  | None => Some b
  end.

Fixpoint send_all (ev : domain.DomainEvent) (l : list nat) (b : Broker) : option Broker :=
  match l with
  | [] => Some b
  | ch :: l => match send ev ch b with Some b1 => send_all ev l b1 | None => None end
  end.

(** Loops over [b.subs[lid]]. *)
Definition Publish (lid : string) (ev : domain.DomainEvent) (b : Broker) : option Broker :=
  send_all ev (subscribers lid b) b.

(** [close(ch)] panics on a closed channel. *)
Definition close (ch : nat) (b : Broker) : option Broker :=
  match chans b !! ch with
  | Some c => if ch_closed c then None
              else Some (mkBroker (subs b) (<[ch := mkChannel (ch_buf c) true]> (chans b)))
  | None => None
  end.

Fixpoint remove_first (ch : nat) (l : list nat) : list nat :=
  match l with
  | [] => []
  | c :: l => if (c =? ch)%nat then l else c :: remove_first ch l
  end.

Definition Unsubscribe (launchID : string) (ch : nat) (b : Broker) : option Broker :=
  let l := remove_first ch (subscribers launchID b) in
  close ch (mkBroker (if decide (l = []) then delete launchID (subs b)
                      else <[launchID := l]> (subs b)) (chans b)).

(** [ev, ok := <-ch]: [None] when it would block, no event when the channel is
    closed and drained. *)
Definition receive (ch : nat) (b : Broker) : option (option domain.DomainEvent * Broker) :=
  match chans b !! ch with
  | Some (mkChannel (ev :: buf) closed) =>
      Some (Some ev, mkBroker (subs b) (<[ch := mkChannel buf closed]> (chans b)))
  | Some (mkChannel [] true) => Some (None, b)
  | _ => None
  end.

(** ** Publishers and handlers *)

(** What [handleEvents] has written: events and heartbeats. *)
Inductive frame : Type := Event (ev : domain.DomainEvent) | Ping.

(** A handler after its subscription.  The last two fields are for the
    specification: the events sent to its channel, kept or dropped, and how many
    were dropped. *)
Record stream : Type := mkStream {
  st_lid : string;
  st_ch : nat;
  st_active : bool;
  st_out : list frame;
  st_offered : list domain.DomainEvent;
  st_dropped : nat }.

(** The broker, the publications under way with the channels they have yet to
    send to, and the handlers. *)
Record system : Type := mkSystem {
  sy_broker : Broker;
  sy_pubs : list (domain.DomainEvent * list nat);
  sy_streams : list stream }.
Definition start : system := mkSystem New [] [].

Definition written (f : frame) (st : stream) : stream :=
  mkStream (st_lid st) (st_ch st) (st_active st) (st_out st ++ [f]) (st_offered st) (st_dropped st).
Definition ended (st : stream) : stream :=
  mkStream (st_lid st) (st_ch st) false (st_out st) (st_offered st) (st_dropped st).
Definition full (ch : nat) (b : Broker) : bool :=
  match chans b !! ch with
  | Some c => negb (length (ch_buf c) <? subChannelBuf)%nat
  | None => true
  end.
Definition offered (ev : domain.DomainEvent) (drop : bool) (st : stream) : stream :=
  mkStream (st_lid st) (st_ch st) (st_active st) (st_out st) (st_offered st ++ [ev])
    (if drop then S (st_dropped st) else st_dropped st).

Section runs.
Context `{UT : UUIDText}.

(** [ev.GetLaunchID().String()] *)
Definition event_launch (ev : domain.DomainEvent) : string :=
  uuid_String (domain.GetLaunchID ev).

Inductive step : system → system → Prop :=
  | s_publish ev b ps hs : (* RLock *)
      step (mkSystem b ps hs) (mkSystem b (ps ++ [(ev, subscribers (event_launch ev) b)]) hs)
  | s_send i ev ch rest b b' ps hs :
      ps !! i = Some (ev, ch :: rest) → send ev ch b = Some b' →
      step (mkSystem b ps hs)
        (mkSystem b' (<[i := (ev, rest)]> ps) (alter (offered ev (full ch b)) ch hs))
  | s_published i ev b ps hs : (* RUnlock *)
      ps !! i = Some (ev, []) → step (mkSystem b ps hs) (mkSystem b (delete i ps) hs)
  | s_subscribe lid ch b b' hs : (* no reader holds the lock *)
      Subscribe lid b = (ch, b') →
      step (mkSystem b [] hs) (mkSystem b' [] (hs ++ [mkStream lid ch true [] [] 0]))
  | s_unsubscribe j st b b' hs :
      hs !! j = Some st → st_active st = true → Unsubscribe (st_lid st) (st_ch st) b = Some b' →
      step (mkSystem b [] hs) (mkSystem b' [] (<[j := ended st]> hs))
  | s_event j st ev b b' ps hs :
      hs !! j = Some st → st_active st = true → receive (st_ch st) b = Some (Some ev, b') →
      step (mkSystem b ps hs) (mkSystem b' ps (<[j := written (Event ev) st]> hs))
  | s_ping j st b ps hs :
      hs !! j = Some st → st_active st = true →
      step (mkSystem b ps hs) (mkSystem b ps (<[j := written Ping st]> hs)).

(** A goroutine is about to panic: to send on a closed channel, or to close one
    twice. *)
Definition panics (s : system) : Prop :=
  (∃ ev ch rest, (ev, ch :: rest) ∈ sy_pubs s ∧ send ev ch (sy_broker s) = None) ∨
  (∃ st, st ∈ sy_streams s ∧ st_active st = true ∧ sy_pubs s = [] ∧
     Unsubscribe (st_lid st) (st_ch st) (sy_broker s) = None).
End runs.
End sse.
