(* ===== verification/BrokerProps.v ===== *)
(** * Correctness of the event stream

    The broker never panics, whatever the handlers and publishers do; each
    stream carries the events of its launch, in order, and loses one only when
    sixteen are waiting; and a publication never waits for a client. *)

From S2P Require Import Prelude GoStd Payload Events Broker.
From stdpp Require Import pretty.
#[global] Open Scope Z_scope.

Import sse.

(** ** Channels *)
Lemma elem_remove_first ch l x : NoDup l → x ∈ remove_first ch l ↔ x ∈ l ∧ x ≠ ch.
Proof.
  induction 1 as [|c l Hc Hl IH]; cbn; [set_solver|].
  destruct (Nat.eqb_spec c ch) as [->|]; set_solver.
Qed.
Lemma NoDup_remove_first ch l : NoDup l → NoDup (remove_first ch l).
Proof.
  induction 1 as [|c l Hc Hl IH]; cbn; [constructor|].
  destruct (Nat.eqb_spec c ch) as [->|]; [done|]. constructor; [|done].
  rewrite elem_remove_first by done. tauto.
Qed.

Lemma sublist_same_length {A} (l1 l2 : list A) :
  l1 `sublist_of` l2 → (length l2 ≤ length l1)%nat → l1 = l2.
Proof.
  induction 1 as [|x l1 l2 _ IH|x l1 l2 H _]; cbn; intros Hl; [done| |].
  - f_equal. apply IH. lia.
  - apply sublist_length in H. lia.
Qed.

(** The subscribers after each operation. *)
Lemma subscribers_Subscribe lid lid' b :
  subscribers lid' (Subscribe lid b).2 =
    if decide (lid' = lid) then subscribers lid b ++ [length (chans b)] else subscribers lid' b.
Proof.
  unfold subscribers. cbn. destruct (decide (lid' = lid)) as [->|].
  - by rewrite lookup_insert_eq.
  - by rewrite lookup_insert_ne.
Qed.
Lemma close_subs ch b b' : close ch b = Some b' → subs b' = subs b.
Proof. unfold close. repeat case_match; naive_solver. Qed.
Lemma subscribers_Unsubscribe lid lid' ch b b' :
  Unsubscribe lid ch b = Some b' →
  subscribers lid' b' =
    if decide (lid' = lid) then remove_first ch (subscribers lid b) else subscribers lid' b.
Proof.
  unfold Unsubscribe. intros H%close_subs. unfold subscribers at 1. rewrite H. cbn.
  destruct (decide (remove_first ch (subscribers lid b) = [])) as [E|E];
    destruct (decide (lid' = lid)) as [->|Hne].
  - by rewrite lookup_delete_eq, E.
  - by rewrite lookup_delete_ne.
  - by rewrite lookup_insert_eq.
  - by rewrite lookup_insert_ne.
Qed.
Lemma send_subs ev ch b b' : send ev ch b = Some b' → subs b' = subs b.
Proof. unfold send. repeat case_match; naive_solver. Qed.
Lemma receive_subs ch b o b' : receive ch b = Some (o, b') → subs b' = subs b.
Proof. unfold receive. repeat case_match; naive_solver. Qed.

(** ** The invariant *)
Definition events (l : list frame) : list domain.DomainEvent :=
  omap (λ f, match f with Event ev => Some ev | Ping => None end) l.

#[global] Arguments events : simpl never.

Section invariant.
Context `{UT : UUIDText}.

(** What a stream has been given, and what its channel holds. *)
Record faithful (st : stream) (c : channel) : Prop := {
  fa_open : ch_closed c = negb (st_active st);
  fa_room : (length (ch_buf c) ≤ subChannelBuf)%nat;
  fa_kept : events (st_out st) ++ ch_buf c `sublist_of` st_offered st;
  fa_count : length (st_offered st)
             = (length (events (st_out st) ++ ch_buf c) + st_dropped st)%nat;
  fa_launch : Forall (λ ev, event_launch ev = st_lid st) (st_offered st) }.

Record consistent (s : system) : Prop := {
  co_name : ∀ j st, sy_streams s !! j = Some st → st_ch st = j;
  co_streams : Forall2 faithful (sy_streams s) (chans (sy_broker s));
  co_subs : ∀ lid ch, ch ∈ subscribers lid (sy_broker s) ↔
    ∃ st, sy_streams s !! ch = Some st ∧ st_active st = true ∧ st_lid st = lid;
  co_nodup : ∀ lid, NoDup (subscribers lid (sy_broker s));
  co_pubs : ∀ ev rest ch, (ev, rest) ∈ sy_pubs s → ch ∈ rest →
    ch ∈ subscribers (event_launch ev) (sy_broker s) }.

Lemma start_consistent : consistent start.
Proof.
  split; cbn; try done.
  - intros lid ch. unfold subscribers. cbn. rewrite lookup_empty. cbn. split; [set_solver|].
    by intros (? & ? & _).
  - intros lid. unfold subscribers. cbn. rewrite lookup_empty. constructor.
  - set_solver.
Qed.

(** A registered channel is open and faithful. *)
Lemma registered_open s lid ch :
  consistent s → ch ∈ subscribers lid (sy_broker s) →
  ∃ st c, sy_streams s !! ch = Some st ∧ chans (sy_broker s) !! ch = Some c ∧ faithful st c ∧
    ch_closed c = false ∧ st_lid st = lid.
Proof.
  intros Hs (st & Hst & Ha & Hl)%(co_subs _ Hs).
  destruct (Forall2_lookup_l _ _ _ _ _ (co_streams _ Hs) Hst) as (c & Hc & Hf).
  exists st, c. split_and!; try done. by rewrite (fa_open _ _ Hf), Ha.
Qed.

Lemma events_app l1 l2 : events (l1 ++ l2) = events l1 ++ events l2.
Proof. apply omap_app. Qed.

Lemma consistent_no_panic s : consistent s → ¬ panics s.
Proof.
  intros Hs [(ev & ch & rest & Hin & Hsend)|(st & Hin & Ha & Hp & Hu)].
  - destruct (registered_open s (event_launch ev) ch Hs) as (st & c & _ & Hc & _ & Ho & _).
    { apply (co_pubs _ Hs _ _ _ Hin). by left. }
    unfold send in Hsend. rewrite Hc, Ho in Hsend. by destruct (_ <? _)%nat.
  - apply list_elem_of_lookup in Hin as [j Hj].
    pose proof (co_name _ Hs _ _ Hj) as Hn.
    destruct (Forall2_lookup_l _ _ _ _ _ (co_streams _ Hs) Hj) as (c & Hc & Hf).
    unfold Unsubscribe, close in Hu. cbn in Hu. rewrite Hn, Hc, (fa_open _ _ Hf), Ha in Hu. done.
Qed.

(** Every step keeps it. *)
Lemma faithful_offered st c ev :
  faithful st c → ch_closed c = false → event_launch ev = st_lid st →
  faithful (offered ev (negb (length (ch_buf c) <? subChannelBuf)%nat) st)
    (if (length (ch_buf c) <? subChannelBuf)%nat then mkChannel (ch_buf c ++ [ev]) false else c).
Proof.
  intros [Ho Hr Hk Hc Hl] Hopen He.
  destruct (Nat.ltb_spec (length (ch_buf c)) subChannelBuf) as [Hlt|Hge]; split; cbn;
    rewrite ?length_app in *; cbn; try done; try lia.
  - congruence.
  - rewrite (assoc_L (++)). by apply sublist_app.
  - apply Forall_app. split; [done|by constructor].
  - by apply sublist_inserts_r.
  - apply Forall_app. split; [done|by constructor].
Qed.

Lemma alter_lookup_some {A} (f : A → A) i (l : list A) j x :
  alter f i l !! j = Some x ↔ ∃ y, l !! j = Some y ∧ x = if decide (j = i) then f y else y.
Proof.
  destruct (decide (j = i)) as [->|Hne].
  - rewrite list_lookup_alter_eq. destruct (l !! i); naive_solver.
  - rewrite list_lookup_alter_ne by done. naive_solver.
Qed.

Lemma consistent_send i ev ch rest b b' ps hs :
  consistent (mkSystem b ps hs) → ps !! i = Some (ev, ch :: rest) → send ev ch b = Some b' →
  consistent (mkSystem b' (<[i := (ev, rest)]> ps) (alter (offered ev (full ch b)) ch hs)).
Proof.
  intros Hs Hi Hsend. pose proof (list_elem_of_lookup_2 _ _ _ Hi) as Hin.
  assert (Hch : ch ∈ subscribers (event_launch ev) b) by (apply (co_pubs _ Hs _ _ _ Hin); by left).
  pose proof (send_subs _ _ _ _ Hsend) as Hsubs.
  destruct (registered_open _ _ _ Hs Hch) as (st & c & Hst & Hc & Hf & Ho & Hl). cbn in *.
  split; cbn.
  - intros j st' (y & Hy & ->)%alter_lookup_some. pose proof (co_name _ Hs _ _ Hy) as Hn.
    by destruct (decide (j = ch)).
  - pose proof (faithful_offered st c ev Hf Ho (eq_sym Hl)) as Hf'.
    pose proof (co_streams _ Hs) as H2. cbn in H2.
    unfold full. rewrite Hc. unfold send in Hsend. rewrite Hc, Ho in Hsend.
    apply Forall2_same_length_lookup_2.
    + rewrite length_alter, (Forall2_length _ _ _ H2).
      destruct (_ <? _)%nat; injection Hsend as <-; cbn; [by rewrite length_insert|done].
    + intros j x y Hx Hy. apply alter_lookup_some in Hx as (x0 & Hx0 & ->).
      destruct (Forall2_lookup_l _ _ _ _ _ H2 Hx0) as (y0 & Hy0 & Hf0).
      destruct (decide (j = ch)) as [->|Hne].
      * simplify_eq. destruct (_ <? _)%nat; injection Hsend as <-; cbn in *.
        -- rewrite list_lookup_insert_eq in Hy by by eapply lookup_lt_Some. by injection Hy as <-.
        -- by simplify_eq.
      * destruct (_ <? _)%nat; injection Hsend as <-; cbn in *;
          [rewrite list_lookup_insert_ne in Hy by done|]; by simplify_eq.
  - intros lid ch'. unfold subscribers in *. rewrite Hsubs. rewrite (co_subs _ Hs lid ch'). cbn.
    split.
    + intros (st' & H1 & H3 & H4). exists (if decide (ch' = ch) then offered ev (full ch b) st' else st').
      split; [apply alter_lookup_some; by eexists|]. by destruct (decide (ch' = ch)).
    + intros (st' & (y & Hy & ->)%alter_lookup_some & H3 & H4). exists y.
      by destruct (decide (ch' = ch)).
  - intros lid. unfold subscribers. rewrite Hsubs. apply (co_nodup _ Hs).
  - intros ev' rest' ch' Hin' Hch'. unfold subscribers. rewrite Hsubs.
    apply list_elem_of_lookup in Hin' as [k Hk].
    apply (co_pubs _ Hs ev' (if decide (k = i) then ch :: rest' else rest')).
    + apply list_elem_of_lookup. exists k. destruct (decide (k = i)) as [->|Hne].
      * rewrite list_lookup_insert_eq in Hk by by eapply lookup_lt_Some. by injection Hk as <- <-.
      * by rewrite list_lookup_insert_ne in Hk.
    + destruct (decide (k = i)); [by right|done].
Qed.

Lemma consistent_pubs b ps ps' hs :
  consistent (mkSystem b ps hs) →
  (∀ ev rest ch, (ev, rest) ∈ ps' → ch ∈ rest → ch ∈ subscribers (event_launch ev) b) →
  consistent (mkSystem b ps' hs).
Proof. intros [H1 H2 H3 H4 H5] H. by split. Qed.

(** A stream changes without its subscription. *)
Lemma consistent_write b b' ps hs j st st' c' :
  consistent (mkSystem b ps hs) → hs !! j = Some st →
  subs b' = subs b → chans b' = <[j := c']> (chans b) →
  st_ch st' = st_ch st → st_active st' = st_active st → st_lid st' = st_lid st →
  faithful st' c' → consistent (mkSystem b' ps (<[j := st']> hs)).
Proof.
  intros [H1 H2 H3 H4 H5] Hj Hsubs Hch En Ea El Hf. cbn in *.
  assert (Hsub : ∀ lid, subscribers lid b' = subscribers lid b)
    by (intros; unfold subscribers; by rewrite Hsubs).
  pose proof (lookup_lt_Some _ _ _ Hj) as Hlt. split; cbn.
  - intros k x Hk. destruct (decide (k = j)) as [->|Hne].
    + rewrite list_lookup_insert_eq in Hk by done. injection Hk as <-. rewrite En. by apply H1.
    + rewrite list_lookup_insert_ne in Hk by done. by apply H1.
  - rewrite Hch. by apply Forall2_insert.
  - intros lid ch. rewrite Hsub, H3. split; intros (x & Hx & Hrest).
    + destruct (decide (ch = j)) as [->|Hne].
      * exists st'. rewrite list_lookup_insert_eq by done. simplify_eq. by rewrite Ea, El.
      * exists x. by rewrite list_lookup_insert_ne.
    + destruct (decide (ch = j)) as [->|Hne].
      * rewrite list_lookup_insert_eq in Hx by done. injection Hx as <-.
        exists st. by rewrite <- Ea, <- El.
      * rewrite list_lookup_insert_ne in Hx by done. by exists x.
  - intros lid. by rewrite Hsub.
  - intros ev rest ch Hin Hr. rewrite Hsub. by eapply H5.
Qed.

Lemma consistent_subscribe lid ch b b' hs :
  consistent (mkSystem b [] hs) → Subscribe lid b = (ch, b') →
  consistent (mkSystem b' [] (hs ++ [mkStream lid ch true [] [] 0])).
Proof.
  intros [H1 H2 H3 H4 H5] [= <- Hb]. cbn in *.
  pose proof (Forall2_length _ _ _ H2) as Hlen.
  assert (Hsub : ∀ l, subscribers l b' = if decide (l = lid) then subscribers lid b ++ [length (chans b)]
                                         else subscribers l b).
  { intros l. rewrite <- subscribers_Subscribe. by rewrite <- Hb. }
  assert (Hnew : ∀ l, length (chans b) ∉ subscribers l b).
  { intros l (st & Hst & _)%H3. apply lookup_lt_Some in Hst. lia. }
  split; cbn.
  - intros j st [Hj|[Hj Hst]]%lookup_app_Some; [by apply H1|].
    apply list_lookup_singleton_Some in Hst as [Hj0 <-]. cbn. lia.
  - rewrite <- Hb. cbn. apply Forall2_app; [done|]. constructor; [|constructor].
    split; cbn; try done; unfold subChannelBuf; lia.
  - intros l c. rewrite Hsub. destruct (decide (l = lid)) as [->|Hne].
    + rewrite elem_of_app, list_elem_of_singleton, H3. split.
      * intros [(st & Hst & Hrest)| ->]; [exists st; split; [by apply lookup_app_l_Some|done]|].
        exists (mkStream lid (length (chans b)) true [] [] 0).
        by rewrite lookup_app_r, Hlen, Nat.sub_diag by lia.
      * intros (st & [Hst|[Hge Hst]]%lookup_app_Some & Hrest); [left; by exists st|right].
        apply list_lookup_singleton_Some in Hst as [Hj0 _]. lia.
    + rewrite H3. split.
      * intros (st & Hst & Hrest). exists st. split; [by apply lookup_app_l_Some|done].
      * intros (st & [Hst|[Hge Hst]]%lookup_app_Some & Ha & Hl); [by exists st|].
        apply list_lookup_singleton_Some in Hst as [_ <-]. by destruct Hne.
  - intros l. rewrite Hsub. destruct (decide (l = lid)); [|done]. apply NoDup_app. split_and!; [done| |].
    + intros x Hx ->%list_elem_of_singleton. by apply (Hnew lid).
    + apply NoDup_singleton.
  - set_solver.
Qed.

Lemma consistent_unsubscribe j st b b' hs :
  consistent (mkSystem b [] hs) → hs !! j = Some st → st_active st = true →
  Unsubscribe (st_lid st) (st_ch st) b = Some b' →
  consistent (mkSystem b' [] (<[j := ended st]> hs)).
Proof.
  intros [H1 H2 H3 H4 H5] Hj Ha Hu. cbn in *. pose proof (H1 _ _ Hj) as Hn. rewrite Hn in Hu.
  pose proof (lookup_lt_Some _ _ _ Hj) as Hlt.
  assert (Hsub : ∀ l x, x ∈ subscribers l b' ↔ x ∈ subscribers l b ∧ x ≠ j).
  { intros l x. rewrite (subscribers_Unsubscribe _ _ _ _ _ Hu).
    destruct (decide (l = st_lid st)) as [->|Hne]; [by apply elem_remove_first|].
    split; [|tauto]. intros Hx. split; [done|]. intros ->.
    apply H3 in Hx as (st' & Hst' & _ & Hl). simplify_eq. }
  split; cbn.
  - intros k x Hk. destruct (decide (k = j)) as [->|Hne].
    + rewrite list_lookup_insert_eq in Hk by done. by injection Hk as <-.
    + rewrite list_lookup_insert_ne in Hk by done. by apply H1.
  - destruct (Forall2_lookup_l _ _ _ _ _ H2 Hj) as (c & Hc & Hf).
    unfold Unsubscribe, close in Hu. cbn in Hu. rewrite Hc in Hu.
    destruct (ch_closed c); [done|]. injection Hu as <-. cbn.
    apply Forall2_insert; [done|]. by destruct Hf.
  - intros l x. rewrite Hsub, H3. split.
    + intros [(y & Hy & Hrest) Hne]. exists y. by rewrite list_lookup_insert_ne.
    + intros (y & Hy & Hact & Hl). destruct (decide (x = j)) as [->|Hne].
      * rewrite list_lookup_insert_eq in Hy by done. by injection Hy as <-.
      * rewrite list_lookup_insert_ne in Hy by done. split; [by exists y|done].
  - intros l. rewrite (subscribers_Unsubscribe _ _ _ _ _ Hu).
    destruct (decide (l = st_lid st)); [by apply NoDup_remove_first|done].
  - set_solver.
Qed.

Lemma step_consistent s s' : step s s' → consistent s → consistent s'.
Proof.
  destruct 1 as [ev b ps hs|i ev ch rest b b' ps hs Hi Hsend|i ev b ps hs Hi|lid ch b b' hs Hsub
                |j st b b' hs Hj Ha Hu|j st ev b b' ps hs Hj Ha Hr|j st b ps hs Hj Ha]; intros Hs.
  - apply (consistent_pubs b ps); [done|]. intros ev' rest ch [Hin|Hin]%elem_of_app Hch.
    + by apply (co_pubs _ Hs _ rest).
    + apply list_elem_of_singleton in Hin. by injection Hin as -> ->.
  - by eapply consistent_send.
  - apply (consistent_pubs b ps); [done|]. intros ev' rest ch Hin Hch.
    apply (co_pubs _ Hs _ rest); [|done]. cbn.
    apply (sublist_subseteq _ _ (sublist_delete ps i)), Hin.
  - by eapply consistent_subscribe.
  - by eapply consistent_unsubscribe.
  - pose proof (co_name _ Hs _ _ Hj) as Hn. cbn in Hn. rewrite Hn in Hr.
    destruct (Forall2_lookup_l _ _ _ _ _ (co_streams _ Hs) Hj) as ([buf cl] & Hc & Hf).
    unfold receive in Hr. cbn in Hc. rewrite Hc in Hr.
    destruct buf as [|ev' buf]; [by destruct cl|]. injection Hr as -> <-.
    eapply consistent_write; [done|done|done|reflexivity|done..|].
    destruct Hf as [H1 H2 H3 H4 H5]. cbn in *.
    split; cbn; rewrite ?events_app; cbn; rewrite <- ?(assoc_L (++)); cbn; try done; lia.
  - destruct (Forall2_lookup_l _ _ _ _ _ (co_streams _ Hs) Hj) as (c & Hc & Hf). cbn in Hc.
    eapply consistent_write with (c' := c); [done|done|done|by rewrite list_insert_id|done..|].
    destruct Hf as [H1 H2 H3 H4 H5].
    split; cbn; rewrite ?events_app; cbn; rewrite ?app_nil_r; done.
Qed.

Lemma reachable_consistent s : rtc step start s → consistent s.
Proof.
  intros H. pose proof start_consistent as Hs. revert Hs.
  induction H as [|s1 s2 s3 Hstep _ IH]; [done|]. intros Hs. by apply IH, (step_consistent s1).
Qed.

(** C23. The event stream is safe and faithful.  Whatever publishers and handlers
    do, in every interleaving that the lock allows, no goroutine sends on a
    closed channel or closes one twice; each stream has written events of its
    own launch only, in the order they were sent to it; at most sixteen wait for
    it; and unless one was dropped because sixteen were waiting, what it has
    written and what waits is everything that was sent. *)
Theorem stream_faithful s j st :
  rtc step start s → sy_streams s !! j = Some st →
  ¬ panics s ∧
  ∃ c, chans (sy_broker s) !! st_ch st = Some c ∧ (length (ch_buf c) ≤ subChannelBuf)%nat ∧
    events (st_out st) ++ ch_buf c `sublist_of` st_offered st ∧
    Forall (λ ev, event_launch ev = st_lid st) (st_offered st) ∧
    (st_dropped st = 0%nat → events (st_out st) ++ ch_buf c = st_offered st).
Proof.
  intros Hs%reachable_consistent Hj. split; [by apply consistent_no_panic|].
  destruct (Forall2_lookup_l _ _ _ _ _ (co_streams _ Hs) Hj) as (c & Hc & [_ Hr Hk Hn Hl]).
  exists c. rewrite (co_name _ Hs _ _ Hj). split_and!; try done.
  intros H0. apply sublist_same_length; [done|]. lia.
Qed.

(** ** Publications do not wait *)
Definition outputs (s : system) : list (list frame) := st_out <$> sy_streams s.
Definition work (ps : list (domain.DomainEvent * list nat)) : nat :=
  sum_list_with (λ p, S (length p.2)) ps.

Lemma publisher_moves s i ev rest :
  consistent s → sy_pubs s !! i = Some (ev, rest) →
  ∃ s', step s s' ∧ outputs s' = outputs s ∧
    sy_pubs s' = match rest with
                 | [] => delete i (sy_pubs s)
                 | _ :: rest => <[i := (ev, rest)]> (sy_pubs s)
                 end.
Proof.
  destruct s as [b ps hs]. cbn. intros Hs Hi. destruct rest as [|ch rest].
  - eexists. split; [by apply (s_published i ev)|done].
  - destruct (send ev ch b) as [b'|] eqn:E.
    + eexists. split; [by eapply s_send|]. split; [|done]. unfold outputs. cbn.
      apply list_eq. intros j. rewrite !list_lookup_fmap.
      destruct (decide (j = ch)) as [->|Hne];
        [rewrite list_lookup_alter_eq|by rewrite list_lookup_alter_ne].
      by destruct (hs !! ch).
    + destruct (consistent_no_panic _ Hs). left. exists ev, ch, rest. split; [|done].
      by eapply list_elem_of_lookup_2.
Qed.

(** Publishing never waits for a client.  In every reachable state each
    publication under way can take its next step, and all of them finish, so
    that the write lock comes free, without any client having read anything. *)
Theorem publications_finish s :
  rtc step start s →
  (∀ i ev rest, sy_pubs s !! i = Some (ev, rest) → ∃ s', step s s' ∧
     sy_pubs s' = match rest with
                  | [] => delete i (sy_pubs s)
                  | _ :: rest => <[i := (ev, rest)]> (sy_pubs s)
                  end) ∧
  ∃ s', rtc step s s' ∧ sy_pubs s' = [] ∧ outputs s' = outputs s.
Proof.
  intros Hs%reachable_consistent. split.
  - intros i ev rest Hi. destruct (publisher_moves s i ev rest Hs Hi) as (s' & H1 & _ & H2). eauto.
  - remember (work (sy_pubs s)) as n eqn:En. revert s Hs En.
    induction n as [n IH] using lt_wf_ind. intros s Hs ->.
    destruct (sy_pubs s) as [|[ev rest] ps] eqn:E; [by exists s|].
    destruct (publisher_moves s 0 ev rest Hs) as (s1 & H1 & Ho & Hp); [by rewrite E|].
    rewrite E in Hp.
    destruct (IH (work (sy_pubs s1))) with (s := s1) as (s2 & H2 & He & Ho2); [| |done|].
    + rewrite Hp. destruct rest; unfold work; cbn; lia.
    + by apply (step_consistent s).
    + exists s2. split; [by eapply rtc_l|]. split; [done|congruence].
Qed.
End invariant.

(** ** A small run *)
Module stream_samples.

#[local] Instance number_text : UUIDText := {|
  uuid_Parse := λ s, match strconv.SetString s with
                     | Some z => Ok (Z.to_N z) | None => Err errorf end;
  uuid_String := λ u, pretty u |}.

Definition closed (launchID : uuid) : domain.DomainEvent :=
  domain.event (domain.Lch (domain.WindowOpened launchID)).

(** A client of launch 1 subscribes, an event of the launch is published, and
    the client reads it. *)
Definition waiting : system :=
  mkSystem (Subscribe "1" New).2 [(closed 1%N, [0%nat])] [mkStream "1" 0 true [] [] 0].
Lemma waiting_reachable : rtc step start waiting.
Proof.
  eapply rtc_l; [by apply (s_subscribe "1" 0%nat New (Subscribe "1" New).2 [])|].
  apply rtc_once.
  assert (waiting = mkSystem (Subscribe "1" New).2
    ([] ++ [(closed 1%N, subscribers (event_launch (closed 1%N)) (Subscribe "1" New).2)])
    [mkStream "1" 0 true [] [] 0]) as -> by (vm_compute; reflexivity).
  apply s_publish.
Qed.
Definition served : system :=
  mkSystem (mkBroker {["1"%string := [0%nat]]} [mkChannel [] false]) [(closed 1%N, [])]
    [mkStream "1" 0 true [Event (closed 1%N)] [closed 1%N] 0].
Lemma served_reachable : rtc step start served.
Proof.
  etrans; [apply waiting_reachable|]. unfold waiting.
  eapply rtc_l.
  { apply (s_send 0 (closed 1%N) 0 [] _
      (mkBroker {["1"%string := [0%nat]]} [mkChannel [closed 1%N] false])); reflexivity. }
  apply rtc_once.
  refine (s_event 0 (mkStream "1" 0 true [] [closed 1%N] 0) (closed 1%N)
    (mkBroker {["1"%string := [0%nat]]} [mkChannel [closed 1%N] false])
    (mkBroker {["1"%string := [0%nat]]} [mkChannel [] false]) [(closed 1%N, [])]
    [mkStream "1" 0 true [] [closed 1%N] 0] _ _ _); reflexivity.
Qed.

Lemma stream_faithful_witness :
  ¬ panics served ∧ ∃ c, chans (sy_broker served) !! 0%nat = Some c ∧
    events [Event (closed 1%N)] ++ ch_buf c = [closed 1%N].
Proof.
  destruct (stream_faithful served 0 (mkStream "1" 0 true [Event (closed 1%N)] [closed 1%N] 0))
    as (Hp & c & Hc & _ & _ & _ & He).
  - apply served_reachable.
  - reflexivity.
  - split; [exact Hp|]. exists c. split; [exact Hc|]. apply He. reflexivity.
Defined.

Lemma publications_finish_witness :
  ∃ s', rtc step waiting s' ∧ sy_pubs s' = [] ∧ outputs s' = [[]].
Proof.
  destruct (publications_finish waiting waiting_reachable) as [_ H]. exact H.
Defined.

(** A client that reads nothing misses the seventeenth event; it stays
    subscribed and nothing tells it. *)
Fixpoint publish_n (n : nat) (b : Broker) : option Broker :=
  match n with
  | O => Some b
  | S n => match Publish "1" (closed 1%N) b with Some b1 => publish_n n b1 | None => None end
  end.
Example seventeenth_is_lost :
  publish_n 17 (Subscribe "1" New).2 = publish_n 16 (Subscribe "1" New).2 ∧
  subscribers "1" (default New (publish_n 17 (Subscribe "1" New).2)) = [0%nat].
Proof. vm_compute. auto. Qed.
End stream_samples.
